(* ===== verification/_CoqProject ===== *)
-Q . S2P
Prelude.v
Bytes.v
Crypto.v
Rtp.v
IndexRecovery.v
Mls.v
Ratchet.v
Rdbx.v
Rdb.v
Kdf.v
KdfFacts.v
Session.v
Srtcp.v
SessionAdmin.v
VecLike.v
SrtpEvents.v
Template.v
Generation.v
Granularity.v
Receiver.v
ReceiverWindow.v
ReceiverSpec.v
ReceiverProps.v
EndToEnd.v
TeslaChain.v
TeslaSchedule.v
TeslaMac.v
TeslaCommitment.v
TeslaSender.v
TeslaReceiver.v
TeslaFacts.v
TeslaHonest.v
TeslaIdeal.v
TeslaEndToEnd.v
UnitTests.v
StreamModel.v
Network.v
NetworkFacts.v
Simulation.v
Utf8.v
AuthService.v
Identity.v
Client.v
ClientFacts.v
Credentials.v
DeliveryService.v
DeliveryFacts.v
MlsGroups.v
MlsFacts.v
DsClient.v
ToyMls.v
GroupSetup.v
SetupCalls.v
SetupInv.v
SetupSteps.v
SetupCreator.v
SetupCreate.v
SetupJoiner.v
SetupFacts.v
DemoRun.v
SetupStarve.v
SetupSecure.v
SetupExample.v
