(* ===== verification/Prelude.v ===== *)
(** * SafeCast: verified multicast media encryption

    SafeCast protects multicast media (RTP over UDP) with SRTP, keys it from
    an MLS group, and authenticates the individual sender with TESLA.  This
    library models the Rust crate under src/src/, the demo client and
    authentication service under src/demo/, and the parts of the vendored
    srtp crate, libsrtp and OpenMLS they run through, and proves the
    properties the design rests on.

    ** The program and the files that model it

    Data and keying
    - Rtp: the RTP packet codec (src/src/transport/rtp.rs).
    - IndexRecovery: recovering the full packet index from the 16-bit
      sequence number (src/src/receiver/index_recovery.rs).
    - Mls: the exporter and the SRTP key export (src/src/keying/mls.rs and
      OpenMLS' [export_secret], [derive_exported_secret],
      [kdf_expand_label], [KdfLabel]).
    - Ratchet: the per-stream hash ratchet (src/src/keying/ratchet.rs).
    - MlsGroups, MlsFacts: members, key packages, [create_rekey_commit] and
      [process_commit] (src/src/keying/mls.rs) over the state machine of an
      OpenMLS group, and that rekeying keeps the members together.

    SRTP
    - Rdbx: libsrtp's replay database (crypto/replay/rdbx.c).
    - Rdb: the SRTCP replay database (crypto/replay/rdb.c), a second
      implementation of the abstract window of Rdbx.
    - Kdf, KdfFacts: the crypto policies of the srtp crate, the key-length
      check, and libsrtp's derivation of session keys from a master key
      ([srtp_stream_init_keys], aes_icm_ossl.c).
    - Session: libsrtp's AES-GCM protect and unprotect paths, the in-place
      rekey patch, and the Rust wrapper's [Session] (third_party/srtp).
      The classes [SrtpOps] and [SrtpLaws] are what the keying layers are
      proved against; the model of libsrtp is an instance.
    - Srtcp: whole libsrtp streams, with their SRTCP half, and the wrapper's
      [protect_rtcp] and [unprotect_rtcp].
    - SessionAdmin: [remove_stream], [update_stream], rollover counters set
      from outside, in-place rekeying of whole streams, and SRTP packets
      while such a counter is pending.
    - VecLike: the wrapper's buffers (third_party/srtp/src/vec_like.rs) and
      the raw-pointer call behind protect and unprotect, with the trait's
      contract as a class.
    - SrtpEvents: event handlers, user data and error codes of the wrapper.
    - Template: sessions with a catch-all policy
      (src/src/transport/srtp_session.rs), libsrtp's stream cloning, and the
      update of a template with its clones.

    Sender and receiver
    - Generation: granularities and generation schemes
      (src/src/receiver/generation.rs).
    - Granularity: the rekeying sender [RekeyingStream]
      (src/src/keying/granularity.rs).
    - Receiver: [ReceiverKeyManager] (src/src/receiver.rs), the four phases
      of [unprotect] being [map_generation], [classify], [fetch_key] and
      [install]/[finalize].
    - ReceiverWindow, ReceiverSpec, ReceiverProps: the key window, the
      abstract receiver, and the theorems.
    - EndToEnd: a sender, a delivery order and a receiver composed.

    TESLA
    - TeslaChain, TeslaSchedule, TeslaMac, TeslaCommitment, TeslaSender,
      TeslaReceiver: src/src/tesla/ file by file (TeslaMac also holds the
      packet extension of tesla/mod.rs).
    - TeslaFacts, TeslaHonest: the receiver's books, its security condition,
      and runs of an honest sender.
    - TeslaIdeal: the abstract receiver, which knows the whole chain and
      keeps no verifier, drawers or counters, and the refinement.
    - TeslaEndToEnd: keying, SRTP and TESLA composed, sender to receiver.
    - UnitTests: the crate's [#[test]] functions as programs over the model.

    Simulation
    - StreamModel: the simulated video stream and its sender
      (src/src/simulation/sender.rs).
    - Network, NetworkFacts: the dual-path network
      (src/src/simulation/network.rs).
    - Simulation: stream, network and receiver together.

    Demo
    - AuthService: the credential registry and its two handlers
      (src/demo/auth-service/src/main.rs).
    - Identity, Utf8: identity strings, their decoding and the SSRC hash
      (src/src/keying/mls.rs, src/demo/safecast-client/src/main.rs).
    - Client, ClientFacts: the client's media path, [send_srtp] and
      [recv_srtp], and all senders of a group against a receiver.
    - Credentials: registration, lookup and [verify_group_members] against
      the service of AuthService.
    - DeliveryService, DeliveryFacts: the OpenMLS delivery service the demo
      runs, every handler of delivery-service/ds/src/main.rs over the
      client records of ds-lib, and what it guarantees.
    - DsClient: the client's calls to it
      (src/demo/safecast-client/src/ds_client.rs).
    - GroupSetup: from the start of [main] to a verified group, for any
      number of clients running concurrently: a client is a state machine
      ([Phase], [client_step]) whose steps are its HTTP calls, the services
      handle one request at a time, and an execution is [sys_run] of a
      schedule.
    - SetupCalls, SetupInv, SetupSteps, SetupCreator, SetupCreate,
      SetupJoiner: the answers a client gets, the invariant that gives the
      services' contents as a function of the clients' phases, and its
      preservation phase by phase; SetupFacts, DemoRun, SetupStarve: the
      theorems; SetupSecure: one client against a hostile network;
      SetupExample, ToyMls: a run of four clients on an
      executable instance of the MLS interface.

    Foundations
    - Prelude: outcomes, results, machine integers, tactics, hints.
    - Bytes: byte strings and integer codecs.
    - Crypto: the primitives.

    ** How code becomes definitions

    A function that can panic returns [outcome]; a [Result] is [result]; a
    [&mut self] method takes the state and returns the new one next to its
    value.  The model has the release build's arithmetic: a w-bit unsigned
    integer is a [Z], and every operation that can leave its width is written
    with [u8], [u16], [u32], [u64], [saturating_add64], [saturating_sub] or
    [checked_sub]; a division by zero and an index out of range are [Panic].
    [debug_assert!] is not executed.  Slices and vectors are lists, a
    [BTreeMap] is a [gmap].  Cryptographic primitives (SHA-256, HMAC, HKDF,
    AES-GCM, AES-CTR, signatures), the random
    generator, base64 and URLs are packages outside the repository: they are
    the operations of the classes [Crypto], [Rng], [Base64] and [UrlPath],
    whose documented contracts (output lengths, decryption inverts encryption,
    a verified signature, which names stand for themselves in a URL) are
    [CryptoLaws], [RngLaws], [Base64Laws] and [UrlPathLaws].  OpenMLS below
    its group state machine (ratchet tree, key schedule, message protection,
    key generation) is the class [MlsLib]; [MlsLaws] says what RFC 9420
    promises of it: a member's commit leads all members to one next epoch
    with the added members, an added key package opens the Welcome, and a
    commit is accepted in its own epoch only.  The TLS codec is [DsWire].
    [Crypto.Toy] and [ToyMls] instantiate the classes, so that every theorem
    with such a hypothesis is also run on concrete inputs.  Secrecy of the
    primitives is not modelled; where a theorem needs collision freedom, its
    conclusion names the datagram or candidate key whose hashing meets the
    collision instead ([collides], decidable).

    ** What the theorems show

    - Delivery (EndToEnd, Simulation): packets protected by the sender and
      delivered in any admissible order are decrypted to the original bytes
      under the right generation, at every granularity; the displacement the
      simulator measures is a sufficient size for the receiver.
    - Receiver (ReceiverProps): refinement of an abstract receiver, forward
      secrecy of the key window, rollback on unauthenticated packets,
      accounting, and exactly which inputs panic.
    - Replay and index (Rdbx, IndexRecovery): no index is accepted twice,
      the two index estimators agree, and recovery is exact within half a
      sequence range.
    - Session keys (KdfFacts): the derivation is that of RFC 3711 and RFC
      7714, labels never share keystream, and no policy makes libsrtp read
      past the master key.
    - Keying (Mls, Ratchet, Granularity): lengths and domain separation of
      exports, the ratchet's seed and keys, and the sender's generation as a
      function of timestamps.  MlsFacts only iterates the laws of [MlsLib]
      over sequences of rekeyings.
    - TESLA (Tesla files): the receiver refines the abstract one on any
      sequence of datagrams; whatever it verifies was authentic when its key
      was still secret; the authenticated stream end to end; chain soundness,
      the security condition, honest packets are never called forged, and the
      wire formats.
    - Unit tests (UnitTests): fourteen of the crate's tests pass whatever the
      primitives are, and all nineteen exactly when the primitives tell apart
      the inputs the other five compare.
    - SRTCP and administration (Srtcp, SessionAdmin, Template): RTCP packets
      arrive once each in any order; SRTCP never changes what SRTP answers,
      so the theorems over SRTP-only sessions carry over to whole ones; what
      removing and updating a stream really does; a receiver that joins late
      follows once it is told the rollover counter.
    - Network (NetworkFacts): conservation of packets and the shape of the
      schedule.
    - Wrapper (VecLike, SrtpEvents): memory safety for every buffer that
      keeps the contract, the one that does not, and event dispatch.
    - Demo setup (SetupFacts): in every interleaving no client panics and
      all groups are in one epoch of all clients with their registered keys;
      every fair execution ends with all clients ready.  SetupStarve: the
      creator that polls for ever.  SetupSecure: against any delivery service
      and any registrations, a client that gets through has a group of
      keys registered under the names its lookups denote, members under its
      own name excepted.
    - Demo (DemoRun, ClientFacts, AuthService, Credentials): from the first
      registration to the last decrypted packet, through duplicates and
      reordering; first registration wins, what member verification
      establishes, the unescaped identity that passes it, and the inputs that
      stop the receiver or the service.
    - Delivery service (DeliveryFacts): Welcomes reach exactly the clients
      they name, queues lose nothing except to their owner, epochs never go
      back, and the request that disables the service.

    ** Bounds and fuel

    [catch_up] recurses on fuel; [fetch_key] passes the number of
    generations between the ratchet and the target, which ReceiverWindow
    proves is exactly the number of iterations, so the out-of-fuel branch is
    unreachable and totality is part of the refinement theorem.  [hash_down]
    and [fill_down] recurse on the loop bounds of the source.  The polls of
    the group setup are steps of a schedule, not loops: fairness is that the
    schedule is a sequence of rounds in which every client steps at least
    once, and n*(n+5+2p) rounds are enough because every round that finds a
    client not ready lowers the sum of the clients' distances from the end
    (at most n+5+2p each, for n clients of which p are peers of the
    creator).  Theorems about
    64-bit counters bound the number of packets; theorems about 48-bit packet
    indices and 32-bit clocks state the bound they need.

    ** Not modelled

    OpenMLS below the group state machine, and the sockets of
    src/demo/safecast-client/src/multicast.rs, which only passes options to
    the operating system; the command line's parsing, failures of the HTTP
    transport and of the key stores, benchmarks, logging and memory
    management.  Of libsrtp: MKIs, cryptex and header-extension encryption,
    which the srtp crate never turns on, and the packet paths of ciphers
    other than AES-128-GCM, which the program never selects.  DTLS
    (third_party/srtp/src/openssl.rs) is an optional feature the program does
    not enable.  The remaining lines of src/src/ and src/demo/ are imports,
    module declarations, accessors that read one field, and log output.  The
    concurrent code is in the two services, whose handlers hold their locks
    throughout, and between the clients, which meet only there. *)

From stdpp Require Export base tactics decidable option list numbers gmap.
From Stdlib Require Export ZArith Lia.

#[global] Open Scope Z_scope.

(** ** Outcomes of Rust functions

    A Rust function either returns a value or panics ([assert!], [expect],
    [unreachable!], an index out of range).  [outcome] is the monad of such
    computations; [Result<T, E>] is the separate sum type [result]. *)

Inductive outcome (A : Type) : Type :=
| Ret (a : A)
| Panic.
Arguments Ret {A} a.
Arguments Panic {A}.

#[export] Instance outcome_ret : MRet outcome := fun A a => Ret a.
#[export] Instance outcome_bind : MBind outcome :=
  fun A B f m => match m with Ret a => f a | Panic => Panic end.
#[export] Instance outcome_fmap : FMap outcome :=
  fun A B f m => match m with Ret a => Ret (f a) | Panic => Panic end.

(** [assert!(b)] of the source. *)
Definition assert (b : bool) : outcome unit := if b then Ret tt else Panic.

(** [Option::expect] and [Option::unwrap]. *)
Definition expect {A} (o : option A) : outcome A :=
  match o with Some a => Ret a | None => Panic end.

Inductive result (T E : Type) : Type :=
| Ok (t : T)
| Err (e : E).
Arguments Ok {T E} t.
Arguments Err {T E} e.

#[export] Instance Ret_inj {A} : Inj (=) (=) (@Ret A).
Proof. by intros ?? [= ->]. Qed.
#[export] Instance Ok_inj {T E} : Inj (=) (=) (@Ok T E).
Proof. by intros ?? [= ->]. Qed.

(** [Result::expect]. *)
Definition expect_ok {T E} (r : result T E) : outcome T :=
  match r with Ok t => Ret t | Err _ => Panic end.

(** ** Machine integers

    An unsigned [w]-bit integer is a [Z] in [[0, 2^w)].  Arithmetic that can
    leave the range is written with its reduction, which is what an optimised
    build computes. *)

Definition u8 (x : Z) : Z := x mod 256.
Definition u16 (x : Z) : Z := x mod 65536.
Definition u32 (x : Z) : Z := x mod 4294967296.
Definition u64 (x : Z) : Z := x mod 18446744073709551616.

Definition u64_max : Z := 18446744073709551615.

Definition in_u8 (x : Z) : Prop := 0 <= x < 256.
Definition in_u16 (x : Z) : Prop := 0 <= x < 65536.
Definition in_u32 (x : Z) : Prop := 0 <= x < 4294967296.
Definition in_u64 (x : Z) : Prop := 0 <= x < 18446744073709551616.

(** [saturating_sub] (any unsigned width) and [u64::saturating_add]. *)
Definition saturating_sub (a b : Z) : Z := Z.max 0 (a - b).
Definition saturating_add64 (a b : Z) : Z := Z.min u64_max (a + b).

(** [u64::checked_sub]. *)
Definition checked_sub (a b : Z) : option Z := if b <=? a then Some (a - b) else None.

Declare Scope rust_scope.
Delimit Scope rust_scope with rust.
Notation "a +! b" := (u64 (a + b)) (at level 50, left associativity) : rust_scope.
Notation "a -! b" := (u64 (a - b)) (at level 50, left associativity) : rust_scope.
Notation "a *! b" := (u64 (a * b)) (at level 40, left associativity) : rust_scope.

(** ** Automation *)

(** Division and modulo by constants in [lia]. *)
Ltac Zify.zify_post_hook ::= Z.div_mod_to_equations.

Create HintDb rust discriminated.

(** Turns boolean comparisons in hypotheses and goal into propositions. *)
Ltac bool_to_prop :=
  repeat match goal with
  | H : context [ Z.leb ?a ?b ] |- _ => destruct (Z.leb_spec a b)
  | H : context [ Z.ltb ?a ?b ] |- _ => destruct (Z.ltb_spec a b)
  | H : context [ Z.eqb ?a ?b ] |- _ => destruct (Z.eqb_spec a b)
  | |- context [ Z.leb ?a ?b ] => destruct (Z.leb_spec a b)
  | |- context [ Z.ltb ?a ?b ] => destruct (Z.ltb_spec a b)
  | |- context [ Z.eqb ?a ?b ] => destruct (Z.eqb_spec a b)
  end.

(** Unfolds the width predicates and casts, then calls [lia]. *)
Ltac width :=
  unfold in_u8, in_u16, in_u32, in_u64, u8, u16, u32, u64, u64_max,
    saturating_sub, saturating_add64 in *; lia.

Lemma u8_range x : in_u8 (u8 x).
Proof. width. Qed.
Lemma u16_range x : in_u16 (u16 x).
Proof. width. Qed.
Lemma u32_range x : in_u32 (u32 x).
Proof. width. Qed.
Lemma u64_range x : in_u64 (u64 x).
Proof. width. Qed.

Lemma u16_id x : in_u16 x -> u16 x = x.
Proof. width. Qed.
Lemma u32_id x : in_u32 x -> u32 x = x.
Proof. width. Qed.
Lemma u64_id x : in_u64 x -> u64 x = x.
Proof. width. Qed.

#[export] Hint Resolve u8_range u16_range u32_range u64_range : rust.

(** Inversion of a [bind] that returned. *)
Lemma bind_Ret {A B} (m : outcome A) (f : A -> outcome B) b :
  (m ≫= f) = Ret b <-> exists a, m = Ret a /\ f a = Ret b.
Proof. destruct m; cbn; naive_solver. Qed.

Lemma expect_Ret {A} (o : option A) a : expect o = Ret a <-> o = Some a.
Proof. destruct o; cbn; naive_solver. Qed.

Lemma assert_Ret b : assert b = Ret tt <-> b = true.
Proof. destruct b; cbn; naive_solver. Qed.

(** Steps through the binds of a hypothesis [m = Ret r]. *)
Ltac run_ret H :=
  repeat match type of H with
  | (_ ≫= _) = Ret _ => apply bind_Ret in H; destruct H as (? & ? & H)
  end.
