(* ===== verification/Bytes.v ===== *)
(** * Bytes: byte strings and fixed-width integer codecs

    [Vec<u8>] and [&[u8]] are lists of [Z] whose elements are bytes
    ([bytes_ok]).  This file holds what the components use of the Rust
    standard library on them: indexing and slicing (which panic out of
    range), [to_be_bytes], [to_le_bytes] and [from_be_bytes], with the round
    trips, lengths, ranges and injectivity the wire formats rest on. *)

From Stdlib Require Import String Ascii.
From S2P Require Import Prelude.

Abbreviation bytes := (list Z).

Definition bytes_ok (l : bytes) : Prop := Forall in_u8 l.

(** [buf[i]]: panics when [i] is out of range. *)
Definition index {A} (l : list A) (i : nat) : outcome A := expect (l !! i).

(** [&buf[a..b]]: panics unless [a <= b <= len]. *)
Definition slice (l : bytes) (a b : nat) : outcome bytes :=
  if bool_decide (a <= b <= length l)%nat then Ret (take (b - a) (drop a l)) else Panic.

(** The bytes of an ASCII literal, for [b"..."] and [str::as_bytes]. *)
Fixpoint str_bytes (s : string) : bytes :=
  match s with
  | EmptyString => []
  | String a s => Z.of_N (N_of_ascii a) :: str_bytes s
  end.

(** ** Integer codecs *)

Fixpoint to_le_bytes (n : nat) (x : Z) : bytes :=
  match n with
  | O => []
  | S n => (x mod 256) :: to_le_bytes n (x / 256)
  end.

Fixpoint from_le_bytes (l : bytes) : Z :=
  match l with
  | [] => 0
  | b :: l => b + 256 * from_le_bytes l
  end.

Definition to_be_bytes (n : nat) (x : Z) : bytes := reverse (to_le_bytes n x).
Definition from_be_bytes (l : bytes) : Z := from_le_bytes (reverse l).

Lemma length_to_le n x : length (to_le_bytes n x) = n.
Proof. revert x; induction n as [|n IH]; intros x; cbn; [done|by rewrite IH]. Qed.

Lemma length_to_be n x : length (to_be_bytes n x) = n.
Proof. unfold to_be_bytes. by rewrite length_reverse, length_to_le. Qed.

Lemma to_le_ok n x : bytes_ok (to_le_bytes n x).
Proof.
  revert x; induction n as [|n IH]; intros x; cbn; constructor.
  - width.
  - apply IH.
Qed.

Lemma to_be_ok n x : bytes_ok (to_be_bytes n x).
Proof. unfold to_be_bytes, bytes_ok. rewrite Forall_reverse. apply to_le_ok. Qed.

Lemma from_to_le n x : from_le_bytes (to_le_bytes n x) = x mod 256 ^ Z.of_nat n.
Proof.
  revert x; induction n as [|n IH]; intros x.
  - cbn. by rewrite Z.mod_1_r.
  - cbn [to_le_bytes from_le_bytes]. rewrite IH, Nat2Z.inj_succ, Z.pow_succ_r by lia.
    rewrite Z.rem_mul_r by lia. lia.
Qed.

Lemma to_from_le l : bytes_ok l -> to_le_bytes (length l) (from_le_bytes l) = l.
Proof.
  induction 1 as [|b l Hb Hl IH]; [done|].
  cbn [to_le_bytes from_le_bytes length]. unfold in_u8 in Hb.
  replace ((b + 256 * from_le_bytes l) mod 256) with b by lia.
  replace ((b + 256 * from_le_bytes l) / 256) with (from_le_bytes l) by lia.
  by rewrite IH.
Qed.

Lemma from_le_range l : bytes_ok l -> 0 <= from_le_bytes l < 256 ^ Z.of_nat (length l).
Proof.
  induction 1 as [|b l Hb Hl IH]; [cbn; lia|].
  cbn [from_le_bytes length]. rewrite Nat2Z.inj_succ, Z.pow_succ_r by lia.
  unfold in_u8 in Hb. lia.
Qed.

Lemma from_to_be n x : from_be_bytes (to_be_bytes n x) = x mod 256 ^ Z.of_nat n.
Proof.
  unfold from_be_bytes, to_be_bytes. by rewrite reverse_involutive, from_to_le.
Qed.

Lemma to_from_be l : bytes_ok l -> to_be_bytes (length l) (from_be_bytes l) = l.
Proof.
  intros Hl. unfold from_be_bytes, to_be_bytes.
  rewrite <- length_reverse, to_from_le by by apply Forall_reverse.
  apply reverse_involutive.
Qed.

Lemma to_from_be_n n l : bytes_ok l -> length l = n -> to_be_bytes n (from_be_bytes l) = l.
Proof. intros ? <-. by apply to_from_be. Qed.

Lemma from_be_range l : bytes_ok l -> 0 <= from_be_bytes l < 256 ^ Z.of_nat (length l).
Proof.
  intros Hl. unfold from_be_bytes. rewrite <- length_reverse.
  apply from_le_range. by apply Forall_reverse.
Qed.

Lemma to_be_inj n x y :
  0 <= x < 256 ^ Z.of_nat n -> 0 <= y < 256 ^ Z.of_nat n ->
  to_be_bytes n x = to_be_bytes n y -> x = y.
Proof.
  intros Hx Hy H%(f_equal from_be_bytes). rewrite !from_to_be in H.
  by rewrite !Z.mod_small in H.
Qed.

(** The four instances the wire formats use. *)
Definition u16_be : Z -> bytes := to_be_bytes 2.
Definition u32_be : Z -> bytes := to_be_bytes 4.
Definition u64_be : Z -> bytes := to_be_bytes 8.
Definition u64_le : Z -> bytes := to_le_bytes 8.

Lemma u16_be_inj x y : in_u16 x -> in_u16 y -> u16_be x = u16_be y -> x = y.
Proof. intros ??. by apply to_be_inj. Qed.
Lemma u32_be_inj x y : in_u32 x -> in_u32 y -> u32_be x = u32_be y -> x = y.
Proof. intros ??. by apply to_be_inj. Qed.
Lemma u64_be_inj x y : in_u64 x -> in_u64 y -> u64_be x = u64_be y -> x = y.
Proof. intros ??. by apply to_be_inj. Qed.

Lemma from_u16_be x : in_u16 x -> from_be_bytes (u16_be x) = x.
Proof. intros. unfold u16_be. rewrite from_to_be. apply Z.mod_small. width. Qed.
Lemma from_u32_be x : in_u32 x -> from_be_bytes (u32_be x) = x.
Proof. intros. unfold u32_be. rewrite from_to_be. apply Z.mod_small. width. Qed.
Lemma from_u64_be x : in_u64 x -> from_be_bytes (u64_be x) = x.
Proof. intros. unfold u64_be. rewrite from_to_be. apply Z.mod_small. width. Qed.

(** The bytes of a two- and a four-byte big-endian field, spelled out. *)
Lemma u16_be_cells x : u16_be x = [x / 256 mod 256; x mod 256].
Proof. reflexivity. Qed.

Lemma u32_be_cells x :
  u32_be x = [x / 256 / 256 / 256 mod 256; x / 256 / 256 mod 256; x / 256 mod 256; x mod 256].
Proof. reflexivity. Qed.

Lemma length_u16_be x : length (u16_be x) = 2%nat.
Proof. apply length_to_be. Qed.
Lemma length_u32_be x : length (u32_be x) = 4%nat.
Proof. apply length_to_be. Qed.
Lemma length_u64_be x : length (u64_be x) = 8%nat.
Proof. apply length_to_be. Qed.
Lemma length_u64_le x : length (u64_le x) = 8%nat.
Proof. apply length_to_le. Qed.

Lemma from_be_range2 a b : in_u8 a -> in_u8 b -> in_u16 (from_be_bytes [a; b]).
Proof. intros. cbn. width. Qed.
Lemma from_be_range4 a b c d :
  in_u8 a -> in_u8 b -> in_u8 c -> in_u8 d -> in_u32 (from_be_bytes [a; b; c; d]).
Proof. intros. cbn. width. Qed.

#[export] Hint Resolve from_be_range2 from_be_range4 to_be_ok to_le_ok : rust.

(** ** Indexing and splitting *)

Lemma index_Ret {A} (l : list A) i a : index l i = Ret a <-> l !! i = Some a.
Proof. apply expect_Ret. Qed.

Lemma bytes_ok_lookup l i b : bytes_ok l -> l !! i = Some b -> in_u8 b.
Proof. intros. by eapply Forall_lookup_1. Qed.

Lemma bytes_ok_app l k : bytes_ok (l ++ k) <-> bytes_ok l /\ bytes_ok k.
Proof. apply Forall_app. Qed.

(** A buffer with at least [n] elements, named one by one. *)
Ltac split_buffer buf n :=
  match n with
  | O => idtac
  | S ?m =>
      let b := fresh "b" in
      destruct buf as [|b buf]; [cbn in *; lia | split_buffer buf m]
  end.

(** Splits [bytes_ok (b0 :: b1 :: ...)] into one fact per byte. *)
Ltac split_bytes_ok :=
  unfold bytes_ok in *;
  repeat match goal with H : Forall in_u8 (_ :: _) |- _ => apply Forall_cons in H as [? H] end.

(** Proves [bytes_ok] of an explicit list, byte by byte. *)
Ltac solve_bytes_ok :=
  unfold bytes_ok in *;
  repeat first [done | apply to_be_ok | apply to_le_ok | apply List.Forall_nil
               | apply Forall_app; split | apply Forall_cons; split].

(** Concatenations of fields with equal lengths are equal field by field. *)
Lemma app_eq_fields {A} (a a' b b' : list A) :
  length a = length a' -> a ++ b = a' ++ b' <-> a = a' /\ b = b'.
Proof. intros Hlen. split; [by apply app_inj_1|naive_solver]. Qed.

Lemma slice_app_mid (a b c : bytes) :
  slice (a ++ b ++ c) (length a) (length a + length b) = Ret b.
Proof.
  unfold slice. rewrite bool_decide_eq_true_2 by (rewrite !length_app; lia).
  rewrite drop_app_length, take_app_length'; [done|lia].
Qed.

Lemma slice_app_end (a b : bytes) :
  slice (a ++ b) (length a) (length (a ++ b)) = Ret b.
Proof.
  rewrite length_app. rewrite <- (app_nil_r b) at 1. apply slice_app_mid.
Qed.
