(* ===== verification/Crypto.v ===== *)
(** * Crypto: the cryptographic primitives the program calls

    HKDF, HMAC, SHA-256, AES-GCM and AES-CTR, Ed25519 and the TLS vector
    codec come from packages outside the repository.  [Crypto] is the
    interface the components are written against, [CryptoLaws] what they rely
    on: output lengths, the correctness of authenticated encryption and of
    signatures, and that the TLS vector encoding is self-delimiting.  No law states a hardness assumption.  The
    module [Toy] is an executable instance of both, used to evaluate the
    model on concrete inputs. *)

From S2P Require Import Prelude Bytes.

Class Crypto := {
  (** [Hkdf::<Sha256>::from_prk(prk)] followed by [expand(info, okm)]. *)
  hkdf_sha256 : bytes -> bytes -> nat -> option bytes;
  (** [Hmac<Sha256>] keyed with the first argument. *)
  hmac_sha256 : bytes -> bytes -> bytes;
  sha256 : bytes -> bytes;
  (** AES-128-GCM: key, nonce, associated data, plaintext; the result is the
      ciphertext followed by the sixteen-byte tag. *)
  gcm_seal : bytes -> bytes -> bytes -> bytes -> bytes;
  (** AES-128-GCM: key, nonce, associated data, ciphertext with tag. *)
  gcm_open : bytes -> bytes -> bytes -> bytes -> option bytes;
  (** OpenSSL's AES in counter mode: key, initial counter block, data. *)
  aes_ctr : bytes -> bytes -> bytes -> bytes;
  (** Ed25519 keys, signatures and their check. *)
  ed25519_public : bytes -> bytes;
  ed25519_sign : bytes -> bytes -> bytes;
  ed25519_verify : bytes -> bytes -> bytes -> bool;
  (** [VLBytes::tls_serialize]: a length-prefixed byte vector. *)
  tls_vlbytes : bytes -> option bytes
}.

Definition GCM_TAG : nat := 16.
Definition HASH_LEN : nat := 32.

Class CryptoLaws `{Crypto} := {
  hkdf_sha256_some prk info n :
    (HASH_LEN <= length prk)%nat -> (n <= 255 * HASH_LEN)%nat ->
    exists okm, hkdf_sha256 prk info n = Some okm /\ length okm = n;
  length_hmac_sha256 key msg : length (hmac_sha256 key msg) = HASH_LEN;
  length_sha256 msg : length (sha256 msg) = HASH_LEN;
  length_gcm_seal key iv aad pt : length (gcm_seal key iv aad pt) = (length pt + GCM_TAG)%nat;
  gcm_open_seal key iv aad pt : gcm_open key iv aad (gcm_seal key iv aad pt) = Some pt;
  gcm_open_length key iv aad ct pt :
    gcm_open key iv aad ct = Some pt -> length ct = (length pt + GCM_TAG)%nat;
  length_aes_ctr key iv data : length (aes_ctr key iv data) = length data;
  ed25519_verify_sign sk msg : ed25519_verify (ed25519_public sk) msg (ed25519_sign sk msg) = true;
  tls_vlbytes_some v : Z.of_nat (length v) < 2 ^ 30 -> is_Some (tls_vlbytes v);
  tls_vlbytes_prefix v w v' w' x y :
    tls_vlbytes v = Some v' -> tls_vlbytes w = Some w' -> v' ++ x = w' ++ y -> v = w /\ x = y
}.

(** ** A computable instance *)

Module Toy.

(** A small non-cryptographic mixing function. *)
Definition mix (l : bytes) : Z := fold_left (fun a b => u32 (31 * a + b + 7)) l 1.

Fixpoint stream (n : nat) (x : Z) : bytes :=
  match n with
  | O => []
  | S n => u8 (x / 65536) :: stream n (u32 (1664525 * x + 1013904223))
  end.

Lemma length_stream n x : length (stream n x) = n.
Proof. revert x; induction n as [|n IH]; intros x; cbn; [done|by rewrite IH]. Qed.

Definition hkdf (prk info : bytes) (n : nat) : option bytes :=
  if bool_decide (HASH_LEN <= length prk /\ n <= 255 * HASH_LEN)%nat
  then Some (stream n (mix (prk ++ info))) else None.

Definition tag (key iv aad pt : bytes) : bytes :=
  stream GCM_TAG (mix (key ++ iv ++ aad ++ [256] ++ pt)).

Definition seal (key iv aad pt : bytes) : bytes := pt ++ tag key iv aad pt.

Definition open (key iv aad ct : bytes) : option bytes :=
  if bool_decide (GCM_TAG <= length ct)%nat then
    let pt := take (length ct - GCM_TAG) ct in
    if bool_decide (drop (length ct - GCM_TAG) ct = tag key iv aad pt) then Some pt else None
  else None.

Definition vlbytes (v : bytes) : option bytes :=
  if bool_decide (Z.of_nat (length v) < 2 ^ 30) then Some (u32_be (Z.of_nat (length v)) ++ v)
  else None.

#[export] Instance toy_crypto : Crypto := {|
  hkdf_sha256 := hkdf;
  hmac_sha256 key msg := stream HASH_LEN (mix (key ++ [257] ++ msg));
  sha256 msg := stream HASH_LEN (mix msg);
  gcm_seal := seal;
  gcm_open := open;
  aes_ctr key iv data := zip_with Z.lxor data (stream (length data) (mix (key ++ iv)));
  ed25519_public sk := sk;
  ed25519_sign sk msg := stream 64 (mix (sk ++ msg));
  ed25519_verify pk msg sig := bool_decide (sig = stream 64 (mix (pk ++ msg)));
  tls_vlbytes := vlbytes
|}.

Lemma length_seal key iv aad pt : length (seal key iv aad pt) = (length pt + GCM_TAG)%nat.
Proof. unfold seal, tag. by rewrite length_app, length_stream. Qed.

Lemma open_seal key iv aad pt : open key iv aad (seal key iv aad pt) = Some pt.
Proof.
  unfold open. pose proof (length_seal key iv aad pt) as Hlen.
  assert (length (seal key iv aad pt) - GCM_TAG = length pt)%nat as -> by lia.
  assert (take (length pt) (seal key iv aad pt) = pt) as -> by apply take_app_length.
  assert (drop (length pt) (seal key iv aad pt) = tag key iv aad pt) as ->
    by apply drop_app_length.
  repeat case_bool_decide; [done|done|lia].
Qed.

Lemma open_length key iv aad ct pt :
  open key iv aad ct = Some pt -> length ct = (length pt + GCM_TAG)%nat.
Proof.
  unfold open. repeat case_bool_decide; try done. intros [= <-].
  rewrite length_take. lia.
Qed.

Lemma vlbytes_prefix v w v' w' x y :
  vlbytes v = Some v' -> vlbytes w = Some w' -> v' ++ x = w' ++ y -> v = w /\ x = y.
Proof.
  unfold vlbytes. repeat case_bool_decide; try done. intros <-%(inj Some) <-%(inj Some).
  rewrite <- !app_assoc. rewrite app_eq_fields by by rewrite !length_u32_be.
  intros [Hlen Hrest]. apply u32_be_inj in Hlen; [|width..].
  apply app_eq_fields in Hrest; [done|lia].
Qed.

#[export] Instance toy_laws : CryptoLaws.
Proof.
  split; intros.
  - exists (stream n (mix (prk ++ info))). split; [|apply length_stream].
    unfold hkdf_sha256, toy_crypto, hkdf. by rewrite bool_decide_eq_true_2.
  - apply length_stream.
  - apply length_stream.
  - apply length_seal.
  - apply open_seal.
  - by eapply open_length.
  - cbn. by rewrite length_zip_with_l_eq by by rewrite length_stream.
  - by apply bool_decide_eq_true_2.
  - unfold tls_vlbytes, toy_crypto, vlbytes. by rewrite bool_decide_eq_true_2.
  - by eapply vlbytes_prefix.
Qed.

End Toy.
