(* ===== verification/Rtp.v ===== *)
(** * Rtp: RTP packets on the wire (src/src/transport/rtp.rs)

    The fixed twelve-byte header and the payload, the serializer
    [RtpPacket::to_bytes] and the parser [RtpPacket::from_bytes]. *)

From S2P Require Import Prelude Bytes.

Definition RTP_HEADER_LEN : nat := 12.

Record RtpPacket := mkRtpPacket {
  payload_type : Z;
  sequence_number : Z;
  timestamp : Z;
  ssrc : Z;
  payload : bytes
}.

(** The field widths of the Rust struct. *)
Definition RtpPacket_ok (p : RtpPacket) : Prop :=
  in_u8 (payload_type p) /\ in_u16 (sequence_number p) /\ in_u32 (timestamp p) /\
  in_u32 (ssrc p) /\ bytes_ok (payload p).

Definition to_bytes (p : RtpPacket) : bytes :=
  [0x80] ++ [Z.land (payload_type p) 0x7F] ++ u16_be (sequence_number p) ++
  u32_be (timestamp p) ++ u32_be (ssrc p) ++ payload p.

Definition from_bytes (data : bytes) : outcome (option RtpPacket) :=
  if bool_decide (length data < RTP_HEADER_LEN)%nat then Ret None
  else
    d1 ← index data 1; d2 ← index data 2; d3 ← index data 3;
    d4 ← index data 4; d5 ← index data 5; d6 ← index data 6; d7 ← index data 7;
    d8 ← index data 8; d9 ← index data 9; d10 ← index data 10; d11 ← index data 11;
    rest ← slice data RTP_HEADER_LEN (length data);
    Ret (Some (mkRtpPacket (Z.land d1 0x7F) (from_be_bytes [d2; d3])
      (from_be_bytes [d4; d5; d6; d7]) (from_be_bytes [d8; d9; d10; d11]) rest)).

(** ** Lemmas *)

(** The parse of a buffer whose first twelve bytes are named. *)
Lemma from_bytes_cells b0 b1 b2 b3 b4 b5 b6 b7 b8 b9 b10 b11 rest :
  from_bytes (b0 :: b1 :: b2 :: b3 :: b4 :: b5 :: b6 :: b7 :: b8 :: b9 :: b10 :: b11 :: rest) =
  Ret (Some (mkRtpPacket (Z.land b1 0x7F) (from_be_bytes [b2; b3])
    (from_be_bytes [b4; b5; b6; b7]) (from_be_bytes [b8; b9; b10; b11]) rest)).
Proof.
  unfold from_bytes. rewrite bool_decide_eq_false_2 by (cbn; unfold RTP_HEADER_LEN; lia).
  cbn [index lookup expect list_lookup mbind outcome_bind].
  pose proof (slice_app_end [b0; b1; b2; b3; b4; b5; b6; b7; b8; b9; b10; b11] rest) as Hs.
  cbn [app length] in Hs. unfold RTP_HEADER_LEN. cbn [length]. by rewrite Hs.
Qed.

Lemma land_127 x : in_u8 x -> Z.land x 0x7F = x mod 128.
Proof. intros. change 0x7F with (Z.ones 7). by rewrite Z.land_ones. Qed.

Lemma length_to_bytes p : length (to_bytes p) = (RTP_HEADER_LEN + length (payload p))%nat.
Proof. unfold to_bytes. rewrite !length_app, length_u16_be, !length_u32_be. done. Qed.

Lemma to_bytes_ok p : RtpPacket_ok p -> bytes_ok (to_bytes p).
Proof.
  intros (Hpt & Hseq & Hts & Hss & Hpl). unfold to_bytes.
  solve_bytes_ok; rewrite ?land_127 by done; width.
Qed.

Lemma parse_serialized p :
  RtpPacket_ok p -> payload_type p < 128 -> from_bytes (to_bytes p) = Ret (Some p).
Proof.
  intros (Hpt & Hseq & Hts & Hss & Hpl) Hlt. unfold to_bytes.
  rewrite land_127 by done. rewrite u16_be_cells, !u32_be_cells. cbn [app].
  rewrite from_bytes_cells, <- u16_be_cells, <- !u32_be_cells.
  rewrite land_127 by width.
  rewrite from_u16_be, !from_u32_be by done.
  destruct p; cbn in *. repeat f_equal. width.
Qed.

(** Parsing is total (it never reads out of range) and rejects exactly the
    buffers shorter than a header. *)
Lemma from_bytes_total data :
  exists o, from_bytes data = Ret o /\ (o = None <-> (length data < RTP_HEADER_LEN)%nat).
Proof.
  destruct (decide (length data < RTP_HEADER_LEN)%nat) as [Hs|Hl].
  - exists None. unfold from_bytes. by rewrite bool_decide_eq_true_2.
  - unfold RTP_HEADER_LEN in *. split_buffer data 12%nat.
    rewrite from_bytes_cells. eexists. split; [done|]. split; [done|cbn; lia].
Qed.

(** Serializing what was parsed gives the packet back, with the
    version/flags byte and the marker bit normalised. *)
Lemma serialize_parsed data p :
  bytes_ok data -> from_bytes data = Ret (Some p) ->
  exists b0 b1 rest, data = b0 :: b1 :: rest /\ to_bytes p = 0x80 :: Z.land b1 0x7F :: rest.
Proof.
  intros Hok Hp.
  destruct (decide (length data < RTP_HEADER_LEN)%nat) as [Hs|Hl].
  { unfold from_bytes in Hp. by rewrite bool_decide_eq_true_2 in Hp. }
  unfold RTP_HEADER_LEN in *. split_buffer data 12%nat.
  rewrite from_bytes_cells in Hp. injection Hp as <-.
  do 3 eexists. split; [done|]. unfold to_bytes, payload_type, sequence_number, timestamp, ssrc, payload.
  split_bytes_ok.
  unfold u16_be, u32_be.
  rewrite !to_from_be_n by solve_bytes_ok.
  cbn. rewrite !land_127 by (rewrite ?land_127 by done; width). do 2 f_equal. width.
Qed.

(** Parsing a serialized RTP packet gives the packet back, for every 7-bit
    payload type; and serializing what was parsed gives the datagram back,
    up to the version byte and the marker bit. *)
Lemma from_to_bytes p data q :
  RtpPacket_ok p -> payload_type p < 128 -> bytes_ok data -> from_bytes data = Ret (Some q) ->
  from_bytes (to_bytes p) = Ret (Some p) /\
  exists b0 b1 rest, data = b0 :: b1 :: rest /\ to_bytes q = 0x80 :: Z.land b1 0x7F :: rest.
Proof. intros Hp Hpt Hd Hq. split; [by apply parse_serialized|by eapply serialize_parsed]. Qed.

Lemma from_to_bytes_witness :
  from_bytes (to_bytes (mkRtpPacket 96 65535 1500 0x12345678 [1; 2; 3])) =
    Ret (Some (mkRtpPacket 96 65535 1500 0x12345678 [1; 2; 3])) /\
  exists b0 b1 rest, [0x90; 0xE0; 0; 1; 0; 0; 0; 2; 0; 0; 0; 3; 9] = b0 :: b1 :: rest /\
    to_bytes (mkRtpPacket 96 1 2 3 [9]) = 0x80 :: Z.land b1 0x7F :: rest.
Proof.
  apply (from_to_bytes (mkRtpPacket 96 65535 1500 0x12345678 [1; 2; 3])); [|reflexivity| |reflexivity].
  - unfold RtpPacket_ok; cbn. split_and!; try width. repeat constructor; done.
  - repeat constructor; done.
Defined.
