(* ===== verification/IndexRecovery.v ===== *)
(** * IndexRecovery: extended sequence indices (src/src/receiver/index_recovery.rs)

    Turning the wrapping 16-bit RTP sequence number back into the packet's
    position in the stream (RFC 3711, section 3.3.1), relative to the highest
    position authenticated so far. *)

From S2P Require Import Prelude.

Record IndexRecovery := mkIndexRecovery { highest : option Z }.

(** [IndexRecovery::default()]. *)
Definition IndexRecovery_default : IndexRecovery := mkIndexRecovery None.

Definition recover (self : IndexRecovery) (seq : Z) : Z :=
  match highest self with
  | None => seq
  | Some highest =>
      let roc := Z.shiftr highest 16 in
      let s_l := Z.land highest 0xFFFF in
      let seq_i := seq in
      let v :=
        if s_l <? 32768 then
          if 32768 <? seq_i - s_l then saturating_sub roc 1 else roc
        else if seq_i <? s_l - 32768 then roc + 1
        else roc in
      Z.lor (u64 (Z.shiftl v 16)) seq
  end.

Definition update (self : IndexRecovery) (index : Z) : IndexRecovery :=
  let newer := match highest self with None => true | Some h => h <? index end in
  if newer then mkIndexRecovery (Some index) else self.

(** ** The arithmetic of [recover] *)

Definition IndexRecovery_ok (self : IndexRecovery) : Prop :=
  forall h, highest self = Some h -> 0 <= h < u64_max - 65536.

(** Joining a rollover count and a 16-bit number with [<<] and [|] is
    base-65536 positional notation. *)
Lemma join_roc_seq v seq :
  0 <= v < 281474976710656 -> in_u16 seq ->
  Z.lor (u64 (Z.shiftl v 16)) seq = 65536 * v + seq.
Proof.
  intros Hv Hseq. rewrite Z.shiftl_mul_pow2 by lia. change (2 ^ 16) with 65536.
  rewrite u64_id by width.
  rewrite <- Z.lxor_lor, <- Z.add_nocarry_lxor; [lia|..].
  all: change 65536 with (2 ^ 16); rewrite <- Z.shiftl_mul_pow2 by lia.
  all: apply Z.bits_inj'; intros n Hn; rewrite Z.land_spec, Z.bits_0.
  all: destruct (Z.lt_ge_cases n 16) as [Hlt|Hge].
  all: try (rewrite Z.shiftl_spec_low by lia; apply andb_false_l).
  all: replace seq with (seq mod 2 ^ 16) by (apply Z.mod_small; width).
  all: rewrite Z.mod_pow2_bits_high by lia; apply andb_false_r.
Qed.

(** [recover] in positional notation: the rollover is the one of the highest
    index, its predecessor or its successor. *)
Lemma recover_arith h seq :
  0 <= h < u64_max - 65536 -> in_u16 seq ->
  recover (mkIndexRecovery (Some h)) seq =
  65536 * (if h mod 65536 <? 32768 then
             if 32768 <? seq - h mod 65536 then Z.max 0 (h / 65536 - 1) else h / 65536
           else if seq <? h mod 65536 - 32768 then h / 65536 + 1 else h / 65536) + seq.
Proof.
  intros Hh Hseq. cbn [recover highest].
  change 0xFFFF with (Z.ones 16). rewrite Z.land_ones, Z.shiftr_div_pow2 by lia.
  change (2 ^ 16) with 65536. unfold saturating_sub.
  apply join_roc_seq; [|done]. unfold u64_max in *.
  repeat case_match; bool_to_prop; lia.
Qed.

(** ** Properties *)

(** Every recovered index is congruent to the sequence number it came from. *)
Lemma recover_mod r seq :
  IndexRecovery_ok r -> in_u16 seq -> recover r seq mod 65536 = seq.
Proof.
  intros Hr Hseq. destruct r as [[h|]].
  - rewrite recover_arith by (try done; by apply Hr). width.
  - cbn. width.
Qed.

(** An index within half the range of the highest one is recovered. *)
Lemma recover_exact h i :
  0 <= h < u64_max - 65536 -> 0 <= i -> Z.abs (i - h) < 32768 ->
  recover (mkIndexRecovery (Some h)) (u16 i) = i.
Proof.
  intros Hh Hi Habs. rewrite recover_arith by (try done; width).
  unfold u16. repeat case_match; bool_to_prop; try lia; discriminate.
Qed.

(** The recovered index is, among all positions with the same sequence
    number, one closest to the highest index. *)
Lemma recover_nearest h seq c :
  0 <= h < u64_max - 65536 -> in_u16 seq -> 0 <= c -> c mod 65536 = seq ->
  Z.abs (recover (mkIndexRecovery (Some h)) seq - h) <= Z.abs (c - h).
Proof.
  intros Hh Hseq Hc Hcand. rewrite recover_arith by done.
  unfold in_u16 in Hseq. repeat case_match; bool_to_prop; try lia; discriminate.
Qed.

(** The highest index is the running maximum of the updates. *)
Lemma update_max h i : update (mkIndexRecovery (Some h)) i = mkIndexRecovery (Some (Z.max h i)).
Proof. unfold update; cbn. bool_to_prop; repeat f_equal; lia. Qed.

Lemma update_first i : update IndexRecovery_default i = mkIndexRecovery (Some i).
Proof. reflexivity. Qed.

(** ** Recovering a whole arrival order *)

(** Recovers each arriving packet's index and then authenticates it: the
    order of calls in the receivers. *)
Fixpoint recover_all (r : IndexRecovery) (seqs : list Z) : list Z :=
  match seqs with
  | [] => []
  | seq :: seqs => recover r seq :: recover_all (update r (recover r seq)) seqs
  end.

(** An arrival order in which every packet lies within half the sequence
    range of the highest index before it. *)
Fixpoint half_range (h : Z) (l : list Z) : Prop :=
  match l with
  | [] => True
  | i :: l => 0 <= i < u64_max - 65536 /\ Z.abs (i - h) < 32768 /\ half_range (Z.max h i) l
  end.

Lemma recover_all_exact h l :
  0 <= h < u64_max - 65536 -> half_range h l ->
  recover_all (mkIndexRecovery (Some h)) (u16 <$> l) = l.
Proof.
  revert h; induction l as [|i l IH]; intros h Hh Hl; [done|].
  destruct Hl as (Hi & Habs & Hl). rewrite fmap_cons. cbn [recover_all].
  rewrite recover_exact, update_max by (done || lia).
  f_equal. apply IH; [lia|done].
Qed.

(** C18: Over any arrival order that stays within half the sequence range of the
    highest index, every packet's full index is recovered exactly from its
    16-bit sequence number. *)
Theorem recover_stream_exact i l :
  0 <= i < 65536 -> half_range i l ->
  recover_all IndexRecovery_default (u16 <$> (i :: l)) = i :: l.
Proof.
  intros Hi Hl. rewrite fmap_cons. cbn [recover_all]. replace (u16 i) with i by width.
  change (recover IndexRecovery_default i) with i. rewrite update_first.
  f_equal. apply recover_all_exact; [unfold u64_max; lia|done].
Qed.

Lemma recover_nearest_witness :
  recover (mkIndexRecovery (Some 65530)) 3 = 65539 /\
  Z.abs (recover (mkIndexRecovery (Some 65530)) 3 - 65530) <= Z.abs (3 - 65530).
Proof.
  split; [reflexivity|].
  apply (recover_nearest 65530 3 3); [unfold u64_max; lia|width|lia|reflexivity].
Defined.

Lemma recover_stream_exact_witness :
  recover_all IndexRecovery_default (u16 <$> [65534; 65537; 65535; 65536; 98000]) =
    [65534; 65537; 65535; 65536; 98000].
Proof.
  apply (recover_stream_exact 65534 [65537; 65535; 65536; 98000]); [lia|].
  cbn; unfold u64_max; lia.
Defined.
