(* ===== verification/Mls.v ===== *)
(** * Mls: exporting SRTP secrets from an MLS group

    Models the exporter side of src/src/keying/mls.rs
    ([build_exporter_context], [export_srtp_keys], the key lengths and
    labels) and what it calls in the vendored OpenMLS: [MlsGroup::export_secret],
    [ExporterSecret::derive_exported_secret], [Secret::derive_secret],
    [Secret::kdf_expand_label], [Secret::hkdf_expand], [KdfLabel::serialized_label]
    and the provider's [hkdf_expand], for the ciphersuite the program fixes
    (SHA-256). *)

From Stdlib Require Import String.
From S2P Require Import Prelude Bytes Crypto.

Definition SRTP_MASTER_KEY_LABEL : string := "SRTP master key".
Definition SRTP_MASTER_SALT_LABEL : string := "SRTP master salt".
Definition AES_128_GCM_KEY_LEN : nat := 16.
Definition AES_128_GCM_SALT_LEN : nat := 12.
Definition SRTP_KEY_MATERIAL_LEN : nat := AES_128_GCM_KEY_LEN + AES_128_GCM_SALT_LEN.

(** What the exporter reads of a group: whether the own client is still a
    member, the epoch, and the epoch's exporter secret. *)
Record MlsGroup := mkMlsGroup {
  group_active : bool;
  group_epoch : Z;
  exporter_secret : bytes
}.

Inductive CryptoError :=
| HkdfOutputLengthInvalid
| KdfLabelTooLarge
| KdfSerializationError
| CryptoLibraryError
| InvalidLength.

Inductive ExportSecretError :=
| KeyLengthTooLong
| UseAfterEviction
| UnexpectedCryptoError.

Definition u16_MAX : Z := 65535.

#[export] Instance result_bind {E} : MBind (fun T => result T E) :=
  fun T U f m => match m with Ok t => f t | Err e => Err e end.

Section Exporter.
Context {CR : Crypto}.

(** [OpenMlsCrypto::hkdf_expand] of the RustCrypto provider, SHA-256. *)
Definition hkdf_expand (prk info : bytes) (okm_len : nat) : result bytes CryptoError :=
  match hkdf_sha256 prk info okm_len with
  | Some okm => Ok okm
  | None => Err HkdfOutputLengthInvalid
  end.

Definition secret_hkdf_expand (secret info : bytes) (okm_len : nat) : result bytes CryptoError :=
  match hkdf_expand secret info okm_len with
  | Err _ => Err CryptoLibraryError
  | Ok key => if bool_decide (key = []) then Err InvalidLength else Ok key
  end.

Definition serialized_label (context : bytes) (label : string) (length : nat) :
    result bytes CryptoError :=
  if u16_MAX <? Z.of_nat length then Err KdfLabelTooLarge
  else
    match tls_vlbytes (str_bytes label), tls_vlbytes context with
    | Some l, Some c => Ok (u16_be (u16 (Z.of_nat length)) ++ l ++ c)
    | _, _ => Err KdfSerializationError
    end.

Definition kdf_expand_label (secret : bytes) (label : string) (context : bytes) (length : nat) :
    result bytes CryptoError :=
  match serialized_label context ("MLS 1.0 " ++ label)%string length with
  | Err e => Err e
  | Ok info => secret_hkdf_expand secret info length
  end.

Definition derive_secret (secret : bytes) (label : string) : result bytes CryptoError :=
  kdf_expand_label secret label [] HASH_LEN.

Definition derive_exported_secret (secret : bytes) (label : string) (context : bytes)
    (key_length : nat) : result bytes CryptoError :=
  let context_hash := sha256 context in
  match derive_secret secret label with
  | Err e => Err e
  | Ok s => kdf_expand_label s "exported" context_hash key_length
  end.

Definition export_secret (group : MlsGroup) (label : string) (context : bytes)
    (key_length : nat) : result bytes ExportSecretError :=
  if u16_MAX <? Z.of_nat key_length then Err KeyLengthTooLong
  else if group_active group then
    match derive_exported_secret (exporter_secret group) label context key_length with
    | Ok s => Ok s
    | Err _ => Err UnexpectedCryptoError
    end
  else Err UseAfterEviction.

Definition build_exporter_context (ssrc : Z) : bytes := u32_be ssrc.

Definition export_srtp_keys (group : MlsGroup) (ssrc : Z) : outcome (bytes * bytes * bytes) :=
  let context := build_exporter_context ssrc in
  master_key ← expect_ok (export_secret group SRTP_MASTER_KEY_LABEL context AES_128_GCM_KEY_LEN);
  master_salt ← expect_ok (export_secret group SRTP_MASTER_SALT_LABEL context AES_128_GCM_SALT_LEN);
  let key_material := master_key ++ master_salt in
  Ret (key_material, master_key, master_salt).

End Exporter.

(** ** Properties *)

Section Facts.
Context {CR : Crypto} {CL : CryptoLaws}.

(** The label handed to HKDF determines the label, the context and the
    length it was built from. *)
Lemma serialized_label_inj c l n c' l' n' info :
  serialized_label c l n = Ok info -> serialized_label c' l' n' = Ok info ->
  c = c' /\ str_bytes l = str_bytes l' /\ n = n'.
Proof.
  unfold serialized_label.
  destruct (u16_MAX <? Z.of_nat n) eqn:Hn; [done|].
  destruct (u16_MAX <? Z.of_nat n') eqn:Hn'; [done|].
  destruct (tls_vlbytes (str_bytes l)) as [vl|] eqn:Hl; [|done].
  destruct (tls_vlbytes c) as [vc|] eqn:Hc; [|done].
  destruct (tls_vlbytes (str_bytes l')) as [vl'|] eqn:Hl'; [|done].
  destruct (tls_vlbytes c') as [vc'|] eqn:Hc'; [|done].
  intros H1 H2. rewrite <- H2 in H1. apply (inj Ok) in H1 as Heq. unfold u16_MAX in *.
  apply app_eq_fields in Heq as [Hlen Heq]; [|by rewrite !length_u16_be].
  apply u16_be_inj in Hlen; [|apply u16_range..].
  rewrite !u16_id in Hlen by (bool_to_prop; width).
  destruct (tls_vlbytes_prefix _ _ _ _ _ _ Hl Hl' Heq) as [Hlab Heq'].
  destruct (tls_vlbytes_prefix _ _ _ _ [] [] Hc Hc') as [Hctx _]; [by rewrite !app_nil_r|].
  repeat split; [done|done|lia].
Qed.

Lemma str_bytes_length s : length (str_bytes s) = String.length s.
Proof. induction s; cbn; congruence. Qed.

Lemma kdf_expand_label_ok secret label context n :
  (HASH_LEN <= length secret)%nat -> (0 < n <= 255 * HASH_LEN)%nat ->
  (String.length label < 1000)%nat -> (length context < 1000)%nat ->
  exists out, kdf_expand_label secret label context n = Ok out /\ length out = n.
Proof.
  intros Hs Hn Hl Hc. unfold kdf_expand_label, serialized_label, u16_MAX, HASH_LEN in *.
  destruct (Z.ltb_spec 65535 (Z.of_nat n)); [lia|].
  destruct (tls_vlbytes_some (str_bytes ("MLS 1.0 " ++ label))) as [vl ->].
  { rewrite str_bytes_length.
    change (String.length ("MLS 1.0 " ++ label)%string) with (8 + String.length label)%nat. lia. }
  destruct (tls_vlbytes_some context) as [vc ->]; [lia|].
  unfold secret_hkdf_expand, hkdf_expand.
  match goal with |- context [hkdf_sha256 _ ?i _] =>
    destruct (hkdf_sha256_some secret i n) as (okm & -> & Hlen); [unfold HASH_LEN; lia..|] end.
  case_bool_decide; [subst; cbn in *; lia|eauto].
Qed.

(** The exporter succeeds for an active group and returns as many bytes as
    asked. *)
Lemma export_secret_ok group label context n :
  group_active group = true -> length (exporter_secret group) = HASH_LEN ->
  (0 < n <= 255 * HASH_LEN)%nat -> (String.length label < 1000)%nat ->
  exists out, export_secret group label context n = Ok out /\ length out = n.
Proof.
  intros Hact Hlen Hn Hl. unfold export_secret, derive_exported_secret, derive_secret, u16_MAX.
  unfold HASH_LEN in *.
  destruct (Z.ltb_spec 65535 (Z.of_nat n)); [lia|]. rewrite Hact.
  destruct (kdf_expand_label_ok (exporter_secret group) label [] 32) as (s & -> & Hs);
    [unfold HASH_LEN; lia..|cbn; lia|].
  destruct (kdf_expand_label_ok s "exported" (sha256 context) n) as (out & -> & Hout);
    [unfold HASH_LEN; lia..|cbn; lia|rewrite length_sha256; unfold HASH_LEN; lia|].
  eauto.
Qed.

(** What the exporter returns is derived from the epoch's exporter secret. *)
Lemma export_secret_derived group label context n out :
  export_secret group label context n = Ok out ->
  derive_exported_secret (exporter_secret group) label context n = Ok out.
Proof.
  unfold export_secret. destruct (_ <? _); [done|]. destruct (group_active group); [|done].
  destruct (derive_exported_secret _ _ _ _); intros H; [by apply (inj Ok) in H as ->|discriminate H].
Qed.

Lemma export_srtp_keys_ok group ssrc :
  group_active group = true -> length (exporter_secret group) = HASH_LEN ->
  exists key salt,
    export_srtp_keys group ssrc = Ret (key ++ salt, key, salt) /\
    length key = AES_128_GCM_KEY_LEN /\ length salt = AES_128_GCM_SALT_LEN.
Proof.
  intros Hact Hlen. unfold export_srtp_keys.
  destruct (export_secret_ok group SRTP_MASTER_KEY_LABEL (build_exporter_context ssrc) 16)
    as (key & Hk & Hkl); [done|done|unfold HASH_LEN; lia|cbn; lia|].
  destruct (export_secret_ok group SRTP_MASTER_SALT_LABEL (build_exporter_context ssrc) 12)
    as (salt & Hs & Hsl); [done|done|unfold HASH_LEN; lia|cbn; lia|].
  exists key, salt. unfold AES_128_GCM_KEY_LEN, AES_128_GCM_SALT_LEN.
  rewrite Hk, Hs. done.
Qed.

(** C33: For an active group the SRTP exporter returns a 16-byte master key, a
    12-byte master salt and their concatenation; none of its expectations
    can fail. For a member that was removed from the group it panics. *)
Theorem export_srtp_keys_spec group ssrc :
  length (exporter_secret group) = HASH_LEN ->
  if group_active group then
    exists key salt,
      export_srtp_keys group ssrc = Ret (key ++ salt, key, salt) /\
      length key = AES_128_GCM_KEY_LEN /\ length salt = AES_128_GCM_SALT_LEN
  else export_srtp_keys group ssrc = Panic.
Proof.
  intros Hlen. destruct (group_active group) eqn:Hact; [by apply export_srtp_keys_ok|].
  unfold export_srtp_keys, export_secret. by rewrite Hact.
Qed.

(** Two exports that reach the key derivation with the same input have the
    same label and length and the same SSRC, or their contexts are a SHA-256
    collision. *)
Lemma exporter_domain_separation ssrc ssrc' label label' n n' info :
  in_u32 ssrc -> in_u32 ssrc' ->
  serialized_label (sha256 (build_exporter_context ssrc)) label n = Ok info ->
  serialized_label (sha256 (build_exporter_context ssrc')) label' n' = Ok info ->
  str_bytes label = str_bytes label' /\ n = n' /\
  (ssrc = ssrc' \/
   (build_exporter_context ssrc ≠ build_exporter_context ssrc' /\
    sha256 (build_exporter_context ssrc) = sha256 (build_exporter_context ssrc'))).
Proof.
  intros Hs Hs' H H'. destruct (serialized_label_inj _ _ _ _ _ _ _ H H') as (Hc & Hl & Hn).
  split; [done|]. split; [done|].
  destruct (decide (build_exporter_context ssrc = build_exporter_context ssrc')) as [Heq|Hne]; [left|by right].
  by apply u32_be_inj.
Qed.

End Facts.

Import Toy.

(** An active group of the toy instance. *)
Definition sample_group : MlsGroup := mkMlsGroup true 0 (replicate 32 5).

Lemma export_srtp_keys_spec_witness :
  (exists key salt,
    export_srtp_keys sample_group 0x1234 = Ret (key ++ salt, key, salt) /\
    length key = AES_128_GCM_KEY_LEN /\ length salt = AES_128_GCM_SALT_LEN) /\
  export_srtp_keys (mkMlsGroup false 0 (replicate 32 5)) 0x1234 = Panic.
Proof.
  split; [apply (export_srtp_keys_spec sample_group 0x1234)|
    apply (export_srtp_keys_spec (mkMlsGroup false 0 (replicate 32 5)) 0x1234)]; reflexivity.
Defined.

Lemma exporter_domain_separation_witness :
  exists info,
    serialized_label (sha256 (build_exporter_context 7)) SRTP_MASTER_KEY_LABEL 16 = Ok info /\
    str_bytes SRTP_MASTER_KEY_LABEL = str_bytes SRTP_MASTER_KEY_LABEL /\ 16%nat = 16%nat /\
    (7 = 7 \/
     (build_exporter_context 7 ≠ build_exporter_context 7 /\
      sha256 (build_exporter_context 7) = sha256 (build_exporter_context 7))).
Proof.
  eexists. split; [vm_compute; reflexivity|].
  eapply (exporter_domain_separation 7 7 SRTP_MASTER_KEY_LABEL SRTP_MASTER_KEY_LABEL 16 16);
    [width|width|vm_compute; reflexivity|vm_compute; reflexivity].
Defined.
