(* ===== verification/Ratchet.v ===== *)
(** * Ratchet: the per-stream key ratchet (src/src/keying/ratchet.rs)

    [StreamRatchet] holds the chain secret [S_g] and the generation index
    [g]; [next_key_salt] derives generation [g]'s SRTP key and salt and steps
    the chain.  The reference is [gen_key]: generation [g]'s key material as
    a function of the seed alone. *)

From Stdlib Require Import String.
From S2P Require Import Prelude Bytes Crypto Mls.

Definition CHAIN_LABEL : bytes := str_bytes "next generation".
Definition KEY_MATERIAL_LABEL : bytes := str_bytes "srtp key material".
Definition CHAIN_SECRET_LEN : nat := 32.
Definition SRTP_RATCHET_SEED_LABEL : string := "SRTP ratchet seed".

(** Decides goals about the key and hash lengths. *)
Ltac lens :=
  unfold SRTP_KEY_MATERIAL_LEN, AES_128_GCM_KEY_LEN, AES_128_GCM_SALT_LEN, CHAIN_SECRET_LEN,
    HASH_LEN, GCM_TAG in *; lia.

Record StreamRatchet := mkStreamRatchet {
  chain_secret : bytes;
  generation : Z
}.

Section Ratchet.
Context {CR : Crypto}.

Definition from_seed (seed : bytes) : outcome StreamRatchet :=
  _ ← assert (bool_decide (length seed = CHAIN_SECRET_LEN));
  Ret (mkStreamRatchet seed 0).

Definition seed_from_exporter (group : MlsGroup) (ssrc : Z) : outcome StreamRatchet :=
  let context := build_exporter_context ssrc in
  seed ← expect_ok (export_secret group SRTP_RATCHET_SEED_LABEL context CHAIN_SECRET_LEN);
  from_seed seed.

Definition derive_key_salt (self : StreamRatchet) : outcome bytes :=
  out ← expect_ok (hkdf_expand (chain_secret self) KEY_MATERIAL_LABEL SRTP_KEY_MATERIAL_LEN);
  (* copy_from_slice panics on a length mismatch *)
  _ ← assert (bool_decide (length out = SRTP_KEY_MATERIAL_LEN));
  Ret out.

Definition advance (self : StreamRatchet) : outcome StreamRatchet :=
  next ← expect_ok (hkdf_expand (chain_secret self) CHAIN_LABEL CHAIN_SECRET_LEN);
  Ret (mkStreamRatchet next (u64 (generation self + 1))).

Definition next_key_salt (self : StreamRatchet) : outcome ((Z * bytes) * StreamRatchet) :=
  let g := generation self in
  key_salt ← derive_key_salt self;
  self' ← advance self;
  Ret ((g, key_salt), self').

Definition split_key_salt (key_salt : bytes) : bytes * bytes :=
  (take AES_128_GCM_KEY_LEN key_salt, drop AES_128_GCM_KEY_LEN key_salt).

(** [n] calls of [next_key_salt] in a row. *)
Fixpoint next_key_salts (n : nat) (self : StreamRatchet) :
    outcome (list (Z * bytes) * StreamRatchet) :=
  match n with
  | O => Ret ([], self)
  | S n =>
      '(gk, self') ← next_key_salt self;
      '(gks, self'') ← next_key_salts n self';
      Ret (gk :: gks, self'')
  end.

(** ** The reference: keys as a function of the seed *)

Definition or_empty (r : result bytes CryptoError) : bytes :=
  match r with Ok b => b | Err _ => [] end.

Definition chain_step (s : bytes) : bytes := or_empty (hkdf_expand s CHAIN_LABEL CHAIN_SECRET_LEN).
Fixpoint chain (seed : bytes) (n : nat) : bytes :=
  match n with
  | O => seed
  | S n => chain_step (chain seed n)
  end.
Definition key_material (s : bytes) : bytes :=
  or_empty (hkdf_expand s KEY_MATERIAL_LABEL SRTP_KEY_MATERIAL_LEN).
Definition gen_key (seed : bytes) (g : Z) : bytes := key_material (chain seed (Z.to_nat g)).

(** The ratchet of [seed] positioned at generation [g]. *)
Definition ratchet_at (seed : bytes) (g : Z) : StreamRatchet :=
  mkStreamRatchet (chain seed (Z.to_nat g)) g.

End Ratchet.

(** ** Properties *)

Section Facts.
Context {CR : Crypto} {CL : CryptoLaws}.

Lemma hkdf_expand_ok prk info n :
  length prk = CHAIN_SECRET_LEN -> (n <= 255 * HASH_LEN)%nat ->
  exists out, hkdf_expand prk info n = Ok out /\ length out = n.
Proof.
  intros Hp Hn. unfold hkdf_expand, CHAIN_SECRET_LEN in *.
  destruct (hkdf_sha256_some prk info n) as (okm & -> & Hl); [lens|done|].
  eauto.
Qed.

Lemma length_chain seed n :
  length seed = CHAIN_SECRET_LEN -> length (chain seed n) = CHAIN_SECRET_LEN.
Proof.
  intros Hs. induction n as [|n IH]; [done|].
  cbn [chain]. unfold chain_step.
  destruct (hkdf_expand_ok _ CHAIN_LABEL CHAIN_SECRET_LEN IH) as (out & -> & Hl);
    [lens|done].
Qed.

Lemma length_gen_key seed g :
  length seed = CHAIN_SECRET_LEN -> length (gen_key seed g) = SRTP_KEY_MATERIAL_LEN.
Proof.
  intros Hs. unfold gen_key, key_material.
  destruct (hkdf_expand_ok (chain seed (Z.to_nat g)) KEY_MATERIAL_LABEL SRTP_KEY_MATERIAL_LEN)
    as (out & -> & Hl); [by apply length_chain|lens|done].
Qed.

(** One driver step from generation [g] hands out generation [g]'s key and
    leaves the ratchet at [g + 1]. *)
Lemma next_key_salt_at seed g :
  length seed = CHAIN_SECRET_LEN -> 0 <= g < u64_max ->
  next_key_salt (ratchet_at seed g) = Ret ((g, gen_key seed g), ratchet_at seed (g + 1)).
Proof.
  intros Hs Hg. pose proof (length_chain seed (Z.to_nat g) Hs) as Hc.
  unfold next_key_salt, derive_key_salt, advance, ratchet_at, gen_key, key_material.
  cbn [chain_secret generation].
  destruct (hkdf_expand_ok _ KEY_MATERIAL_LABEL SRTP_KEY_MATERIAL_LEN Hc) as (ks & -> & Hks);
    [lens|].
  cbn [expect_ok mbind outcome_bind]. rewrite bool_decide_eq_true_2 by done.
  cbn [assert mbind outcome_bind or_empty].
  assert (chain seed (Z.to_nat (g + 1)) = chain_step (chain seed (Z.to_nat g))) as ->.
  { rewrite Z2Nat.inj_add by lia. change (Z.to_nat 1) with 1%nat.
    by rewrite Nat.add_comm. }
  unfold chain_step at 1.
  destruct (hkdf_expand_ok _ CHAIN_LABEL CHAIN_SECRET_LEN Hc) as (s & -> & Hsl);
    [lens|].
  cbn. by rewrite u64_id by width.
Qed.

Lemma next_key_salts_at seed n g :
  length seed = CHAIN_SECRET_LEN -> 0 <= g -> g + Z.of_nat n <= u64_max ->
  next_key_salts n (ratchet_at seed g) =
  Ret ((fun i => (g + Z.of_nat i, gen_key seed (g + Z.of_nat i))) <$> seq 0 n,
       ratchet_at seed (g + Z.of_nat n)).
Proof.
  intros Hs. revert g. induction n as [|n IH]; intros g Hg Hn.
  - cbn. by rewrite Z.add_0_r.
  - cbn [next_key_salts]. rewrite next_key_salt_at by (done || lia).
    cbn [mbind outcome_bind]. rewrite IH by lia. cbn [mbind outcome_bind].
    do 2 f_equal.
    + rewrite <- cons_seq, <- fmap_S_seq, fmap_cons, <- list_fmap_compose.
      rewrite Z.add_0_r. f_equal. apply list_fmap_ext. intros i x _. cbn.
      by replace (g + 1 + Z.of_nat x) with (g + Z.of_nat (S x)) by lia.
    + f_equal. lia.
Qed.

Lemma from_seed_at seed :
  length seed = CHAIN_SECRET_LEN -> from_seed seed = Ret (ratchet_at seed 0).
Proof. intros. unfold from_seed. by rewrite bool_decide_eq_true_2. Qed.

(** C19: For an active group, a stream's ratchet is seeded with the 32 bytes
    that the MLS exporter derives from the epoch's exporter secret for the
    label SRTP ratchet seed and the SSRC; its first n keys are the reference
    keys of generations 0 to n-1 of that seed, in order, and it then holds
    generation n's chain secret and nothing else. *)
Theorem ratchet_run group ssrc n :
  group_active group = true -> length (exporter_secret group) = HASH_LEN ->
  Z.of_nat n <= u64_max ->
  exists seed,
    derive_exported_secret (exporter_secret group) SRTP_RATCHET_SEED_LABEL (u32_be ssrc) CHAIN_SECRET_LEN = Ok seed /\
    length seed = CHAIN_SECRET_LEN /\
    seed_from_exporter group ssrc = Ret (mkStreamRatchet seed 0) /\
    next_key_salts n (mkStreamRatchet seed 0) =
      Ret ((fun i => (Z.of_nat i, gen_key seed (Z.of_nat i))) <$> seq 0 n,
           mkStreamRatchet (chain seed n) (Z.of_nat n)).
Proof.
  intros Hact Hlen Hn.
  destruct (export_secret_ok group SRTP_RATCHET_SEED_LABEL (build_exporter_context ssrc)
    CHAIN_SECRET_LEN) as (seed & Hx & Hs); [done|done|lens|cbn; lia|].
  exists seed. split; [|split; [done|split]].
  - by apply export_secret_derived.
  - unfold seed_from_exporter. rewrite Hx. by apply from_seed_at.
  - pose proof (next_key_salts_at seed n 0 Hs ltac:(lia) ltac:(lia)) as Hrun. unfold ratchet_at in Hrun.
    rewrite Z.add_0_l, Nat2Z.id in Hrun. exact Hrun.
Qed.

(** The key material splits into a 16-byte key and a 12-byte salt, and
    nothing is lost. *)
Lemma split_key_salt_spec seed g key salt :
  length seed = CHAIN_SECRET_LEN -> split_key_salt (gen_key seed g) = (key, salt) ->
  key ++ salt = gen_key seed g /\
  length key = AES_128_GCM_KEY_LEN /\ length salt = AES_128_GCM_SALT_LEN.
Proof.
  intros Hs [= <- <-]. pose proof (length_gen_key seed g Hs) as Hl.
  rewrite take_drop, length_take, length_drop, Hl. done.
Qed.

End Facts.

Import Toy.

Lemma ratchet_run_witness :
  group_active sample_group = true /\
  exists seed,
    derive_exported_secret (exporter_secret sample_group) SRTP_RATCHET_SEED_LABEL (u32_be 7) CHAIN_SECRET_LEN = Ok seed /\
    length seed = CHAIN_SECRET_LEN /\
    seed_from_exporter sample_group 7 = Ret (mkStreamRatchet seed 0) /\
    next_key_salts 3 (mkStreamRatchet seed 0) =
      Ret ((fun i => (Z.of_nat i, gen_key seed (Z.of_nat i))) <$> seq 0 3, mkStreamRatchet (chain seed 3) 3).
Proof.
  split; [reflexivity|]. apply (ratchet_run sample_group 7 3); [reflexivity|reflexivity|vm_compute; congruence].
Defined.
