(* ===== verification/Rdbx.v ===== *)
(** * Rdbx: libsrtp's extended replay database

    Models src/third_party/srtp2-sys/libsrtp/crypto/replay/rdbx.c and the
    bit-vector operations it uses (crypto/include/datatypes.h,
    crypto/math/datatypes.c): the 48-bit packet index, its estimation from a
    16-bit sequence number, and the sliding window of accepted indices.  The
    vector of 32-bit words is one integer, bit [i] of word [j] being bit
    [32 * j + i].

    [Replay] is the abstract specification, a set of accepted indices; the
    bit mask refines it. *)

From S2P Require Import Prelude IndexRecovery.

(** The status codes of libsrtp, as the Rust wrapper names them. *)
Inductive Error :=
| FAIL | BAD_PARAM | ALLOC_FAIL | DEALLOC_FAIL | INIT_FAIL | TERMINUS | AUTH_FAIL
| CIPHER_FAIL | REPLAY_FAIL | REPLAY_OLD | ALGO_FAIL | NO_SUCH_OP | NO_CTX | CANT_CHECK
| KEY_EXPIRED | SOCKET_ERR | SIGNAL_ERR | NONCE_BAD | READ_FAIL | WRITE_FAIL | PARSE_ERR
| ENCODE_ERR | SEMAPHORE_ERR | PFKEY_ERR | BAD_MKI | PKT_IDX_OLD | PKT_IDX_ADV.

#[export] Instance Error_eq_dec : EqDecision Error.
Proof. solve_decision. Defined.

Definition seq_num_median : Z := 32768.
Definition seq_num_max : Z := 65536.

Record srtp_rdbx := mkRdbx {
  rdbx_index : Z;
  rdbx_length : Z;
  rdbx_bitmask : Z
}.

(** ** Bit vectors *)

(** The length of an allocated vector: the request rounded up to whole words. *)
Definition bitvector_length (n : Z) : Z := (n + 31) / 32 * 32.
Definition bitvector_get_bit (v i : Z) : bool := Z.testbit v i.
Definition bitvector_set_bit (v i : Z) : Z := Z.lor v (Z.shiftl 1 i).
Definition bitvector_left_shift (length v shift : Z) : Z :=
  if length <=? shift then 0 else Z.shiftr v shift.

(** ** Operations *)

Definition rdbx_init (ws : Z) : result srtp_rdbx Error :=
  if ws =? 0 then Err BAD_PARAM else Ok (mkRdbx 0 (bitvector_length ws) 0).

(** The guess of the index, and its distance from the local one. *)
Definition index_guess (local s : Z) : Z * Z :=
  let local_roc := u32 (Z.shiftr local 16) in
  let local_seq := u16 local in
  let '(guess_roc, difference) :=
    if local_seq <? seq_num_median then
      if seq_num_median <? s - local_seq then (u32 (local_roc - 1), s - local_seq - seq_num_max)
      else (local_roc, s - local_seq)
    else if s <? local_seq - seq_num_median then (u32 (local_roc + 1), s - local_seq + seq_num_max)
    else (local_roc, s - local_seq) in
  (Z.lor (Z.shiftl guess_roc 16) s, difference).

Definition rdbx_estimate_index (r : srtp_rdbx) (s : Z) : Z * Z :=
  if seq_num_median <? rdbx_index r then index_guess (rdbx_index r) s
  else (s, s - u16 (rdbx_index r)).

Definition rdbx_check (r : srtp_rdbx) (delta : Z) : option Error :=
  if 0 <? delta then None
  else if rdbx_length r - 1 + delta <? 0 then Some REPLAY_OLD
  else if bitvector_get_bit (rdbx_bitmask r) (rdbx_length r - 1 + delta) then Some REPLAY_FAIL
  else None.

Definition rdbx_add_index (r : srtp_rdbx) (delta : Z) : srtp_rdbx :=
  let n := rdbx_length r in
  if 0 <? delta then
    mkRdbx (u64 (rdbx_index r + u16 delta)) n
      (bitvector_set_bit (bitvector_left_shift n (rdbx_bitmask r) delta) (n - 1))
  else mkRdbx (rdbx_index r) n (bitvector_set_bit (rdbx_bitmask r) (n - 1 + delta)).

(** ** Specification: a window over the set of accepted indices *)

Module Replay.

Record t := mk { top : Z; window : Z; seen : gset Z }.

Definition init (ws : Z) : t := mk 0 ws ∅.

Definition check (s : t) (i : Z) : option Error :=
  if top s <? i then None
  else if i <=? top s - window s then Some REPLAY_OLD
  else if bool_decide (i ∈ seen s) then Some REPLAY_FAIL
  else None.

Definition add (s : t) (i : Z) : t := mk (Z.max (top s) i) (window s) ({[i]} ∪ seen s).

(** Accepted indices never exceed the top. *)
Definition ok (s : t) : Prop := 0 < window s /\ forall i, i ∈ seen s -> i <= top s.

Lemma init_ok ws : 0 < ws -> ok (init ws).
Proof. intros Hw. split; [done|]. cbn. set_solver. Qed.

Lemma add_ok s i : ok s -> ok (add s i).
Proof.
  intros [Hw Hs]. split; [done|]. intros j. cbn.
  rewrite elem_of_union, elem_of_singleton. intros [->|Hj%Hs]; lia.
Qed.

(** An accepted index is never accepted again, whatever is added later. *)
Lemma check_seen s i : ok s -> i ∈ seen s -> is_Some (check s i).
Proof.
  intros [_ Hs] Hi. unfold check. pose proof (Hs i Hi).
  destruct (Z.ltb_spec (top s) i); [lia|].
  destruct (Z.leb_spec i (top s - window s)); [eauto|].
  rewrite bool_decide_eq_true_2 by done. eauto.
Qed.

End Replay.

(** The bit mask of [r] lists, from the top down, which of the last
    [rdbx_length r] indices were accepted. *)
Definition rdbx_refines (r : srtp_rdbx) (s : Replay.t) : Prop :=
  rdbx_index r = Replay.top s /\ rdbx_length r = Replay.window s /\
  0 <= rdbx_bitmask r /\
  (forall b, rdbx_length r <= b -> Z.testbit (rdbx_bitmask r) b = false) /\
  (forall j, 0 <= j < rdbx_length r ->
    Z.testbit (rdbx_bitmask r) (rdbx_length r - 1 - j) =
    bool_decide (Replay.top s - j ∈ Replay.seen s)).

Lemma testbit_set v i j :
  0 <= i -> Z.testbit (bitvector_set_bit v i) j = Z.testbit v j || (j =? i).
Proof.
  intros Hi. unfold bitvector_set_bit. rewrite Z.lor_spec, Z.shiftl_1_l, Z.pow2_bits_eqb by done.
  by rewrite (Z.eqb_sym i j).
Qed.

Lemma testbit_shift n v d j :
  0 <= d -> 0 <= j ->
  (forall b, n <= b -> Z.testbit v b = false) ->
  Z.testbit (bitvector_left_shift n v d) j = Z.testbit v (j + d).
Proof.
  intros Hd Hj Hhi. unfold bitvector_left_shift. destruct (Z.leb_spec n d).
  - rewrite Z.bits_0, Hhi; [done|lia].
  - by rewrite Z.shiftr_spec.
Qed.

Lemma rdbx_init_refines ws r :
  0 < ws -> rdbx_init ws = Ok r -> rdbx_refines r (Replay.init (bitvector_length ws)).
Proof.
  intros Hw. unfold rdbx_init. destruct (Z.eqb_spec ws 0); [lia|]. intros <-%(inj Ok).
  split_and!; cbn; try done; intros; by rewrite Z.bits_0.
Qed.

Lemma rdbx_check_refines r s delta :
  rdbx_refines r s -> Replay.ok s ->
  rdbx_check r delta = Replay.check s (Replay.top s + delta).
Proof.
  intros (Htop & Hlen & Hpos & Hhi & Hbits) [Hw Hseen].
  unfold rdbx_check, Replay.check, bitvector_get_bit.
  destruct (Z.ltb_spec 0 delta), (Z.ltb_spec (Replay.top s) (Replay.top s + delta)); try lia; [done|].
  rewrite <- Hlen in *.
  destruct (Z.ltb_spec (rdbx_length r - 1 + delta) 0),
    (Z.leb_spec (Replay.top s + delta) (Replay.top s - rdbx_length r)); try lia; [done|].
  pose proof (Hbits (- delta) ltac:(lia)) as Hb.
  replace (rdbx_length r - 1 - - delta) with (rdbx_length r - 1 + delta) in Hb by lia.
  replace (Replay.top s - - delta) with (Replay.top s + delta) in Hb by lia.
  rewrite Hb. by case_bool_decide.
Qed.

Lemma rdbx_add_refines r s delta :
  rdbx_refines r s -> Replay.ok s ->
  - rdbx_length r < delta < 65536 -> 0 <= Replay.top s -> Replay.top s + delta < 2 ^ 64 ->
  rdbx_refines (rdbx_add_index r delta) (Replay.add s (Replay.top s + delta)).
Proof.
  intros (Htop & Hlen & Hpos & Hhi & Hbits) [Hw Hseen] Hd Ht Hmax.
  unfold rdbx_add_index. destruct (Z.ltb_spec 0 delta).
  - split_and!; cbn [rdbx_index rdbx_length rdbx_bitmask Replay.top Replay.window Replay.seen Replay.add];
      [|done|..].
    + rewrite Htop, u64_id by (unfold u16; width). unfold u16. rewrite Z.mod_small by lia. lia.
    + unfold bitvector_set_bit. apply Z.lor_nonneg. split; [|rewrite Z.shiftl_1_l; lia].
      unfold bitvector_left_shift. case_match; [lia|by apply Z.shiftr_nonneg].
    + intros b Hb. rewrite testbit_set, testbit_shift, Hhi by (done || lia). bool_to_prop; cbn; lia.
    + intros j Hj. rewrite Z.max_r, testbit_set, testbit_shift by (done || lia).
      replace (rdbx_length r - 1 - j + delta) with (rdbx_length r - 1 - (j - delta)) by lia.
      destruct (decide (j < delta)) as [Hlt|Hge].
      * rewrite Hhi by lia. cbn [orb]. symmetry.
        destruct (Z.eqb_spec (rdbx_length r - 1 - j) (rdbx_length r - 1)) as [E|E].
        -- rewrite bool_decide_eq_true_2; [done|]. set_solver by lia.
        -- rewrite bool_decide_eq_false_2; [done|].
           rewrite elem_of_union, elem_of_singleton. intros [?|?%Hseen]; lia.
      * rewrite Hbits by lia. destruct (Z.eqb_spec (rdbx_length r - 1 - j) (rdbx_length r - 1)); [lia|].
        rewrite orb_false_r. apply bool_decide_ext.
        replace (Replay.top s + delta - j) with (Replay.top s - (j - delta)) by lia.
        rewrite elem_of_union, elem_of_singleton. split; [naive_solver|]. intros [?|?]; [lia|done].
  - split_and!; cbn [rdbx_index rdbx_length rdbx_bitmask Replay.top Replay.window Replay.seen Replay.add];
      [lia|done|..].
    + unfold bitvector_set_bit. apply Z.lor_nonneg. split; [done|rewrite Z.shiftl_1_l; lia].
    + intros b Hb. rewrite testbit_set, Hhi by (done || lia). bool_to_prop; cbn; lia.
    + intros j Hj. rewrite Z.max_l, testbit_set, Hbits by (done || lia).
      destruct (Z.eqb_spec (rdbx_length r - 1 - j) (rdbx_length r - 1 + delta)) as [E|E].
      * rewrite orb_true_r, bool_decide_eq_true_2; [done|]. rewrite elem_of_union, elem_of_singleton. lia.
      * rewrite orb_false_r. apply bool_decide_ext.
        rewrite elem_of_union, elem_of_singleton. split; [naive_solver|]. intros [?|?]; [lia|done].
Qed.

(** ** Index estimation *)

Lemma lor_join v s : 0 <= v < 4294967296 -> in_u16 s -> Z.lor (Z.shiftl v 16) s = 65536 * v + s.
Proof.
  intros Hv Hs. rewrite <- join_roc_seq by (done || lia).
  rewrite u64_id; [done|]. rewrite Z.shiftl_mul_pow2 by lia. change (2 ^ 16) with 65536. width.
Qed.

(** libsrtp's estimate and the receiver's [recover] agree, and the returned
    difference leads from the database's index to the estimate. *)
Lemma estimate_recover r s :
  0 <= rdbx_index r < 2 ^ 48 - 65536 -> in_u16 s ->
  rdbx_estimate_index r s =
  (recover (mkIndexRecovery (Some (rdbx_index r))) s,
   recover (mkIndexRecovery (Some (rdbx_index r))) s - rdbx_index r).
Proof.
  intros Hr Hs. rewrite recover_arith by (try done; unfold u64_max; lia).
  unfold rdbx_estimate_index, index_guess, seq_num_median, seq_num_max.
  rewrite Z.shiftr_div_pow2 by lia. change (2 ^ 16) with 65536.
  unfold in_u16, u16, u32 in *.
  destruct (Z.ltb_spec 32768 (rdbx_index r)).
  - destruct (Z.ltb_spec (rdbx_index r mod 65536) 32768);
    [destruct (Z.ltb_spec 32768 (s - rdbx_index r mod 65536))
    |destruct (Z.ltb_spec s (rdbx_index r mod 65536 - 32768))].
    all: rewrite lor_join by (unfold in_u16; lia); f_equal; lia.
  - destruct (Z.ltb_spec (rdbx_index r mod 65536) 32768);
    [destruct (Z.ltb_spec 32768 (s - rdbx_index r mod 65536))
    |destruct (Z.ltb_spec s (rdbx_index r mod 65536 - 32768))].
    all: f_equal; lia.
Qed.

(** The estimate stays within one range of the database's index. *)
Lemma recover_step h s :
  0 <= h < u64_max - 65536 -> in_u16 s ->
  0 <= recover (mkIndexRecovery (Some h)) s < h + 65536.
Proof.
  intros Hh Hs. rewrite recover_arith by done. unfold in_u16 in Hs.
  repeat case_match; bool_to_prop; try lia; discriminate.
Qed.

(** ** Replay protection over a whole run *)

(** What [srtp_unprotect] does with the database for one authentic packet:
    estimate, check, and record the index if the check passed. *)
Definition rdbx_accept (r : srtp_rdbx) (s : Z) : option Z * srtp_rdbx :=
  let '(est, delta) := rdbx_estimate_index r s in
  match rdbx_check r delta with
  | Some _ => (None, r)
  | None => (Some est, rdbx_add_index r delta)
  end.

Fixpoint rdbx_accept_all (r : srtp_rdbx) (seqs : list Z) : list Z :=
  match seqs with
  | [] => []
  | s :: seqs =>
      let '(o, r') := rdbx_accept r s in
      (match o with Some i => [i] | None => [] end) ++ rdbx_accept_all r' seqs
  end.

Lemma check_window s i : Replay.check s i = None -> 0 < Replay.window s -> Replay.top s - Replay.window s < i.
Proof. unfold Replay.check. intros H Hw. repeat case_match; bool_to_prop; try done; lia. Qed.

(** The step lemma: an accepted index is the specification's. *)
Lemma rdbx_accept_spec r s seq :
  rdbx_refines r s -> Replay.ok s -> 0 <= Replay.top s < 2 ^ 48 - 65536 -> in_u16 seq ->
  let est := recover (mkIndexRecovery (Some (Replay.top s))) seq in
  match Replay.check s est with
  | Some _ => rdbx_accept r seq = (None, r)
  | None =>
      exists r', rdbx_accept r seq = (Some est, r') /\ rdbx_refines r' (Replay.add s est)
  end.
Proof.
  intros Href Hok Htop Hseq est. pose proof Href as (Hidx & Hlen & _).
  unfold rdbx_accept. rewrite estimate_recover by (rewrite ?Hidx; done). rewrite Hidx.
  fold est. rewrite (rdbx_check_refines r s) by done.
  replace (Replay.top s + (est - Replay.top s)) with est by lia.
  destruct (Replay.check s est) eqn:Hc; [done|].
  eexists. split; [done|].
  pose proof (recover_step (Replay.top s) seq ltac:(unfold u64_max; lia) Hseq) as Hst. fold est in Hst.
  apply check_window in Hc; [|apply Hok].
  replace est with (Replay.top s + (est - Replay.top s)) at 2 by lia.
  apply rdbx_add_refines; try done; lia.
Qed.

Lemma rdbx_accept_all_nodup r s seqs :
  rdbx_refines r s -> Replay.ok s -> 0 <= Replay.top s ->
  Replay.top s + 65536 * Z.of_nat (length seqs) < 2 ^ 48 - 65536 -> Forall in_u16 seqs ->
  NoDup (rdbx_accept_all r seqs) /\
  forall i, i ∈ rdbx_accept_all r seqs -> i ∉ Replay.seen s.
Proof.
  revert r s. induction seqs as [|seq seqs IH]; intros r s Href Hok Htop Hmax Hseqs.
  { cbn. split; [constructor|set_solver]. }
  apply Forall_cons in Hseqs as [Hseq Hseqs]. cbn [rdbx_accept_all length] in *.
  pose proof (rdbx_accept_spec r s seq Href Hok ltac:(lia) Hseq) as Hstep. cbn zeta in Hstep.
  set (est := recover _ seq) in *.
  pose proof (recover_step (Replay.top s) seq ltac:(unfold u64_max; lia) Hseq) as Hst. fold est in Hst.
  destruct (Replay.check s est) eqn:Hc.
  - rewrite Hstep. cbn [app]. apply IH; try done; lia.
  - destruct Hstep as (r' & -> & Href'). cbn [app].
    destruct (IH r' (Replay.add s est)) as [Hnd Hdis]; [done|by apply Replay.add_ok|cbn [Replay.top Replay.add]; lia..|done|].
    assert (est ∉ Replay.seen s) as Hnew.
    { intros Hin. destruct (Replay.check_seen s est Hok Hin). congruence. }
    split.
    + constructor; [|done]. intros Hin%Hdis. cbn in Hin. set_solver.
    + intros i [->|Hi]%elem_of_cons; [done|]. apply Hdis in Hi. cbn in Hi. set_solver.
Qed.

(** C17: libsrtp's replay database never accepts the same packet index twice,
    whatever sequence of sequence numbers it is shown. *)
Theorem replay_never_accepted ws r seqs :
  0 < ws -> rdbx_init ws = Ok r -> Forall in_u16 seqs ->
  65536 * Z.of_nat (length seqs) < 2 ^ 48 - 65536 ->
  NoDup (rdbx_accept_all r seqs).
Proof.
  intros Hws Hinit Hseqs Hmax.
  eapply (rdbx_accept_all_nodup r (Replay.init (bitvector_length ws)));
    [by apply rdbx_init_refines|apply Replay.init_ok; unfold bitvector_length; lia|done|done|done].
Qed.

(** C21: IndexRecovery::recover in Rust and libsrtp's index estimate in C are
    the same function of the highest index and the sequence number, so the
    receiver's generation bookkeeping and the cipher's nonce always refer to
    the same packet index. *)
Theorem estimate_agrees r s :
  0 <= rdbx_index r < 2 ^ 48 - 65536 -> in_u16 s ->
  fst (rdbx_estimate_index r s) = recover (mkIndexRecovery (Some (rdbx_index r))) s /\
  rdbx_index r + snd (rdbx_estimate_index r s) = fst (rdbx_estimate_index r s).
Proof. intros Hr Hs. rewrite estimate_recover by done. cbn [fst snd]. lia. Qed.

Lemma replay_never_accepted_witness :
  rdbx_accept_all (mkRdbx 0 128 0) [5; 7; 5; 6; 7] = [5; 7; 6] /\
  NoDup (rdbx_accept_all (mkRdbx 0 128 0) [5; 7; 5; 6; 7]).
Proof.
  split; [vm_compute; reflexivity|].
  apply (replay_never_accepted 128 (mkRdbx 0 128 0) [5; 7; 5; 6; 7]);
    [lia|reflexivity|repeat constructor; done|cbn; lia].
Defined.

Lemma estimate_agrees_witness :
  fst (rdbx_estimate_index (mkRdbx 65530 128 0) 3) = recover (mkIndexRecovery (Some 65530)) 3 /\
  65530 + snd (rdbx_estimate_index (mkRdbx 65530 128 0) 3) =
    fst (rdbx_estimate_index (mkRdbx 65530 128 0) 3).
Proof. apply (estimate_agrees (mkRdbx 65530 128 0) 3); [cbn; lia|width]. Defined.
