(* ===== verification/Rdb.v ===== *)
(** * Rdb: the SRTCP replay database
      (src/third_party/srtp2-sys/libsrtp/crypto/replay/rdb.c)

    A 128-bit window over 31-bit packet indices, starting at [window_start];
    the sender uses [window_start] as its packet counter.  The database
    refines the same abstract window as the SRTP one (Rdbx.v). *)

From S2P Require Import Prelude Rdbx.

Record srtp_rdb := mkRdb {
  window_start : Z;
  rdb_bitmask : Z
}.

Definition rdb_bits_in_bitmask : Z := 128.

Definition rdb_init : srtp_rdb := mkRdb 0 0.

Definition rdb_check (rdb : srtp_rdb) (p_index : Z) : option Error :=
  if window_start rdb + rdb_bits_in_bitmask <=? p_index then None
  else if p_index <? window_start rdb then Some REPLAY_OLD
  else if bitvector_get_bit (rdb_bitmask rdb) (p_index - window_start rdb) then Some REPLAY_FAIL
  else None.

Definition rdb_add_index (rdb : srtp_rdb) (p_index : Z) : srtp_rdb :=
  if p_index <? window_start rdb then rdb
  else
    let delta := p_index - window_start rdb in
    if delta <? rdb_bits_in_bitmask then
      mkRdb (window_start rdb) (bitvector_set_bit (rdb_bitmask rdb) delta)
    else
      let delta := delta - (rdb_bits_in_bitmask - 1) in
      mkRdb (u32 (window_start rdb + delta))
        (bitvector_set_bit (bitvector_left_shift rdb_bits_in_bitmask (rdb_bitmask rdb) delta)
          (rdb_bits_in_bitmask - 1)).

Definition rdb_increment (rdb : srtp_rdb) : option Error * srtp_rdb :=
  if 0x7fffffff <=? window_start rdb then (Some KEY_EXPIRED, rdb)
  else (None, mkRdb (u32 (window_start rdb + 1)) (rdb_bitmask rdb)).

Definition rdb_get_value (rdb : srtp_rdb) : Z := window_start rdb.

(** ** Refinement of the abstract window *)

Definition rdb_refines (r : srtp_rdb) (s : Replay.t) : Prop :=
  Replay.window s = rdb_bits_in_bitmask /\ Replay.top s = window_start r + 127 /\ 0 <= window_start r /\
  (forall b, 128 <= b -> Z.testbit (rdb_bitmask r) b = false) /\
  (forall b, 0 <= b < 128 ->
    Z.testbit (rdb_bitmask r) b = bool_decide (window_start r + b ∈ Replay.seen s)).

(** A new database: the window is [0..127] and nothing was accepted. *)
Definition rdb_replay0 : Replay.t := Replay.mk 127 rdb_bits_in_bitmask ∅.

Lemma rdb_init_refines : rdb_refines rdb_init rdb_replay0 /\ Replay.ok rdb_replay0.
Proof.
  split; [|split; [done|cbn; set_solver]]. split_and!; cbn; try done; [intros; by rewrite Z.bits_0|].
  intros b Hb. by rewrite Z.bits_0.
Qed.

Lemma rdb_check_refines r s i : rdb_refines r s -> rdb_check r i = Replay.check s i.
Proof.
  intros (Hw & Htop & Hpos & _ & Hbits). unfold rdb_check, Replay.check, bitvector_get_bit.
  rewrite Hw, Htop. unfold rdb_bits_in_bitmask in *.
  destruct (Z.leb_spec (window_start r + 128) i), (Z.ltb_spec (window_start r + 127) i); try lia; [done|].
  destruct (Z.ltb_spec i (window_start r)), (Z.leb_spec i (window_start r + 127 - 128)); try lia; [done|].
  rewrite Hbits by lia. replace (window_start r + (i - window_start r)) with i by lia. by case_bool_decide.
Qed.

Lemma rdb_add_refines r s i :
  rdb_refines r s -> Replay.ok s -> Replay.check s i = None -> i < 2 ^ 31 ->
  rdb_refines (rdb_add_index r i) (Replay.add s i).
Proof.
  intros Href [_ Hseen] Hchk Hmax. pose proof Href as (Hw & Htop & Hpos & Hhi & Hbits).
  assert (window_start r <= i) as Hlow.
  { revert Hchk. unfold Replay.check. rewrite Hw, Htop. unfold rdb_bits_in_bitmask.
    destruct (Z.ltb_spec (window_start r + 127) i); [lia|].
    destruct (Z.leb_spec i (window_start r + 127 - 128)); [done|lia]. }
  unfold rdb_add_index, rdb_bits_in_bitmask in *. destruct (Z.ltb_spec i (window_start r)); [lia|].
  destruct (Z.ltb_spec (i - window_start r) 128) as [Hin|Hout].
  - split_and!; cbn [window_start rdb_bitmask Replay.add Replay.top Replay.window Replay.seen]; [done|lia|done|..].
    + intros b Hb. rewrite testbit_set, Hhi by lia. bool_to_prop; cbn; lia.
    + intros b Hb. rewrite testbit_set, Hbits by lia. destruct (Z.eqb_spec b (i - window_start r)) as [E|E].
      * rewrite orb_true_r, bool_decide_eq_true_2; [done|]. rewrite elem_of_union, elem_of_singleton. lia.
      * rewrite orb_false_r. apply bool_decide_ext. rewrite elem_of_union, elem_of_singleton.
        split; [naive_solver|]. intros [?|?]; [lia|done].
  - change (128 - 1) with 127. set (d := i - window_start r - 127).
    assert (u32 (window_start r + d) = i - 127) as Hu by (unfold d; rewrite u32_id; [lia|width]).
    split_and!; cbn [window_start rdb_bitmask Replay.add Replay.top Replay.window Replay.seen]; rewrite ?Hu; [done|lia|lia|..].
    + intros b Hb. rewrite testbit_set, testbit_shift, Hhi by (done || lia). bool_to_prop; cbn; lia.
    + intros b Hb. rewrite testbit_set, testbit_shift by (done || lia).
      destruct (decide (b + d < 128)) as [Hlt|Hge].
      * rewrite Hbits by lia. replace (i - 127 + b) with (window_start r + (b + d)) by lia.
        destruct (Z.eqb_spec b 127) as [E|E]; [lia|]. rewrite orb_false_r. apply bool_decide_ext.
        rewrite elem_of_union, elem_of_singleton. split; [naive_solver|]. intros [?|?]; [lia|done].
      * rewrite Hhi by lia. cbn [orb]. symmetry. destruct (Z.eqb_spec b 127) as [E|E].
        -- rewrite bool_decide_eq_true_2; [done|]. rewrite elem_of_union, elem_of_singleton. lia.
        -- rewrite bool_decide_eq_false_2; [done|]. rewrite elem_of_union, elem_of_singleton.
           intros [?|?%Hseen]; lia.
Qed.
