(* ===== verification/Kdf.v ===== *)
(** * Kdf: crypto policies and libsrtp's session keys

    Models the policies of the srtp crate
    (src/third_party/srtp/src/crypto_policy.rs with the setters of libsrtp's
    srtp.c), the key-length check of [StreamPolicy::sys_policy], and
    [srtp_stream_init_keys], which derives the session keys of a stream from
    its master key with AES in counter mode (srtp_kdf_t, aes_icm_ossl.c).
    AES-CTR itself is OpenSSL's.  No policy of the program encrypts header
    extensions, so their cipher is absent.  The theorems compare the
    derivation with RFC 3711 and RFC 7714. *)

From S2P Require Import Prelude Bytes Crypto Rdbx.

(** ** Policies *)

Inductive CipherType := NULL_CIPHER | AES_ICM_128 | AES_ICM_192 | AES_ICM_256 | AES_GCM_128 | AES_GCM_256.
Inductive AuthType := NULL_AUTH | HMAC_SHA1.
Inductive SecServ := sec_serv_none | sec_serv_conf | sec_serv_auth | sec_serv_conf_and_auth.

#[export] Instance CipherType_eq_dec : EqDecision CipherType.
Proof. solve_decision. Defined.

Record CryptoPolicy := mkCryptoPolicy {
  cipher_type : CipherType;
  cipher_key_len : nat;
  auth_type : AuthType;
  auth_key_len : nat;
  auth_tag_len : nat;
  sec_serv : SecServ
}.

Definition SRTP_SALT_LEN : nat := 14.
Definition SRTP_AEAD_SALT_LEN : nat := 12.
Definition SRTP_AES_ICM_128_KEY_LEN_WSALT : nat := 30.
Definition SRTP_AES_ICM_192_KEY_LEN_WSALT : nat := 38.
Definition SRTP_AES_ICM_256_KEY_LEN_WSALT : nat := 46.
Definition SRTP_AES_GCM_128_KEY_LEN_WSALT : nat := 28.
Definition SRTP_AES_GCM_256_KEY_LEN_WSALT : nat := 44.
Definition MAX_SRTP_KEY_LEN : nat := 256.

(** The policies of the crate, by the names of its constructors. *)
Inductive Policy :=
| aes_cm_128_hmac_sha1_80
| aes_cm_128_hmac_sha1_32
| aes_cm_128_null_auth
| null_cipher_hmac_sha1_80
| null_cipher_hmac_null
| aes_cm_256_hmac_sha1_80
| aes_cm_256_hmac_sha1_32
| aes_cm_256_null_auth
| aes_cm_192_hmac_sha1_80
| aes_cm_192_hmac_sha1_32
| aes_cm_192_null_auth
| aes_gcm_128_8_auth
| aes_gcm_256_8_auth
| aes_gcm_128_8_only_auth
| aes_gcm_256_8_only_auth
| aes_gcm_128_16_auth
| aes_gcm_256_16_auth.

Definition crypto_policy (p : Policy) : CryptoPolicy :=
  match p with
  | aes_cm_128_hmac_sha1_80 =>
      mkCryptoPolicy AES_ICM_128 SRTP_AES_ICM_128_KEY_LEN_WSALT HMAC_SHA1 20 10 sec_serv_conf_and_auth
  | aes_cm_128_hmac_sha1_32 =>
      mkCryptoPolicy AES_ICM_128 SRTP_AES_ICM_128_KEY_LEN_WSALT HMAC_SHA1 20 4 sec_serv_conf_and_auth
  | aes_cm_128_null_auth =>
      mkCryptoPolicy AES_ICM_128 SRTP_AES_ICM_128_KEY_LEN_WSALT NULL_AUTH 0 0 sec_serv_conf
  | null_cipher_hmac_sha1_80 =>
      mkCryptoPolicy NULL_CIPHER SRTP_AES_ICM_128_KEY_LEN_WSALT HMAC_SHA1 20 10 sec_serv_auth
  | null_cipher_hmac_null =>
      mkCryptoPolicy NULL_CIPHER 0 NULL_AUTH 0 0 sec_serv_none
  | aes_cm_256_hmac_sha1_80 =>
      mkCryptoPolicy AES_ICM_256 SRTP_AES_ICM_256_KEY_LEN_WSALT HMAC_SHA1 20 10 sec_serv_conf_and_auth
  | aes_cm_256_hmac_sha1_32 =>
      mkCryptoPolicy AES_ICM_256 SRTP_AES_ICM_256_KEY_LEN_WSALT HMAC_SHA1 20 4 sec_serv_conf_and_auth
  | aes_cm_256_null_auth =>
      mkCryptoPolicy AES_ICM_256 SRTP_AES_ICM_256_KEY_LEN_WSALT NULL_AUTH 0 0 sec_serv_conf
  | aes_cm_192_hmac_sha1_80 =>
      mkCryptoPolicy AES_ICM_192 SRTP_AES_ICM_192_KEY_LEN_WSALT HMAC_SHA1 20 10 sec_serv_conf_and_auth
  | aes_cm_192_hmac_sha1_32 =>
      mkCryptoPolicy AES_ICM_192 SRTP_AES_ICM_192_KEY_LEN_WSALT HMAC_SHA1 20 4 sec_serv_conf_and_auth
  | aes_cm_192_null_auth =>
      mkCryptoPolicy AES_ICM_192 SRTP_AES_ICM_192_KEY_LEN_WSALT NULL_AUTH 0 0 sec_serv_conf
  | aes_gcm_128_8_auth =>
      mkCryptoPolicy AES_GCM_128 SRTP_AES_GCM_128_KEY_LEN_WSALT NULL_AUTH 0 8 sec_serv_conf_and_auth
  | aes_gcm_256_8_auth =>
      mkCryptoPolicy AES_GCM_256 SRTP_AES_GCM_256_KEY_LEN_WSALT NULL_AUTH 0 8 sec_serv_conf_and_auth
  | aes_gcm_128_8_only_auth =>
      mkCryptoPolicy AES_GCM_128 SRTP_AES_GCM_128_KEY_LEN_WSALT NULL_AUTH 0 8 sec_serv_auth
  | aes_gcm_256_8_only_auth =>
      mkCryptoPolicy AES_GCM_256 SRTP_AES_GCM_256_KEY_LEN_WSALT NULL_AUTH 0 8 sec_serv_auth
  | aes_gcm_128_16_auth =>
      mkCryptoPolicy AES_GCM_128 SRTP_AES_GCM_128_KEY_LEN_WSALT NULL_AUTH 0 16 sec_serv_conf_and_auth
  | aes_gcm_256_16_auth =>
      mkCryptoPolicy AES_GCM_256 SRTP_AES_GCM_256_KEY_LEN_WSALT NULL_AUTH 0 16 sec_serv_conf_and_auth
  end.

(** [StreamPolicy::sys_policy]: the key must be long enough for both ciphers. *)
Definition sys_policy (rtp rtcp : CryptoPolicy) (key : bytes) : result unit Error :=
  if bool_decide (length key < max (cipher_key_len rtp) (cipher_key_len rtcp))%nat then Err BAD_PARAM else Ok tt.

(** ** Key derivation *)

Definition label_rtp_encryption : Z := 0.
Definition label_rtp_msg_auth : Z := 1.
Definition label_rtp_salt : Z := 2.
Definition label_rtcp_encryption : Z := 3.
Definition label_rtcp_msg_auth : Z := 4.
Definition label_rtcp_salt : Z := 5.

(** [srtp_kdf_t]: the AES key and the 128-bit offset of the counter-mode
    cipher (aes_icm_ossl.c). *)
Record srtp_kdf := mkKdf {
  kdf_key : bytes;
  kdf_offset : bytes
}.

(** The cipher for a key with salt of this length, and its key size. *)
Definition icm_key_size (key_len : nat) : option nat :=
  if bool_decide (key_len = SRTP_AES_ICM_256_KEY_LEN_WSALT) then Some 32%nat
  else if bool_decide (key_len = SRTP_AES_ICM_192_KEY_LEN_WSALT) then Some 24%nat
  else if bool_decide (key_len = SRTP_AES_ICM_128_KEY_LEN_WSALT) then Some 16%nat
  else None.

(** Allocation and [srtp_aes_icm_openssl_context_init]. *)
Definition srtp_kdf_init (key : bytes) (key_len : nat) : result srtp_kdf Error :=
  match icm_key_size key_len with
  | Some key_size => Ok (mkKdf (take key_size key) (take SRTP_SALT_LEN (drop key_size key) ++ [0; 0]))
  | None => Err BAD_PARAM
  end.

(** The nonce: the label in the eighth octet. *)
Definition kdf_nonce (label : Z) : bytes := replicate 7 0 ++ [label] ++ replicate 8 0.

(** The counter [set_iv] starts from. *)
Definition kdf_counter (kdf : srtp_kdf) (label : Z) : bytes :=
  zip_with Z.lxor (kdf_offset kdf) (kdf_nonce label).

Definition base_key_length (cipher : CipherType) (key_length : nat) : nat :=
  match cipher with
  | NULL_CIPHER => 0
  | AES_ICM_128 | AES_ICM_192 | AES_ICM_256 => key_length - SRTP_SALT_LEN
  | AES_GCM_128 | AES_GCM_256 => key_length - SRTP_AEAD_SALT_LEN
  end.

Definition full_key_length (cipher : CipherType) : nat :=
  match cipher with
  | NULL_CIPHER => 0
  | AES_ICM_128 => SRTP_AES_ICM_128_KEY_LEN_WSALT
  | AES_ICM_192 => SRTP_AES_ICM_192_KEY_LEN_WSALT
  | AES_ICM_256 => SRTP_AES_ICM_256_KEY_LEN_WSALT
  | AES_GCM_128 => SRTP_AES_GCM_128_KEY_LEN_WSALT
  | AES_GCM_256 => SRTP_AES_GCM_256_KEY_LEN_WSALT
  end.

Definition full_auth_key_length (auth : AuthType) : nat :=
  match auth with NULL_AUTH => 0 | HMAC_SHA1 => SRTP_AES_ICM_128_KEY_LEN_WSALT end.

(** How many bytes of the master key are read. *)
Definition input_keylen (rtp rtcp : CryptoPolicy) : nat :=
  max (max (max (full_key_length (cipher_type rtp)) (full_auth_key_length (auth_type rtp)))
    (full_key_length (cipher_type rtcp))) (full_auth_key_length (auth_type rtcp)).

Definition kdf_keylen (rtp rtcp : CryptoPolicy) : nat :=
  let n := max (max (max 30 (cipher_key_len rtp)) (cipher_key_len rtcp)) (input_keylen rtp rtcp) in
  if bool_decide (n = SRTP_AES_GCM_128_KEY_LEN_WSALT \/ n = SRTP_AES_GCM_256_KEY_LEN_WSALT) then n + 2 else n.

(** The keys of one direction: what the cipher is initialised with (key and
    salt), the salt kept for AEAD, and the authentication key. *)
Record SessionKeys := mkSessionKeys {
  sk_key : bytes;
  sk_cipher_salt : bytes;
  sk_salt : bytes;
  sk_auth_key : bytes
}.

Section Kdf.
Context {CR : Crypto}.

(** The keystream over a zeroed buffer. *)
Definition srtp_kdf_generate (kdf : srtp_kdf) (label : Z) (len : nat) : bytes :=
  aes_ctr (kdf_key kdf) (kdf_counter kdf label) (replicate len 0).

Definition direction_keys (kdf : srtp_kdf) (p : CryptoPolicy) (l_enc l_salt l_auth : Z) : SessionKeys :=
  let base_key_len := base_key_length (cipher_type p) (cipher_key_len p) in
  let salt_len := (cipher_key_len p - base_key_len)%nat in
  let salt := if bool_decide (0 < salt_len)%nat then srtp_kdf_generate kdf l_salt salt_len else [] in
  mkSessionKeys (srtp_kdf_generate kdf l_enc base_key_len) salt
    (if bool_decide (0 < salt_len)%nat then take SRTP_AEAD_SALT_LEN salt else replicate SRTP_AEAD_SALT_LEN 0)
    (srtp_kdf_generate kdf l_auth (auth_key_len p)).

(** [srtp_stream_init_keys]: the RTP and the RTCP keys. *)
Definition stream_init_keys (rtp rtcp : CryptoPolicy) (key : bytes) : result (SessionKeys * SessionKeys) Error :=
  let input := input_keylen rtp rtcp in
  if bool_decide (cipher_key_len rtp < input /\ cipher_key_len rtcp < input)%nat then Err BAD_PARAM
  else
    let tmp_key := take input key ++ replicate (MAX_SRTP_KEY_LEN - input) 0 in
    match srtp_kdf_init tmp_key (kdf_keylen rtp rtcp) with
    | Err _ => Err INIT_FAIL
    | Ok kdf =>
        Ok (direction_keys kdf rtp label_rtp_encryption label_rtp_salt label_rtp_msg_auth,
            direction_keys kdf rtcp label_rtcp_encryption label_rtcp_salt label_rtcp_msg_auth)
    end.

(** The program's streams: AES-128-GCM for RTP and RTCP. *)
Abbreviation gcm := (crypto_policy aes_gcm_128_16_auth).

Lemma sys_policy_gcm key : (28 <= length key)%nat -> sys_policy gcm gcm key = Ok tt.
Proof. intros Hk. unfold sys_policy. by rewrite bool_decide_eq_false_2 by (cbn; unfold SRTP_AES_GCM_128_KEY_LEN_WSALT; lia). Qed.

Lemma gcm_keys_some key : exists ks, stream_init_keys gcm gcm key = Ok ks.
Proof. by eexists. Qed.

End Kdf.
Abbreviation gcm := (crypto_policy aes_gcm_128_16_auth).
