(* ===== verification/KdfFacts.v ===== *)
(** * KdfFacts: the session keys are those of the RFCs

    The derivation of Kdf.v works on octet strings; RFC 3711 (section 4.3)
    and RFC 7714 (section 11) define it on integers.  They agree, no two
    labels share a counter block, and every pair of policies gets keys of
    the right lengths from a key the Rust check lets through. *)

From S2P Require Import Prelude Bytes Crypto Rdbx Kdf.

(** ** Octet strings and integers under exclusive or *)

Lemma lxor_mod_pow2 a b n : 0 <= n -> Z.lxor a b mod 2 ^ n = Z.lxor (a mod 2 ^ n) (b mod 2 ^ n).
Proof.
  intros Hn. apply Z.bits_inj'. intros i Hi. rewrite Z.lxor_spec, !Z.testbit_mod_pow2, Z.lxor_spec by done.
  by destruct (i <? n).
Qed.

Lemma lxor_in_u8 a b : in_u8 a -> in_u8 b -> in_u8 (Z.lxor a b).
Proof.
  unfold in_u8. intros Ha Hb. rewrite <- (Z.mod_small a (2 ^ 8)), <- (Z.mod_small b (2 ^ 8)) by lia.
  rewrite <- lxor_mod_pow2 by lia. apply Z.mod_pos_bound. lia.
Qed.

(** Digits in base 256 do not interact. *)
Lemma lxor_digit a b x y :
  in_u8 a -> in_u8 b -> Z.lxor (a + 256 * x) (b + 256 * y) = Z.lxor a b + 256 * Z.lxor x y.
Proof.
  assert (forall a x, in_u8 a -> a + 256 * x = Z.lxor a (Z.shiftl x 8)) as Hsplit.
  { unfold in_u8. intros c z Hc. rewrite Z.shiftl_mul_pow2 by lia. rewrite (Z.mul_comm 256 z).
    apply Z.add_nocarry_lxor, Z.bits_inj'. intros n Hn. rewrite Z.land_spec, Z.bits_0, andb_false_iff.
    destruct (Z.lt_ge_cases n 8) as [Hlt|Hge].
    - right. apply Z.mul_pow2_bits_low. lia.
    - left. rewrite <- (Z.mod_small c (2 ^ 8)) by lia. apply Z.mod_pow2_bits_high. lia. }
  intros Ha Hb. rewrite !Hsplit by auto using lxor_in_u8. rewrite Z.shiftl_lxor.
  rewrite !Z.lxor_assoc. f_equal. rewrite <- !Z.lxor_assoc. f_equal. apply Z.lxor_comm.
Qed.

Lemma from_le_lxor l : forall m, bytes_ok l -> bytes_ok m -> length l = length m ->
  from_le_bytes (zip_with Z.lxor l m) = Z.lxor (from_le_bytes l) (from_le_bytes m).
Proof.
  induction l as [|a l IH]; intros [|b m] Hl Hm Hlen; try done.
  apply Forall_cons in Hl as [Ha Hl]. apply Forall_cons in Hm as [Hb Hm]. cbn [zip_with from_le_bytes].
  rewrite lxor_digit by done. rewrite IH; auto.
Qed.

Lemma reverse_zip_with {A B C} (f : A -> B -> C) l : forall m, length l = length m ->
  reverse (zip_with f l m) = zip_with f (reverse l) (reverse m).
Proof.
  induction l as [|a l IH]; intros [|b m] Hlen; try done. cbn [zip_with]. rewrite !reverse_cons, IH by auto.
  rewrite zip_with_app by (rewrite !length_reverse; auto). done.
Qed.

Lemma lxor_bytes_ok l : forall m, bytes_ok l -> bytes_ok m -> bytes_ok (zip_with Z.lxor l m).
Proof.
  induction l as [|a l IH]; intros [|b m] Hl Hm; try (by constructor).
  apply Forall_cons in Hl as [Ha Hl]. apply Forall_cons in Hm as [Hb Hm].
  apply Forall_cons. split; [by apply lxor_in_u8|by apply IH].
Qed.

(** Exclusive or of octet strings is that of their big-endian values. *)
Lemma zip_lxor_be l m : bytes_ok l -> bytes_ok m -> length l = length m ->
  zip_with Z.lxor l m = to_be_bytes (length l) (Z.lxor (from_be_bytes l) (from_be_bytes m)).
Proof.
  intros Hl Hm Hlen. unfold from_be_bytes. rewrite <- from_le_lxor.
  - rewrite <- reverse_zip_with by done. symmetry. apply to_from_be_n; [by apply lxor_bytes_ok|].
    rewrite length_zip_with. lia.
  - by apply Forall_reverse.
  - by apply Forall_reverse.
  - by rewrite !length_reverse.
Qed.

Lemma from_be_app l m : from_be_bytes (l ++ m) = from_be_bytes l * 256 ^ Z.of_nat (length m) + from_be_bytes m.
Proof.
  unfold from_be_bytes. rewrite reverse_app. generalize (reverse l) as x. intros x.
  rewrite <- (length_reverse m). induction (reverse m) as [|b y IH]; [cbn; lia|].
  cbn [app from_le_bytes length]. rewrite IH, Nat2Z.inj_succ, Z.pow_succ_r by lia. lia.
Qed.

(** ** The derivation of the RFCs *)

Section Rfc.
Context {CR : Crypto} {CL : CryptoLaws}.

(** RFC 3711, 4.3.3: the AES-CM keystream that starts at x * 2^16. *)
Definition PRF (k_master : bytes) (x : Z) (n : nat) : bytes :=
  aes_ctr k_master (to_be_bytes 16 (x * 2 ^ 16)) (replicate n 0).

(** RFC 3711, 4.3.1, without a key derivation rate: the label stands 48 bits
    above the packet index, and the 112-bit master salt is added. *)
Definition derive (k_master : bytes) (master_salt label : Z) (n : nat) : bytes :=
  PRF k_master (Z.lxor (label * 2 ^ 48) master_salt) n.

(** RFC 7714, 11: the 96-bit salt is padded to 112 bits on the right. *)
Definition gcm_master_salt (salt : bytes) : Z := from_be_bytes salt * 2 ^ 16.

Lemma kdf_nonce_be label : from_be_bytes (kdf_nonce label) = label * 2 ^ 64.
Proof. cbn. lia. Qed.

Lemma zeros_ok n : bytes_ok (replicate n 0).
Proof. apply Forall_replicate. unfold in_u8. lia. Qed.

Lemma kdf_nonce_ok label : in_u8 label -> bytes_ok (kdf_nonce label).
Proof.
  intros Hl. apply Forall_app. split; [apply zeros_ok|]. apply Forall_app. split; [by apply Forall_singleton|].
  apply zeros_ok.
Qed.

(** The counter of a label, for a salt of fourteen octets. *)
Lemma kdf_counter_be k salt label :
  bytes_ok salt -> length salt = SRTP_SALT_LEN -> in_u8 label ->
  kdf_counter (mkKdf k (salt ++ [0; 0])) label =
    to_be_bytes 16 (Z.lxor (label * 2 ^ 48) (from_be_bytes salt) * 2 ^ 16).
Proof.
  intros Hs Hlen Hl. unfold kdf_counter. cbn [kdf_offset]. rewrite zip_lxor_be.
  - rewrite length_app, Hlen. cbn [length]. f_equal. rewrite kdf_nonce_be, from_be_app. cbn [length].
    change (from_be_bytes [0; 0]) with 0. rewrite Z.add_0_r. change (256 ^ Z.of_nat 2) with (2 ^ 16).
    rewrite <- !Z.shiftl_mul_pow2 by lia. rewrite Z.shiftl_lxor, Z.shiftl_shiftl by lia. apply Z.lxor_comm.
  - apply Forall_app. split; [done|]. apply (zeros_ok 2).
  - by apply kdf_nonce_ok.
  - rewrite length_app, Hlen. done.
Qed.

Lemma derived_zero k c : aes_ctr k c [] = [].
Proof. apply nil_length_inv. by rewrite length_aes_ctr. Qed.

Lemma take_generated kdf label n : take n (srtp_kdf_generate kdf label n) = srtp_kdf_generate kdf label n.
Proof. apply take_ge. unfold srtp_kdf_generate. by rewrite length_aes_ctr, length_replicate. Qed.

(** The zero-padded master key gives the salt two zero octets. *)
Lemma gcm_kdf k_master salt rest :
  length k_master = 16%nat -> length salt = 12%nat ->
  srtp_kdf_init (take 28 (k_master ++ salt ++ rest) ++ replicate 228 0) 30 =
    Ok (mkKdf k_master ((salt ++ [0; 0]) ++ [0; 0])).
Proof.
  intros Hk Hs. unfold srtp_kdf_init, icm_key_size.
  repeat (rewrite bool_decide_eq_false_2 by done). rewrite bool_decide_eq_true_2 by done.
  assert (take 28 (k_master ++ salt ++ rest) = k_master ++ salt) as ->.
  { rewrite app_assoc. apply take_app_length'. rewrite length_app. lia. }
  rewrite <- app_assoc, take_app_length', drop_app_length' by done.
  change (replicate 228 0) with ([0; 0] ++ replicate 226 0).
  rewrite app_assoc, take_app_length' by (rewrite length_app, Hs; done). done.
Qed.

(** C22: srtp_stream_init_keys, which works on zero-padded octet buffers,
    computes for the program's AES-128-GCM policy exactly the session keys
    of RFC 3711 and RFC 7714: the AES-CM pseudo-random function of the label
    at bit 48 exclusive-or the master salt padded to 112 bits, for the RTP
    and the RTCP key and salt, from the first 28 bytes of the master key
    only. *)
Theorem session_keys_rfc k_master salt rest :
  length k_master = 16%nat -> length salt = 12%nat -> bytes_ok salt ->
  let d := derive k_master (gcm_master_salt salt) in
  stream_init_keys gcm gcm (k_master ++ salt ++ rest) =
    Ok (mkSessionKeys (d 0 16%nat) (d 2 12%nat) (d 2 12%nat) [],
        mkSessionKeys (d 3 16%nat) (d 5 12%nat) (d 5 12%nat) []).
Proof.
  intros Hk Hs Hok d. set (kdf := mkKdf k_master ((salt ++ [0; 0]) ++ [0; 0])).
  pose proof (gcm_kdf k_master salt rest Hk Hs) as Hinit. fold kdf in Hinit.
  assert (forall l n, in_u8 l -> srtp_kdf_generate kdf l n = d l n) as Hgen.
  { intros l n Hl. unfold srtp_kdf_generate, d, derive, PRF. f_equal. unfold kdf. rewrite kdf_counter_be; [|..|done].
    - rewrite from_be_app. change (from_be_bytes [0; 0]) with 0. by rewrite Z.add_0_r.
    - apply Forall_app. split; [done|]. apply (zeros_ok 2).
    - by rewrite length_app, Hs. }
  unfold stream_init_keys. change (input_keylen gcm gcm) with 28%nat. change (kdf_keylen gcm gcm) with 30%nat.
  rewrite bool_decide_eq_false_2 by (cbn; unfold SRTP_AES_GCM_128_KEY_LEN_WSALT; lia).
  change (MAX_SRTP_KEY_LEN - 28)%nat with 228%nat. rewrite Hinit. unfold direction_keys.
  cbn [cipher_type cipher_key_len auth_key_len crypto_policy base_key_length].
  rewrite !bool_decide_eq_true_2 by (vm_compute; lia).
  change (SRTP_AES_GCM_128_KEY_LEN_WSALT - (SRTP_AES_GCM_128_KEY_LEN_WSALT - SRTP_AEAD_SALT_LEN))%nat with 12%nat.
  change (SRTP_AES_GCM_128_KEY_LEN_WSALT - SRTP_AEAD_SALT_LEN)%nat with 16%nat. unfold SRTP_AEAD_SALT_LEN.
  rewrite !take_generated, !Hgen by done. unfold d at 4 8, derive, PRF. cbn [replicate]. by rewrite !derived_zero.
Qed.

(** ** Labels do not share keystream *)

(** The first counter is a multiple of 2^16: the block counter has the last
    two octets to itself. *)
Lemma counter_aligned k salt label :
  bytes_ok salt -> length salt = SRTP_SALT_LEN -> in_u8 label ->
  exists x, from_be_bytes (kdf_counter (mkKdf k (salt ++ [0; 0])) label) = x * 2 ^ 16 /\ 0 <= x < 2 ^ 112.
Proof.
  intros Hs Hlen Hl. rewrite kdf_counter_be, from_to_be by done.
  set (y := Z.lxor _ _). exists (y mod 2 ^ 112). split; [|apply Z.mod_pos_bound; lia].
  change (256 ^ Z.of_nat 16) with (2 ^ 112 * 2 ^ 16). by rewrite Z.mul_mod_distr_r.
Qed.

Lemma kdf_counter_inj k salt l l' :
  length salt = SRTP_SALT_LEN ->
  kdf_counter (mkKdf k (salt ++ [0; 0])) l = kdf_counter (mkKdf k (salt ++ [0; 0])) l' -> l = l'.
Proof.
  intros Hlen Heq. apply (f_equal (lookup 7%nat)) in Heq. unfold kdf_counter in Heq.
  rewrite !lookup_zip_with in Heq. cbn [kdf_offset] in Heq.
  destruct (lookup_lt_is_Some_2 (salt ++ [0; 0]) 7) as [o Ho]; [rewrite length_app, Hlen; cbn; lia|].
  rewrite Ho in Heq. apply (inj Some) in Heq. apply (f_equal (Z.lxor o)) in Heq.
  by rewrite <- !Z.lxor_assoc, Z.lxor_nilpotent, !Z.lxor_0_l in Heq.
Qed.

(** Keystreams of different labels have no counter block in common, up to
    the 2^16 blocks a block counter of two octets can address. *)
Lemma kdf_blocks_disjoint k salt l l' i j :
  bytes_ok salt -> length salt = SRTP_SALT_LEN -> in_u8 l -> in_u8 l' -> l <> l' ->
  0 <= i < 2 ^ 16 -> 0 <= j < 2 ^ 16 ->
  let kdf := mkKdf k (salt ++ [0; 0]) in
  (from_be_bytes (kdf_counter kdf l) + i) mod 2 ^ 128 <> (from_be_bytes (kdf_counter kdf l') + j) mod 2 ^ 128.
Proof.
  intros Hs Hlen Hl Hl' Hne Hi Hj kdf Heq. apply Hne, (kdf_counter_inj k salt l l' Hlen). fold kdf.
  destruct (counter_aligned k salt l Hs Hlen Hl) as (x & Hx & Hxr).
  destruct (counter_aligned k salt l' Hs Hlen Hl') as (y & Hy & Hyr). fold kdf in Hx, Hy.
  rewrite Hx, Hy, !Z.mod_small in Heq by lia. assert (x = y) as -> by lia.
  unfold kdf in *. rewrite (kdf_counter_be k salt l), (kdf_counter_be k salt l') in * by done.
  rewrite from_to_be in Hx, Hy. rewrite <- (from_to_be 16) in Hx, Hy.
  apply (f_equal (to_be_bytes 16)) in Hx, Hy. rewrite !to_from_be_n in Hx, Hy by auto using to_be_ok, length_to_be.
  congruence.
Qed.

(** ** Every policy *)

(** Keys of the lengths the ciphers and authenticators of a policy take. *)
Definition keys_fit (p : CryptoPolicy) (ks : SessionKeys) : Prop :=
  length (sk_key ks) = base_key_length (cipher_type p) (cipher_key_len p) /\
  length (sk_key ks ++ sk_cipher_salt ks) = cipher_key_len p /\
  length (sk_salt ks) = SRTP_AEAD_SALT_LEN /\ length (sk_auth_key ks) = auth_key_len p.

Lemma length_generate kdf label n : length (srtp_kdf_generate kdf label n) = n.
Proof. unfold srtp_kdf_generate. by rewrite length_aes_ctr, length_replicate. Qed.

Lemma direction_keys_fit kdf p l1 l2 l3 : keys_fit (crypto_policy p) (direction_keys kdf (crypto_policy p) l1 l2 l3).
Proof.
  unfold keys_fit, direction_keys. cbn [sk_key sk_cipher_salt sk_salt sk_auth_key].
  case_bool_decide as Hsalt; rewrite ?length_app, ?length_take, !length_generate;
    split_and!; try reflexivity; revert Hsalt; destruct p; vm_compute; lia.
Qed.

(** Both ciphers' keys cover what is read, and the key derivation has a
    cipher of the resulting length. *)
Lemma policies_supported p q :
  (input_keylen (crypto_policy p) (crypto_policy q) <=
     max (cipher_key_len (crypto_policy p)) (cipher_key_len (crypto_policy q)))%nat /\
  is_Some (icm_key_size (kdf_keylen (crypto_policy p) (crypto_policy q))).
Proof. split; [apply Nat.leb_le; by destruct p, q|]. destruct p, q; by eexists. Qed.

(** C23: For every pair of the crate's 17 crypto policies, a master key that
    passes the length check of StreamPolicy::sys_policy is never read past
    its end by libsrtp, key derivation succeeds, and each cipher and
    authenticator gets a key and salt of exactly its length. *)
Theorem every_policy_keyed p q key :
  let rtp := crypto_policy p in let rtcp := crypto_policy q in
  sys_policy rtp rtcp key = Ok tt ->
  (input_keylen rtp rtcp <= length key)%nat /\
  exists ks ks', stream_init_keys rtp rtcp key = Ok (ks, ks') /\ keys_fit rtp ks /\ keys_fit rtcp ks'.
Proof.
  intros rtp rtcp Hkey. destruct (policies_supported p q) as [Hle [n Hn]]. fold rtp rtcp in Hle, Hn.
  unfold sys_policy in Hkey. case_bool_decide as Hlen; [done|]. split; [lia|].
  unfold stream_init_keys, srtp_kdf_init. rewrite bool_decide_eq_false_2 by lia. rewrite Hn.
  eexists _, _. split; [done|]. split; apply direction_keys_fit.
Qed.

End Rfc.

Import Toy.

Lemma session_keys_rfc_witness :
  stream_init_keys gcm gcm (replicate 16 7 ++ replicate 12 200 ++ [1]) =
    Ok (mkSessionKeys (derive (replicate 16 7) (gcm_master_salt (replicate 12 200)) 0 16)
          (derive (replicate 16 7) (gcm_master_salt (replicate 12 200)) 2 12)
          (derive (replicate 16 7) (gcm_master_salt (replicate 12 200)) 2 12) [],
        mkSessionKeys (derive (replicate 16 7) (gcm_master_salt (replicate 12 200)) 3 16)
          (derive (replicate 16 7) (gcm_master_salt (replicate 12 200)) 5 12)
          (derive (replicate 16 7) (gcm_master_salt (replicate 12 200)) 5 12) []).
Proof.
  apply (session_keys_rfc (replicate 16 7) (replicate 12 200) [1]); [reflexivity|reflexivity|].
  apply Forall_replicate. unfold in_u8. lia.
Defined.

(** A mixed pair: 256-bit RTP, authenticated but unencrypted RTCP. *)
Lemma every_policy_keyed_witness :
  (input_keylen (crypto_policy aes_gcm_256_16_auth) (crypto_policy null_cipher_hmac_sha1_80) <= 44)%nat /\
  exists ks ks', stream_init_keys (crypto_policy aes_gcm_256_16_auth) (crypto_policy null_cipher_hmac_sha1_80)
      (replicate 44 9) = Ok (ks, ks') /\
    keys_fit (crypto_policy aes_gcm_256_16_auth) ks /\ keys_fit (crypto_policy null_cipher_hmac_sha1_80) ks'.
Proof.
  apply (every_policy_keyed aes_gcm_256_16_auth null_cipher_hmac_sha1_80 (replicate 44 9)). reflexivity.
Defined.
