(* ===== verification/Session.v ===== *)
(** * Session: SRTP sessions with AES-128-GCM

    The paths of libsrtp the program runs
    (src/third_party/srtp2-sys/libsrtp/srtp/srtp.c: [srtp_add_stream],
    [srtp_stream_init], [srtp_protect], [srtp_protect_aead], [srtp_unprotect],
    [srtp_unprotect_aead], [srtp_calc_aead_iv], [srtp_inplace_rekey], and
    [srtp_key_limit_update] of crypto/kernel/key.c) behind the Rust wrapper
    src/third_party/srtp/src/session.rs.  Sessions hold specific-SSRC streams;
    master key identifiers, header-extension encryption, cryptex, templates
    and pending rollover counters are not used on these paths and are left
    out.  Allocation and OpenSSL initialisation succeed.

    [SrtpOps] and [SrtpLaws] are what the keying layers rely on; the model is
    an instance of both. *)

From S2P Require Import Prelude Bytes Crypto IndexRecovery Mls Rdbx Kdf.

(** ** Data *)

Inductive direction := dir_unknown | dir_srtp_sender | dir_srtp_receiver.

Record srtp_stream := mkStream {
  st_ssrc : Z;
  st_key : bytes;
  st_salt : bytes;
  st_rdbx : srtp_rdbx;
  st_limit : Z;
  st_allow_repeat_tx : bool;
  st_direction : direction
}.

(** The session's stream list, most recently added first. *)
Record Session := mkSession { stream_list : list srtp_stream }.

(** [StreamPolicy] with both crypto policies [aes_gcm_128_16_auth]. *)
Record StreamPolicy := mkStreamPolicy {
  policy_key : bytes;
  policy_window_size : Z;
  policy_allow_repeat_tx : bool
}.

Definition TAG_LEN : nat := 16.
Definition octets_in_rtp_header : nat := 12.
Definition KEY_LIMIT_INIT : Z := 0xffffffffffff.
Definition soft_limit : Z := 0x10000.
Definition c_int_max : Z := 2147483647.

(** ** RTP header fields of a packet buffer *)

Definition byte_at (buf : bytes) (i : nat) : Z := default 0 (buf !! i).
Definition hdr_cc (buf : bytes) : nat := Z.to_nat (Z.land (byte_at buf 0) 0x0F).
Definition hdr_x (buf : bytes) : bool := Z.testbit (byte_at buf 0) 4.
Definition hdr_seq (buf : bytes) : Z := from_be_bytes [byte_at buf 2; byte_at buf 3].
Definition hdr_ssrc (buf : bytes) : Z := from_be_bytes (take 4 (drop 8 buf)).

Definition rtp_hdr_len (buf : bytes) : nat := octets_in_rtp_header + 4 * hdr_cc buf.

Definition rtp_hdr_xtnd_len (buf : bytes) : nat :=
  let at_ := rtp_hdr_len buf in
  Z.to_nat ((from_be_bytes [byte_at buf (at_ + 2); byte_at buf (at_ + 3)] + 1) * 4).

Definition validate_rtp_header (buf : bytes) : option Error :=
  if bool_decide (length buf < octets_in_rtp_header)%nat then Some BAD_PARAM
  else if bool_decide (length buf < rtp_hdr_len buf)%nat then Some BAD_PARAM
  else if hdr_x buf then
    if bool_decide (length buf < rtp_hdr_len buf + 4)%nat then Some BAD_PARAM
    else if bool_decide (length buf < rtp_hdr_len buf + rtp_hdr_xtnd_len buf)%nat
    then Some BAD_PARAM else None
  else None.

(** Where the encrypted portion starts. *)
Definition enc_start (buf : bytes) : nat :=
  rtp_hdr_len buf + (if hdr_x buf then rtp_hdr_xtnd_len buf else 0).

(** ** Streams *)

(** The remaining key uses, and whether the hard limit was hit. *)
Definition key_limit_update (num_left : Z) : bool * Z :=
  let n := u64 (num_left - 1) in
  if soft_limit <=? n then (false, n)
  else if n <? 1 then (true, n)
  else (false, n).

Definition calc_aead_iv (salt : bytes) (est : Z) (buf : bytes) : bytes :=
  zip_with Z.lxor
    ([0; 0] ++ take 4 (drop 8 buf) ++ u32_be (u32 (Z.shiftr est 16)) ++ u16_be (u16 est)) salt.

Definition set_rdbx (st : srtp_stream) (r : srtp_rdbx) : srtp_stream :=
  mkStream (st_ssrc st) (st_key st) (st_salt st) r (st_limit st) (st_allow_repeat_tx st) (st_direction st).
Definition set_limit (st : srtp_stream) (n : Z) : srtp_stream :=
  mkStream (st_ssrc st) (st_key st) (st_salt st) (st_rdbx st) n (st_allow_repeat_tx st) (st_direction st).
Definition set_direction (st : srtp_stream) (d : direction) : srtp_stream :=
  mkStream (st_ssrc st) (st_key st) (st_salt st) (st_rdbx st) (st_limit st) (st_allow_repeat_tx st) d.
Definition set_key (st : srtp_stream) (key salt : bytes) : srtp_stream :=
  mkStream (st_ssrc st) key salt (st_rdbx st) (st_limit st) (st_allow_repeat_tx st) (st_direction st).

(** The direction check: an unknown direction is fixed; a mismatch only
    raises the collision event. *)
Definition fix_direction (st : srtp_stream) (d : direction) : srtp_stream :=
  match st_direction st with
  | dir_unknown => set_direction st d
  | _ => st
  end.

Fixpoint stream_list_get (l : list srtp_stream) (ssrc : Z) : option srtp_stream :=
  match l with
  | [] => None
  | st :: l => if st_ssrc st =? ssrc then Some st else stream_list_get l ssrc
  end.

(** Writes a stream back through the pointer [srtp_get_stream] returned. *)
Fixpoint stream_list_put (l : list srtp_stream) (st : srtp_stream) : list srtp_stream :=
  match l with
  | [] => []
  | st' :: l => if st_ssrc st' =? st_ssrc st then st :: l else st' :: stream_list_put l st
  end.

Section Srtp.
Context {CR : Crypto}.

Definition srtp_protect_aead (st : srtp_stream) (buf : bytes) : result bytes Error * srtp_stream :=
  let '(hard, n) := key_limit_update (st_limit st) in
  let st := set_limit st n in
  if hard then (Err KEY_EXPIRED, st)
  else
    let start := enc_start buf in
    if bool_decide (start <= length buf)%nat then
      let '(est, delta) := rdbx_estimate_index (st_rdbx st) (hdr_seq buf) in
      let refused :=
        match rdbx_check (st_rdbx st) delta with
        | Some e => if bool_decide (e = REPLAY_FAIL) && st_allow_repeat_tx st then None else Some e
        | None => None
        end in
      match refused with
      | Some e => (Err e, st)
      | None =>
          let st := set_rdbx st (rdbx_add_index (st_rdbx st) delta) in
          (Ok (take start buf ++
             gcm_seal (st_key st) (calc_aead_iv (st_salt st) est buf) (take start buf) (drop start buf)), st)
      end
    else (Err PARSE_ERR, st).

Definition srtp_protect (s : Session) (buf : bytes) : result bytes Error * Session :=
  match validate_rtp_header buf with
  | Some e => (Err e, s)
  | None =>
      match stream_list_get (stream_list s) (hdr_ssrc buf) with
      | None => (Err NO_CTX, s)
      | Some st =>
          let '(r, st) := srtp_protect_aead (fix_direction st dir_srtp_sender) buf in
          (r, mkSession (stream_list_put (stream_list s) st))
      end
  end.

Definition srtp_unprotect_aead (st : srtp_stream) (delta est : Z) (buf : bytes) :
    result bytes Error * srtp_stream :=
  let start := enc_start buf in
  (* the packet length is unsigned 32-bit: the subtraction wraps *)
  if Z.of_nat start <=? u32 (Z.of_nat (length buf) - Z.of_nat TAG_LEN) then
    let enc_octet_len := u32 (Z.of_nat (length buf) - Z.of_nat start) in
    if enc_octet_len <? Z.of_nat TAG_LEN then (Err CIPHER_FAIL, st)
    else
      let '(hard, n) := key_limit_update (st_limit st) in
      let st := set_limit st n in
      if hard then (Err KEY_EXPIRED, st)
      else
        match gcm_open (st_key st) (calc_aead_iv (st_salt st) est buf) (take start buf) (drop start buf) with
        | None => (Err AUTH_FAIL, st)
        | Some pt =>
            let st := fix_direction st dir_srtp_receiver in
            let st := set_rdbx st (rdbx_add_index (st_rdbx st) delta) in
            (Ok (take start buf ++ pt), st)
        end
  else (Err PARSE_ERR, st).

Definition srtp_unprotect (s : Session) (buf : bytes) : result bytes Error * Session :=
  match validate_rtp_header buf with
  | Some e => (Err e, s)
  | None =>
      match stream_list_get (stream_list s) (hdr_ssrc buf) with
      | None => (Err NO_CTX, s)
      | Some st =>
          let '(est, delta) := rdbx_estimate_index (st_rdbx st) (hdr_seq buf) in
          match rdbx_check (st_rdbx st) delta with
          | Some e => (Err e, s)
          | None =>
              let '(r, st) := srtp_unprotect_aead st delta est buf in
              (r, mkSession (stream_list_put (stream_list s) st))
          end
      end
  end.

(** ** The Rust wrapper *)

(** [SessionRef::overwrite]: on a libsrtp error the buffer is emptied. *)
Definition overwrite {T : Type} (func : T -> bytes -> result bytes Error * T)
    (s : T) (buf : bytes) : result unit Error * bytes * T :=
  if c_int_max <? Z.of_nat (length buf) then (Err BAD_PARAM, buf, s)
  else
    match func s buf with
    | (Err err, s) => (Err err, [], s)
    | (Ok buf, s) => (Ok tt, buf, s)
    end.

Definition protect : Session -> bytes -> result unit Error * bytes * Session :=
  overwrite srtp_protect.
Definition unprotect : Session -> bytes -> result unit Error * bytes * Session :=
  overwrite srtp_unprotect.

(** [Session::new]. *)
Definition Session_new : Session := mkSession [].

Definition stream_init (ssrc : Z) (p : StreamPolicy) : result srtp_stream Error :=
  let ws := policy_window_size p in
  if negb (ws =? 0) && ((ws <? 64) || (0x8000 <=? ws)) then Err BAD_PARAM
  else
    match rdbx_init (if ws =? 0 then 128 else ws) with
    | Err e => Err e
    | Ok r =>
        match stream_init_keys gcm gcm (policy_key p) with
        | Err e => Err e
        | Ok (ks, _) =>
            Ok (mkStream ssrc (sk_key ks) (sk_salt ks) r KEY_LIMIT_INIT (policy_allow_repeat_tx p) dir_unknown)
        end
    end.

Definition add_stream (s : Session) (ssrc : Z) (p : StreamPolicy) : result unit Error * Session :=
  match sys_policy gcm gcm (policy_key p) with
  | Err e => (Err e, s)
  | Ok _ =>
      match stream_init ssrc p with
      | Err e => (Err e, s)
      | Ok st => (Ok tt, mkSession (st :: stream_list s))
      end
  end.

Definition inplace_rekey (s : Session) (ssrc : Z) (key salt : bytes) : result unit Error * Session :=
  if bool_decide (length key ≠ AES_128_GCM_KEY_LEN \/ length salt ≠ AES_128_GCM_SALT_LEN)
  then (Err BAD_PARAM, s)
  else
    match stream_list_get (stream_list s) ssrc with
    | None => (Err BAD_PARAM, s)
    | Some st => (Ok tt, mkSession (stream_list_put (stream_list s) (set_key st key salt)))
    end.

End Srtp.

(** ** The interface the keying layers are written against *)

Class SrtpOps (S : Type) := {
  ss_new : S;
  ss_add_stream : S -> Z -> StreamPolicy -> result unit Error * S;
  ss_rekey : S -> Z -> bytes -> bytes -> result unit Error * S;
  ss_protect : S -> bytes -> result unit Error * bytes * S;
  ss_unprotect : S -> bytes -> result unit Error * bytes * S;
  (** Observer: the key and salt loaded in an SSRC's cipher. *)
  ss_key : S -> Z -> option (bytes * bytes)
}.

Class SrtpLaws (S : Type) `{SrtpOps S} := {
  ss_add_stream_ok s ssrc p :
    length (policy_key p) = SRTP_KEY_MATERIAL_LEN ->
    policy_window_size p = 0 \/ 64 <= policy_window_size p < 0x8000 ->
    exists s', ss_add_stream s ssrc p = (Ok tt, s') /\ is_Some (ss_key s' ssrc);
  ss_rekey_ok s ssrc key salt :
    is_Some (ss_key s ssrc) ->
    length key = AES_128_GCM_KEY_LEN -> length salt = AES_128_GCM_SALT_LEN ->
    exists s', ss_rekey s ssrc key salt = (Ok tt, s') /\ ss_key s' ssrc = Some (key, salt);
  ss_protect_key s buf r buf' s' ssrc :
    ss_protect s buf = (r, buf', s') -> ss_key s' ssrc = ss_key s ssrc;
  ss_unprotect_key s buf r buf' s' ssrc :
    ss_unprotect s buf = (r, buf', s') -> ss_key s' ssrc = ss_key s ssrc
}.

#[export] Instance libsrtp_ops `{Crypto} : SrtpOps Session := {|
  ss_new := Session_new;
  ss_add_stream := add_stream;
  ss_rekey := inplace_rekey;
  ss_protect := protect;
  ss_unprotect := unprotect;
  ss_key s ssrc := (fun st => (st_key st, st_salt st)) <$> stream_list_get (stream_list s) ssrc
|}.

(** ** The model satisfies the interface *)

Section Facts.
Context {CR : Crypto} {CL : CryptoLaws}.

Lemma get_ssrc l ssrc st : stream_list_get l ssrc = Some st -> st_ssrc st = ssrc.
Proof.
  induction l as [|a l IH]; cbn; [done|].
  destruct (Z.eqb_spec (st_ssrc a) ssrc); [congruence|done].
Qed.

Lemma get_put l st ssrc :
  stream_list_get (stream_list_put l st) ssrc =
  if st_ssrc st =? ssrc then (fun _ => st) <$> stream_list_get l ssrc else stream_list_get l ssrc.
Proof.
  induction l as [|a l IH]; cbn; [by case_match|].
  destruct (Z.eqb_spec (st_ssrc a) (st_ssrc st)) as [E|E]; cbn; rewrite ?IH.
  - rewrite E. by destruct (Z.eqb_spec (st_ssrc st) ssrc).
  - destruct (Z.eqb_spec (st_ssrc a) ssrc), (Z.eqb_spec (st_ssrc st) ssrc); congruence.
Qed.

(** Two streams that differ at most in their bookkeeping. *)
Definition same_key (st st' : srtp_stream) : Prop :=
  st_ssrc st = st_ssrc st' /\ st_key st = st_key st' /\ st_salt st = st_salt st'.

Lemma fix_direction_same st d : same_key st (fix_direction st d).
Proof. unfold fix_direction. by destruct (st_direction st). Qed.

Lemma protect_aead_same st buf r st' : srtp_protect_aead st buf = (r, st') -> same_key st st'.
Proof.
  unfold srtp_protect_aead. intros Heq. by repeat case_match; simplify_eq.
Qed.

Lemma unprotect_aead_same st delta est buf r st' :
  srtp_unprotect_aead st delta est buf = (r, st') -> same_key st st'.
Proof.
  unfold srtp_unprotect_aead. intros Heq.
  repeat case_match; simplify_eq; try done.
  match goal with |- same_key ?a (set_rdbx (fix_direction ?b ?d) _) =>
    pose proof (fix_direction_same b d) as (? & ? & ?) end.
  done.
Qed.

(** Writing back a stream with the same key leaves every key as it was. *)
Lemma put_same_key l ssrc st st' ssrc' :
  stream_list_get l ssrc = Some st -> same_key st st' ->
  (fun st => (st_key st, st_salt st)) <$> stream_list_get (stream_list_put l st') ssrc' =
  (fun st => (st_key st, st_salt st)) <$> stream_list_get l ssrc'.
Proof.
  intros Hget (Hs & Hk & Ha). rewrite get_put. pose proof (get_ssrc _ _ _ Hget) as Hss.
  destruct (Z.eqb_spec (st_ssrc st') ssrc'); [|done].
  replace ssrc' with ssrc by congruence. rewrite Hget. cbn. congruence.
Qed.

Lemma srtp_protect_keys s buf r s' ssrc :
  srtp_protect s buf = (r, s') -> ss_key s' ssrc = ss_key s ssrc.
Proof.
  unfold srtp_protect. destruct (validate_rtp_header buf); [by intros [= _ <-]|].
  destruct (stream_list_get _ _) as [st|] eqn:Hget; [|by intros [= _ <-]].
  destruct (srtp_protect_aead _ buf) as [r0 st0] eqn:Hp. intros [= <- <-]. cbn.
  eapply put_same_key; [done|]. apply protect_aead_same in Hp as (? & ? & ?).
  destruct (fix_direction_same st dir_srtp_sender) as (? & ? & ?). split_and!; congruence.
Qed.

Lemma srtp_unprotect_keys s buf r s' ssrc :
  srtp_unprotect s buf = (r, s') -> ss_key s' ssrc = ss_key s ssrc.
Proof.
  unfold srtp_unprotect. destruct (validate_rtp_header buf); [by intros [= _ <-]|].
  destruct (stream_list_get _ _) as [st|] eqn:Hget; [|by intros [= _ <-]].
  destruct (rdbx_estimate_index _ _) as [est delta].
  destruct (rdbx_check _ _); [by intros [= _ <-]|].
  destruct (srtp_unprotect_aead _ _ _ buf) as [r0 st0] eqn:Hp. intros [= <- <-]. cbn.
  eapply put_same_key; [done|]. by eapply unprotect_aead_same.
Qed.

Lemma overwrite_session {T} func (s : T) buf r buf' s' :
  overwrite func s buf = (r, buf', s') -> s' = s \/ exists r', func s buf = (r', s').
Proof. unfold overwrite. intros Heq. repeat case_match; simplify_eq; eauto. Qed.

#[export] Instance libsrtp_laws : SrtpLaws Session.
Proof.
  split.
  - intros s ssrc p Hk Hw. cbn. unfold add_stream, stream_init, rdbx_init.
    rewrite sys_policy_gcm by (rewrite Hk; done).
    assert (negb (policy_window_size p =? 0) &&
      ((policy_window_size p <? 64) || (0x8000 <=? policy_window_size p)) = false) as ->
      by (destruct (policy_window_size p =? 0) eqn:E; [done|]; cbn; lia).
    destruct (Z.eqb_spec (if policy_window_size p =? 0 then 128 else policy_window_size p) 0);
      [case_match; lia|].
    destruct (gcm_keys_some (policy_key p)) as [[ks ks'] ->]. eexists. split; [done|]. cbn. by rewrite Z.eqb_refl.
  - intros s ssrc key salt Hk Hkl Hsl. cbn in *. unfold inplace_rekey.
    rewrite bool_decide_eq_false_2 by (intros [?|?]; done).
    destruct (stream_list_get (stream_list s) ssrc) as [st|] eqn:Hget; [|by destruct Hk].
    eexists. split; [done|]. cbn. rewrite get_put. cbn.
    rewrite (get_ssrc _ _ _ Hget), Z.eqb_refl, Hget. done.
  - intros s buf r buf' s' ssrc [->|[r' Hp]]%overwrite_session; [done|].
    by eapply srtp_protect_keys.
  - intros s buf r buf' s' ssrc [->|[r' Hp]]%overwrite_session; [done|].
    by eapply srtp_unprotect_keys.
Qed.

(** ** Packets with the fixed twelve-byte header *)

(** A buffer that starts with the fixed header: no contributing sources, no
    extension. *)
Definition fixed_header (buf : bytes) : Prop :=
  (octets_in_rtp_header <= length buf)%nat /\ buf !! 0%nat = Some 0x80.

(** The protected form of [buf] under a key, a salt and a packet index. *)
Definition seal_packet (key salt : bytes) (est : Z) (buf : bytes) : bytes :=
  take octets_in_rtp_header buf ++
  gcm_seal key (calc_aead_iv salt est buf) (take octets_in_rtp_header buf)
    (drop octets_in_rtp_header buf).

Lemma fixed_header_parse buf :
  fixed_header buf ->
  validate_rtp_header buf = None /\ enc_start buf = octets_in_rtp_header.
Proof.
  intros [Hlen H0].
  assert (rtp_hdr_len buf = octets_in_rtp_header) as Hh
    by (unfold rtp_hdr_len, hdr_cc, byte_at; by rewrite H0).
  assert (hdr_x buf = false) as Hx by (unfold hdr_x, byte_at; by rewrite H0).
  unfold validate_rtp_header, enc_start. rewrite Hx, Hh.
  repeat case_bool_decide; try lia. split; [done|lia].
Qed.

Lemma length_seal_packet key salt est buf :
  (octets_in_rtp_header <= length buf)%nat ->
  length (seal_packet key salt est buf) = (length buf + TAG_LEN)%nat.
Proof.
  intros Hl. unfold seal_packet. rewrite length_app, length_gcm_seal, length_take, length_drop.
  unfold GCM_TAG, TAG_LEN. lia.
Qed.

(** Protecting leaves the header in the clear. *)
Lemma take_seal_packet key salt est buf n :
  (n <= octets_in_rtp_header <= length buf)%nat -> take n (seal_packet key salt est buf) = take n buf.
Proof.
  intros Hn. unfold seal_packet. rewrite take_app_le by (rewrite length_take; lia).
  rewrite take_take. by replace (n `min` octets_in_rtp_header)%nat with n by lia.
Qed.

Lemma lookup_seal_packet key salt est buf i :
  (octets_in_rtp_header <= length buf)%nat -> (i < octets_in_rtp_header)%nat ->
  seal_packet key salt est buf !! i = buf !! i.
Proof.
  intros Hl Hi. unfold seal_packet. rewrite lookup_app_l by (rewrite length_take; lia).
  by apply lookup_take_lt.
Qed.

Lemma drop8_seal_packet key salt est buf :
  (octets_in_rtp_header <= length buf)%nat ->
  take 4 (drop 8 (seal_packet key salt est buf)) = take 4 (drop 8 buf).
Proof.
  intros Hl. rewrite !take_drop_commute. f_equal. apply take_seal_packet.
  unfold octets_in_rtp_header in *. lia.
Qed.

Lemma seal_packet_fields key salt est buf :
  fixed_header buf ->
  let p := seal_packet key salt est buf in
  fixed_header p /\ hdr_seq p = hdr_seq buf /\ hdr_ssrc p = hdr_ssrc buf /\
  (forall salt' est', calc_aead_iv salt' est' p = calc_aead_iv salt' est' buf).
Proof.
  intros [Hl H0] p. unfold p, octets_in_rtp_header in *. split_and!.
  - split; [rewrite length_seal_packet by done; unfold octets_in_rtp_header; lia|].
    by rewrite lookup_seal_packet by (unfold octets_in_rtp_header; lia).
  - unfold hdr_seq, byte_at. by rewrite !lookup_seal_packet by (unfold octets_in_rtp_header; lia).
  - unfold hdr_ssrc. by rewrite drop8_seal_packet.
  - intros. unfold calc_aead_iv. by rewrite drop8_seal_packet.
Qed.

(** The key-use budget that is not about to expire. *)
Definition limit_fresh (st : srtp_stream) : Prop := 1 < st_limit st <= KEY_LIMIT_INIT.

Lemma limit_fresh_update st :
  limit_fresh st -> key_limit_update (st_limit st) = (false, st_limit st - 1).
Proof.
  intros [Hl Hu]. unfold KEY_LIMIT_INIT, key_limit_update, soft_limit in *.
  rewrite u64_id by width. bool_to_prop; done || lia.
Qed.

(** Protecting a fresh index, at the level of one stream: the sealed packet,
    and the index recorded. *)
Lemma protect_aead_genuine st buf est delta :
  fixed_header buf -> limit_fresh st ->
  rdbx_estimate_index (st_rdbx st) (hdr_seq buf) = (est, delta) ->
  rdbx_check (st_rdbx st) delta = None ->
  exists st', srtp_protect_aead st buf = (Ok (seal_packet (st_key st) (st_salt st) est buf), st') /\
    same_key st st' /\ st_rdbx st' = rdbx_add_index (st_rdbx st) delta /\ st_limit st' = st_limit st - 1.
Proof.
  intros Hf Hlim Hest Hchk. destruct (fixed_header_parse buf Hf) as [_ He].
  unfold srtp_protect_aead. rewrite limit_fresh_update by done.
  cbn [set_limit st_rdbx st_key st_salt]. rewrite Hest, Hchk, He.
  rewrite bool_decide_eq_true_2 by apply Hf. cbn zeta iota.
  eexists. split; [reflexivity|]. done.
Qed.

Lemma fix_direction_rest st d :
  st_limit (fix_direction st d) = st_limit st /\ st_rdbx (fix_direction st d) = st_rdbx st.
Proof. unfold fix_direction. by destruct (st_direction st). Qed.

Lemma protect_genuine s st buf est delta :
  fixed_header buf -> Z.of_nat (length buf) <= c_int_max ->
  stream_list_get (stream_list s) (hdr_ssrc buf) = Some st -> limit_fresh st ->
  rdbx_estimate_index (st_rdbx st) (hdr_seq buf) = (est, delta) ->
  rdbx_check (st_rdbx st) delta = None ->
  exists st' s',
    protect s buf = (Ok tt, seal_packet (st_key st) (st_salt st) est buf, s') /\
    s' = mkSession (stream_list_put (stream_list s) st') /\
    same_key st st' /\ st_rdbx st' = rdbx_add_index (st_rdbx st) delta /\
    st_limit st' = st_limit st - 1.
Proof.
  intros Hf Hlen Hget Hlim Hest Hchk. destruct (fixed_header_parse buf Hf) as [Hv _].
  destruct (fix_direction_rest st dir_srtp_sender) as [Hl Hr].
  destruct (fix_direction_same st dir_srtp_sender) as (Hs & Hk & Ha).
  unfold limit_fresh in Hlim. rewrite <- Hl in Hlim. rewrite <- Hr in Hest, Hchk.
  destruct (protect_aead_genuine _ _ _ _ Hf Hlim Hest Hchk) as (st' & Hp & (Hs' & Hk' & Ha') & Hrd & Hli).
  unfold protect, overwrite, srtp_protect. rewrite Hv, Hget, Hp.
  destruct (Z.ltb_spec c_int_max (Z.of_nat (length buf))); [lia|].
  eexists st', _. rewrite <- Hk, <- Ha, <- Hr, <- Hl. repeat split; congruence.
Qed.

(** Opening a sealed packet, at the level of one stream. *)
Lemma unprotect_aead_genuine st buf est delta :
  fixed_header buf -> Z.of_nat (length buf) + 16 <= c_int_max -> limit_fresh st ->
  exists st', srtp_unprotect_aead st delta est (seal_packet (st_key st) (st_salt st) est buf) = (Ok buf, st') /\
    same_key st st' /\ st_rdbx st' = rdbx_add_index (st_rdbx st) delta /\ st_limit st' = st_limit st - 1.
Proof.
  intros Hf Hlen Hlim.
  pose proof (seal_packet_fields (st_key st) (st_salt st) est buf Hf) as (Hf' & _ & _ & Hiv).
  pose proof (length_seal_packet (st_key st) (st_salt st) est buf (proj1 Hf)) as Hsl.
  pose proof (take_seal_packet (st_key st) (st_salt st) est buf octets_in_rtp_header
    ltac:(split; [done|apply Hf])) as Htk.
  assert (drop octets_in_rtp_header (seal_packet (st_key st) (st_salt st) est buf) =
    gcm_seal (st_key st) (calc_aead_iv (st_salt st) est buf) (take octets_in_rtp_header buf)
      (drop octets_in_rtp_header buf)) as Hdr.
  { apply drop_app_length'. rewrite length_take. destruct Hf. lia. }
  set (p := seal_packet _ _ _ _) in *. destruct (fixed_header_parse p Hf') as [_ He].
  destruct Hf as [Hl _]. unfold octets_in_rtp_header, TAG_LEN, c_int_max in *.
  unfold srtp_unprotect_aead, TAG_LEN. rewrite He, Hsl.
  rewrite u32_id by width. destruct (Z.leb_spec (Z.of_nat 12) (Z.of_nat (length buf + 16) - Z.of_nat 16)); [|lia].
  rewrite u32_id by width. destruct (Z.ltb_spec (Z.of_nat (length buf + 16) - Z.of_nat 12) (Z.of_nat 16)); [lia|].
  rewrite limit_fresh_update by done. cbn [set_limit st_key st_salt st_rdbx].
  rewrite Hiv, Htk, Hdr, gcm_open_seal, take_drop. cbn zeta iota. eexists. split; [done|].
  pose proof (fix_direction_same (set_limit st (st_limit st - 1)) dir_srtp_receiver) as (? & ? & ?).
  destruct (fix_direction_rest (set_limit st (st_limit st - 1)) dir_srtp_receiver) as [Hl' Hr'].
  cbn [set_rdbx st_rdbx st_limit st_ssrc st_key st_salt set_limit same_key] in *. rewrite Hl', Hr'. done.
Qed.

(** [unprotect] of a sealed packet at an index the database accepts. *)
Lemma unprotect_genuine s st buf est delta :
  fixed_header buf -> Z.of_nat (length buf) + 16 <= c_int_max ->
  stream_list_get (stream_list s) (hdr_ssrc buf) = Some st -> limit_fresh st ->
  rdbx_estimate_index (st_rdbx st) (hdr_seq buf) = (est, delta) ->
  rdbx_check (st_rdbx st) delta = None ->
  exists st' s',
    unprotect s (seal_packet (st_key st) (st_salt st) est buf) = (Ok tt, buf, s') /\
    s' = mkSession (stream_list_put (stream_list s) st') /\
    same_key st st' /\ st_rdbx st' = rdbx_add_index (st_rdbx st) delta /\
    st_limit st' = st_limit st - 1.
Proof.
  intros Hf Hlen Hget Hlim Hest Hchk.
  pose proof (seal_packet_fields (st_key st) (st_salt st) est buf Hf) as (Hf' & Hseq & Hss & _).
  pose proof (length_seal_packet (st_key st) (st_salt st) est buf (proj1 Hf)) as Hsl.
  destruct (unprotect_aead_genuine st buf est delta Hf Hlen Hlim) as (st' & Hp & Hrest).
  destruct (fixed_header_parse _ Hf') as [Hv _]. unfold TAG_LEN, c_int_max in *.
  unfold unprotect, overwrite, srtp_unprotect, c_int_max. rewrite Hv, Hss, Hget, Hseq, Hest, Hchk, Hp, Hsl.
  destruct (Z.ltb_spec 2147483647 (Z.of_nat (length buf + 16))); [lia|].
  eexists _, _. split; [done|]. split; [done|]. done.
Qed.

(** Looking up the stream again after it was written back. *)
Lemma get_after_put s ssrc st st' :
  stream_list_get (stream_list s) ssrc = Some st -> same_key st st' ->
  stream_list_get (stream_list_put (stream_list s) st') ssrc = Some st'.
Proof.
  intros Hget (Hs & _). rewrite get_put, <- Hs, (get_ssrc _ _ _ Hget), Z.eqb_refl, Hget. done.
Qed.

End Facts.
