(* ===== verification/Srtcp.v ===== *)
(** * Srtcp: whole streams, and RTCP under AES-128-GCM

    A libsrtp stream with both of its halves: the SRTP half is the stream of
    Session.v, the SRTCP half has its own key, salt and replay database
    (src/third_party/srtp2-sys/libsrtp/srtp/srtp.c: [srtp_protect_rtcp],
    [srtp_protect_rtcp_aead], [srtp_unprotect_rtcp],
    [srtp_unprotect_rtcp_aead], [srtp_calc_aead_iv_srtcp], [srtp_stream_init])
    behind [SessionRef::protect_rtcp] and [unprotect_rtcp] of
    src/third_party/srtp/src/session.rs. *)

From S2P Require Import Prelude Bytes Crypto Rdbx Rdb Kdf Session.

Record full_stream := mkFull {
  fs_rtp : srtp_stream;
  fs_rtcp_key : bytes;
  fs_rtcp_salt : bytes;
  fs_rtcp_rdb : srtp_rdb;
  fs_pending_roc : Z
}.

Record FullSession := mkFullSession { full_list : list full_stream }.

Definition fs_ssrc (st : full_stream) : Z := st_ssrc (fs_rtp st).

Definition set_rtp (st : full_stream) (rtp : srtp_stream) : full_stream :=
  mkFull rtp (fs_rtcp_key st) (fs_rtcp_salt st) (fs_rtcp_rdb st) (fs_pending_roc st).
Definition set_rtcp_rdb (st : full_stream) (rdb : srtp_rdb) : full_stream :=
  mkFull (fs_rtp st) (fs_rtcp_key st) (fs_rtcp_salt st) rdb (fs_pending_roc st).

(** [srtp_stream_list_get], and writing a stream back through its pointer. *)
Fixpoint full_get (l : list full_stream) (ssrc : Z) : option full_stream :=
  match l with
  | [] => None
  | st :: l => if fs_ssrc st =? ssrc then Some st else full_get l ssrc
  end.

Fixpoint full_put (l : list full_stream) (st : full_stream) : list full_stream :=
  match l with
  | [] => []
  | st' :: l => if fs_ssrc st' =? fs_ssrc st then st :: l else st' :: full_put l st
  end.

Definition octets_in_rtcp_header : nat := 8.
Definition SRTCP_TRAILER_LEN : nat := 4.
Definition SRTCP_E_BIT : Z := 0x80000000.
Definition SRTCP_E_BYTE_BIT : Z := 0x80.
Definition SRTCP_INDEX_MASK : Z := 0x7fffffff.

Definition rtcp_ssrc (buf : bytes) : Z := from_be_bytes (take 4 (drop 4 buf)).

(** [srtp_calc_aead_iv_srtcp]; refuses indices over 31 bits. *)
Definition calc_aead_iv_srtcp (salt : bytes) (seq_num : Z) (buf : bytes) : result bytes Error :=
  if negb (Z.land seq_num SRTCP_E_BIT =? 0) then Err BAD_PARAM
  else Ok (zip_with Z.lxor ([0; 0] ++ take 4 (drop 4 buf) ++ [0; 0] ++ u32_be seq_num) salt).

Definition fs_fix_direction (st : full_stream) (d : direction) : full_stream :=
  set_rtp st (fix_direction (fs_rtp st) d).

Section Srtcp.
Context {CR : Crypto}.

(** The GCM policy asks for confidentiality and authentication of RTCP. *)
Definition srtp_protect_rtcp_aead (st : full_stream) (buf : bytes) : result bytes Error * full_stream :=
  match rdb_increment (fs_rtcp_rdb st) with
  | (Some e, rdb) => (Err e, set_rtcp_rdb st rdb)
  | (None, rdb) =>
      let st := set_rtcp_rdb st rdb in
      let seq_num := rdb_get_value rdb in
      let trailer := u32_be (Z.lor SRTCP_E_BIT seq_num) in
      match calc_aead_iv_srtcp (fs_rtcp_salt st) seq_num buf with
      | Err _ => (Err CIPHER_FAIL, st)
      | Ok iv =>
          let hdr := take octets_in_rtcp_header buf in
          (Ok (hdr ++ gcm_seal (fs_rtcp_key st) iv (hdr ++ trailer) (drop octets_in_rtcp_header buf) ++ trailer), st)
      end
  end.

Definition srtp_protect_rtcp (s : FullSession) (buf : bytes) : result bytes Error * FullSession :=
  if bool_decide (length buf < octets_in_rtcp_header)%nat then (Err BAD_PARAM, s)
  else
    match full_get (full_list s) (rtcp_ssrc buf) with
    | None => (Err NO_CTX, s)
    | Some st =>
        let '(r, st) := srtp_protect_rtcp_aead (fs_fix_direction st dir_srtp_sender) buf in
        (r, mkFullSession (full_put (full_list s) st))
    end.

Definition srtp_unprotect_rtcp_aead (st : full_stream) (buf : bytes) : result bytes Error * full_stream :=
  let len := length buf in
  let trailer := drop (len - SRTCP_TRAILER_LEN) buf in
  let encrypted := negb (Z.land (byte_at trailer 0) SRTCP_E_BYTE_BIT =? 0) in
  let seq_num := Z.land (from_be_bytes trailer) SRTCP_INDEX_MASK in
  match rdb_check (fs_rtcp_rdb st) seq_num with
  | Some e => (Err e, st)
  | None =>
      match calc_aead_iv_srtcp (fs_rtcp_salt st) seq_num buf with
      | Err _ => (Err CIPHER_FAIL, st)
      | Ok iv =>
          let body := take (len - SRTCP_TRAILER_LEN) buf in
          let clear := if encrypted then take octets_in_rtcp_header buf
                       else take (len - TAG_LEN - SRTCP_TRAILER_LEN) buf in
          match gcm_open (fs_rtcp_key st) iv (clear ++ trailer) (drop (length clear) body) with
          | None => (Err AUTH_FAIL, st)
          | Some pt =>
              let st := fs_fix_direction st dir_srtp_receiver in
              (Ok (clear ++ pt), set_rtcp_rdb st (rdb_add_index (fs_rtcp_rdb st) seq_num))
          end
      end
  end.

Definition srtp_unprotect_rtcp (s : FullSession) (buf : bytes) : result bytes Error * FullSession :=
  if bool_decide (length buf < octets_in_rtcp_header + SRTCP_TRAILER_LEN)%nat then (Err BAD_PARAM, s)
  else
    match full_get (full_list s) (rtcp_ssrc buf) with
    | None => (Err NO_CTX, s)
    | Some st =>
        if bool_decide (length buf < octets_in_rtcp_header + TAG_LEN + SRTCP_TRAILER_LEN)%nat then (Err BAD_PARAM, s)
        else
          let '(r, st) := srtp_unprotect_rtcp_aead st buf in
          (r, mkFullSession (full_put (full_list s) st))
    end.

(** ** The Rust wrapper *)

Definition protect_rtcp : FullSession -> bytes -> result unit Error * bytes * FullSession :=
  overwrite srtp_protect_rtcp.
Definition unprotect_rtcp : FullSession -> bytes -> result unit Error * bytes * FullSession :=
  overwrite srtp_unprotect_rtcp.

Definition FullSession_new : FullSession := mkFullSession [].

(** [srtp_stream_init]: both halves from one master key. *)
Definition full_stream_init (ssrc : Z) (p : StreamPolicy) : result full_stream Error :=
  match stream_init ssrc p, stream_init_keys gcm gcm (policy_key p) with
  | Ok rtp, Ok (_, ks) => Ok (mkFull rtp (sk_key ks) (sk_salt ks) rdb_init 0)
  | Err e, _ => Err e
  | _, Err e => Err e
  end.

Definition full_add_stream (s : FullSession) (ssrc : Z) (p : StreamPolicy) : result unit Error * FullSession :=
  match sys_policy gcm gcm (policy_key p) with
  | Err e => (Err e, s)
  | Ok _ =>
      match full_stream_init ssrc p with
      | Err e => (Err e, s)
      | Ok st => (Ok tt, mkFullSession (st :: full_list s))
      end
  end.

(** Packets through [protect_rtcp] and [unprotect_rtcp] in a row. *)
Fixpoint rtcp_all (f : FullSession -> bytes -> result unit Error * bytes * FullSession) (s : FullSession)
    (l : list bytes) : list (result unit Error * bytes) * FullSession :=
  match l with
  | [] => ([], s)
  | buf :: l =>
      let '(r, buf, s) := f s buf in
      let '(out, s) := rtcp_all f s l in
      ((r, buf) :: out, s)
  end.

End Srtcp.

(** ** Lists of streams *)

Lemma full_get_ssrc l ssrc st : full_get l ssrc = Some st -> fs_ssrc st = ssrc.
Proof.
  induction l as [|st' l IH]; cbn; [done|]. destruct (Z.eqb_spec (fs_ssrc st') ssrc) as [E|]; [|done].
  by intros [= <-].
Qed.

Lemma full_get_put l st ssrc :
  full_get (full_put l st) ssrc =
  if fs_ssrc st =? ssrc then (match full_get l ssrc with Some _ => Some st | None => None end) else full_get l ssrc.
Proof.
  induction l as [|st' l IH]; cbn; [by destruct (_ =? _)|].
  destruct (Z.eqb_spec (fs_ssrc st') (fs_ssrc st)) as [E|E]; cbn.
  - rewrite E. by destruct (fs_ssrc st =? ssrc).
  - rewrite IH. destruct (Z.eqb_spec (fs_ssrc st') ssrc), (Z.eqb_spec (fs_ssrc st) ssrc); try done; lia.
Qed.

(** ** One SRTCP packet *)

Section Facts.
Context {CR : Crypto} {CL : CryptoLaws}.

Definition rtcp_trailer (i : Z) : bytes := u32_be (Z.lor SRTCP_E_BIT i).
Definition rtcp_iv (salt : bytes) (i : Z) (buf : bytes) : bytes :=
  zip_with Z.lxor ([0; 0] ++ take 4 (drop 4 buf) ++ [0; 0] ++ u32_be i) salt.

(** The SRTCP packet with index [i]. *)
Definition rtcp_wire (key salt : bytes) (i : Z) (buf : bytes) : bytes :=
  take 8 buf ++ gcm_seal key (rtcp_iv salt i buf) (take 8 buf ++ rtcp_trailer i) (drop 8 buf) ++ rtcp_trailer i.

Lemma e_bit_or i : 0 <= i < 2 ^ 31 -> Z.lor SRTCP_E_BIT i = 2 ^ 31 + i.
Proof using Type.
  clear. intros Hi. unfold SRTCP_E_BIT. change 0x80000000 with (Z.shiftl 1 31).
  rewrite <- Z.lxor_lor, <- Z.add_nocarry_lxor; [by rewrite Z.shiftl_1_l|..].
  all: apply Z.bits_inj'; intros n Hn; rewrite Z.land_spec, Z.bits_0, Z.shiftl_1_l, Z.pow2_bits_eqb by lia.
  all: destruct (Z.eqb_spec 31 n) as [<-|]; [|done].
  all: replace i with (i mod 2 ^ 31) by (apply Z.mod_small; lia); rewrite Z.mod_pow2_bits_high by lia; done.
Qed.

Lemma index_no_e_bit i : 0 <= i < 2 ^ 31 -> Z.land i SRTCP_E_BIT = 0.
Proof using Type.
  clear. intros Hi. unfold SRTCP_E_BIT. change 0x80000000 with (Z.shiftl 1 31). rewrite Z.shiftl_1_l.
  apply Z.bits_inj'; intros n Hn; rewrite Z.land_spec, Z.bits_0, Z.pow2_bits_eqb by lia.
  destruct (Z.eqb_spec 31 n) as [<-|]; [|apply andb_false_r].
  replace i with (i mod 2 ^ 31) by (apply Z.mod_small; lia). by rewrite Z.mod_pow2_bits_high by lia.
Qed.

Lemma trailer_fields i :
  0 <= i < 2 ^ 31 ->
  Z.land (from_be_bytes (rtcp_trailer i)) SRTCP_INDEX_MASK = i /\
  (Z.land (byte_at (rtcp_trailer i) 0) SRTCP_E_BYTE_BIT =? 0) = false.
Proof using Type.
  clear. intros Hi. unfold rtcp_trailer. rewrite e_bit_or, from_u32_be by (lia || width). split.
  - change SRTCP_INDEX_MASK with (Z.ones 31). rewrite Z.land_ones by lia.
    rewrite Z.add_mod, Z.mod_same, Z.add_0_l, Z.mod_mod by lia. by rewrite Z.mod_small by lia.
  - rewrite u32_be_cells. unfold byte_at. cbn [lookup list_lookup default from_option id].
    set (x := (2 ^ 31 + i) / 256 / 256 / 256).
    assert (128 <= x < 256) as Hx by (unfold x; rewrite !Z.div_div by lia; split; [apply Z.div_le_lower_bound|apply Z.div_lt_upper_bound]; lia).
    rewrite (Z.mod_small x) by lia. apply Z.eqb_neq. intros H0.
    assert (Z.testbit (Z.land x SRTCP_E_BYTE_BIT) 7 = false) as Hb by by rewrite H0.
    rewrite Z.land_spec, andb_true_r in Hb. apply Z.testbit_false in Hb; [|lia].
    change (2 ^ 7) with 128 in Hb. assert (x / 128 = 1) as Hq by (symmetry; apply (Z.div_unique x 128 1 (x - 128)); lia).
    by rewrite Hq in Hb.
Qed.


(** A packet the stream of [ssrc] can send. *)
Definition rtcp_packet (ssrc : Z) (buf : bytes) : Prop :=
  (8 <= length buf)%nat /\ rtcp_ssrc buf = ssrc /\ Z.of_nat (length buf) + 20 <= c_int_max.

Lemma length_trailer i : length (rtcp_trailer i) = 4%nat.
Proof using Type. apply length_u32_be. Qed.

Lemma length_rtcp_wire key salt i buf : (8 <= length buf)%nat -> length (rtcp_wire key salt i buf) = (length buf + 20)%nat.
Proof using CL.
  intros Hl. unfold rtcp_wire. rewrite !length_app, length_gcm_seal, length_take, length_drop, length_trailer.
  unfold GCM_TAG. lia.
Qed.

(** The pieces of a wire packet. *)
Lemma rtcp_wire_parts key salt i buf :
  (8 <= length buf)%nat ->
  let w := rtcp_wire key salt i buf in
  take 8 w = take 8 buf /\ rtcp_ssrc w = rtcp_ssrc buf /\ take 4 (drop 4 w) = take 4 (drop 4 buf) /\
  drop (length w - 4) w = rtcp_trailer i /\
  drop 8 (take (length w - 4) w) = gcm_seal key (rtcp_iv salt i buf) (take 8 buf ++ rtcp_trailer i) (drop 8 buf).
Proof using CL.
  intros Hl w. pose proof (length_rtcp_wire key salt i buf Hl) as Hlen. fold w in Hlen.
  set (ct := gcm_seal key (rtcp_iv salt i buf) (take 8 buf ++ rtcp_trailer i) (drop 8 buf)).
  assert (length (take 8 buf) = 8%nat) as Hh by (rewrite length_take; lia).
  assert (length ct = (length buf + 8)%nat) as Hct
    by (unfold ct; rewrite length_gcm_seal, length_drop; unfold GCM_TAG; lia).
  assert (w = take 8 buf ++ ct ++ rtcp_trailer i) as Hw by done.
  assert (take 8 w = take 8 buf) as Ht by (rewrite Hw; by apply take_app_length').
  assert (take 4 (drop 4 w) = take 4 (drop 4 buf)) as Hs.
  { rewrite !take_drop_commute. cbn [Nat.add]. by rewrite Ht. }
  split_and!; [done|unfold rtcp_ssrc; by rewrite Hs|done|..].
  - rewrite Hlen, Hw, app_assoc. apply drop_app_length'. rewrite length_app. lia.
  - rewrite Hlen, Hw, app_assoc, take_app_length' by (rewrite length_app; lia). by apply drop_app_length'.
Qed.

(** Sending: the next index. *)
Lemma protect_rtcp_step s ssrc st i buf :
  full_get (full_list s) ssrc = Some st -> rtcp_packet ssrc buf -> window_start (fs_rtcp_rdb st) = i ->
  0 <= i < 2 ^ 31 - 1 ->
  exists s' st',
    protect_rtcp s buf = (Ok tt, rtcp_wire (fs_rtcp_key st) (fs_rtcp_salt st) (i + 1) buf, s') /\
    full_get (full_list s') ssrc = Some st' /\ window_start (fs_rtcp_rdb st') = i + 1 /\
    fs_rtcp_key st' = fs_rtcp_key st /\ fs_rtcp_salt st' = fs_rtcp_salt st.
Proof using Type.
  intros Hget (Hl & Hss & Hmax) Hi Hr. unfold protect_rtcp, overwrite, srtp_protect_rtcp, octets_in_rtcp_header.
  destruct (Z.ltb_spec c_int_max (Z.of_nat (length buf))); [lia|].
  rewrite bool_decide_eq_false_2, Hss, Hget by lia. unfold srtp_protect_rtcp_aead, rdb_increment.
  cbn [fs_fix_direction set_rtp fs_rtcp_rdb]. rewrite Hi. destruct (Z.leb_spec 0x7fffffff i); [lia|].
  unfold rdb_get_value. cbn [window_start]. rewrite u32_id by width.
  unfold calc_aead_iv_srtcp. rewrite index_no_e_bit by lia. cbn [Z.eqb negb].
  eexists _, _. split; [done|]. cbn [full_list]. rewrite full_get_put.
  pose proof (full_get_ssrc _ _ _ Hget) as Hs. unfold fs_ssrc in *.
  assert (st_ssrc (fix_direction (fs_rtp st) dir_srtp_sender) = ssrc) as Hs'
    by (rewrite <- Hs; unfold fix_direction; by destruct (st_direction _)).
  cbn [set_rtcp_rdb set_rtp fs_fix_direction fs_rtp]. rewrite Hs', Z.eqb_refl, Hget. done.
Qed.

(** Receiving: a genuine packet is refused exactly when the window refuses
    its index, and opened otherwise. *)
Lemma unprotect_rtcp_step s ssrc st rs i buf :
  full_get (full_list s) ssrc = Some st -> rtcp_packet ssrc buf -> 0 <= i < 2 ^ 31 ->
  rdb_refines (fs_rtcp_rdb st) rs -> Replay.ok rs ->
  exists s' st',
    unprotect_rtcp s (rtcp_wire (fs_rtcp_key st) (fs_rtcp_salt st) i buf) =
      (match Replay.check rs i with None => (Ok tt, buf) | Some e => (Err e, []) end, s') /\
    full_get (full_list s') ssrc = Some st' /\
    rdb_refines (fs_rtcp_rdb st') (match Replay.check rs i with None => Replay.add rs i | Some _ => rs end) /\
    fs_rtcp_key st' = fs_rtcp_key st /\ fs_rtcp_salt st' = fs_rtcp_salt st.
Proof using CL.
  intros Hget (Hl & Hss & Hmax) Hi Href Hok. set (w := rtcp_wire _ _ i buf).
  destruct (rtcp_wire_parts (fs_rtcp_key st) (fs_rtcp_salt st) i buf Hl) as (Ht & Hsw & Hs4 & Htr & Hct).
  pose proof (length_rtcp_wire (fs_rtcp_key st) (fs_rtcp_salt st) i buf Hl) as Hlw. fold w in Ht, Hsw, Hs4, Htr, Hct, Hlw.
  unfold unprotect_rtcp, overwrite, srtp_unprotect_rtcp, octets_in_rtcp_header, SRTCP_TRAILER_LEN, TAG_LEN.
  destruct (Z.ltb_spec c_int_max (Z.of_nat (length w))); [lia|].
  rewrite !bool_decide_eq_false_2, Hsw, Hss, Hget by lia. unfold srtp_unprotect_rtcp_aead, SRTCP_TRAILER_LEN.
  destruct (trailer_fields i Hi) as [Hidx He]. rewrite Htr, Hidx, He, (rdb_check_refines _ rs) by done. cbn [negb].
  pose proof (full_get_ssrc _ _ _ Hget) as Hs.
  destruct (Replay.check rs i) as [e|] eqn:Hchk.
  - eexists _, st. split; [done|]. cbn [full_list]. by rewrite full_get_put, Hs, Z.eqb_refl, Hget.
  - unfold calc_aead_iv_srtcp. rewrite index_no_e_bit, Hs4 by done. cbn [Z.eqb negb]. cbn zeta.
    unfold octets_in_rtcp_header. rewrite Ht, length_take, Nat.min_l, Hct by lia.
    fold (rtcp_iv (fs_rtcp_salt st) i buf). rewrite gcm_open_seal, take_drop.
    eexists _, _. split; [done|]. cbn [full_list]. rewrite full_get_put. unfold fs_ssrc in *.
    assert (st_ssrc (fix_direction (fs_rtp st) dir_srtp_receiver) = ssrc) as Hs'
      by (rewrite <- Hs; unfold fix_direction; by destruct (st_direction _)).
    cbn [set_rtcp_rdb set_rtp fs_fix_direction fs_rtp]. rewrite Hs', Z.eqb_refl, Hget. split; [done|].
    split; [|done]. apply rdb_add_refines; [done|done|done|lia].
Qed.

End Facts.

(** ** A stream of SRTCP packets *)

Section Main.
Context {CR : Crypto} {CL : CryptoLaws}.

(** The indices on the wire start at one. *)
Definition rtcp_index (i : nat) : Z := Z.of_nat i + 1.

Definition rtcp_wires (key salt : bytes) (bufs : list bytes) : list bytes :=
  imap (fun i buf => rtcp_wire key salt (rtcp_index i) buf) bufs.

(** What the receiver should make of a delivery order: the packet, once per
    index, while the index is inside the window. *)
Fixpoint rtcp_expected (rs : Replay.t) (bufs : list bytes) (l : list nat) : list (result unit Error * bytes) :=
  match l with
  | [] => []
  | i :: l =>
      match Replay.check rs (rtcp_index i) with
      | Some e => (Err e, []) :: rtcp_expected rs bufs l
      | None => (Ok tt, default [] (bufs !! i)) :: rtcp_expected (Replay.add rs (rtcp_index i)) bufs l
      end
  end.

Lemma protect_rtcp_run s ssrc st k bufs :
  full_get (full_list s) ssrc = Some st -> Forall (rtcp_packet ssrc) bufs ->
  window_start (fs_rtcp_rdb st) = k -> 0 <= k -> k + Z.of_nat (length bufs) < 2 ^ 31 ->
  exists s',
    rtcp_all protect_rtcp s bufs =
      (imap (fun i buf => (Ok tt, rtcp_wire (fs_rtcp_key st) (fs_rtcp_salt st) (k + Z.of_nat i + 1) buf)) bufs, s').
Proof.
  intros Hget Hall. revert s st k Hget. induction Hall as [|buf bufs Hb _ IH]; intros s st k Hget Hk H0 Hmax.
  - by exists s.
  - cbn [length rtcp_all] in *.
    destruct (protect_rtcp_step s ssrc st k buf Hget Hb Hk ltac:(lia)) as (s1 & st1 & -> & Hget1 & Hk1 & Hkey & Hsalt).
    destruct (IH s1 st1 (k + 1) Hget1 Hk1 ltac:(lia) ltac:(lia)) as (s' & Hrun). exists s'. rewrite Hrun, Hkey, Hsalt.
    rewrite imap_cons, Z.add_0_r. do 2 f_equal. apply imap_ext. intros i x _. unfold compose.
    by replace (k + Z.of_nat (S i) + 1) with (k + 1 + Z.of_nat i + 1) by lia.
Qed.

Lemma unprotect_rtcp_run s ssrc st rs bufs l :
  full_get (full_list s) ssrc = Some st -> Forall (rtcp_packet ssrc) bufs -> Z.of_nat (length bufs) < 2 ^ 31 - 1 ->
  rdb_refines (fs_rtcp_rdb st) rs -> Replay.ok rs -> Forall (fun i => (i < length bufs)%nat) l ->
  exists s',
    rtcp_all unprotect_rtcp s (omap (fun i => rtcp_wires (fs_rtcp_key st) (fs_rtcp_salt st) bufs !! i) l) =
      (rtcp_expected rs bufs l, s').
Proof.
  intros Hget Hall Hmax Href Hok Hl. revert s st rs Hget Href Hok.
  induction Hl as [|i l Hi _ IH]; intros s st rs Hget Href Hok; [by exists s|].
  destruct (lookup_lt_is_Some_2 _ _ Hi) as [buf Hbuf]. cbn [omap list_omap rtcp_expected].
  unfold rtcp_wires at 1. rewrite list_lookup_imap, Hbuf. cbn [fmap option_fmap option_map default from_option id rtcp_all].
  rewrite Forall_forall in Hall. pose proof (Hall buf (list_elem_of_lookup_2 _ _ _ Hbuf)) as Hb.
  destruct (unprotect_rtcp_step s ssrc st rs (rtcp_index i) buf Hget Hb) as (s1 & st1 & Hrun & Hget1 & Href1 & Hkey & Hsalt);
    [unfold rtcp_index; lia|done..|].
  rewrite Hrun. rewrite <- Hkey, <- Hsalt.
  destruct (Replay.check rs (rtcp_index i)) as [e|].
  - destruct (IH s1 st1 rs Hget1 Href1 Hok) as (s' & ->). by exists s'.
  - destruct (IH s1 st1 _ Hget1 Href1 (Replay.add_ok _ _ Hok)) as (s' & ->). by exists s'.
Qed.

(** C24: SRTCP end to end: a stream added to a session protects any list of RTCP
    packets, and a receiver with the same policy, given the protected
    packets in any order with losses and repetitions, returns each packet
    byte for byte once, while its index is inside the 128-packet window, and
    answers a repetition with REPLAY_FAIL and an index behind the window
    with REPLAY_OLD. *)
Theorem srtcp_delivery ssrc p bufs l :
  (28 <= length (policy_key p))%nat -> policy_window_size p = 0 \/ 64 <= policy_window_size p < 0x8000 ->
  Forall (rtcp_packet ssrc) bufs -> Z.of_nat (length bufs) < 2 ^ 31 - 1 ->
  Forall (fun i => (i < length bufs)%nat) l ->
  exists s0 ws tx rx,
    full_add_stream FullSession_new ssrc p = (Ok tt, s0) /\
    rtcp_all protect_rtcp s0 bufs = ((fun w => (Ok tt, w)) <$> ws, tx) /\
    rtcp_all unprotect_rtcp s0 (omap (fun i => ws !! i) l) = (rtcp_expected rdb_replay0 bufs l, rx).
Proof.
  intros Hk Hw Hb Hmax Hl. unfold full_add_stream. rewrite sys_policy_gcm by done.
  unfold full_stream_init, stream_init.
  assert (negb (policy_window_size p =? 0) && ((policy_window_size p <? 64) || (0x8000 <=? policy_window_size p)) = false)
    as -> by (destruct Hw as [->|Hw]; [done|]; rewrite andb_false_iff, orb_false_iff, Z.ltb_ge, Z.leb_gt; lia).
  set (ws := if policy_window_size p =? 0 then 128 else policy_window_size p).
  unfold rdbx_init. assert (ws ≠ 0) as Hws by (unfold ws; destruct (Z.eqb_spec (policy_window_size p) 0); lia).
  destruct (Z.eqb_spec ws 0); [done|]. destruct (gcm_keys_some (policy_key p)) as [[ks ks'] ->].
  set (st := mkFull _ _ _ _ _). set (s0 := mkFullSession _).
  assert (full_get (full_list s0) ssrc = Some st) as Hget by (cbn; unfold fs_ssrc; cbn; by rewrite Z.eqb_refl).
  destruct rdb_init_refines as [Href Hok].
  destruct (protect_rtcp_run s0 ssrc st 0 bufs Hget Hb eq_refl ltac:(lia) ltac:(lia)) as (tx & Htx).
  destruct (unprotect_rtcp_run s0 ssrc st rdb_replay0 bufs l Hget Hb Hmax Href Hok Hl) as (rx & Hrx).
  exists s0, (rtcp_wires (fs_rtcp_key st) (fs_rtcp_salt st) bufs), tx, rx. split; [done|]. split; [|done].
  rewrite Htx. unfold rtcp_wires. f_equal. rewrite fmap_imap. apply imap_ext. intros i x _. done.
Qed.

End Main.

Import Toy.

Module RtcpExample.

Definition policy : StreamPolicy := mkStreamPolicy (replicate 28 5) 0 false.
Definition packet (b : Z) : bytes := [128; 200; 0; 1; 0; 0; 0; 7; b; b].
Definition bufs : list bytes := [packet 1; packet 2; packet 3].

End RtcpExample.

(** The third packet overtakes the first two, and the first comes twice. *)
Lemma srtcp_delivery_witness :
  rtcp_expected rdb_replay0 RtcpExample.bufs [2; 0; 1; 0]%nat =
    [(Ok tt, RtcpExample.packet 3); (Ok tt, RtcpExample.packet 1); (Ok tt, RtcpExample.packet 2); (Err REPLAY_FAIL, [])] /\
  exists s0 ws tx rx,
    full_add_stream FullSession_new 7 RtcpExample.policy = (Ok tt, s0) /\
    rtcp_all protect_rtcp s0 RtcpExample.bufs = ((fun w => (Ok tt, w)) <$> ws, tx) /\
    rtcp_all unprotect_rtcp s0 (omap (fun i => ws !! i) [2; 0; 1; 0]%nat) =
      (rtcp_expected rdb_replay0 RtcpExample.bufs [2; 0; 1; 0]%nat, rx).
Proof.
  split; [vm_compute; reflexivity|].
  apply (srtcp_delivery 7 RtcpExample.policy RtcpExample.bufs [2; 0; 1; 0]%nat).
  - cbn. lia.
  - by left.
  - repeat (apply Forall_cons_2; [split; [cbn; lia|split; [reflexivity|cbn; unfold c_int_max; lia]]|]). apply Forall_nil_2.
  - cbn. lia.
  - repeat (apply Forall_cons_2; [cbn; lia|]). apply Forall_nil_2.
Defined.
