(* ===== verification/SessionAdmin.v ===== *)
(** * SessionAdmin: removing, updating and synchronising streams

    The remaining operations of src/third_party/srtp/src/session.rs over
    whole streams (Srtcp.v): [remove_stream], [update_stream],
    [get_stream_roc], [set_stream_roc], [inplace_rekey], and SRTP packets
    while a rollover counter set from outside is pending
    (src/third_party/srtp2-sys/libsrtp/srtp/srtp.c: [srtp_estimate_index],
    [srtp_get_est_pkt_index]; crypto/replay/rdbx.c).  libsrtp stores and
    compares SSRCs in network byte order; a stream's [st_ssrc] is the host's
    value, and the byte order of the machine is a parameter. *)

From S2P Require Import Prelude Bytes Crypto IndexRecovery Rdbx Rdb Kdf Session Srtcp.

(** ** Byte order *)

(** A 32-bit word with its bytes reversed. *)
Definition bswap32 (x : Z) : Z := from_be_bytes (to_le_bytes 4 x).

(** [htonl] and [ntohl]. *)
Definition htonl (big_endian : bool) (x : Z) : Z := if big_endian then x else bswap32 x.

(** ** Rollover counters *)

Definition rdbx_get_roc (r : srtp_rdbx) : Z := u32 (Z.shiftr (rdbx_index r) 16).

(** A lower counter is refused and the database left alone; the status is
    not returned, since both callers ignore it. *)
Definition rdbx_set_roc_seq (r : srtp_rdbx) (roc seq : Z) : srtp_rdbx :=
  if roc <? Z.shiftr (rdbx_index r) 16 then r
  else mkRdbx (Z.lor seq (u64 (Z.shiftl roc 16))) (rdbx_length r) 0.

(** [srtp_estimate_index]: the status, the index and its distance. *)
Definition estimate_pending (r : srtp_rdbx) (roc seq : Z) : option Error * Z * Z :=
  let est := Z.lor (u64 (Z.shiftl roc 16)) seq in
  let index := rdbx_index r in
  if index <? est then
    if seq_num_median <? est - index then (Some PKT_IDX_ADV, est, 0) else (None, est, est - index)
  else if est <? index then
    if seq_num_median <? index - est then (Some PKT_IDX_OLD, est, 0) else (None, est, est - index)
  else (None, est, 0).

(** [srtp_get_est_pkt_index]. *)
Definition get_est_pkt_index (st : full_stream) (seq : Z) : option Error * Z * Z :=
  if negb (fs_pending_roc st =? 0) then estimate_pending (st_rdbx (fs_rtp st)) (fs_pending_roc st) seq
  else let '(est, delta) := rdbx_estimate_index (st_rdbx (fs_rtp st)) seq in (None, est, delta).

Definition set_pending (st : full_stream) (roc : Z) : full_stream :=
  mkFull (fs_rtp st) (fs_rtcp_key st) (fs_rtcp_salt st) (fs_rtcp_rdb st) roc.

Section Admin.
Context {CR : Crypto}.

(** ** SRTP on whole streams *)

(** The index the pending counter announces becomes the stream's. *)
Definition jump_to (r : srtp_rdbx) (est : Z) : srtp_rdbx :=
  rdbx_add_index (rdbx_set_roc_seq r (u32 (Z.shiftr est 16)) (u16 est)) 0.

Definition full_protect_aead (st : full_stream) (buf : bytes) : result bytes Error * full_stream :=
  let '(hard, n) := key_limit_update (st_limit (fs_rtp st)) in
  let st := set_rtp st (set_limit (fs_rtp st) n) in
  if hard then (Err KEY_EXPIRED, st)
  else
    let start := enc_start buf in
    if bool_decide (start <= length buf)%nat then
      let rtp := fs_rtp st in
      let seal est :=
        take start buf ++
          gcm_seal (st_key rtp) (calc_aead_iv (st_salt rtp) est buf) (take start buf) (drop start buf) in
      match get_est_pkt_index st (hdr_seq buf) with
      | (Some e, est, _) =>
          if bool_decide (e = PKT_IDX_ADV) then
            (Ok (seal est), set_pending (set_rtp st (set_rdbx rtp (jump_to (st_rdbx rtp) est))) 0)
          else (Err e, st)
      | (None, est, delta) =>
          let refused :=
            match rdbx_check (st_rdbx rtp) delta with
            | Some e => if bool_decide (e = REPLAY_FAIL) && st_allow_repeat_tx rtp then None else Some e
            | None => None
            end in
          match refused with
          | Some e => (Err e, st)
          | None => (Ok (seal est), set_rtp st (set_rdbx rtp (rdbx_add_index (st_rdbx rtp) delta)))
          end
      end
    else (Err PARSE_ERR, st).

Definition full_srtp_protect (s : FullSession) (buf : bytes) : result bytes Error * FullSession :=
  match validate_rtp_header buf with
  | Some e => (Err e, s)
  | None =>
      match full_get (full_list s) (hdr_ssrc buf) with
      | None => (Err NO_CTX, s)
      | Some st =>
          let '(r, st) := full_protect_aead (fs_fix_direction st dir_srtp_sender) buf in
          (r, mkFullSession (full_put (full_list s) st))
      end
  end.

Definition full_srtp_unprotect (s : FullSession) (buf : bytes) : result bytes Error * FullSession :=
  match validate_rtp_header buf with
  | Some e => (Err e, s)
  | None =>
      match full_get (full_list s) (hdr_ssrc buf) with
      | None => (Err NO_CTX, s)
      | Some st =>
          let rtp := fs_rtp st in
          match get_est_pkt_index st (hdr_seq buf) with
          | (Some e, est, _) =>
              if bool_decide (e = PKT_IDX_ADV) then
                match srtp_unprotect_aead rtp 0 est buf with
                | (Err e, rtp') => (Err e, mkFullSession (full_put (full_list s) (set_rtp st rtp')))
                | (Ok out, rtp') =>
                    (* the jump replaces the plain insertion of the index *)
                    let st := set_pending (set_rtp st (set_rdbx rtp' (jump_to (st_rdbx rtp) est))) 0 in
                    (Ok out, mkFullSession (full_put (full_list s) st))
                end
              else (Err e, s)
          | (None, est, delta) =>
              match rdbx_check (st_rdbx rtp) delta with
              | Some e => (Err e, s)
              | None =>
                  let '(r, rtp) := srtp_unprotect_aead rtp delta est buf in
                  (r, mkFullSession (full_put (full_list s) (set_rtp st rtp)))
              end
          end
      end
  end.

Definition full_protect : FullSession -> bytes -> result unit Error * bytes * FullSession :=
  overwrite full_srtp_protect.
Definition full_unprotect : FullSession -> bytes -> result unit Error * bytes * FullSession :=
  overwrite full_srtp_unprotect.

(** ** Administration *)

(** [srtp_stream_list_remove] of the first stream with this SSRC. *)
Fixpoint full_remove (l : list full_stream) (ssrc : Z) : list full_stream :=
  match l with
  | [] => []
  | st :: l => if fs_ssrc st =? ssrc then l else st :: full_remove l ssrc
  end.

(** [srtp_remove_stream]; [ssrc] is compared with the stored network-order
    word as it is. *)
Definition srtp_remove_stream (big_endian : bool) (s : FullSession) (ssrc : Z) : result unit Error * FullSession :=
  let host := htonl big_endian ssrc in
  match full_get (full_list s) host with
  | None => (Err NO_CTX, s)
  | Some _ => (Ok tt, mkFullSession (full_remove (full_list s) host))
  end.

(** [SessionRef::remove_stream] hands its argument over unchanged. *)
Definition remove_stream (big_endian : bool) (s : FullSession) (ssrc : Z) : result unit Error * FullSession :=
  srtp_remove_stream big_endian s ssrc.

(** [update_stream] of libsrtp: remove, add, restore the indices. *)
Definition srtp_update_stream (big_endian : bool) (s : FullSession) (ssrc : Z) (p : StreamPolicy) :
    result unit Error * FullSession :=
  match full_get (full_list s) ssrc with
  | None => (Err BAD_PARAM, s)
  | Some old =>
      match srtp_remove_stream big_endian s (htonl big_endian ssrc) with
      | (Err e, s) => (Err e, s)
      | (Ok _, s) =>
          match full_stream_init ssrc p with
          | Err e => (Err e, s)
          | Ok st =>
              let r := st_rdbx (fs_rtp st) in
              let rtp := set_rdbx (fs_rtp st) (mkRdbx (rdbx_index (st_rdbx (fs_rtp old))) (rdbx_length r) (rdbx_bitmask r)) in
              (Ok tt, mkFullSession (set_rtcp_rdb (set_rtp st rtp) (fs_rtcp_rdb old) :: full_list s))
          end
      end
  end.

Definition update_stream (big_endian : bool) (s : FullSession) (ssrc : Z) (p : StreamPolicy) :
    result unit Error * FullSession :=
  match sys_policy gcm gcm (policy_key p) with
  | Err e => (Err e, s)
  | Ok _ => srtp_update_stream big_endian s ssrc p
  end.

Definition get_stream_roc (s : FullSession) (ssrc : Z) : result Z Error :=
  match full_get (full_list s) ssrc with
  | None => Err BAD_PARAM
  | Some st => Ok (rdbx_get_roc (st_rdbx (fs_rtp st)))
  end.

Definition set_stream_roc (s : FullSession) (ssrc roc : Z) : result unit Error * FullSession :=
  match full_get (full_list s) ssrc with
  | None => (Err BAD_PARAM, s)
  | Some st => (Ok tt, mkFullSession (full_put (full_list s) (set_pending st roc)))
  end.

(** In-place rekeying touches the SRTP half only. *)
Definition full_inplace_rekey (s : FullSession) (ssrc : Z) (key salt : bytes) : result unit Error * FullSession :=
  if bool_decide (length key ≠ 16%nat \/ length salt ≠ 12%nat) then (Err BAD_PARAM, s)
  else
    match full_get (full_list s) ssrc with
    | None => (Err BAD_PARAM, s)
    | Some st => (Ok tt, mkFullSession (full_put (full_list s) (set_rtp st (set_key (fs_rtp st) key salt))))
    end.

End Admin.

(** ** SRTP beside SRTCP *)

Section Interleaving.
Context {CR : Crypto}.

Inductive MediaOp :=
| OpProtect (buf : bytes)
| OpUnprotect (buf : bytes)
| OpProtectRtcp (buf : bytes)
| OpUnprotectRtcp (buf : bytes)
| OpRekey (ssrc : Z) (key salt : bytes).

Definition media_step (s : FullSession) (op : MediaOp) : result unit Error * bytes * FullSession :=
  match op with
  | OpProtect buf => full_protect s buf
  | OpUnprotect buf => full_unprotect s buf
  | OpProtectRtcp buf => protect_rtcp s buf
  | OpUnprotectRtcp buf => unprotect_rtcp s buf
  | OpRekey ssrc key salt => let '(r, s) := full_inplace_rekey s ssrc key salt in (r, [], s)
  end.

(** What the keying layers see: SRTP alone, over the sessions of Session.v. *)
Definition srtp_step (s : Session) (op : MediaOp) : option (result unit Error * bytes) * Session :=
  match op with
  | OpProtect buf => let '(r, buf, s) := protect s buf in (Some (r, buf), s)
  | OpUnprotect buf => let '(r, buf, s) := unprotect s buf in (Some (r, buf), s)
  | OpProtectRtcp _ | OpUnprotectRtcp _ => (None, s)
  | OpRekey ssrc key salt => let '(r, s) := inplace_rekey s ssrc key salt in (Some (r, []), s)
  end.

Definition is_rtcp (op : MediaOp) : bool :=
  match op with OpProtectRtcp _ | OpUnprotectRtcp _ => true | _ => false end.

(** The answers to the SRTP operations. *)
Fixpoint media_run (s : FullSession) (ops : list MediaOp) : list (result unit Error * bytes) * FullSession :=
  match ops with
  | [] => ([], s)
  | op :: ops =>
      let '(r, buf, s) := media_step s op in
      let '(out, s) := media_run s ops in
      (if is_rtcp op then out else (r, buf) :: out, s)
  end.

Fixpoint srtp_run (s : Session) (ops : list MediaOp) : list (result unit Error * bytes) * Session :=
  match ops with
  | [] => ([], s)
  | op :: ops =>
      let '(r, s) := srtp_step s op in
      let '(out, s) := srtp_run s ops in
      (match r with Some r => r :: out | None => out end, s)
  end.

(** Streams that differ at most in the direction noted. *)
Definition norm (st : srtp_stream) : srtp_stream := set_direction st dir_unknown.

Definition same_stream (st : full_stream) (u : srtp_stream) : Prop :=
  fs_pending_roc st = 0 /\ norm (fs_rtp st) = norm u.

Definition same_session (s : FullSession) (t : Session) : Prop :=
  Forall2 same_stream (full_list s) (stream_list t).

Lemma norm_fix st d : norm (fix_direction st d) = norm st.
Proof. unfold fix_direction. by destruct (st_direction st). Qed.

Lemma norm_ssrc st u : norm st = norm u -> st_ssrc st = st_ssrc u.
Proof. intros H. exact (f_equal st_ssrc H). Qed.

(** SRTP ignores the direction. *)
Lemma protect_aead_norm st buf :
  srtp_protect_aead (norm st) buf = prod_map id norm (srtp_protect_aead st buf).
Proof.
  unfold srtp_protect_aead, norm. cbn [set_direction st_limit st_rdbx st_allow_repeat_tx st_key st_salt set_limit set_rdbx].
  repeat case_match; simplify_eq; done.
Qed.

Lemma unprotect_aead_norm st delta est buf r st' :
  srtp_unprotect_aead st delta est buf = (r, st') ->
  exists st2, srtp_unprotect_aead (norm st) delta est buf = (r, st2) /\ norm st2 = norm st'.
Proof.
  unfold srtp_unprotect_aead, norm. cbn [set_direction st_limit st_rdbx st_key st_salt set_limit].
  destruct (_ <=? _); [|intros [= <- <-]; eauto]. destruct (_ <? _); [intros [= <- <-]; eauto|].
  destruct (key_limit_update _) as [[] n]; [intros [= <- <-]; eauto|]. cbn [set_limit st_key st_salt].
  destruct (gcm_open _ _ _ _); intros [= <- <-]; [|eauto]. eexists. split; [done|].
  unfold fix_direction. cbn [set_limit st_direction set_direction]. by destruct (st_direction st).
Qed.

Lemma unprotect_aead_same_norm st u delta est buf r st' :
  norm st = norm u -> srtp_unprotect_aead st delta est buf = (r, st') ->
  exists u', srtp_unprotect_aead u delta est buf = (r, u') /\ norm st' = norm u'.
Proof.
  intros Hn H. apply unprotect_aead_norm in H as (st2 & H2 & Hn2). rewrite Hn in H2.
  destruct (srtp_unprotect_aead u delta est buf) as [r' u'] eqn:Hu.
  apply unprotect_aead_norm in Hu as (u2 & Hu2 & Hnu). rewrite H2 in Hu2. injection Hu2 as <- <-.
  exists u'. split; [done|congruence].
Qed.

Lemma protect_aead_same_norm st u buf r st' :
  norm st = norm u -> srtp_protect_aead st buf = (r, st') ->
  exists u', srtp_protect_aead u buf = (r, u') /\ norm st' = norm u'.
Proof.
  intros Hn H. pose proof (protect_aead_norm st buf) as Hs. pose proof (protect_aead_norm u buf) as Hu.
  rewrite Hn, Hu, H in Hs. destruct (srtp_protect_aead u buf) as [r' u']. unfold prod_map in Hs. cbn [fst snd] in Hs.
  apply pair_equal_spec in Hs as [Hr Hs]. exists u'. by rewrite (Hr : r' = r).
Qed.

(** Without a pending counter the whole stream protects like its SRTP half. *)
Lemma full_protect_aead_plain st buf :
  fs_pending_roc st = 0 ->
  full_protect_aead st buf = prod_map id (set_rtp st) (srtp_protect_aead (fs_rtp st) buf).
Proof.
  intros Hp. unfold full_protect_aead, srtp_protect_aead, get_est_pkt_index.
  destruct (key_limit_update _) as [[] n]; [done|]. cbn [set_rtp fs_pending_roc fs_rtp].
  rewrite Hp. cbn [Z.eqb negb]. case_bool_decide; [|done]. cbn [set_limit st_rdbx].
  destruct (rdbx_estimate_index _ _) as [est delta]. cbn [set_limit st_rdbx st_allow_repeat_tx st_key st_salt].
  destruct (rdbx_check _ delta) as [e|]; [|done]. by destruct (_ && _).
Qed.

(** ** Lists in step *)

Lemma same_get l k ssrc :
  Forall2 same_stream l k ->
  match full_get l ssrc, stream_list_get k ssrc with
  | Some st, Some u => same_stream st u
  | None, None => True
  | _, _ => False
  end.
Proof.
  induction 1 as [|st u l k [Hp Hn] _ IH]; cbn; [done|].
  unfold fs_ssrc. rewrite (norm_ssrc _ _ Hn). by destruct (st_ssrc u =? ssrc).
Qed.

Lemma same_put l k st u :
  Forall2 same_stream l k -> same_stream st u -> Forall2 same_stream (full_put l st) (stream_list_put k u).
Proof.
  intros Hl [Hp Hn]. induction Hl as [|st' u' l k [Hp' Hn'] Hl IH]; cbn; [done|].
  unfold fs_ssrc at 1 2. rewrite (norm_ssrc _ _ Hn), (norm_ssrc _ _ Hn').
  destruct (_ =? _); constructor; done.
Qed.

(** Writing back a stream whose SRTP half is unchanged up to direction. *)
Lemma same_put_rtcp l k ssrc st st' :
  Forall2 same_stream l k -> full_get l ssrc = Some st -> fs_pending_roc st' = fs_pending_roc st ->
  norm (fs_rtp st') = norm (fs_rtp st) -> Forall2 same_stream (full_put l st') k.
Proof.
  intros Hl Hget Hp Hn. revert Hget. induction Hl as [|x u l k [Hxp Hxn] Hl IH]; cbn; [done|].
  destruct (Z.eqb_spec (fs_ssrc x) ssrc) as [E|E].
  - intros [= ->]. unfold fs_ssrc. rewrite (norm_ssrc _ _ Hn), Z.eqb_refl. constructor; [split; congruence|done].
  - intros Hget. pose proof (full_get_ssrc _ _ _ Hget) as Hs. unfold fs_ssrc in *. rewrite (norm_ssrc _ _ Hn).
    destruct (Z.eqb_spec (st_ssrc (fs_rtp x)) (st_ssrc (fs_rtp st))); [lia|]. constructor; [done|by apply IH].
Qed.

(** ** Operations in step *)

Lemma same_srtp_protect s t buf r s' :
  same_session s t -> full_srtp_protect s buf = (r, s') ->
  exists t', srtp_protect t buf = (r, t') /\ same_session s' t'.
Proof.
  intros Hs. unfold full_srtp_protect, srtp_protect. destruct (validate_rtp_header buf); [intros [= <- <-]; eauto|].
  pose proof (same_get _ _ (hdr_ssrc buf) Hs) as Hg.
  destruct (full_get _ _) as [st|], (stream_list_get _ _) as [u|]; try done; [|intros [= <- <-]; eauto].
  destruct Hg as [Hp Hn]. rewrite full_protect_aead_plain by done. cbn [fs_fix_direction set_rtp fs_rtp].
  destruct (srtp_protect_aead (fix_direction (fs_rtp st) dir_srtp_sender) buf) as [r1 rtp] eqn:H1.
  apply (protect_aead_same_norm _ (fix_direction u dir_srtp_sender)) in H1 as (u' & -> & Hn'); [|by rewrite !norm_fix].
  intros [= <- <-]. eexists. split; [done|]. by apply same_put.
Qed.

Lemma same_srtp_unprotect s t buf r s' :
  same_session s t -> full_srtp_unprotect s buf = (r, s') ->
  exists t', srtp_unprotect t buf = (r, t') /\ same_session s' t'.
Proof.
  intros Hs. unfold full_srtp_unprotect, srtp_unprotect. destruct (validate_rtp_header buf); [intros [= <- <-]; eauto|].
  pose proof (same_get _ _ (hdr_ssrc buf) Hs) as Hg.
  destruct (full_get _ _) as [st|], (stream_list_get _ _) as [u|]; try done; [|intros [= <- <-]; eauto].
  destruct Hg as [Hp Hn]. unfold get_est_pkt_index. rewrite Hp. cbn [Z.eqb negb].
  assert (st_rdbx (fs_rtp st) = st_rdbx u) as Hr by exact (f_equal st_rdbx Hn). rewrite Hr.
  destruct (rdbx_estimate_index _ _) as [est delta]. destruct (rdbx_check _ _); [intros [= <- <-]; eauto|].
  destruct (srtp_unprotect_aead (fs_rtp st) delta est buf) as [r1 rtp] eqn:H1.
  apply (unprotect_aead_same_norm _ u) in H1 as (u' & -> & Hn'); [|done].
  intros [= <- <-]. eexists. split; [done|]. by apply same_put.
Qed.

Lemma same_overwrite f g s t buf r b s' :
  (forall r s', f s buf = (r, s') -> exists t', g t buf = (r, t') /\ same_session s' t') -> same_session s t ->
  overwrite f s buf = (r, b, s') -> exists t', overwrite g t buf = (r, b, t') /\ same_session s' t'.
Proof.
  intros Hf Hs. unfold overwrite. destruct (_ <? _); [intros [= <- <- <-]; eauto|].
  destruct (f s buf) as [r1 s1] eqn:H1. destruct (Hf _ _ eq_refl) as (t1 & -> & Hs1).
  destruct r1; intros [= <- <- <-]; eauto.
Qed.

(** SRTCP leaves the SRTP halves alone, up to the direction. *)
Lemma same_protect_rtcp s t buf r s' :
  same_session s t -> srtp_protect_rtcp s buf = (r, s') -> same_session s' t.
Proof.
  intros Hs. unfold srtp_protect_rtcp. case_bool_decide; [by intros [= <- <-]|].
  destruct (full_get _ _) as [st|] eqn:Hget; [|by intros [= <- <-]].
  destruct (srtp_protect_rtcp_aead _ buf) as [r1 st1] eqn:H1. intros [= <- <-].
  assert (fs_pending_roc st1 = fs_pending_roc st /\ norm (fs_rtp st1) = norm (fs_rtp st)) as [Hp Hn].
  { unfold srtp_protect_rtcp_aead in H1. destruct (rdb_increment _) as [[e|] rdb].
    - injection H1 as <- <-. cbn. by rewrite norm_fix.
    - destruct (calc_aead_iv_srtcp _ _ _); injection H1 as <- <-; cbn; by rewrite norm_fix. }
  by eapply same_put_rtcp.
Qed.

Lemma same_unprotect_rtcp s t buf r s' :
  same_session s t -> srtp_unprotect_rtcp s buf = (r, s') -> same_session s' t.
Proof.
  intros Hs. unfold srtp_unprotect_rtcp. case_bool_decide; [by intros [= <- <-]|].
  destruct (full_get _ _) as [st|] eqn:Hget; [|by intros [= <- <-]]. case_bool_decide; [by intros [= <- <-]|].
  destruct (srtp_unprotect_rtcp_aead _ buf) as [r1 st1] eqn:H1. intros [= <- <-].
  assert (fs_pending_roc st1 = fs_pending_roc st /\ norm (fs_rtp st1) = norm (fs_rtp st)) as [Hp Hn].
  { unfold srtp_unprotect_rtcp_aead in H1. destruct (rdb_check _ _); [by injection H1 as <- <-|].
    destruct (calc_aead_iv_srtcp _ _ _); [|by injection H1 as <- <-].
    destruct (gcm_open _ _ _ _); injection H1 as <- <-; [|done]. cbn. by rewrite norm_fix. }
  by eapply same_put_rtcp.
Qed.

Lemma same_rekey s t ssrc key salt r s' :
  same_session s t -> full_inplace_rekey s ssrc key salt = (r, s') ->
  exists t', inplace_rekey t ssrc key salt = (r, t') /\ same_session s' t'.
Proof.
  intros Hs. unfold full_inplace_rekey, inplace_rekey. unfold Mls.AES_128_GCM_KEY_LEN, Mls.AES_128_GCM_SALT_LEN.
  case_bool_decide; [intros [= <- <-]; eauto|]. pose proof (same_get _ _ ssrc Hs) as Hg.
  destruct (full_get _ _) as [st|], (stream_list_get _ _) as [u|]; try done; intros [= <- <-]; [|eauto].
  destruct Hg as [Hp Hn]. eexists. split; [done|]. apply same_put; [done|]. split; [done|].
  destruct (fs_rtp st), u. unfold norm, set_direction, set_key in *. cbn in *. congruence.
Qed.

Lemma media_step_same s t op r b s' :
  same_session s t -> media_step s op = (r, b, s') ->
  exists t', srtp_step t op = (if is_rtcp op then None else Some (r, b), t') /\ same_session s' t'.
Proof.
  intros Hs H. destruct op as [buf|buf|buf|buf|ssrc key salt]; cbn [media_step srtp_step is_rtcp] in *.
  - apply (same_overwrite _ srtp_protect s t) in H as (t' & Ht & Hs'); [|intros; by eapply same_srtp_protect|done].
    unfold protect. rewrite Ht. eauto.
  - apply (same_overwrite _ srtp_unprotect s t) in H as (t' & Ht & Hs'); [|intros; by eapply same_srtp_unprotect|done].
    unfold unprotect. rewrite Ht. eauto.
  - exists t. split; [done|]. unfold protect_rtcp, overwrite in H. destruct (_ <? _); [by injection H as <- <- <-|].
    destruct (srtp_protect_rtcp s buf) as [[] s1] eqn:H1; injection H as <- <- <-; by eapply same_protect_rtcp.
  - exists t. split; [done|]. unfold unprotect_rtcp, overwrite in H. destruct (_ <? _); [by injection H as <- <- <-|].
    destruct (srtp_unprotect_rtcp s buf) as [[] s1] eqn:H1; injection H as <- <- <-; by eapply same_unprotect_rtcp.
  - destruct (full_inplace_rekey s ssrc key salt) as [r1 s1] eqn:H1. injection H as <- <- <-.
    destruct (same_rekey s t ssrc key salt r1 s1 Hs H1) as (t' & -> & ?). eauto.
Qed.

Lemma media_run_same s t ops out s' :
  same_session s t -> media_run s ops = (out, s') ->
  exists t', srtp_run t ops = (out, t') /\ same_session s' t'.
Proof.
  revert s t out. induction ops as [|op ops IH]; intros s t out Hs Hrun; cbn [media_run srtp_run] in *.
  - injection Hrun as <- <-. eauto.
  - destruct (media_step s op) as [[r b] s1] eqn:H1. destruct (media_run s1 ops) as [out1 s2] eqn:H2.
    injection Hrun as <- <-. destruct (media_step_same s t op r b s1 Hs H1) as (t1 & -> & Hs1).
    destruct (IH s1 t1 out1 Hs1 H2) as (t2 & -> & Hs2). exists t2. split; [|done]. by destruct (is_rtcp op).
Qed.

(** Adding streams to both sessions keeps them in step. *)
Fixpoint full_add_all (s : FullSession) (l : list (Z * StreamPolicy)) : list (result unit Error) * FullSession :=
  match l with
  | [] => ([], s)
  | (ssrc, p) :: l =>
      let '(r, s) := full_add_stream s ssrc p in
      let '(rs, s) := full_add_all s l in
      (r :: rs, s)
  end.

Fixpoint add_all (s : Session) (l : list (Z * StreamPolicy)) : list (result unit Error) * Session :=
  match l with
  | [] => ([], s)
  | (ssrc, p) :: l =>
      let '(r, s) := add_stream s ssrc p in
      let '(rs, s) := add_all s l in
      (r :: rs, s)
  end.

Lemma add_stream_same s t ssrc p r s' :
  same_session s t -> full_add_stream s ssrc p = (r, s') ->
  exists t', add_stream t ssrc p = (r, t') /\ same_session s' t'.
Proof.
  intros Hs. unfold full_add_stream, add_stream, full_stream_init.
  destruct (sys_policy _ _ _); [|intros [= <- <-]; eauto].
  destruct (gcm_keys_some (policy_key p)) as [[ks ks'] Hks]. rewrite Hks.
  destruct (stream_init ssrc p) as [st|e]; intros [= <- <-]; [|eauto].
  eexists. split; [done|]. by constructor.
Qed.

Lemma add_all_same s t l rs s' :
  same_session s t -> full_add_all s l = (rs, s') ->
  exists t', add_all t l = (rs, t') /\ same_session s' t'.
Proof.
  revert s t rs. induction l as [|[ssrc p] l IH]; intros s t rs Hs Hrun; cbn [full_add_all add_all] in *.
  - injection Hrun as <- <-. eauto.
  - destruct (full_add_stream s ssrc p) as [r s1] eqn:H1. destruct (full_add_all s1 l) as [rs1 s2] eqn:H2.
    injection Hrun as <- <-. destruct (add_stream_same s t ssrc p r s1 Hs H1) as (t1 & -> & Hs1).
    destruct (IH s1 t1 rs1 Hs1 H2) as (t2 & -> & Hs2). by exists t2.
Qed.

(** C25: SRTCP traffic does not disturb SRTP: in a session of whole streams, any
    interleaving of SRTP protect, SRTP unprotect, in-place rekeying and
    SRTCP calls gives every SRTP and rekeying call the answer and the packet
    bytes that the SRTP-only session, against which the keying layers are
    proved, gives when the SRTCP calls are left out. *)
Theorem srtcp_beside_srtp l ops rs s0 out s :
  full_add_all FullSession_new l = (rs, s0) -> media_run s0 ops = (out, s) ->
  exists t0 t, add_all Session_new l = (rs, t0) /\ srtp_run t0 ops = (out, t).
Proof.
  intros Hadd Hrun. destruct (add_all_same FullSession_new Session_new l rs s0) as (t0 & Ht0 & Hs0); [constructor|done|].
  destruct (media_run_same s0 t0 ops out s Hs0 Hrun) as (t & Ht & _). eauto.
Qed.

End Interleaving.

(** ** Removing and updating *)

Section AdminFacts.
Context {CR : Crypto}.

Lemma full_remove_other l ssrc ssrc' :
  ssrc ≠ ssrc' -> full_get (full_remove l ssrc) ssrc' = full_get l ssrc'.
Proof.
  intros Hne. induction l as [|st l IH]; cbn; [done|]. destruct (Z.eqb_spec (fs_ssrc st) ssrc) as [E|E]; cbn.
  - destruct (Z.eqb_spec (fs_ssrc st) ssrc'); [lia|done].
  - by rewrite IH.
Qed.

(** No SSRC twice. *)
Definition distinct_ssrcs (s : FullSession) : Prop := NoDup (fs_ssrc <$> full_list s).

Lemma full_get_none l ssrc : ssrc ∉ fs_ssrc <$> l -> full_get l ssrc = None.
Proof.
  induction l as [|st l IH]; cbn; [done|]. rewrite not_elem_of_cons. intros [Hne Hl].
  destruct (Z.eqb_spec (fs_ssrc st) ssrc); [done|by apply IH].
Qed.

Lemma full_remove_gone l ssrc : NoDup (fs_ssrc <$> l) -> full_get (full_remove l ssrc) ssrc = None.
Proof.
  induction l as [|st l IH]; cbn; [done|]. intros [Hst Hnd]%NoDup_cons.
  destruct (Z.eqb_spec (fs_ssrc st) ssrc) as [E|E].
  - apply full_get_none. by rewrite <- E.
  - cbn. destruct (Z.eqb_spec (fs_ssrc st) ssrc); [done|by apply IH].
Qed.

Lemma bswap32_range x : in_u32 (bswap32 x).
Proof.
  unfold bswap32. pose proof (from_be_range _ (to_le_ok 4 x)) as H. by rewrite length_to_le in H.
Qed.

Lemma bswap32_involutive x : in_u32 x -> bswap32 (bswap32 x) = x.
Proof.
  intros Hx. unfold bswap32 at 1.
  assert (to_le_bytes 4 (bswap32 x) = u32_be x) as ->; [|by apply from_u32_be].
  assert (to_be_bytes 4 (from_be_bytes (to_le_bytes 4 x)) = to_le_bytes 4 x) as H
    by (apply to_from_be_n; [apply to_le_ok|apply length_to_le]).
  unfold to_be_bytes in H. apply (f_equal reverse) in H. rewrite reverse_involutive in H. exact H.
Qed.

(** C40: On a little-endian machine the wrapper's remove_stream never removes
    the stream it is asked to remove, unless the SSRC equals its byte swap:
    it removes the stream with the byte-swapped SSRC when there is one and
    answers NO_CTX otherwise. *)
Theorem remove_stream_byte_order s ssrc :
  distinct_ssrcs s -> bswap32 ssrc ≠ ssrc ->
  let '(r, s') := remove_stream false s ssrc in
  full_get (full_list s') ssrc = full_get (full_list s) ssrc /\
  full_get (full_list s') (bswap32 ssrc) = None /\
  (r = Ok tt <-> is_Some (full_get (full_list s) (bswap32 ssrc))) /\
  (full_get (full_list s) (bswap32 ssrc) = None -> r = Err NO_CTX /\ s' = s).
Proof.
  intros Hnd Hne. unfold remove_stream, srtp_remove_stream, htonl.
  destruct (full_get (full_list s) (bswap32 ssrc)) as [st|] eqn:Hget; cbn [full_list].
  - rewrite full_remove_other by done. split; [done|]. split; [by apply full_remove_gone|]. split; [|done].
    split; [by eexists|done].
  - split; [done|]. split; [done|]. split; [|done]. split; [done|by intros [? ?]].
Qed.

(** What an update leaves of a stream: the packet index and the SRTCP
    database survive, the window of accepted packets and the key budget start
    afresh, the keys are the new policy's. *)
Lemma update_stream_keeps_index big_endian s ssrc p old s' :
  in_u32 ssrc -> full_get (full_list s) ssrc = Some old -> update_stream big_endian s ssrc p = (Ok tt, s') ->
  exists st fresh, full_get (full_list s') ssrc = Some st /\ full_stream_init ssrc p = Ok fresh /\
    rdbx_index (st_rdbx (fs_rtp st)) = rdbx_index (st_rdbx (fs_rtp old)) /\ rdbx_bitmask (st_rdbx (fs_rtp st)) = 0 /\
    fs_rtcp_rdb st = fs_rtcp_rdb old /\ st_limit (fs_rtp st) = KEY_LIMIT_INIT /\
    st_key (fs_rtp st) = st_key (fs_rtp fresh) /\ st_salt (fs_rtp st) = st_salt (fs_rtp fresh).
Proof.
  intros Hin Hget. unfold update_stream, srtp_update_stream. destruct (sys_policy _ _ _); [|discriminate].
  rewrite Hget. unfold srtp_remove_stream.
  assert (htonl big_endian (htonl big_endian ssrc) = ssrc) as -> by (destruct big_endian; [done|by apply bswap32_involutive]).
  rewrite Hget. destruct (full_stream_init ssrc p) as [st|] eqn:Hinit; [|discriminate]. intros [= <-].
  pose proof Hinit as H0. unfold full_stream_init, stream_init in H0.
  destruct (negb _ && _); [discriminate|]. destruct (rdbx_init _) as [r|] eqn:Hr; [|discriminate].
  destruct (gcm_keys_some (policy_key p)) as [[ks ks'] Hks]. rewrite Hks in H0. injection H0 as <-.
  eexists _, _. cbn [full_list full_get]. unfold fs_ssrc. cbn [set_rtcp_rdb set_rtp fs_rtp set_rdbx st_ssrc].
  rewrite Z.eqb_refl. split; [done|]. split; [reflexivity|].
  unfold rdbx_init in Hr. destruct (_ =? 0); [discriminate|]. injection Hr as <-. done.
Qed.

(** An update whose window size libsrtp refuses fails with BAD_PARAM after
    the old stream has been removed; the other streams stay. *)
Lemma failed_update_loses_stream big_endian s ssrc p old :
  in_u32 ssrc -> distinct_ssrcs s -> full_get (full_list s) ssrc = Some old -> (28 <= length (policy_key p))%nat ->
  policy_window_size p ≠ 0 -> policy_window_size p < 64 \/ 0x8000 <= policy_window_size p ->
  exists s', update_stream big_endian s ssrc p = (Err BAD_PARAM, s') /\ full_get (full_list s') ssrc = None /\
    (forall ssrc', ssrc' ≠ ssrc -> full_get (full_list s') ssrc' = full_get (full_list s) ssrc').
Proof.
  intros Hin Hnd Hget Hk Hw0 Hw. unfold update_stream, srtp_update_stream. rewrite sys_policy_gcm, Hget by done.
  unfold srtp_remove_stream.
  assert (htonl big_endian (htonl big_endian ssrc) = ssrc) as -> by (destruct big_endian; [done|by apply bswap32_involutive]).
  rewrite Hget. unfold full_stream_init, stream_init.
  assert (negb (policy_window_size p =? 0) && ((policy_window_size p <? 64) || (0x8000 <=? policy_window_size p)) = true) as ->.
  { destruct (Z.eqb_spec (policy_window_size p) 0); [done|]. cbn [negb andb].
    rewrite orb_true_iff, Z.ltb_lt, Z.leb_le. exact Hw. }
  eexists. split; [done|]. cbn [full_list]. split; [by apply full_remove_gone|].
  intros ssrc' Hne. by apply full_remove_other.
Qed.

End AdminFacts.

(** ** Joining a stream late *)

Section LateJoiner.
Context {CR : Crypto} {CL : CryptoLaws}.

Lemma shiftr_index roc seq : in_u16 seq -> Z.shiftr (65536 * roc + seq) 16 = roc.
Proof using Type.
  clear. intros Hseq. rewrite Z.shiftr_div_pow2 by lia. change (2 ^ 16) with 65536. unfold in_u16 in Hseq.
  symmetry. apply (Z.div_unique _ 65536 roc seq); lia.
Qed.

(** The database of a receiver that has accepted exactly [e]. *)
Definition replay_at (window e : Z) : Replay.t := Replay.add (Replay.mk e window ∅) e.

Lemma jump_refines r roc seq :
  0 < rdbx_length r -> Z.shiftr (rdbx_index r) 16 <= roc -> 0 <= roc < 2 ^ 32 -> in_u16 seq ->
  let e := 65536 * roc + seq in
  rdbx_refines (jump_to r e) (replay_at (rdbx_length r) e).
Proof using Type.
  clear. intros Hlen Hle Hroc Hseq e. unfold jump_to, rdbx_set_roc_seq.
  assert (Z.shiftr e 16 = roc) as -> by by apply shiftr_index.
  assert (u16 e = seq) as ->.
  { unfold u16, e. unfold in_u16 in Hseq. rewrite Z.add_comm, Z.mul_comm, Z_mod_plus_full. apply Z.mod_small. lia. }
  rewrite u32_id by width. destruct (Z.ltb_spec roc (Z.shiftr (rdbx_index r) 16)); [lia|].
  rewrite u64_id by (rewrite Z.shiftl_mul_pow2 by lia; change (2 ^ 16) with 65536; width).
  rewrite Z.lor_comm, lor_join by (done || lia). fold e.
  set (r0 := mkRdbx e (rdbx_length r) 0). unfold in_u16 in Hseq.
  assert (rdbx_refines r0 (Replay.mk e (rdbx_length r) ∅)) as Href.
  { split_and!; cbn; try done; intros; by rewrite Z.bits_0. }
  assert (Replay.ok (Replay.mk e (rdbx_length r) ∅)) as Hok by (split; [done|cbn; set_solver]).
  pose proof (rdbx_add_refines r0 _ 0 Href Hok ltac:(cbn; lia) ltac:(cbn; lia) ltac:(cbn; lia)) as Hadd.
  cbn [Replay.top] in Hadd. rewrite Z.add_0_r in Hadd. exact Hadd.
Qed.

(** A pending counter ahead of a fresh stream makes it jump. *)
Lemma pending_advances st roc seq :
  rdbx_index (st_rdbx (fs_rtp st)) = 0 -> 1 <= roc < 2 ^ 32 -> in_u16 seq ->
  get_est_pkt_index (set_pending st roc) seq = (Some PKT_IDX_ADV, 65536 * roc + seq, 0).
Proof using Type.
  clear. intros Hidx Hroc Hsr. unfold get_est_pkt_index, estimate_pending. cbn [set_pending fs_pending_roc fs_rtp].
  destruct (Z.eqb_spec roc 0); [lia|]. cbn [negb]. rewrite Hidx.
  rewrite u64_id by (rewrite Z.shiftl_mul_pow2 by lia; change (2 ^ 16) with 65536; width).
  rewrite lor_join by (done || lia). unfold seq_num_median, in_u16 in *.
  destruct (Z.ltb_spec 0 (65536 * roc + seq)); [|lia].
  destruct (Z.ltb_spec 32768 (65536 * roc + seq - 0)); [done|lia].
Qed.

(** Writing a stream back and finding it again. *)
Lemma full_get_after_put l ssrc st st' :
  full_get l ssrc = Some st -> fs_ssrc st' = ssrc -> full_get (full_put l st') ssrc = Some st'.
Proof using Type. clear. intros Hget Hs. by rewrite full_get_put, Hs, Z.eqb_refl, Hget. Qed.

(** C26: Joining a stream late: a receiver whose stream has accepted no packet
    yet and has key budget left, told the sender's rollover counter (at
    least 1) with set_stream_roc, opens the sender's next packet with a
    plain header at its true 48-bit index, byte for byte, then reports that
    counter, has no counter pending, and its replay database holds exactly
    that packet. *)
Theorem late_joiner_follows s ssrc st roc seq buf :
  full_get (full_list s) ssrc = Some st -> rdbx_index (st_rdbx (fs_rtp st)) = 0 ->
  0 < rdbx_length (st_rdbx (fs_rtp st)) -> limit_fresh (fs_rtp st) ->
  1 <= roc < 2 ^ 32 -> fixed_header buf -> hdr_ssrc buf = ssrc -> hdr_seq buf = seq -> in_u16 seq ->
  Z.of_nat (length buf) + 16 <= c_int_max ->
  let e := 65536 * roc + seq in
  exists s1 s2 st2,
    set_stream_roc s ssrc roc = (Ok tt, s1) /\
    full_unprotect s1 (seal_packet (st_key (fs_rtp st)) (st_salt (fs_rtp st)) e buf) = (Ok tt, buf, s2) /\
    get_stream_roc s2 ssrc = Ok roc /\
    full_get (full_list s2) ssrc = Some st2 /\ fs_pending_roc st2 = 0 /\
    rdbx_refines (st_rdbx (fs_rtp st2)) (replay_at (rdbx_length (st_rdbx (fs_rtp st))) e).
Proof.
  intros Hget Hidx Hlen Hlim Hroc Hf Hss Hseq Hsr Hmax e.
  pose proof (full_get_ssrc _ _ _ Hget) as Hs. set (st1 := set_pending st roc).
  set (s1 := mkFullSession (full_put (full_list s) st1)).
  assert (full_get (full_list s1) ssrc = Some st1) as Hget1 by by eapply full_get_after_put.
  set (p := seal_packet _ _ e buf).
  destruct (seal_packet_fields (st_key (fs_rtp st)) (st_salt (fs_rtp st)) e buf Hf) as (Hfp & Hseqp & Hssp & _).
  pose proof (length_seal_packet (st_key (fs_rtp st)) (st_salt (fs_rtp st)) e buf (proj1 Hf)) as Hlp.
  fold p in Hfp, Hseqp, Hssp, Hlp. unfold TAG_LEN in Hlp.
  destruct (unprotect_aead_genuine (fs_rtp st) buf e 0 Hf Hmax Hlim) as (rtp' & Hopen & (Hsame & _ & _) & _ & _).
  fold p in Hopen.
  assert (get_est_pkt_index st1 (hdr_seq p) = (Some PKT_IDX_ADV, e, 0)) as Hest
    by (rewrite Hseqp, Hseq; by apply pending_advances).
  pose proof (jump_refines (st_rdbx (fs_rtp st)) roc seq Hlen ltac:(rewrite Hidx, Z.shiftr_0_l; lia) ltac:(lia) Hsr) as Hjump.
  set (st2 := set_pending (set_rtp st1 (set_rdbx rtp' (jump_to (st_rdbx (fs_rtp st)) e))) 0).
  set (s2 := mkFullSession (full_put (full_list s1) st2)).
  assert (full_get (full_list s2) ssrc = Some st2) as Hget2
    by (eapply full_get_after_put; [exact Hget1|by rewrite <- Hs; unfold fs_ssrc; rewrite Hsame]).
  exists s1, s2, st2. split; [unfold set_stream_roc; by rewrite Hget|]. split; [|split; [|done]].
  - unfold full_unprotect, overwrite, full_srtp_unprotect. rewrite Hlp.
    destruct (Z.ltb_spec c_int_max (Z.of_nat (length buf + 16))); [lia|].
    destruct (fixed_header_parse p Hfp) as [-> _]. rewrite Hssp, Hss, Hget1, Hest.
    rewrite bool_decide_eq_true_2 by done. change (fs_rtp st1) with (fs_rtp st). by rewrite Hopen.
  - unfold get_stream_roc, rdbx_get_roc. rewrite Hget2. cbn [st2 set_pending set_rtp fs_rtp set_rdbx st_rdbx].
    destruct Hjump as (Hj & _); fold e in Hj; rewrite Hj. cbn [replay_at Replay.add Replay.top]. rewrite Z.max_id; unfold e; rewrite shiftr_index by done.
    by rewrite u32_id by width.
Qed.

End LateJoiner.

(** ** Concrete sessions *)

Import Toy.

Module AdminExample.

Definition policy (key : Z) (window : Z) : StreamPolicy := mkStreamPolicy (replicate 28 key) window false.

(** Two streams whose SSRCs are each other's byte swaps. *)
Definition session : FullSession := (full_add_all FullSession_new [(0x01020304, policy 1 0); (0x04030201, policy 2 0)]).2.

Definition packet (seq : Z) : bytes := [0x80; 96] ++ u16_be seq ++ [0; 0; 0; 1] ++ u32_be 0x01020304 ++ [9; 9; 9].
Definition report : bytes := [128; 200; 0; 1; 1; 2; 3; 4; 5; 6].

Definition ops : list MediaOp :=
  [OpProtect (packet 1); OpProtectRtcp report; OpProtect (packet 2); OpRekey 0x01020304 (replicate 16 7) (replicate 12 8);
   OpProtectRtcp report; OpProtect (packet 3)].

Definition stream : full_stream :=
  default (mkFull (mkStream 0 [] [] (mkRdbx 0 0 0) 0 false dir_unknown) [] [] rdb_init 0)
    (full_get (full_list session) 0x01020304).

End AdminExample.

Lemma srtcp_beside_srtp_witness :
  exists t0 t,
    add_all Session_new [(7, AdminExample.policy 1 0); (0x01020304, AdminExample.policy 1 0)] = ([Ok tt; Ok tt], t0) /\
    srtp_run t0 AdminExample.ops =
      ((media_run (full_add_all FullSession_new [(7, AdminExample.policy 1 0); (0x01020304, AdminExample.policy 1 0)]).2
          AdminExample.ops).1, t).
Proof.
  eapply (srtcp_beside_srtp [(7, AdminExample.policy 1 0); (0x01020304, AdminExample.policy 1 0)] AdminExample.ops);
    [vm_compute; reflexivity|apply surjective_pairing].
Defined.

(** Removing stream 0x01020304 takes the other stream away. *)
Lemma remove_stream_byte_order_witness :
  let '(r, s') := remove_stream false AdminExample.session 0x01020304 in
  full_get (full_list s') 0x01020304 = full_get (full_list AdminExample.session) 0x01020304 /\
  full_get (full_list s') (bswap32 0x01020304) = None /\
  (r = Ok tt <-> is_Some (full_get (full_list AdminExample.session) (bswap32 0x01020304))) /\
  (full_get (full_list AdminExample.session) (bswap32 0x01020304) = None -> r = Err NO_CTX /\ s' = AdminExample.session).
Proof.
  apply (remove_stream_byte_order AdminExample.session 0x01020304);
    [apply (bool_decide_unpack _); vm_compute; exact I|vm_compute; discriminate].
Defined.

Lemma failed_update_loses_stream_witness :
  exists s', update_stream false AdminExample.session 0x01020304 (AdminExample.policy 3 10) = (Err BAD_PARAM, s') /\
    full_get (full_list s') 0x01020304 = None /\
    (forall ssrc', ssrc' ≠ 0x01020304 ->
       full_get (full_list s') ssrc' = full_get (full_list AdminExample.session) ssrc').
Proof.
  apply (failed_update_loses_stream false AdminExample.session 0x01020304 (AdminExample.policy 3 10) AdminExample.stream).
  - width.
  - apply (bool_decide_unpack _). vm_compute. exact I.
  - vm_compute. reflexivity.
  - cbn. lia.
  - cbn. lia.
  - cbn. lia.
Defined.

Lemma late_joiner_follows_witness :
  exists s1 s2 st2,
    set_stream_roc AdminExample.session 0x01020304 3 = (Ok tt, s1) /\
    full_unprotect s1 (seal_packet (st_key (fs_rtp AdminExample.stream)) (st_salt (fs_rtp AdminExample.stream))
      (65536 * 3 + 500) (AdminExample.packet 500)) = (Ok tt, AdminExample.packet 500, s2) /\
    get_stream_roc s2 0x01020304 = Ok 3 /\
    full_get (full_list s2) 0x01020304 = Some st2 /\ fs_pending_roc st2 = 0 /\
    rdbx_refines (st_rdbx (fs_rtp st2)) (replay_at (rdbx_length (st_rdbx (fs_rtp AdminExample.stream))) (65536 * 3 + 500)).
Proof.
  apply (late_joiner_follows AdminExample.session 0x01020304 AdminExample.stream 3 500 (AdminExample.packet 500)).
  - vm_compute. reflexivity.
  - reflexivity.
  - reflexivity.
  - split; vm_compute; [reflexivity|discriminate].
  - lia.
  - split; [vm_compute; lia|reflexivity].
  - reflexivity.
  - reflexivity.
  - width.
  - vm_compute. discriminate.
Defined.
