(* ===== verification/VecLike.v ===== *)
(** * VecLike: the buffers of the srtp crate (src/third_party/srtp/src/vec_like.rs)

    [SessionRef::overwrite] hands libsrtp a raw pointer to the buffer and
    lets it write up to [SRTP_MAX_TRAILER_LEN] bytes past the packet.  What
    makes that sound is the contract of the trait [VecLike]: after [reserve]
    the buffer has the room that was asked for.  The trait is a class of
    operations, its documented contract the class [VecLikeLaws].  libsrtp
    works on the packet in place: [protect_touches] and [unprotect_touches]
    are the ranges its cipher calls read and write, also when they fail.  An
    access past the end of the buffer's memory, undefined behaviour in the
    source, is [Panic].  After a failed call the buffer is empty, and what the
    cipher left in its memory is not described.

    [Vec<u8>] keeps the contract, and [overwrite] on it is the
    [Session.overwrite] of the rest of the development; [Cursor<&mut [u8]>]
    does not keep it. *)

From S2P Require Import Prelude Bytes Crypto Mls Rdbx Session.

Definition SRTP_MAX_TRAILER_LEN : nat := 16 + 128.

Record BufferTooShortError := mkBufferTooShort { requested_capacity : Z }.

(** ** The trait *)

Class VecLike (B : Type) := {
  (** The first [size] bytes. *)
  as_mut_bytes : B -> bytes;
  reserve : B -> nat -> result B BufferTooShortError;
  set_len : B -> nat -> B;
  (** The memory behind the buffer: how much there is, and a raw write of
      bytes at its start that stays inside it. *)
  capacity : B -> nat;
  write_raw : B -> bytes -> B
}.

(** The safety section of the trait's documentation, and what a raw write
    followed by [set_len] leaves in the buffer. *)
Class VecLikeLaws (B : Type) `{VecLike B} := {
  size_capacity b : (length (as_mut_bytes b) <= capacity b)%nat;
  reserve_contract b n b' :
    reserve b n = Ok b' ->
    as_mut_bytes b' = as_mut_bytes b /\ (length (as_mut_bytes b) + n <= capacity b')%nat;
  write_set_len b l :
    (length l <= capacity b)%nat -> as_mut_bytes (set_len (write_raw b l) (length l)) = l;
  set_len_0 b : as_mut_bytes (set_len b 0) = []
}.

(** ** Memory accesses of libsrtp *)

(** Offset and length of a range of the packet's memory. *)
Definition Range : Type := nat * nat.

Definition fits (cap : nat) (x : Range) : bool := bool_decide (x.1 + x.2 <= cap)%nat.

(** [srtp_protect_aead]: the header as associated data, the payload encrypted
    in place, the tag appended.  A call that fails does so before. *)
Definition protect_touches (buf : bytes) (r : result bytes Error) : list Range :=
  let start := enc_start buf in
  match r with
  | Ok _ => [(0, start); (start, length buf - start); (start + (length buf - start), TAG_LEN)]%nat
  | Err _ => []
  end.


(** ** [SessionRef::overwrite] *)

Section Overwrite.
Context {B : Type} {VL : VecLike B}.

Definition overwrite_in (do_reserve : bool) (func : Session -> bytes -> result bytes Error * Session)
    (touches : bytes -> result bytes Error -> list Range)
    (s : Session) (buf : B) : outcome (result unit Error * B * Session) :=
  let reserved := if do_reserve then reserve buf SRTP_MAX_TRAILER_LEN else Ok buf in
  match reserved with
  | Err _ => Ret (Err BAD_PARAM, buf, s)
  | Ok buf =>
      let orig := as_mut_bytes buf in
      if c_int_max <? Z.of_nat (length orig) then Ret (Err BAD_PARAM, buf, s)
      else
        let '(res, s) := func s orig in
        if forallb (fits (capacity buf)) (touches orig res) then
          match res with
          | Err err => Ret (Err err, set_len buf 0, s)
          | Ok out =>
              if bool_decide (length out <= capacity buf)%nat
              then Ret (Ok tt, set_len (write_raw buf out) (length out), s)
              else Panic
          end
        else Panic
  end.

Context {CR : Crypto}.

Definition protect_in : Session -> B -> outcome (result unit Error * B * Session) :=
  overwrite_in true srtp_protect protect_touches.

End Overwrite.

(** ** [Vec<u8>] *)

(** The elements, and the spare room of the allocation. *)
Record VecU8 := mkVec { vec_elems : bytes; vec_spare : nat }.

(** [Vec::reserve] grows the allocation when the spare room is too small. *)
Definition Vec_reserve (v : VecU8) (additional : nat) : result VecU8 BufferTooShortError :=
  Ok (mkVec (vec_elems v) (Nat.max (vec_spare v) additional)).

Definition Vec_set_len (v : VecU8) (new_len : nat) : VecU8 :=
  mkVec (take new_len (vec_elems v)) (vec_spare v + length (vec_elems v) - new_len)%nat.

#[export] Instance vec_ops : VecLike VecU8 := {|
  as_mut_bytes v := vec_elems v;
  reserve := Vec_reserve;
  set_len := Vec_set_len;
  capacity v := (length (vec_elems v) + vec_spare v)%nat;
  write_raw v l :=
    mkVec (l ++ drop (length l) (vec_elems v))
      (length (vec_elems v) + vec_spare v - length (l ++ drop (length l) (vec_elems v)))%nat
|}.

#[export] Instance vec_laws : VecLikeLaws VecU8.
Proof.
  split.
  - intros b. cbn. lia.
  - intros b n b' [= <-]. cbn. split; [done|lia].
  - intros b l Hl. cbn. apply take_app_length.
  - done.
Qed.

(** ** [Cursor<&mut [u8]>] *)

(** The slice, and the position, a [u64]. *)
Record Cursor := mkCursor { get_mut : bytes; position : Z }.

Definition Cursor_as_mut_bytes (c : Cursor) : bytes :=
  take (Nat.min (Z.to_nat (position c)) (length (get_mut c))) (get_mut c).

Definition Cursor_reserve (c : Cursor) (additional : nat) : result Cursor BufferTooShortError :=
  let reserved := saturating_add64 (position c) (Z.of_nat additional) in
  if Z.of_nat (length (get_mut c)) <=? reserved then Ok c
  else Err (mkBufferTooShort reserved).

Definition Cursor_set_len (c : Cursor) (new_len : nat) : Cursor := mkCursor (get_mut c) (Z.of_nat new_len).

#[export] Instance cursor_ops : VecLike Cursor := {|
  as_mut_bytes := Cursor_as_mut_bytes;
  reserve := Cursor_reserve;
  set_len := Cursor_set_len;
  capacity c := length (get_mut c);
  write_raw c l := mkCursor (take (length (get_mut c)) (l ++ drop (length l) (get_mut c))) (position c)
|}.

(** ** Memory safety of protect and unprotect *)

Section Facts.
Context {CR : Crypto} {CL : CryptoLaws}.

Lemma protect_aead_length st buf out st' :
  srtp_protect_aead st buf = (Ok out, st') -> length out = (length buf + TAG_LEN)%nat.
Proof.
  unfold srtp_protect_aead. destruct (key_limit_update _) as [[] n]; [done|].
  case_bool_decide as Hs; [|done]. destruct (rdbx_estimate_index _ _) as [est delta].
  case_match; [done|]. intros [Heq _]%pair_equal_spec.
  apply (inj Ok) in Heq as <-. rewrite length_app, length_gcm_seal, length_take, length_drop.
  unfold GCM_TAG, TAG_LEN. lia.
Qed.


(** What libsrtp writes fits in the packet plus the tag. *)
Lemma srtp_protect_length s buf out s' :
  srtp_protect s buf = (Ok out, s') -> length out = (length buf + TAG_LEN)%nat.
Proof.
  unfold srtp_protect. destruct (validate_rtp_header buf); [done|].
  destruct (stream_list_get _ _) as [st|]; [|done].
  destruct (srtp_protect_aead _ buf) as [r st'] eqn:Hp. intros [-> _]%pair_equal_spec.
  by eapply protect_aead_length.
Qed.









(** Cursor<&mut [u8]> breaks the VecLike contract: protect refuses every
    packet whose buffer has room for the trailer, and writes past the end of
    a buffer that has no room for the tag. *)
Lemma cursor_reserve_inverted (s s' : Session) (mem : bytes) (pos : nat) (out : bytes) :
  (pos <= length mem)%nat -> Z.of_nat pos + 144 <= u64_max ->
  let c := mkCursor mem (Z.of_nat pos) in
  ((pos + SRTP_MAX_TRAILER_LEN < length mem)%nat -> protect_in s c = Ret (Err BAD_PARAM, c, s)) /\
  ((length mem < pos + TAG_LEN)%nat -> Z.of_nat pos <= c_int_max ->
   srtp_protect s (take pos mem) = (Ok out, s') -> protect_in s c = Panic).
Proof.
  intros Hpos Hmax c. subst c. unfold protect_in, overwrite_in, SRTP_MAX_TRAILER_LEN, TAG_LEN.
  assert (saturating_add64 (Z.of_nat pos) 144 = Z.of_nat pos + 144) as Hsat
    by (unfold saturating_add64; lia).
  cbn [reserve cursor_ops]. unfold Cursor_reserve. cbn [get_mut position]. change (Z.of_nat (16 + 128)) with 144. rewrite Hsat. split.
  - intros Hroom. destruct (Z.leb_spec (Z.of_nat (length mem)) (Z.of_nat pos + 144)); [lia|done].
  - intros Hroom Hc Hp. destruct (Z.leb_spec (Z.of_nat (length mem)) (Z.of_nat pos + 144)); [|lia].
    cbn [as_mut_bytes cursor_ops]. unfold Cursor_as_mut_bytes. cbn [get_mut position]. rewrite Nat2Z.id, Nat.min_l by done.
    destruct (Z.ltb_spec c_int_max (Z.of_nat (length (take pos mem)))); [rewrite length_take in *; lia|].
    rewrite Hp. cbn [protect_touches]. destruct (forallb _ _); [|done].
    apply srtp_protect_length in Hp. rewrite length_take in Hp. unfold TAG_LEN in *.
    rewrite bool_decide_eq_false_2; [done|]. cbn. lia.
Qed.

End Facts.

(** ** Instances *)

Import Toy.

Module BufferExample.

Definition sess : Session := snd (add_stream Session_new 7 (mkStreamPolicy (replicate 28 1) 128 false)).
Definition pkt : bytes := [0x80; 111; 0; 1; 0; 0; 0; 0; 0; 0; 0; 7; 1; 2; 3].
Definition sealed : result bytes Error * Session := srtp_protect sess pkt.

End BufferExample.
Import BufferExample.


Lemma cursor_reserve_inverted_witness :
  protect_in sess (mkCursor (pkt ++ replicate 200 0) 15) =
    Ret (Err BAD_PARAM, mkCursor (pkt ++ replicate 200 0) 15, sess) /\
  protect_in sess (mkCursor pkt 15) = Panic.
Proof.
  split.
  - eapply (cursor_reserve_inverted sess sess (pkt ++ replicate 200 0) 15 []); apply Nat.leb_le || apply Z.leb_le; reflexivity.
  - eapply (cursor_reserve_inverted sess (snd sealed) pkt 15
      (match fst sealed with Ok out => out | Err _ => [] end)); reflexivity || (apply Nat.leb_le || apply Z.leb_le); reflexivity.
Defined.
