(* ===== verification/SrtpEvents.v ===== *)
(** * SrtpEvents: event callbacks and error codes of the srtp crate

    Models the user-data slot and the event handlers a session carries
    ([UserDataWrapper] of src/third_party/srtp/src/session.rs), the global
    callback [handle_event] (src/third_party/srtp/src/lib.rs) that libsrtp
    calls on an SSRC collision or a key limit, and the error-code conversion
    of src/third_party/srtp/src/error.rs.

    A handler is a closure the user supplied: it is a parameter [call], from
    the closure's state and the user data to their next values and the calls
    it makes on the session it is handed. *)

From Stdlib Require Import String.
From S2P Require Import Prelude Bytes Rdbx.

(** ** Error codes *)

Definition all_errors : list Error :=
  [FAIL; BAD_PARAM; ALLOC_FAIL; DEALLOC_FAIL; INIT_FAIL; TERMINUS; AUTH_FAIL; CIPHER_FAIL;
   REPLAY_FAIL; REPLAY_OLD; ALGO_FAIL; NO_SUCH_OP; NO_CTX; CANT_CHECK; KEY_EXPIRED; SOCKET_ERR;
   SIGNAL_ERR; NONCE_BAD; READ_FAIL; WRITE_FAIL; PARSE_ERR; ENCODE_ERR; SEMAPHORE_ERR; PFKEY_ERR;
   BAD_MKI; PKT_IDX_OLD; PKT_IDX_ADV].

Definition error_names : list string :=
  ["FAIL"; "BAD_PARAM"; "ALLOC_FAIL"; "DEALLOC_FAIL"; "INIT_FAIL"; "TERMINUS"; "AUTH_FAIL"; "CIPHER_FAIL";
   "REPLAY_FAIL"; "REPLAY_OLD"; "ALGO_FAIL"; "NO_SUCH_OP"; "NO_CTX"; "CANT_CHECK"; "KEY_EXPIRED"; "SOCKET_ERR";
   "SIGNAL_ERR"; "NONCE_BAD"; "READ_FAIL"; "WRITE_FAIL"; "PARSE_ERR"; "ENCODE_ERR"; "SEMAPHORE_ERR"; "PFKEY_ERR";
   "BAD_MKI"; "PKT_IDX_OLD"; "PKT_IDX_ADV"]%string.

(** [Error::check] on the status libsrtp returned; an [Error] of the source
    is the non-zero code. *)
Definition error_check (res : Z) : result unit Z := if res =? 0 then Ok tt else Err res.

(** [Error::name]. *)
Definition error_name (code : Z) : string :=
  match error_names !! Z.to_nat (code - 1) with
  | Some n => if 1 <=? code then n else "UNKNOWN"%string
  | None => "UNKNOWN"%string
  end.

(** ** Handlers and user data *)

Inductive srtp_event := event_ssrc_collision | event_key_soft_limit | event_key_hard_limit | event_unknown (n : Z).

#[export] Instance srtp_event_eq_dec : EqDecision srtp_event.
Proof. solve_decision. Defined.

(** The data [D] a user stored, and the closures [H] for the three events. *)
Record UserDataWrapper (D H : Type) := mkWrapper {
  user_data : option D;
  on_ssrc_collision : option H;
  on_key_hard_limit : option H;
  on_key_soft_limit : option H
}.
Arguments mkWrapper {D H}.
Arguments user_data {D H}.
Arguments on_ssrc_collision {D H}.
Arguments on_key_hard_limit {D H}.
Arguments on_key_soft_limit {D H}.

Definition wrapper_default {D H} : UserDataWrapper D H := mkWrapper None None None None.

(** A call a handler can make on the session: [set_user_data],
    [take_user_data] or one of the [on_*] methods. *)
Inductive Action (D H : Type) :=
| SetUserData (d : D)
| TakeUserData
| OnSsrcCollision (f : H)
| OnKeyHardLimit (f : H)
| OnKeySoftLimit (f : H).
Arguments SetUserData {D H}.
Arguments TakeUserData {D H}.
Arguments OnSsrcCollision {D H}.
Arguments OnKeyHardLimit {D H}.
Arguments OnKeySoftLimit {D H}.

Section Events.
Context {D H : Type}.
(** A handler called for [ssrc] with the user data it is lent. *)
Context (call : H -> Z -> option D -> H * option D * list (Action D H)).
Abbreviation W := (UserDataWrapper D H).

Definition set_user_data (w : W) (d : option D) : W :=
  mkWrapper d (on_ssrc_collision w) (on_key_hard_limit w) (on_key_soft_limit w).

(** [UserDataWrapper::event_handler]: the slot of an event, read and written. *)
Definition event_handler (w : W) (kind : srtp_event) : outcome (option H) :=
  match kind with
  | event_ssrc_collision => Ret (on_ssrc_collision w)
  | event_key_hard_limit => Ret (on_key_hard_limit w)
  | event_key_soft_limit => Ret (on_key_soft_limit w)
  | event_unknown _ => Panic
  end.

Definition set_event_handler (w : W) (kind : srtp_event) (h : option H) : W :=
  match kind with
  | event_ssrc_collision => mkWrapper (user_data w) h (on_key_hard_limit w) (on_key_soft_limit w)
  | event_key_hard_limit => mkWrapper (user_data w) (on_ssrc_collision w) h (on_key_soft_limit w)
  | event_key_soft_limit => mkWrapper (user_data w) (on_ssrc_collision w) (on_key_hard_limit w) h
  | event_unknown _ => w
  end.

Definition act (w : W) (a : Action D H) : W :=
  match a with
  | SetUserData d => set_user_data w (Some d)
  | TakeUserData => set_user_data w None
  | OnSsrcCollision f => set_event_handler w event_ssrc_collision (Some f)
  | OnKeyHardLimit f => set_event_handler w event_key_hard_limit (Some f)
  | OnKeySoftLimit f => set_event_handler w event_key_soft_limit (Some f)
  end.

Definition handle_event (w : W) (kind : srtp_event) (ssrc : Z) : outcome W :=
  match kind with
  | event_unknown _ => Ret w
  | _ =>
      let data := user_data w in
      let w := set_user_data w None in
      handler ← event_handler w kind;
      let w := set_event_handler w kind None in
      match handler with
      | None => Ret w
      | Some h =>
          let '(h, data, actions) := call h ssrc data in
          let w := fold_left act actions w in
          let w := set_user_data w data in
          Ret (set_event_handler w kind (Some h))
      end
  end.

(** What happens to a session's callbacks: an event, or a call of the user. *)
Inductive Step :=
| Event (kind : srtp_event) (ssrc : Z)
| Call (a : Action D H).

Fixpoint run_steps (w : W) (l : list Step) : outcome W :=
  match l with
  | [] => Ret w
  | Event kind ssrc :: l => w ← handle_event w kind ssrc; run_steps w l
  | Call a :: l => run_steps (act w a) l
  end.

(** ** Properties *)

(** The events that have a handler. *)
Definition armed (w : W) (kind : srtp_event) : Prop :=
  match event_handler w kind with Ret (Some _) => True | _ => False end.

Lemma armed_act w a kind : armed w kind -> armed (act w a) kind.
Proof. unfold armed. by destruct a, kind. Qed.

Lemma armed_acts w l kind : armed w kind -> armed (fold_left act l w) kind.
Proof. revert w. induction l as [|a l IH]; intros w Hw; cbn; [done|]. by apply IH, armed_act. Qed.

Lemma armed_set_data w d kind : armed (set_user_data w d) kind <-> armed w kind.
Proof. by destruct kind. Qed.

Lemma armed_set_same w kind h : armed w kind -> armed (set_event_handler w kind (Some h)) kind.
Proof. by destruct kind. Qed.

Lemma armed_set_other w kind kind' h :
  kind <> kind' -> armed (set_event_handler w kind h) kind' <-> armed w kind'.
Proof. by destruct kind, kind'. Qed.

(** An event is always handled, and no handler is lost over it. *)
Lemma handle_event_ok w kind ssrc :
  exists w', handle_event w kind ssrc = Ret w' /\ forall k, armed w k -> armed w' k.
Proof.
  destruct (match kind with event_unknown _ => true | _ => false end) eqn:Hk;
    [destruct kind; try discriminate; by exists w|].
  assert (exists o, event_handler (set_user_data w None) kind = Ret o /\
    (armed w kind <-> is_Some o)) as (o & Ho & Harm).
  { destruct kind; try discriminate; cbn; eexists; (split; [reflexivity|]); unfold armed; cbn;
      case_match; naive_solver. }
  assert (handle_event w kind ssrc = match o with
    | None => Ret (set_event_handler (set_user_data w None) kind None)
    | Some h => let '(h, data, actions) := call h ssrc (user_data w) in
        Ret (set_event_handler (set_user_data (fold_left act actions
          (set_event_handler (set_user_data w None) kind None)) data) kind (Some h))
    end) as ->.
  { destruct kind; try discriminate; cbn in *; apply (inj Ret) in Ho as ->; done. }
  destruct o as [h|].
  - destruct (call h ssrc (user_data w)) as [[h' data] actions]. eexists. split; [done|].
    intros k Hkk. destruct (decide (kind = k)) as [<-|Hne].
    + by destruct kind; unfold armed; cbn in *.
    + rewrite armed_set_other, armed_set_data by done. apply armed_acts.
      by rewrite armed_set_other, armed_set_data by done.
  - eexists. split; [done|]. intros k Hkk. destruct (decide (kind = k)) as [<-|Hne].
    + destruct Harm as [Harm _]. by destruct (Harm Hkk).
    + by rewrite armed_set_other, armed_set_data by done.
Qed.

(** Over any sequence of events and calls, with handlers that may
    themselves change the session's handlers and data, handling never panics
    and no registered event handler is lost. *)
Lemma handlers_survive w l :
  exists w', run_steps w l = Ret w' /\ forall kind, armed w kind -> armed w' kind.
Proof.
  revert w. induction l as [|[kind ssrc|a] l IH]; intros w; cbn; [by exists w|..].
  - destruct (handle_event_ok w kind ssrc) as (w1 & -> & H1). cbn.
    destruct (IH w1) as (w' & Hw' & H2). eauto.
  - destruct (IH (act w a)) as (w' & Hw' & H2). eauto using armed_act.
Qed.

(** An event nobody registered for discards the session's user data: it is
    taken out before the handler is looked up, and not put back. *)
Theorem unhandled_event_loses_data w kind ssrc :
  event_handler w kind = Ret None ->
  exists w', handle_event w kind ssrc = Ret w' /\ user_data w' = None /\
    forall k, event_handler w' k = event_handler w k.
Proof.
  intros Hn. destruct kind; cbn in Hn |- *; try discriminate; apply (inj Ret) in Hn; rewrite Hn;
    eexists; (split; [done|]); (split; [done|]); intros []; cbn; congruence.
Qed.

End Events.

Lemma error_code_name e i :
  all_errors !! i = Some e -> error_check (Z.of_nat i + 1) = Err (Z.of_nat i + 1) /\
  error_names !! i = Some (error_name (Z.of_nat i + 1)).
Proof.
  intros Hi. pose proof (lookup_lt_Some _ _ _ Hi) as Hlt. cbn in Hlt.
  unfold error_check, error_name. replace (Z.to_nat (Z.of_nat i + 1 - 1)) with i by lia.
  destruct (Z.eqb_spec (Z.of_nat i + 1) 0); [lia|].
  destruct (Z.leb_spec 1 (Z.of_nat i + 1)); [|lia]. split; [done|].
  destruct (lookup_lt_is_Some_2 error_names i ltac:(cbn; lia)) as [name ->]. done.
Qed.

Lemma unhandled_event_loses_data_witness :
  let call (h : unit) (ssrc : Z) (d : option Z) := (h, d, @nil (Action Z unit)) in
  exists w', handle_event call (mkWrapper (Some 5) None (Some tt) None) event_ssrc_collision 7 = Ret w' /\
    user_data w' = None /\
    forall k, event_handler w' k = event_handler (mkWrapper (Some 5) None (Some tt) None) k.
Proof. intros call. apply (unhandled_event_loses_data call). reflexivity. Defined.
