(* ===== verification/Template.v ===== *)
(** * Template: SRTP sessions with a catch-all policy

    Models [create_sender_session] and [create_receiver_session]
    (src/src/transport/srtp_session.rs), [Session::with_outbound_template]
    and [with_inbound_template] of the srtp crate, and what libsrtp does for
    a session whose streams are cloned from a template on demand
    ([srtp_stream_clone], and the template branches of [srtp_protect],
    [srtp_unprotect] and [srtp_unprotect_aead]).

    A clone shares the template's cipher and points to the template's
    key-use counter: the counter of a session is the one in its template. *)

From S2P Require Import Prelude Bytes Crypto Rtp IndexRecovery Mls Rdbx Kdf Session.

Record TSession := mkTSession {
  template : srtp_stream;
  clones : list srtp_stream
}.

Section Template.
Context {CR : Crypto}.

(** [srtp_stream_clone]: own SSRC and replay database, the rest shared. *)
Definition stream_clone (tmpl : srtp_stream) (ssrc : Z) : result srtp_stream Error :=
  match rdbx_init (rdbx_length (st_rdbx tmpl)) with
  | Err e => Err e
  | Ok r => Ok (mkStream ssrc (st_key tmpl) (st_salt tmpl) r (st_limit tmpl)
                  (st_allow_repeat_tx tmpl) (st_direction tmpl))
  end.

(** A stream with the shared counter read in, and written back. *)
Definition shared (s : TSession) (st : srtp_stream) : srtp_stream := set_limit st (st_limit (template s)).
Definition put_stream (s : TSession) (st : srtp_stream) : TSession :=
  mkTSession (set_limit (template s) (st_limit st)) (stream_list_put (clones s) st).

Definition t_srtp_protect (s : TSession) (buf : bytes) : result bytes Error * TSession :=
  match validate_rtp_header buf with
  | Some e => (Err e, s)
  | None =>
      let found :=
        match stream_list_get (clones s) (hdr_ssrc buf) with
        | Some st => Ok (st, s)
        | None =>
            match stream_clone (template s) (hdr_ssrc buf) with
            | Err e => Err e
            | Ok st =>
                let st := set_direction st dir_srtp_sender in
                Ok (st, mkTSession (template s) (st :: clones s))
            end
        end in
      match found with
      | Err e => (Err e, s)
      | Ok (st, s) =>
          let '(r, st) := srtp_protect_aead (fix_direction (shared s st) dir_srtp_sender) buf in
          (r, put_stream s st)
      end
  end.

Definition t_srtp_unprotect (s : TSession) (buf : bytes) : result bytes Error * TSession :=
  match validate_rtp_header buf with
  | Some e => (Err e, s)
  | None =>
      match stream_list_get (clones s) (hdr_ssrc buf) with
      | Some st =>
          let '(est, delta) := rdbx_estimate_index (st_rdbx st) (hdr_seq buf) in
          match rdbx_check (st_rdbx st) delta with
          | Some e => (Err e, s)
          | None =>
              let '(r, st) := srtp_unprotect_aead (shared s st) delta est buf in
              (r, put_stream s st)
          end
      | None =>
          (* provisional: the template's cipher, the index read off the header *)
          let est := hdr_seq buf in
          let delta := est in
          let '(r, t) := srtp_unprotect_aead (template s) delta est buf in
          let tmpl := set_rdbx t (st_rdbx (template s)) in
          match r with
          | Err e => (Err e, mkTSession tmpl (clones s))
          | Ok out =>
              match stream_clone tmpl (hdr_ssrc buf) with
              | Err e => (Err e, mkTSession tmpl (clones s))
              | Ok st =>
                  (Ok out, mkTSession tmpl (set_rdbx st (rdbx_add_index (st_rdbx st) delta) :: clones s))
              end
          end
      end
  end.

Definition t_protect : TSession -> bytes -> result unit Error * bytes * TSession :=
  overwrite t_srtp_protect.
Definition t_unprotect : TSession -> bytes -> result unit Error * bytes * TSession :=
  overwrite t_srtp_unprotect.

(** [srtp_create] with one wildcard policy. *)
Definition with_template (d : direction) (p : StreamPolicy) : result TSession Error :=
  match sys_policy gcm gcm (policy_key p) with
  | Err e => Err e
  | Ok _ =>
      match stream_init 0 p with
      | Err e => Err e
      | Ok st => Ok (mkTSession (set_direction st d) [])
      end
  end.

Definition with_outbound_template : StreamPolicy -> result TSession Error := with_template dir_srtp_sender.
Definition with_inbound_template : StreamPolicy -> result TSession Error := with_template dir_srtp_receiver.

(** [update_template_stream_cb] for one clone: a new clone of the new
    template, at the old packet index. *)
Definition update_clone (tmpl old : srtp_stream) : result srtp_stream Error :=
  match stream_clone tmpl (st_ssrc old) with
  | Err e => Err e
  | Ok st =>
      let r := st_rdbx st in
      Ok (set_rdbx st (mkRdbx (rdbx_index (st_rdbx old)) (rdbx_length r) (rdbx_bitmask r)))
  end.

(** The walk over the stream list: the new list, its newest entry first, or
    the error and the streams not yet taken off the old list. *)
Fixpoint update_clones (tmpl : srtp_stream) (l new : list srtp_stream) :
    result (list srtp_stream) (Error * list srtp_stream) :=
  match l with
  | [] => Ok new
  | old :: l =>
      match update_clone tmpl old with
      | Err e => Err (e, l)
      | Ok st => update_clones tmpl l (st :: new)
      end
  end.

(** [update_inbound_template] and [update_outbound_template]: libsrtp
    handles both alike, and the new template has no direction. *)
Definition update_template (s : TSession) (p : StreamPolicy) : result unit Error * TSession :=
  match sys_policy gcm gcm (policy_key p) with
  | Err e => (Err e, s)
  | Ok _ =>
      match stream_init 0 p with
      | Err e => (Err e, s)
      | Ok tmpl =>
          match update_clones tmpl (clones s) [] with
          | Err (e, rest) => (Err e, mkTSession (template s) rest)
          | Ok new => (Ok tt, mkTSession tmpl new)
          end
      end
  end.

Definition create_sender_session (key_material : bytes) : outcome TSession :=
  expect_ok (with_outbound_template (mkStreamPolicy key_material 128 false)).

Definition create_receiver_session (key_material : bytes) : outcome TSession :=
  expect_ok (with_inbound_template (mkStreamPolicy key_material 128 false)).

(** An update never loses a stream: every clone is found again under the new
    keys, at its old packet index, with an empty window. *)
Lemma update_clones_spec tmpl l new :
  rdbx_length (st_rdbx tmpl) ≠ 0 ->
  exists l', update_clones tmpl l new = Ok (reverse l' ++ new) /\
    Forall2 (fun old st => st_ssrc st = st_ssrc old /\ rdbx_index (st_rdbx st) = rdbx_index (st_rdbx old) /\
      rdbx_bitmask (st_rdbx st) = 0 /\ st_key st = st_key tmpl /\ st_salt st = st_salt tmpl) l l'.
Proof.
  intros Hlen. revert new. induction l as [|old l IH]; intros new; cbn [update_clones].
  - exists []. split; [done|constructor].
  - unfold update_clone, stream_clone, rdbx_init. destruct (Z.eqb_spec (rdbx_length (st_rdbx tmpl)) 0); [done|].
    set (st := set_rdbx _ _). destruct (IH (st :: new)) as (l' & -> & Hl'). exists (st :: l').
    rewrite reverse_cons, <- app_assoc. split; [done|]. by constructor.
Qed.

Lemma stream_init_window ssrc p st : stream_init ssrc p = Ok st -> rdbx_length (st_rdbx st) ≠ 0.
Proof.
  unfold stream_init. destruct (negb (policy_window_size p =? 0) && _) eqn:Hw; [discriminate|].
  unfold rdbx_init. destruct (Z.eqb_spec (if policy_window_size p =? 0 then 128 else policy_window_size p) 0) as [E|E];
    [discriminate|]. destruct (gcm_keys_some (policy_key p)) as [[ks ks'] ->]. intros [= <-].
  cbn [st_rdbx rdbx_length]. unfold bitvector_length. destruct (Z.eqb_spec (policy_window_size p) 0); [lia|].
  cbn [negb andb] in Hw. rewrite orb_false_iff, Z.ltb_ge, Z.leb_gt in Hw. lia.
Qed.

Lemma update_template_keeps_streams s p tmpl :
  (28 <= length (policy_key p))%nat -> stream_init 0 p = Ok tmpl ->
  exists l', update_template s p = (Ok tt, mkTSession tmpl (reverse l')) /\
    Forall2 (fun old st => st_ssrc st = st_ssrc old /\ rdbx_index (st_rdbx st) = rdbx_index (st_rdbx old) /\
      rdbx_bitmask (st_rdbx st) = 0 /\ st_key st = st_key tmpl /\ st_salt st = st_salt tmpl) (clones s) l'.
Proof.
  intros Hk Hinit. unfold update_template. rewrite sys_policy_gcm, Hinit by done.
  destruct (update_clones_spec tmpl (clones s) [] (stream_init_window 0 p tmpl Hinit)) as (l' & -> & Hl').
  exists l'. by rewrite app_nil_r.
Qed.

End Template.

(** ** One stream of a template session *)

Section Facts.
Context {CR : Crypto} {CL : CryptoLaws}.

(** The key and salt both ends derive from the key material. *)
Definition template_keys (km : bytes) : bytes * bytes :=
  match stream_init_keys gcm gcm km with Ok (ks, _) => (sk_key ks, sk_salt ks) | Err _ => ([], []) end.

(** A fresh session. *)
Definition fresh_template (d : direction) (km : bytes) : TSession :=
  mkTSession (mkStream 0 (template_keys km).1 (template_keys km).2 (mkRdbx 0 128 0) KEY_LIMIT_INIT false d) [].

Lemma create_sessions km :
  (SRTP_KEY_MATERIAL_LEN <= length km)%nat ->
  create_sender_session km = Ret (fresh_template dir_srtp_sender km) /\
  create_receiver_session km = Ret (fresh_template dir_srtp_receiver km).
Proof.
  intros Hk. unfold create_sender_session, create_receiver_session, with_outbound_template,
    with_inbound_template, with_template, fresh_template, template_keys. cbn [policy_key].
  rewrite sys_policy_gcm by exact Hk. unfold stream_init.
  cbn [policy_key policy_window_size policy_allow_repeat_tx].
  destruct (gcm_keys_some km) as [[ks ks'] ->]. done.
Qed.

(** The session's only stream is [ssrc], it has handled [n] packets, and its
    database refines [rs]; [None] before the first packet. *)
Definition session_at (km : bytes) (ssrc : Z) (n : nat) (rs : option Replay.t) (s : TSession) : Prop :=
  st_key (template s) = (template_keys km).1 /\ st_salt (template s) = (template_keys km).2 /\
  st_limit (template s) = KEY_LIMIT_INIT - Z.of_nat n /\ st_rdbx (template s) = mkRdbx 0 128 0 /\
  match rs with
  | None => clones s = []
  | Some rs => exists st, clones s = [st] /\ st_ssrc st = ssrc /\
      st_key st = (template_keys km).1 /\ st_salt st = (template_keys km).2 /\
      rdbx_refines (st_rdbx st) rs /\ Replay.ok rs
  end.

Lemma fresh_session_at d km ssrc : session_at km ssrc 0 None (fresh_template d km).
Proof. by split_and!. Qed.

(** The specification of a database no packet reached yet. *)
Definition replay0 : Replay.t := Replay.init 128.

Lemma replay0_refines : rdbx_refines (mkRdbx 0 128 0) replay0 /\ Replay.ok replay0.
Proof. split; [by apply (rdbx_init_refines 128)|by apply Replay.init_ok]. Qed.

Lemma replay0_check e : 0 <= e -> Replay.check replay0 e = None.
Proof.
  intros He. destruct (decide (e = 0)) as [->|Hne]; [reflexivity|].
  unfold Replay.check. cbn [replay0 Replay.init Replay.top]. by destruct (Z.ltb_spec 0 e); [|lia].
Qed.

(** Within the first rollover the index is the sequence number. *)
Lemma recover_first_range h e :
  0 <= h < 65536 -> 0 <= e < 65536 -> h - 32768 <= e ->
  recover (mkIndexRecovery (Some h)) (u16 e) = e.
Proof.
  intros Hh He Hle. rewrite u16_id by width. rewrite recover_arith by (unfold u64_max; width).
  repeat case_match; bool_to_prop; try lia; discriminate.
Qed.

(** What the database does with index [e] of the first range. *)
Lemma database_step r rs e :
  rdbx_refines r rs -> Replay.ok rs -> 0 <= Replay.top rs < 65536 -> 0 <= e < 65536 ->
  Replay.top rs - 32768 <= e ->
  rdbx_estimate_index r (u16 e) = (e, e - Replay.top rs) /\
  rdbx_check r (e - Replay.top rs) = Replay.check rs e /\
  (Replay.check rs e = None ->
   rdbx_refines (rdbx_add_index r (e - Replay.top rs)) (Replay.add rs e) /\ Replay.ok (Replay.add rs e)).
Proof.
  intros Href Hok Htop He Hle. pose proof Href as (Hidx & Hlen & _).
  rewrite estimate_recover by (rewrite ?Hidx; try (unfold u16; width); lia).
  rewrite Hidx, recover_first_range by lia. split; [done|].
  rewrite (rdbx_check_refines r rs) by done.
  replace (Replay.top rs + (e - Replay.top rs)) with e by lia. split; [done|]. intros Hc.
  apply check_window in Hc; [|apply Hok]. split; [|by apply Replay.add_ok].
  replace e with (Replay.top rs + (e - Replay.top rs)) at 2 by lia.
  apply rdbx_add_refines; try done; lia.
Qed.

(** The header of a serialized packet, as libsrtp reads it. *)
Lemma to_bytes_header p :
  RtpPacket_ok p ->
  fixed_header (to_bytes p) /\ hdr_ssrc (to_bytes p) = ssrc p /\ hdr_seq (to_bytes p) = sequence_number p.
Proof.
  destruct p as [pt sq ts sr pl]. intros (Hpt & Hseq & Hts & Hss & _). cbn [payload_type sequence_number timestamp ssrc payload] in *. split_and!.
  - split; [rewrite length_to_bytes; unfold RTP_HEADER_LEN, octets_in_rtp_header; lia|done].
  - unfold to_bytes. rewrite u16_be_cells, !u32_be_cells. unfold hdr_ssrc. cbn. rewrite take_0. cbn. width.
  - unfold to_bytes. rewrite u16_be_cells, !u32_be_cells. unfold hdr_seq, byte_at. cbn. width.
Qed.

(** A packet of the stream with full index [e]. *)
Definition first_range_packet (ssrc e : Z) (buf : bytes) : Prop :=
  fixed_header buf /\ hdr_ssrc buf = ssrc /\ hdr_seq buf = u16 e /\ 0 <= e < 65536 /\
  Z.of_nat (length buf) + 16 <= c_int_max.

Definition sealed (km : bytes) (e : Z) (buf : bytes) : bytes :=
  seal_packet (template_keys km).1 (template_keys km).2 e buf.

(** The stream a session will use for [ssrc], made now if it is missing. *)
Lemma session_at_clone km ssrc n s d :
  session_at km ssrc n None s ->
  exists st, stream_clone (template s) ssrc = Ok st /\
    session_at km ssrc n (Some replay0) (mkTSession (template s) (set_direction st d :: clones s)).
Proof.
  intros (Hk & Hs & Hl & Hr & Hc). unfold stream_clone. rewrite Hr. cbn.
  eexists. split; [done|]. split_and!; try done. rewrite Hc. eexists. split; [done|].
  split_and!; try done; apply replay0_refines.
Qed.

(** One more packet through the session's stream. *)
Lemma session_at_put km ssrc n s rs st st' e :
  session_at km ssrc n (Some rs) s -> clones s = [st] -> same_key (shared s st) st' ->
  st_limit st' = st_limit (shared s st) - 1 ->
  rdbx_refines (st_rdbx st') (Replay.add rs e) -> Replay.ok (Replay.add rs e) ->
  session_at km ssrc (S n) (Some (Replay.add rs e)) (put_stream s st').
Proof.
  intros (Hk & Hs & Hl & Hr & st0 & Hc & Hss & Hk' & Hs' & _) Hc' (Hsame & Hkk & Hsalt) Hlim Href Hok.
  assert (st0 = st) as -> by congruence. unfold shared, put_stream in *.
  cbn [set_limit st_key st_salt st_limit st_rdbx st_ssrc template clones] in *.
  split_and!; try done; [cbn; lia|]. rewrite Hc. cbn.
  rewrite (proj2 (Z.eqb_eq _ _)) by congruence. eexists. split; [done|]. split_and!; try done; congruence.
Qed.

Lemma overwrite_ok {T} (func : T -> bytes -> result bytes Error * T) s buf out s' :
  Z.of_nat (length buf) <= c_int_max -> func s buf = (Ok out, s') -> overwrite func s buf = (Ok tt, out, s').
Proof. intros Hl Hf. unfold overwrite. destruct (Z.ltb_spec c_int_max (Z.of_nat (length buf))); [lia|]. by rewrite Hf. Qed.

Lemma protect_known km ssrc n s rs e buf :
  session_at km ssrc n (Some rs) s -> first_range_packet ssrc e buf -> Z.of_nat n < 2 ^ 47 ->
  0 <= Replay.top rs < 65536 -> Replay.check rs e = None -> Replay.top rs - 32768 <= e ->
  exists st s', clones s = [st] /\ session_at km ssrc (S n) (Some (Replay.add rs e)) s' /\
    (let '(r, st) := srtp_protect_aead (fix_direction (shared s st) dir_srtp_sender) buf in
     (r, put_stream s st)) = (Ok (sealed km e buf), s').
Proof.
  intros Hs (Hf & Hss & Hseq & He & Hlen) Hn Htop Hchk Hle. pose proof Hs as (Hk & Hsalt & Hl & Hr & Hcl).
  destruct Hcl as (st & Hc & Hssrc & Hk' & Hs' & Href & Hok).
  destruct (database_step _ _ e Href Hok Htop He Hle) as (Hest & Hck & Hadd). destruct (Hadd Hchk) as [Href' Hok'].
  set (st1 := fix_direction (shared s st) dir_srtp_sender).
  destruct (fix_direction_rest (shared s st) dir_srtp_sender) as [Hl1 Hr1].
  destruct (fix_direction_same (shared s st) dir_srtp_sender) as (Hss1 & Hk1 & Hs1). fold st1 in Hl1, Hr1, Hss1, Hk1, Hs1.
  cbn [shared set_limit st_limit st_rdbx st_key st_salt st_ssrc] in Hl1, Hr1, Hss1, Hk1, Hs1.
  assert (limit_fresh st1) as Hfresh by (unfold limit_fresh, KEY_LIMIT_INIT in *; lia).
  destruct (protect_aead_genuine st1 buf e (e - Replay.top rs) Hf Hfresh)
    as (st' & Hp & (Hss2 & Hk2 & Hs2) & Hrd & Hlim); [by rewrite Hr1, Hseq|by rewrite Hr1, Hck|].
  eexists st, _. split; [done|]. split; [|fold st1; rewrite Hp, <- Hk1, <- Hs1, Hk', Hs'; reflexivity].
  eapply session_at_put; [done|done| | |by rewrite Hrd, Hr1|done].
  - unfold same_key. cbn [shared set_limit st_ssrc st_key st_salt]. split_and!; congruence.
  - cbn [shared set_limit st_limit]. lia.
Qed.

(** Protecting a fresh packet of the stream. *)
Lemma t_protect_genuine km ssrc n s rs e buf :
  session_at km ssrc n rs s -> first_range_packet ssrc e buf -> Z.of_nat n < 2 ^ 47 ->
  0 <= Replay.top (default replay0 rs) < 65536 -> Replay.check (default replay0 rs) e = None ->
  Replay.top (default replay0 rs) - 32768 <= e ->
  exists s', t_protect s buf = (Ok tt, sealed km e buf, s') /\
    session_at km ssrc (S n) (Some (Replay.add (default replay0 rs) e)) s'.
Proof.
  intros Hs Hb Hn Htop Hchk Hle. pose proof Hb as (Hf & Hss & _ & _ & Hlen).
  destruct (fixed_header_parse buf Hf) as [Hv _].
  assert (exists s', t_srtp_protect s buf = (Ok (sealed km e buf), s') /\
    session_at km ssrc (S n) (Some (Replay.add (default replay0 rs) e)) s') as (s' & Hp & Hs').
  { unfold t_srtp_protect. rewrite Hv, Hss. destruct rs as [rs|]; cbn [default] in *.
    - destruct (protect_known km ssrc n s rs e buf Hs Hb Hn Htop Hchk Hle) as (st & s' & Hc & Hs' & Hp).
      destruct Hs as (_ & _ & _ & _ & st0 & Hc0 & Hssrc & _). assert (st0 = st) as -> by congruence.
      rewrite Hc. cbn [stream_list_get]. rewrite Hssrc, Z.eqb_refl. exists s'. split; [exact Hp|exact Hs'].
    - destruct (session_at_clone km ssrc n s dir_srtp_sender Hs) as (st & -> & Hs1).
      destruct Hs as (_ & _ & _ & _ & Hnil). rewrite Hnil in *. cbn [stream_list_get].
      destruct (protect_known km ssrc n _ replay0 e buf Hs1 Hb Hn Htop Hchk Hle) as (st1 & s' & Hc & Hs' & Hp).
      cbn [clones] in Hc. apply (inj2 cons) in Hc as [<- _]. exists s'. split; [exact Hp|exact Hs']. }
  exists s'. split; [|done]. apply overwrite_ok; [lia|done].
Qed.

(** Opening a sealed packet: the packet if its index is new, the database's
    refusal if not. *)
Lemma t_unprotect_known km ssrc n s rs e buf :
  session_at km ssrc n (Some rs) s -> first_range_packet ssrc e buf -> Z.of_nat n < 2 ^ 47 ->
  0 <= Replay.top rs < 65536 -> Replay.top rs - 32768 <= e ->
  match Replay.check rs e with
  | None => exists s', t_unprotect s (sealed km e buf) = (Ok tt, buf, s') /\
      session_at km ssrc (S n) (Some (Replay.add rs e)) s'
  | Some err => t_unprotect s (sealed km e buf) = (Err err, [], s)
  end.
Proof.
  intros Hs (Hf & Hss & Hseq & He & Hlen) Hn Htop Hle. pose proof Hs as (Hk & Hsalt & Hl & Hr & Hcl).
  destruct Hcl as (st & Hc & Hssrc & Hk' & Hs' & Href & Hok).
  destruct (database_step _ _ e Href Hok Htop He Hle) as (Hest & Hck & Hadd).
  pose proof (seal_packet_fields (template_keys km).1 (template_keys km).2 e buf Hf) as (Hf' & Hseq' & Hss' & _).
  pose proof (length_seal_packet (template_keys km).1 (template_keys km).2 e buf (proj1 Hf)) as Hsl.
  destruct (fixed_header_parse _ Hf') as [Hv _]. fold (sealed km e buf) in *. unfold TAG_LEN in Hsl.
  unfold t_unprotect, overwrite, t_srtp_unprotect. rewrite Hv, Hss', Hseq', Hss, Hseq, Hc.
  destruct (Z.ltb_spec c_int_max (Z.of_nat (length (sealed km e buf)))); [lia|].
  cbn [stream_list_get]. rewrite Hssrc, Z.eqb_refl, Hest, Hck.
  destruct (Replay.check rs e) as [err|] eqn:Hchk; [done|]. destruct (Hadd eq_refl) as [Href' Hok'].
  destruct (unprotect_aead_genuine (shared s st) buf e (e - Replay.top rs) Hf Hlen)
    as (st' & Hp & Hsame & Hrd & Hlim);
    [unfold limit_fresh, KEY_LIMIT_INIT in *; cbn [shared set_limit st_limit]; lia|].
  unfold sealed. cbn [shared set_limit st_key st_salt] in Hp. rewrite Hk', Hs' in Hp. rewrite Hp.
  eexists. split; [done|].
  eapply session_at_put; [done|done|done|done| |done]. rewrite Hrd. done.
Qed.

Lemma t_unprotect_first km ssrc n s e buf :
  session_at km ssrc n None s -> first_range_packet ssrc e buf -> Z.of_nat n < 2 ^ 47 ->
  exists s', t_unprotect s (sealed km e buf) = (Ok tt, buf, s') /\
    session_at km ssrc (S n) (Some (Replay.add replay0 e)) s'.
Proof.
  intros (Hk & Hsalt & Hl & Hr & Hc) (Hf & Hss & Hseq & He & Hlen) Hn.
  destruct replay0_refines as [Href Hok].
  pose proof (seal_packet_fields (template_keys km).1 (template_keys km).2 e buf Hf) as (Hf' & Hseq' & Hss' & _).
  pose proof (length_seal_packet (template_keys km).1 (template_keys km).2 e buf (proj1 Hf)) as Hsl.
  destruct (fixed_header_parse _ Hf') as [Hv _]. fold (sealed km e buf) in *. unfold TAG_LEN in Hsl.
  unfold t_unprotect, overwrite, t_srtp_unprotect. rewrite Hv, Hss', Hseq', Hss, Hseq, Hc.
  destruct (Z.ltb_spec c_int_max (Z.of_nat (length (sealed km e buf)))); [lia|].
  cbn [stream_list_get]. rewrite u16_id by width.
  destruct (unprotect_aead_genuine (template s) buf e e Hf Hlen)
    as (t & Hp & (Hts & Htk & Hta) & Hrd & Hlim); [unfold limit_fresh, KEY_LIMIT_INIT in *; lia|].
  unfold sealed. rewrite Hk, Hsalt in Hp. rewrite Hp. unfold stream_clone.
  cbn [set_rdbx st_rdbx st_key st_salt st_limit st_allow_repeat_tx st_direction]. rewrite Hr. cbn [rdbx_length rdbx_init].
  change (rdbx_init 128) with (@Ok srtp_rdbx Error (mkRdbx 0 128 0)). cbn iota.
  eexists. split; [done|]. split_and!; cbn [template clones st_key st_salt st_limit st_rdbx set_rdbx];
    [congruence|congruence|lia|done|].
  eexists. split; [done|]. cbn [st_ssrc st_key st_salt st_rdbx set_rdbx]. split_and!; try congruence; [|by apply Replay.add_ok].
  replace e with (e - Replay.top replay0) at 1 by (cbn; lia).
  apply (database_step _ _ e Href Hok); cbn [replay0 Replay.init Replay.top]; try lia.
  apply replay0_check. lia.
Qed.

End Facts.
