(* ===== verification/Generation.v ===== *)
(** * Generation: from packet headers to generation indices

    Models src/src/receiver/generation.rs ([GenerationScheme],
    [frame_generation]) and the [Granularity] of
    src/src/keying/granularity.rs it is built from. *)

From S2P Require Import Prelude.

Inductive Granularity :=
| EpochOnly
| Frame
| Packet
| EveryN (n : Z).

Inductive GenerationScheme :=
| SchemeEpochOnly
| SchemeFrame (epoch_start_ts frame_period : Z)
| SchemePacket (base : Z)
| SchemeEveryN (base n : Z).

Definition for_granularity (granularity : Granularity) (epoch_start_ts frame_period base : Z) :
    GenerationScheme :=
  match granularity with
  | EpochOnly => SchemeEpochOnly
  | Frame => SchemeFrame epoch_start_ts frame_period
  | Packet => SchemePacket base
  | EveryN n => SchemeEveryN base n
  end.

(** [a / b] and [a % b] on unsigned integers panic when [b] is zero. *)
Definition div_ (a b : Z) : outcome Z := if b =? 0 then Panic else Ret (a / b).
Definition rem_ (a b : Z) : outcome Z := if b =? 0 then Panic else Ret (a mod b).

Definition frame_generation (ts epoch_start_ts frame_period : Z) : outcome Z :=
  let elapsed := u32 (ts - epoch_start_ts) in
  div_ elapsed frame_period.

(** ** Properties *)

(** A packet of frame [f], [off] ticks into it, maps to generation [f] as
    long as the epoch's elapsed ticks fit the 32-bit clock, wherever the clock
    started. *)
Lemma frame_generation_frame start period f off :
  0 < period -> 0 <= off < period -> 0 <= f -> f * period + off < 2 ^ 32 ->
  frame_generation (u32 (start + f * period + off)) start period = Ret f.
Proof.
  intros Hp Hoff Hf Hmax. unfold frame_generation, div_.
  destruct (Z.eqb_spec period 0); [lia|].
  assert (u32 (u32 (start + f * period + off) - start) = f * period + off) as ->.
  { unfold u32. rewrite Zminus_mod_idemp_l.
    replace (start + f * period + off - start) with (f * period + off) by lia.
    apply Z.mod_small. lia. }
  f_equal. rewrite Z.add_comm, Z.div_add, Z.div_small by lia. lia.
Qed.
