(* ===== verification/Granularity.v ===== *)
(** * Granularity: the rekeying sender (src/src/keying/granularity.rs)

    [RekeyingStream] couples an SRTP session with the ratchet and installs
    the next generation's key at each boundary of its granularity.  The model
    is written against the session interface [SrtpOps]. *)

From S2P Require Import Prelude Bytes Crypto Mls Ratchet Rdbx Session Generation.

Definition WINDOW_SIZE : Z := 128.

Record RekeyingStream (S : Type) := mkRekeyingStream {
  rk_session : S;
  rk_ratchet : StreamRatchet;
  rk_granularity : Granularity;
  rk_ssrc : Z;
  rk_installed_gen : Z;
  rk_last_ts : option Z;
  rk_started : bool;
  rk_packet_count : Z
}.
Arguments mkRekeyingStream {S}.
Arguments rk_session {S}.
Arguments rk_ratchet {S}.
Arguments rk_granularity {S}.
Arguments rk_ssrc {S}.
Arguments rk_installed_gen {S}.
Arguments rk_last_ts {S}.
Arguments rk_started {S}.
Arguments rk_packet_count {S}.

Definition throwaway : bytes := replicate 28 0.

Section Stream.
Context {CR : Crypto} {S : Type} {OPS : SrtpOps S}.

Definition install_next_generation (self : RekeyingStream S) : outcome (RekeyingStream S) :=
  '((g, key_salt), ratchet) ← next_key_salt (rk_ratchet self);
  let '(key, salt) := split_key_salt key_salt in
  match ss_rekey (rk_session self) (rk_ssrc self) key salt with
  | (Err _, _) => Panic
  | (Ok _, session) =>
      Ret (mkRekeyingStream session ratchet (rk_granularity self) (rk_ssrc self) g
             (rk_last_ts self) (rk_started self) (rk_packet_count self))
  end.

Definition RekeyingStream_new (granularity : Granularity) (ssrc : Z) (ratchet : StreamRatchet) :
    outcome (RekeyingStream S) :=
  let policy := mkStreamPolicy throwaway WINDOW_SIZE false in
  match ss_add_stream ss_new ssrc policy with
  | (Err _, _) => Panic
  | (Ok _, session) =>
      install_next_generation (mkRekeyingStream session ratchet granularity ssrc 0 None false 0)
  end.

(** Whether a packet with timestamp [ts] starts a new generation. *)
Definition crossed_boundary (self : RekeyingStream S) (ts : Z) : outcome bool :=
  match rk_granularity self with
  | EpochOnly => Ret false
  | Packet => Ret (rk_started self)
  | Frame => Ret (rk_started self && negb (bool_decide (rk_last_ts self = Some ts)))
  | EveryN n =>
      if rk_started self then
        r ← rem_ (rk_packet_count self) n;
        Ret (r =? 0)
      else Ret false
  end.

Definition advance_for (self : RekeyingStream S) (ts : Z) : outcome (RekeyingStream S) :=
  crossed ← crossed_boundary self ts;
  self ← (if (crossed : bool) then install_next_generation self else Ret self);
  Ret (mkRekeyingStream (rk_session self) (rk_ratchet self) (rk_granularity self) (rk_ssrc self)
         (rk_installed_gen self) (Some ts) true (u64 (rk_packet_count self + 1))).

Definition packet_timestamp (packet : bytes) : outcome Z :=
  b4 ← index packet 4; b5 ← index packet 5; b6 ← index packet 6; b7 ← index packet 7;
  Ret (from_be_bytes [b4; b5; b6; b7]).

Definition with_session (self : RekeyingStream S) (s : S) : RekeyingStream S :=
  mkRekeyingStream s (rk_ratchet self) (rk_granularity self) (rk_ssrc self)
    (rk_installed_gen self) (rk_last_ts self) (rk_started self) (rk_packet_count self).

Definition rk_protect (self : RekeyingStream S) (buf : bytes) :
    outcome (result unit Error * bytes * RekeyingStream S) :=
  ts ← packet_timestamp buf;
  self ← advance_for self ts;
  let '(r, buf, s) := ss_protect (rk_session self) buf in
  Ret (r, buf, with_session self s).

Definition rk_unprotect (self : RekeyingStream S) (buf : bytes) :
    outcome (result unit Error * bytes * RekeyingStream S) :=
  ts ← packet_timestamp buf;
  self ← advance_for self ts;
  let '(r, buf, s) := ss_unprotect (rk_session self) buf in
  Ret (r, buf, with_session self s).

End Stream.
Arguments RekeyingStream_new {CR S OPS}.

(** ** The key in the cipher is the installed generation's *)

Section Facts.
Context {CR : Crypto} {CL : CryptoLaws} {S : Type} {OPS : SrtpOps S} {LAWS : SrtpLaws S}.

(** The stream's ratchet stands one generation past the installed one, and
    the cipher holds the installed generation's key and salt. *)
Definition keyed (seed : bytes) (self : RekeyingStream S) : Prop :=
  rk_ratchet self = ratchet_at seed (rk_installed_gen self + 1) /\
  0 <= rk_installed_gen self /\
  ss_key (rk_session self) (rk_ssrc self) =
    Some (split_key_salt (gen_key seed (rk_installed_gen self))).

Lemma split_lengths seed g :
  length seed = CHAIN_SECRET_LEN ->
  length (split_key_salt (gen_key seed g)).1 = AES_128_GCM_KEY_LEN /\
  length (split_key_salt (gen_key seed g)).2 = AES_128_GCM_SALT_LEN.
Proof.
  intros Hs. destruct (split_key_salt (gen_key seed g)) as [k a] eqn:E.
  by apply split_key_salt_spec in E as (_ & ? & ?).
Qed.

(** Installing generation [g] over any loaded key. *)
Lemma install_next seed self g :
  length seed = CHAIN_SECRET_LEN -> 0 <= g < u64_max ->
  rk_ratchet self = ratchet_at seed g -> is_Some (ss_key (rk_session self) (rk_ssrc self)) ->
  exists s',
    install_next_generation self =
      Ret (mkRekeyingStream s' (ratchet_at seed (g + 1)) (rk_granularity self) (rk_ssrc self) g
             (rk_last_ts self) (rk_started self) (rk_packet_count self)) /\
    ss_key s' (rk_ssrc self) = Some (split_key_salt (gen_key seed g)).
Proof.
  intros Hs Hg Hr Hk. unfold install_next_generation. rewrite Hr, next_key_salt_at by done.
  cbn [mbind outcome_bind]. destruct (split_lengths seed g Hs) as [Hkl Hal].
  destruct (split_key_salt (gen_key seed g)) as [key salt]. cbn in *.
  destruct (ss_rekey_ok (rk_session self) (rk_ssrc self) key salt Hk Hkl Hal) as (s' & -> & Hk').
  eauto.
Qed.

Lemma new_keyed granularity ssrc seed :
  length seed = CHAIN_SECRET_LEN ->
  exists self,
    RekeyingStream_new granularity ssrc (ratchet_at seed 0) = Ret self /\ keyed seed self /\
    rk_installed_gen self = 0 /\ rk_granularity self = granularity /\ rk_ssrc self = ssrc /\
    rk_last_ts self = None /\ rk_started self = false /\ rk_packet_count self = 0.
Proof.
  intros Hs. unfold RekeyingStream_new.
  destruct (ss_add_stream_ok ss_new ssrc (mkStreamPolicy throwaway WINDOW_SIZE false))
    as (s0 & -> & Hk); [done|right; cbn; unfold WINDOW_SIZE; lia|].
  destruct (install_next seed (mkRekeyingStream s0 (ratchet_at seed 0) granularity ssrc 0 None false 0) 0)
    as (s' & -> & Hk'); [done|unfold u64_max; lia|done|done|].
  eexists. split; [done|]. done.
Qed.

(** One packet: the generation moves by at most one, exactly at a boundary,
    and the stream stays keyed. *)
Lemma advance_for_keyed seed self ts b :
  length seed = CHAIN_SECRET_LEN -> keyed seed self -> rk_installed_gen self + 1 < u64_max ->
  crossed_boundary self ts = Ret b ->
  exists self',
    advance_for self ts = Ret self' /\ keyed seed self' /\
    rk_installed_gen self' = rk_installed_gen self + (if b then 1 else 0) /\
    rk_granularity self' = rk_granularity self /\ rk_ssrc self' = rk_ssrc self /\
    rk_last_ts self' = Some ts /\ rk_started self' = true /\
    rk_packet_count self' = u64 (rk_packet_count self + 1).
Proof.
  intros Hs (Hr & Hg & Hk) Hmax Hb. unfold advance_for. rewrite Hb. cbn [mbind outcome_bind].
  destruct b.
  - destruct (install_next seed self (rk_installed_gen self + 1)) as (s' & -> & Hk');
      [done|lia|done|by rewrite Hk|].
    cbn [mbind outcome_bind]. eexists. split; [done|].
    split; [split; [done|split; [cbn; lia|done]]|done].
  - cbn [mbind outcome_bind]. eexists. split; [done|].
    split; [done|]. cbn. rewrite Z.add_0_r. done.
Qed.

Lemma with_session_keyed seed self s :
  keyed seed self -> ss_key s (rk_ssrc self) = ss_key (rk_session self) (rk_ssrc self) ->
  keyed seed (with_session self s).
Proof. intros (? & ? & Hk) Hs. split_and!; cbn; [done|done|by rewrite Hs]. Qed.

(** ** Generations along a stream of packets *)

(** The sender's run: every packet protected in turn. *)
Fixpoint protect_all (self : RekeyingStream S) (bufs : list bytes) :
    outcome (list (result unit Error * bytes) * RekeyingStream S) :=
  match bufs with
  | [] => Ret ([], self)
  | buf :: bufs =>
      '(r, buf', self) ← rk_protect self buf;
      '(out, self) ← protect_all self bufs;
      Ret ((r, buf') :: out, self)
  end.

Lemma protect_all_snoc self bufs buf :
  protect_all self (bufs ++ [buf]) =
  ('(out, self') ← protect_all self bufs;
   '(r, buf', self'') ← rk_protect self' buf;
   Ret (out ++ [(r, buf')], self'')).
Proof.
  revert self; induction bufs as [|b bufs IH]; intros self; cbn [app protect_all mbind outcome_bind].
  - by destruct (rk_protect self buf) as [[[r b] s]|].
  - destruct (rk_protect self b) as [[[r b'] s]|]; [|done]. cbn [mbind outcome_bind]. rewrite IH.
    destruct (protect_all s bufs) as [[out s1]|]; [|done]. cbn [mbind outcome_bind].
    by destruct (rk_protect s1 buf) as [[[r' b''] s2]|].
Qed.

(** How often adjacent timestamps differ. *)
Fixpoint changes (l : list Z) : Z :=
  match l with
  | a :: ((b :: _) as l') => (if a =? b then 0 else 1) + changes l'
  | _ => 0
  end.

Lemma changes_snoc l a b : changes (l ++ [a; b]) = changes (l ++ [a]) + (if a =? b then 0 else 1).
Proof.
  induction l as [|x l IH]; [cbn; lia|].
  destruct l as [|y l]; [cbn; lia|]. cbn [app changes] in *. rewrite IH. lia.
Qed.

Lemma changes_bound l : 0 <= changes l <= Z.of_nat (length l).
Proof.
  induction l as [|a l IH]; [done|]. destruct l as [|b l]; [cbn; lia|].
  change (changes (a :: b :: l)) with ((if a =? b then 0 else 1) + changes (b :: l)).
  cbn [length] in *. case_match; lia.
Qed.

(** The generation of the last packet of a stream, from the timestamps. *)
Definition stream_generation (granularity : Granularity) (tss : list Z) : Z :=
  match granularity with
  | EpochOnly => 0
  | Frame => changes tss
  | Packet => Z.of_nat (length tss) - 1
  | EveryN n => (Z.of_nat (length tss) - 1) / n
  end.

(** The state after the packets [tss ++ [t]]. *)
Definition after (granularity : Granularity) (tss : list Z) (t : Z) (self : RekeyingStream S) : Prop :=
  rk_granularity self = granularity /\ rk_started self = true /\ rk_last_ts self = Some t /\
  rk_packet_count self = Z.of_nat (length tss) + 1 /\
  rk_installed_gen self = stream_generation granularity (tss ++ [t]).

Definition granularity_ok (granularity : Granularity) : Prop :=
  match granularity with EveryN n => 0 < n | _ => True end.

Lemma every_n_step k n : 0 < n -> 0 < k -> k / n = (k - 1) / n + (if k mod n =? 0 then 1 else 0).
Proof. intros Hn Hk. destruct (Z.eqb_spec (k mod n) 0); nia. Qed.

Lemma crossed_after granularity tss a t self :
  granularity_ok granularity -> after granularity tss a self ->
  exists b, crossed_boundary self t = Ret b /\
    stream_generation granularity ((tss ++ [a]) ++ [t]) =
    stream_generation granularity (tss ++ [a]) + (if b then 1 else 0).
Proof.
  intros Hok (Hg & Hst & Hts & Hc & _). unfold crossed_boundary.
  rewrite Hg, Hst, Hts, Hc. destruct granularity as [| | |n]; cbn [stream_generation andb].
  - exists false. done.
  - eexists. split; [done|]. rewrite <- app_assoc. cbn [app]. rewrite changes_snoc.
    destruct (Z.eqb_spec a t); [subst; by rewrite bool_decide_eq_true_2|].
    by rewrite bool_decide_eq_false_2 by congruence.
  - exists true. split; [done|]. rewrite !length_app. cbn. lia.
  - cbn in Hok. unfold rem_. destruct (Z.eqb_spec n 0); [lia|]. cbn [mbind outcome_bind].
    eexists. split; [done|]. rewrite !length_app. cbn [length].
    replace (Z.of_nat (length tss + 1 + 1) - 1) with (Z.of_nat (length tss) + 1) by lia.
    rewrite every_n_step by lia. do 2 f_equal. lia.
Qed.

Lemma stream_generation_bound granularity tss :
  granularity_ok granularity -> tss ≠ [] ->
  0 <= stream_generation granularity tss <= Z.of_nat (length tss).
Proof.
  intros Hok Hne. pose proof (changes_bound tss). assert (0 < length tss)%nat by (destruct tss; cbn; [done|lia]).
  destruct granularity as [| | |n]; cbn [stream_generation]; cbn in Hok; [lia|lia|lia|].
  split; [apply Z.div_pos; lia|]. apply Z.div_le_upper_bound; nia.
Qed.

Lemma protect_step seed self buf t b :
  length seed = CHAIN_SECRET_LEN -> keyed seed self -> rk_installed_gen self + 1 < u64_max ->
  packet_timestamp buf = Ret t -> crossed_boundary self t = Ret b ->
  exists r buf' self',
    rk_protect self buf = Ret (r, buf', self') /\ keyed seed self' /\
    rk_installed_gen self' = rk_installed_gen self + (if b then 1 else 0) /\
    rk_granularity self' = rk_granularity self /\ rk_last_ts self' = Some t /\
    rk_started self' = true /\ rk_packet_count self' = u64 (rk_packet_count self + 1).
Proof.
  intros Hs Hkey Hmax Ht Hb. unfold rk_protect. rewrite Ht. cbn [mbind outcome_bind].
  destruct (advance_for_keyed seed self t b) as (self1 & -> & Hk1 & Hg & Hgr & Hss & Hl & Hst & Hc); [done..|].
  cbn [mbind outcome_bind]. destruct (ss_protect (rk_session self1) buf) as [[r buf'] s'] eqn:Hp.
  exists r, buf', (with_session self1 s'). split; [done|]. split; [|done].
  apply with_session_keyed; [done|]. by eapply ss_protect_key.
Qed.

Lemma protect_all_after seed granularity ssrc self0 bufs tss buf t :
  length seed = CHAIN_SECRET_LEN -> granularity_ok granularity ->
  RekeyingStream_new granularity ssrc (ratchet_at seed 0) = Ret self0 ->
  Forall2 (fun buf ts => packet_timestamp buf = Ret ts) bufs tss ->
  packet_timestamp buf = Ret t -> Z.of_nat (length tss) + 2 < u64_max ->
  exists out self,
    protect_all self0 (bufs ++ [buf]) = Ret (out, self) /\ keyed seed self /\ after granularity tss t self.
Proof.
  intros Hs Hok Hnew. revert tss buf t.
  induction bufs as [|b0 bufs IH] using rev_ind; intros tss buf t Hall Ht Hmax.
  - apply Forall2_nil_inv_l in Hall as ->.
    destruct (new_keyed granularity ssrc seed Hs) as (self & Hn & Hk & Hg & Hgr & _ & Hl & Hst & Hc).
    rewrite Hn in Hnew. injection Hnew as <-.
    destruct (protect_step seed self buf t false) as (r & buf' & self' & Hp & Hk' & Hg' & Hgr' & Hl' & Hst' & Hc');
      [done|done|rewrite Hg; unfold u64_max; lia|done| |].
    { unfold crossed_boundary. rewrite Hst, Hgr. by destruct granularity. }
    eexists _, self'. cbn [app protect_all]. rewrite Hp. split; [done|]. split; [done|].
    unfold after. rewrite Hgr', Hl', Hst', Hc', Hg', Hc, Hg. split_and!; try done.
    by destruct granularity as [| | |[]].
  - apply Forall2_app_inv_l in Hall as (tss0 & l2 & Hall & (a & [] & Ha & Hnil%Forall2_nil_inv_l & ->)%Forall2_cons_inv_l & ->); [|done].
    rewrite length_app in Hmax. cbn in Hmax.
    destruct (IH tss0 b0 a Hall Ha ltac:(lia)) as (out1 & self1 & Hrun & Hk1 & Haft).
    destruct (crossed_after granularity tss0 a t self1 Hok Haft) as (b & Hb & Hgen).
    pose proof Haft as (Hgr & Hst & Hl & Hc & Hg).
    pose proof (stream_generation_bound granularity (tss0 ++ [a]) Hok ltac:(by destruct tss0)) as Hbd.
    rewrite length_app in Hbd. cbn in Hbd.
    destruct (protect_step seed self1 buf t b) as (r & buf' & self' & Hp & Hk' & Hg' & Hgr' & Hl' & Hst' & Hc');
      [done|done|lia|done|done|].
    eexists _, self'. rewrite protect_all_snoc, Hrun. cbn [mbind outcome_bind]. rewrite Hp.
    split; [done|]. split; [done|].
    unfold after. rewrite Hgr', Hl', Hst', Hc', Hg', Hc, length_app. cbn [length].
    split_and!; [done|done|done|rewrite u64_id by width; lia|congruence].
Qed.

(** C20: After protecting a stream of packets, the generation loaded in the
    sender's cipher is the one the granularity prescribes for the last
    packet, as a function of the timestamps alone, and the cipher holds that
    generation's key and salt. *)
Theorem sender_stream_keyed granularity ssrc seed bufs tss buf t :
  length seed = CHAIN_SECRET_LEN -> granularity_ok granularity ->
  Forall2 (fun buf ts => packet_timestamp buf = Ret ts) bufs tss ->
  packet_timestamp buf = Ret t -> Z.of_nat (length tss) + 2 < u64_max ->
  exists self0 out self,
    RekeyingStream_new granularity ssrc (ratchet_at seed 0) = Ret self0 /\
    protect_all self0 (bufs ++ [buf]) = Ret (out, self) /\
    rk_installed_gen self = stream_generation granularity (tss ++ [t]) /\
    ss_key (rk_session self) (rk_ssrc self) =
      Some (split_key_salt (gen_key seed (stream_generation granularity (tss ++ [t])))).
Proof.
  intros Hs Hok Hall Ht Hmax.
  destruct (new_keyed granularity ssrc seed Hs) as (self0 & Hnew & _).
  destruct (protect_all_after seed granularity ssrc self0 bufs tss buf t)
    as (out & self & Hrun & (_ & _ & Hk) & (_ & _ & _ & _ & Hg)); [done..|].
  exists self0, out, self. by rewrite <- Hg.
Qed.

End Facts.

Import Toy.

Lemma sender_stream_keyed_witness :
  exists self0 out self,
    RekeyingStream_new (S := Session) Frame 7 (ratchet_at (replicate 32 1) 0) = Ret self0 /\
    protect_all self0 ([replicate 12 0; replicate 4 0 ++ [0; 0; 5; 220] ++ replicate 8 0] ++ [replicate 4 0 ++ [0; 0; 5; 220] ++ replicate 8 0]) = Ret (out, self) /\
    rk_installed_gen self = stream_generation Frame ([0; 1500] ++ [1500]) /\
    ss_key (rk_session self) (rk_ssrc self) =
      Some (split_key_salt (gen_key (replicate 32 1) (stream_generation Frame ([0; 1500] ++ [1500])))).
Proof.
  apply (sender_stream_keyed Frame 7 (replicate 32 1)
    [replicate 12 0; replicate 4 0 ++ [0; 0; 5; 220] ++ replicate 8 0] [0; 1500]
    (replicate 4 0 ++ [0; 0; 5; 220] ++ replicate 8 0) 1500).
  - reflexivity.
  - exact I.
  - repeat constructor.
  - reflexivity.
  - vm_compute. reflexivity.
Defined.
