(* ===== verification/Receiver.v ===== *)
(** * Receiver: the reordering-tolerant receiver (src/src/receiver.rs)

    [ReceiverKeyManager] maps each packet to its generation, keeps a ring of
    the last K generation keys, catches up on a clone of the ratchet, and
    adopts the result only after the packet authenticates.  [recv_unprotect]
    is the whole of [ReceiverKeyManager::unprotect], its four phases being
    the definitions [map_generation], [classify], [fetch_key] and
    [finalize]. *)

From S2P Require Import Prelude Bytes Crypto Rtp IndexRecovery Mls Ratchet Rdbx Session Generation Granularity.

Inductive RecvDrop := BehindWindow | SeekCapExceeded | SrtpReplay | AuthFail.

#[export] Instance RecvDrop_eq_dec : EqDecision RecvDrop.
Proof. solve_decision. Defined.

Record RecvStats := mkRecvStats {
  decrypted : Z;
  cache_hits : Z;
  catchup_steps : Z;
  catchup_steps_wasted : Z;
  max_catchup : Z;
  installs : Z;
  drops_behind : Z;
  drops_seek_cap : Z;
  drops_replay : Z;
  drops_auth : Z
}.

Definition RecvStats_default : RecvStats := mkRecvStats 0 0 0 0 0 0 0 0 0 0.

Definition bump_decrypted (t : RecvStats) : RecvStats :=
  mkRecvStats (u64 (decrypted t + 1)) (cache_hits t) (catchup_steps t) (catchup_steps_wasted t)
    (max_catchup t) (installs t) (drops_behind t) (drops_seek_cap t) (drops_replay t) (drops_auth t).
Definition bump_cache_hits (t : RecvStats) : RecvStats :=
  mkRecvStats (decrypted t) (u64 (cache_hits t + 1)) (catchup_steps t) (catchup_steps_wasted t)
    (max_catchup t) (installs t) (drops_behind t) (drops_seek_cap t) (drops_replay t) (drops_auth t).
Definition add_catchup (jump : Z) (t : RecvStats) : RecvStats :=
  mkRecvStats (decrypted t) (cache_hits t) (u64 (catchup_steps t + jump)) (catchup_steps_wasted t)
    (Z.max (max_catchup t) jump) (installs t) (drops_behind t) (drops_seek_cap t) (drops_replay t)
    (drops_auth t).
Definition add_wasted (jump : Z) (t : RecvStats) : RecvStats :=
  mkRecvStats (decrypted t) (cache_hits t) (catchup_steps t) (u64 (catchup_steps_wasted t + jump))
    (max_catchup t) (installs t) (drops_behind t) (drops_seek_cap t) (drops_replay t) (drops_auth t).
Definition bump_installs (t : RecvStats) : RecvStats :=
  mkRecvStats (decrypted t) (cache_hits t) (catchup_steps t) (catchup_steps_wasted t)
    (max_catchup t) (u64 (installs t + 1)) (drops_behind t) (drops_seek_cap t) (drops_replay t)
    (drops_auth t).
Definition bump_drop (d : RecvDrop) (t : RecvStats) : RecvStats :=
  let upd behind cap replay auth :=
    mkRecvStats (decrypted t) (cache_hits t) (catchup_steps t) (catchup_steps_wasted t)
      (max_catchup t) (installs t) behind cap replay auth in
  let b := drops_behind t in
  let c := drops_seek_cap t in
  let r := drops_replay t in
  let a := drops_auth t in
  match d with
  | BehindWindow => upd (u64 (b + 1)) c r a
  | SeekCapExceeded => upd b (u64 (c + 1)) r a
  | SrtpReplay => upd b c (u64 (r + 1)) a
  | AuthFail => upd b c r (u64 (a + 1))
  end.

Abbreviation ring_t := (list (option (Z * bytes))).

Record ReceiverKeyManager (S : Type) := mkReceiver {
  rx_session : S;
  rx_ssrc : Z;
  rx_scheme : GenerationScheme;
  rx_recovery : IndexRecovery;
  rx_ratchet : StreamRatchet;
  rx_ring : ring_t;
  rx_frontier : option Z;
  rx_installed : option Z;
  rx_seek_cap : Z;
  rx_stats : RecvStats
}.
Arguments mkReceiver {S}.
Arguments rx_session {S}.
Arguments rx_ssrc {S}.
Arguments rx_scheme {S}.
Arguments rx_recovery {S}.
Arguments rx_ratchet {S}.
Arguments rx_ring {S}.
Arguments rx_frontier {S}.
Arguments rx_installed {S}.
Arguments rx_seek_cap {S}.
Arguments rx_stats {S}.

Inductive Placement :=
| InWindow (ks : bytes)
| Ahead (jump : Z).

Record PendingCatchup := mkPending {
  pending_ratchet : StreamRatchet;
  pending_derived : list (Z * bytes);
  pending_jump : Z
}.

(** Phase 1: the packet's generation, and its extended index for the
    schemes that recover one; [None] for a packet from before the epoch. *)
Definition map_generation (scheme : GenerationScheme) (recovery : IndexRecovery) (seq ts : Z) :
    outcome (option (Z * option Z)) :=
  match scheme with
  | SchemeEpochOnly => Ret (Some (0, None))
  | SchemeFrame epoch_start_ts frame_period =>
      g ← frame_generation ts epoch_start_ts frame_period;
      Ret (Some (g, None))
  | SchemePacket base =>
      let index := recover recovery seq in
      match checked_sub index base with
      | None => Ret None
      | Some g => Ret (Some (g, Some index))
      end
  | SchemeEveryN base n =>
      let index := recover recovery seq in
      match checked_sub index base with
      | None => Ret None
      | Some offset => g ← div_ offset n; Ret (Some (g, Some index))
      end
  end.

Section Receiver.
Context {CR : Crypto} {S : Type} {OPS : SrtpOps S}.
Implicit Types self : ReceiverKeyManager S.

Definition set_stats self (f : RecvStats -> RecvStats) : ReceiverKeyManager S :=
  mkReceiver (rx_session self) (rx_ssrc self) (rx_scheme self) (rx_recovery self) (rx_ratchet self)
    (rx_ring self) (rx_frontier self) (rx_installed self) (rx_seek_cap self) (f (rx_stats self)).

Definition set_session self (s : S) : ReceiverKeyManager S :=
  mkReceiver s (rx_ssrc self) (rx_scheme self) (rx_recovery self) (rx_ratchet self)
    (rx_ring self) (rx_frontier self) (rx_installed self) (rx_seek_cap self) (rx_stats self).

Definition set_installed self (g : Z) : ReceiverKeyManager S :=
  mkReceiver (rx_session self) (rx_ssrc self) (rx_scheme self) (rx_recovery self) (rx_ratchet self)
    (rx_ring self) (rx_frontier self) (Some g) (rx_seek_cap self) (rx_stats self).

Definition set_recovery self (r : IndexRecovery) : ReceiverKeyManager S :=
  mkReceiver (rx_session self) (rx_ssrc self) (rx_scheme self) r (rx_ratchet self)
    (rx_ring self) (rx_frontier self) (rx_installed self) (rx_seek_cap self) (rx_stats self).

Definition set_window self (ratchet : StreamRatchet) (ring : ring_t) (g : Z) : ReceiverKeyManager S :=
  mkReceiver (rx_session self) (rx_ssrc self) (rx_scheme self) (rx_recovery self) ratchet
    ring (Some g) (rx_installed self) (rx_seek_cap self) (rx_stats self).

Definition ReceiverKeyManager_new (scheme : GenerationScheme) (ssrc : Z) (ratchet : StreamRatchet)
    (k : nat) (seek_cap replay_window : Z) : outcome (ReceiverKeyManager S) :=
  _ ← assert (bool_decide (1 <= k)%nat);
  let policy := mkStreamPolicy throwaway replay_window false in
  match ss_add_stream ss_new ssrc policy with
  | (Err _, _) => Panic
  | (Ok _, session) =>
      Ret (mkReceiver session ssrc scheme IndexRecovery_default ratchet (replicate k None)
             None None seek_cap RecvStats_default)
  end.

(** Phase 2: where [g] falls relative to the window. *)
Definition classify self (g : Z) : outcome (result Placement RecvDrop) :=
  let k := Z.of_nat (length (rx_ring self)) in
  let ahead jump :=
    if rx_seek_cap self <? jump then Ret (Err SeekCapExceeded) else Ret (Ok (Ahead jump)) in
  match rx_frontier self with
  | Some f =>
      if g <=? f then
        if k <=? f - g then Ret (Err BehindWindow)
        else
          slot ← index (rx_ring self) (Z.to_nat (g mod k));
          match slot with
          | Some (tag, ks) => if tag =? g then Ret (Ok (InWindow ks)) else Panic
          | None => Panic
          end
      else ahead (g - f)
  | None => ahead (u64 (g + 1))
  end.

(** The catch-up loop [while ratchet.generation() <= g], keeping the last
    [k] derived keys; [fuel] bounds the iterations. *)
Fixpoint catch_up (fuel k : nat) (g : Z) (ratchet : StreamRatchet) (derived : list (Z * bytes)) :
    outcome (StreamRatchet * list (Z * bytes)) :=
  if generation ratchet <=? g then
    match fuel with
    | O => Panic
    | Datatypes.S fuel =>
        '(gk, ratchet) ← next_key_salt ratchet;
        let derived := if bool_decide (length derived = k) then drop 1 derived else derived in
        catch_up fuel k g ratchet (derived ++ [gk])
    end
  else Ret (ratchet, derived).

(** Phase 3: the key for [g], read from the window or derived on a clone. *)
Definition fetch_key self (g : Z) (p : Placement) :
    outcome (bytes * option PendingCatchup * ReceiverKeyManager S) :=
  match p with
  | InWindow ks => Ret (ks, None, set_stats self bump_cache_hits)
  | Ahead jump =>
      let fuel := Z.to_nat (g + 1 - generation (rx_ratchet self)) in
      '(ratchet, derived) ← catch_up fuel (length (rx_ring self)) g (rx_ratchet self) [];
      let self := set_stats self (add_catchup jump) in
      back ← expect (last derived);
      Ret (snd back, Some (mkPending ratchet derived jump), self)
  end.

(** Loading [g]'s key unless it is the one in the cipher. *)
Definition install self (g : Z) (key_salt : bytes) : outcome (ReceiverKeyManager S) :=
  if bool_decide (rx_installed self = Some g) then Ret self
  else
    let '(key, salt) := split_key_salt key_salt in
    match ss_rekey (rx_session self) (rx_ssrc self) key salt with
    | (Err _, _) => Panic
    | (Ok _, s) => Ret (set_stats (set_installed (set_session self s) g) bump_installs)
    end.

(** Folding newly derived keys into the ring: slot [gg % k]. *)
Fixpoint fold_ring (ring : ring_t) (derived : list (Z * bytes)) : ring_t :=
  match derived with
  | [] => ring
  | (gg, ks) :: derived =>
      let k := Z.of_nat (length ring) in
      fold_ring (<[Z.to_nat (gg mod k) := Some (gg, ks)]> ring) derived
  end.

(** Phase 4, after [Session::unprotect] returned. *)
Definition finalize self (g : Z) (est_index : option Z) (pending : option PendingCatchup)
    (r : result unit Error) : outcome (result Z RecvDrop * ReceiverKeyManager S) :=
  match r with
  | Ok _ =>
      let self :=
        match pending with
        | Some p => set_window self (pending_ratchet p) (fold_ring (rx_ring self) (pending_derived p)) g
        | None => self
        end in
      let self :=
        match est_index with
        | Some index => set_recovery self (update (rx_recovery self) index)
        | None => self
        end in
      Ret (Ok g, set_stats self bump_decrypted)
  | Err e =>
      let self :=
        match pending with
        | Some p => set_stats self (add_wasted (pending_jump p))
        | None => self
        end in
      match e with
      | REPLAY_FAIL | REPLAY_OLD => Ret (Err SrtpReplay, set_stats self (bump_drop SrtpReplay))
      | AUTH_FAIL => Ret (Err AuthFail, set_stats self (bump_drop AuthFail))
      | _ => Panic
      end
  end.

Definition recv_unprotect self (buf : bytes) :
    outcome (result Z RecvDrop * bytes * ReceiverKeyManager S) :=
  if bool_decide (length buf < RTP_HEADER_LEN)%nat then
    Ret (Err AuthFail, buf, set_stats self (bump_drop AuthFail))
  else
    b2 ← index buf 2; b3 ← index buf 3;
    b4 ← index buf 4; b5 ← index buf 5; b6 ← index buf 6; b7 ← index buf 7;
    let seq := from_be_bytes [b2; b3] in
    let ts := from_be_bytes [b4; b5; b6; b7] in
    mapped ← map_generation (rx_scheme self) (rx_recovery self) seq ts;
    match mapped with
    | None => Ret (Err BehindWindow, buf, set_stats self (bump_drop BehindWindow))
    | Some (g, est_index) =>
        placement ← classify self g;
        match placement with
        | Err d => Ret (Err d, buf, set_stats self (bump_drop d))
        | Ok p =>
            '(key_salt, pending, self) ← fetch_key self g p;
            self ← install self g key_salt;
            let '(r, buf, s) := ss_unprotect (rx_session self) buf in
            '(res, self) ← finalize (set_session self s) g est_index pending r;
            Ret (res, buf, self)
        end
    end.

End Receiver.
Arguments ReceiverKeyManager_new {S OPS}.
