(* ===== verification/ReceiverWindow.v ===== *)
(** * ReceiverWindow: the key window of the receiver

    The catch-up loop and the ring update of Receiver.v against the
    reference keys [gen_key]: the loop terminates with the ratchet one past
    the target generation and the last K keys in order, and folding them in
    leaves the ring holding exactly the keys of the window that ends at the
    new frontier. *)

From S2P Require Import Prelude Bytes Crypto Mls Ratchet Receiver.

(** Integers less than [k] apart with equal remainders are equal. *)
Lemma mod_inj_window k x y : 0 < k -> Z.abs (x - y) < k -> x mod k = y mod k -> x = y.
Proof.
  intros Hk Hd Hm. rewrite (Z.div_mod x k), (Z.div_mod y k), Hm in Hd |- * by lia.
  assert (x / k = y / k); nia.
Qed.

Section Window.
Context {CR : Crypto} {CL : CryptoLaws}.
Context (seed : bytes) (Hseed : length seed = CHAIN_SECRET_LEN).

(** The keys of the [m] generations from [a] on. *)
Definition key_run (a : Z) (m : nat) : list (Z * bytes) :=
  (fun i => (a + Z.of_nat i, gen_key seed (a + Z.of_nat i))) <$> seq 0 m.

Lemma length_key_run a m : length (key_run a m) = m.
Proof. unfold key_run. by rewrite length_fmap, length_seq. Qed.

Lemma key_run_cons a m : key_run a (S m) = (a, gen_key seed a) :: key_run (a + 1) m.
Proof.
  unfold key_run. rewrite <- cons_seq, <- fmap_S_seq, fmap_cons, <- list_fmap_compose, Z.add_0_r.
  f_equal. apply list_fmap_ext. intros i x _. cbn.
  by replace (a + 1 + Z.of_nat x) with (a + Z.of_nat (S x)) by lia.
Qed.

Lemma key_run_snoc a m :
  key_run a (S m) = key_run a m ++ [(a + Z.of_nat m, gen_key seed (a + Z.of_nat m))].
Proof. unfold key_run. by rewrite seq_S, fmap_app. Qed.

Lemma last_key_run a m : last (key_run a (S m)) = Some (a + Z.of_nat m, gen_key seed (a + Z.of_nat m)).
Proof. by rewrite key_run_snoc, last_snoc. Qed.

(** ** The catch-up loop *)

Lemma catch_up_run k g fuel n a m :
  (1 <= k)%nat -> (m <= k)%nat -> 0 <= a -> a + Z.of_nat m = n -> n <= g + 1 -> g < u64_max ->
  (Z.to_nat (g + 1 - n) <= fuel)%nat ->
  catch_up fuel k g (ratchet_at seed n) (key_run a m) =
  let m' := Z.to_nat (Z.min (Z.of_nat k) (g + 1 - a)) in
  Ret (ratchet_at seed (g + 1), key_run (g + 1 - Z.of_nat m') m').
Proof.
  intros Hk. revert n a m. induction fuel as [|fuel IH]; intros n a m Hm Ha Hn Hg Hmax Hfuel; cbn [catch_up].
  all: change (generation (ratchet_at seed n)) with n.
  all: destruct (Z.leb_spec n g) as [Hle|Hgt];
    [|assert (n = g + 1) as -> by lia; cbn zeta;
      replace (Z.to_nat (Z.min (Z.of_nat k) (g + 1 - a))) with m by lia;
      by replace (g + 1 - Z.of_nat m) with a by lia].
  - lia.
  - rewrite next_key_salt_at by (done || lia). cbn [mbind outcome_bind].
    rewrite length_key_run. subst n. case_bool_decide as Hfull.
    + destruct m as [|m]; [lia|]. rewrite key_run_cons. cbn [drop]. rewrite drop_0.
      replace (a + Z.of_nat (S m)) with (a + 1 + Z.of_nat m) in * by lia.
      rewrite <- key_run_snoc, IH by lia. cbn zeta.
      by replace (Z.min (Z.of_nat k) (g + 1 - (a + 1))) with (Z.min (Z.of_nat k) (g + 1 - a)) by lia.
    + rewrite <- key_run_snoc. apply IH; lia.
Qed.

(** The loop as [unprotect] calls it: from generation [n] to [g]. *)
Lemma catch_up_spec k n g :
  (1 <= k)%nat -> 0 <= n <= g -> g < u64_max ->
  let m := Z.to_nat (Z.min (Z.of_nat k) (g + 1 - n)) in
  catch_up (Z.to_nat (g + 1 - n)) k g (ratchet_at seed n) [] =
  Ret (ratchet_at seed (g + 1), key_run (g + 1 - Z.of_nat m) m).
Proof. intros Hk Hn Hmax. apply (catch_up_run k g _ n n 0); lia. Qed.

(** ** The ring *)

Lemma length_fold_ring ring l : length (fold_ring ring l) = length ring.
Proof.
  revert ring; induction l as [|[g ks] l IH]; intros ring; cbn; [done|].
  by rewrite IH, length_insert.
Qed.

Lemma fold_ring_other ring a m i :
  (forall g, a <= g < a + Z.of_nat m -> i ≠ Z.to_nat (g mod Z.of_nat (length ring))) ->
  fold_ring ring (key_run a m) !! i = ring !! i.
Proof.
  revert ring a; induction m as [|m IH]; intros ring a Hi; [done|].
  rewrite key_run_cons. cbn [fold_ring]. rewrite IH.
  - rewrite list_lookup_insert_ne; [done|]. apply not_eq_sym, Hi. lia.
  - intros g Hg. rewrite length_insert. apply Hi. lia.
Qed.

Lemma fold_ring_run ring a m g :
  (1 <= length ring)%nat -> (m <= length ring)%nat -> a <= g < a + Z.of_nat m ->
  fold_ring ring (key_run a m) !! Z.to_nat (g mod Z.of_nat (length ring)) = Some (Some (g, gen_key seed g)).
Proof.
  revert ring a; induction m as [|m IH]; intros ring a Hk Hm Hg; [lia|].
  rewrite key_run_cons. cbn [fold_ring].
  set (i := Z.to_nat (a mod Z.of_nat (length ring))).
  assert (i < length ring)%nat as Hi.
  { unfold i. pose proof (Z.mod_pos_bound a (Z.of_nat (length ring)) ltac:(lia)). lia. }
  destruct (decide (g = a)) as [->|Hne].
  - fold i. rewrite fold_ring_other; [by apply list_lookup_insert_eq|].
    intros g' Hg'. rewrite length_insert. unfold i. intros Heq.
    assert (a = g'); [|lia]. apply (mod_inj_window (Z.of_nat (length ring))); [lia|lia|].
    pose proof (Z.mod_pos_bound a (Z.of_nat (length ring)) ltac:(lia)).
    pose proof (Z.mod_pos_bound g' (Z.of_nat (length ring)) ltac:(lia)). lia.
  - rewrite <- (length_insert ring i (Some (a, gen_key seed a))). apply IH; rewrite ?length_insert; lia.
Qed.

(** The ring holds exactly the keys of the window [(f - k, f]]: each at its
    slot, and nothing else.  [f = -1] is the empty window. *)
Definition ring_holds (ring : ring_t) (f : Z) : Prop :=
  (forall g, 0 <= g -> f - Z.of_nat (length ring) < g <= f ->
     ring !! Z.to_nat (g mod Z.of_nat (length ring)) = Some (Some (g, gen_key seed g))) /\
  (forall i g ks, ring !! i = Some (Some (g, ks)) ->
     0 <= g /\ f - Z.of_nat (length ring) < g <= f /\ ks = gen_key seed g /\
     i = Z.to_nat (g mod Z.of_nat (length ring))).

Lemma ring_holds_empty k : ring_holds (replicate k None) (-1).
Proof.
  clear Hseed. split; [lia|]. intros i g ks [Hi _]%lookup_replicate. done.
Qed.

Lemma mod_slot_eq k x y : 0 < k -> Z.to_nat (x mod k) = Z.to_nat (y mod k) -> x mod k = y mod k.
Proof.
  intros Hk Heq. pose proof (Z.mod_pos_bound x k Hk). pose proof (Z.mod_pos_bound y k Hk). lia.
Qed.

(** A slot is either touched by one of [m] consecutive generations or by none. *)
Lemma slot_cases k i a m :
  0 < k ->
  (exists gg, a <= gg < a + Z.of_nat m /\ i = Z.to_nat (gg mod k)) \/
  (forall gg, a <= gg < a + Z.of_nat m -> i ≠ Z.to_nat (gg mod k)).
Proof.
  intros Hk. induction m as [|m IH]; [right; lia|]. destruct IH as [(gg & ? & ?)|Hno].
  - left. exists gg. split; [lia|done].
  - destruct (decide (i = Z.to_nat ((a + Z.of_nat m) mod k))) as [Heq|Hne].
    + left. exists (a + Z.of_nat m). split; [lia|done].
    + right. intros gg Hgg. destruct (decide (gg = a + Z.of_nat m)) as [->|]; [done|apply Hno; lia].
Qed.

(** Folding the keys a catch-up from [f] to [g] kept moves the window to [g]. *)
Lemma fold_ring_holds ring f g m :
  (1 <= length ring)%nat -> -1 <= f < g ->
  m = Z.to_nat (Z.min (Z.of_nat (length ring)) (g - f)) ->
  ring_holds ring f -> ring_holds (fold_ring ring (key_run (g + 1 - Z.of_nat m) m)) g.
Proof.
  intros Hk Hfg Hm [Hin Hout]. set (k := Z.of_nat (length ring)) in *.
  assert (0 < k) as Hk0 by lia.
  split; rewrite length_fold_ring; fold k.
  - intros h Hh0 Hh. destruct (Z.le_gt_cases (g + 1 - Z.of_nat m) h) as [Hge|Hlt].
    + apply fold_ring_run; lia.
    + rewrite fold_ring_other; [apply Hin; lia|].
      intros gg Hgg Heq. apply mod_slot_eq in Heq; [|done].
      assert (h = gg); [|lia]. apply (mod_inj_window k); [lia|lia|done].
  - intros i h ks Hi.
    destruct (slot_cases k i (g + 1 - Z.of_nat m) m Hk0) as [(gg & Hgg & ->)|Hno].
    + unfold k in Hi. rewrite fold_ring_run in Hi by lia. injection Hi as -> <-.
      split_and!; try done; lia.
    + rewrite fold_ring_other in Hi by (intros gg Hgg; apply Hno; lia).
      destruct (Hout _ _ _ Hi) as (Hh0 & Hh & -> & ->). split_and!; try done; try lia.
      destruct (Z.le_gt_cases h (g - k)) as [Hold|]; [|lia]. exfalso.
      pose proof (Z.mod_pos_bound (g - h) k Hk0).
      apply (Hno (g - (g - h) mod k)); [|f_equal; rewrite Zminus_mod_idemp_r; f_equal; lia].
      pose proof (Z.div_mod (g - h) k ltac:(lia)).
      assert (1 <= (g - h) / k) by (apply Z.div_le_lower_bound; lia).
      assert (k <= k * ((g - h) / k)) by nia. lia.
Qed.

End Window.
