(* ===== verification/ReceiverSpec.v ===== *)
(** * ReceiverSpec: what the receiver promises, and that it keeps it

    The abstract receiver knows the seed and computes the key of any
    generation directly; it keeps only the frontier, the recovery state, the
    libsrtp session and which generation is loaded.  [receiver_refines] is
    the refinement: the ring, its slots and tags, the cloned ratchet and the
    catch-up loop of receiver.rs compute exactly the abstract receiver's
    answer, and preserve the invariant that makes them do so. *)

From S2P Require Import Prelude Bytes Crypto Rtp IndexRecovery Mls Ratchet Rdbx Session Generation Granularity.
From S2P Require Import Receiver ReceiverWindow.

(** ** The abstract receiver *)

Record View (S : Type) := mkView {
  v_session : S;
  v_installed : option Z;
  v_top : Z;
  v_recovery : IndexRecovery
}.
Arguments mkView {S}.
Arguments v_session {S}.
Arguments v_installed {S}.
Arguments v_top {S}.
Arguments v_recovery {S}.

(** What never changes over a receiver's life. *)
Record Config := mkConfig {
  c_seed : bytes;
  c_ssrc : Z;
  c_scheme : GenerationScheme;
  c_k : nat;
  c_cap : Z
}.

Definition hdr_ts (buf : bytes) : Z :=
  from_be_bytes [byte_at buf 4; byte_at buf 5; byte_at buf 6; byte_at buf 7].

Section Spec.
Context {CR : Crypto} {S : Type} {OPS : SrtpOps S}.

Definition spec_install (c : Config) (v : View S) (g : Z) : outcome S :=
  if bool_decide (v_installed v = Some g) then Ret (v_session v)
  else
    let '(key, salt) := split_key_salt (gen_key (c_seed c) g) in
    match ss_rekey (v_session v) (c_ssrc c) key salt with
    | (Err _, _) => Panic
    | (Ok _, s) => Ret s
    end.

(** A packet of a generation inside the window: load its key, decrypt, and
    move on only if it authenticated. *)
Definition spec_open (c : Config) (v : View S) (g : Z) (est : option Z) (buf : bytes) :
    outcome (result Z RecvDrop * bytes * View S) :=
  s ← spec_install c v g;
  let '(r, buf', s') := ss_unprotect s buf in
  match r with
  | Ok _ =>
      let recovery := match est with Some i => update (v_recovery v) i | None => v_recovery v end in
      Ret (Ok g, buf', mkView s' (Some g) (Z.max (v_top v) g) recovery)
  | Err (REPLAY_FAIL | REPLAY_OLD) => Ret (Err SrtpReplay, buf', mkView s' (Some g) (v_top v) (v_recovery v))
  | Err AUTH_FAIL => Ret (Err AuthFail, buf', mkView s' (Some g) (v_top v) (v_recovery v))
  | Err _ => Panic
  end.

Definition spec_unprotect (c : Config) (v : View S) (buf : bytes) :
    outcome (result Z RecvDrop * bytes * View S) :=
  if bool_decide (length buf < RTP_HEADER_LEN)%nat then Ret (Err AuthFail, buf, v)
  else
    mapped ← map_generation (c_scheme c) (v_recovery v) (hdr_seq buf) (hdr_ts buf);
    match mapped with
    | None => Ret (Err BehindWindow, buf, v)
    | Some (g, est) =>
        if g <=? v_top v - Z.of_nat (c_k c) then Ret (Err BehindWindow, buf, v)
        else if c_cap c <? g - v_top v then Ret (Err SeekCapExceeded, buf, v)
        else spec_open c v g est buf
    end.

(** ** The correspondence *)

Definition rx_top (self : ReceiverKeyManager S) : Z :=
  match rx_frontier self with Some f => f | None => -1 end.

Definition view (self : ReceiverKeyManager S) : View S :=
  mkView (rx_session self) (rx_installed self) (rx_top self) (rx_recovery self).

Definition observe (x : result Z RecvDrop * bytes * ReceiverKeyManager S) :
    result Z RecvDrop * bytes * View S :=
  let '(r, buf, self) := x in (r, buf, view self).

Definition config (seed : bytes) (self : ReceiverKeyManager S) : Config :=
  mkConfig seed (rx_ssrc self) (rx_scheme self) (length (rx_ring self)) (rx_seek_cap self).

(** The receiver's state invariant for the ratchet of [seed]. *)
Record rx_inv (seed : bytes) (self : ReceiverKeyManager S) : Prop := {
  inv_seed : length seed = CHAIN_SECRET_LEN;
  inv_top : forall f, rx_frontier self = Some f -> 0 <= f;
  inv_ratchet : rx_ratchet self = ratchet_at seed (rx_top self + 1);
  inv_cap : 0 <= rx_seek_cap self;
  inv_k : (1 <= length (rx_ring self))%nat;
  inv_ring : ring_holds seed (rx_ring self) (rx_top self);
  inv_stream : is_Some (ss_key (rx_session self) (rx_ssrc self));
  inv_installed : forall g, rx_installed self = Some g ->
    ss_key (rx_session self) (rx_ssrc self) = Some (split_key_salt (gen_key seed g))
}.

(** The parameters [ReceiverKeyManager::new] is meant to be called with. *)
Definition scheme_ok (scheme : GenerationScheme) : Prop :=
  match scheme with
  | SchemeEpochOnly => True
  | SchemeFrame _ period => 0 < period
  | SchemePacket base => 0 <= base
  | SchemeEveryN base n => 0 <= base /\ 0 < n
  end.

End Spec.

(** ** Phases 1 to 3 against the specification *)

Section Facts.
Context {CR : Crypto} {CL : CryptoLaws} {S : Type} {OPS : SrtpOps S} {LAWS : SrtpLaws S}.
Implicit Types self : ReceiverKeyManager S.

Lemma recover_range r seq :
  IndexRecovery_ok r -> in_u16 seq -> 0 <= recover r seq < u64_max.
Proof.
  intros Hr Hs. destruct r as [[h|]].
  - pose proof (Hr h eq_refl). pose proof (recover_step h seq ltac:(done) Hs). lia.
  - cbn. unfold u64_max. width.
Qed.

Lemma map_generation_range scheme r seq ts :
  scheme_ok scheme -> IndexRecovery_ok r -> in_u16 seq ->
  exists m, map_generation scheme r seq ts = Ret m /\
    forall g est, m = Some (g, est) -> 0 <= g < u64_max.
Proof.
  intros Hok Hr Hseq. pose proof (recover_range r seq Hr Hseq) as Hrec.
  destruct scheme as [|start period|base|base n]; cbn in Hok; cbn [map_generation].
  - eexists. split; [done|]. intros g est [= <- <-]. unfold u64_max. lia.
  - unfold frame_generation, div_. destruct (Z.eqb_spec period 0); [lia|]. cbn [mbind outcome_bind].
    eexists. split; [done|]. intros g est [= <- <-].
    pose proof (u32_range (ts - start)) as Hu. unfold in_u32 in Hu.
    split; [apply Z.div_pos; lia|]. apply Z.div_lt_upper_bound; unfold u64_max; nia.
  - unfold checked_sub. destruct (Z.leb_spec base (recover r seq)).
    + eexists. split; [done|]. intros g est [= <- <-]. lia.
    + eexists. split; [done|]. done.
  - unfold checked_sub. destruct (Z.leb_spec base (recover r seq)).
    + unfold div_. destruct (Z.eqb_spec n 0); [lia|]. cbn [mbind outcome_bind].
      eexists. split; [done|]. intros g est [= <- <-].
      split; [apply Z.div_pos; lia|]. apply Z.div_lt_upper_bound; nia.
    + eexists. split; [done|]. done.
Qed.

Lemma top_range seed self : rx_inv seed self -> -1 <= rx_top self.
Proof.
  intros Hinv. unfold rx_top. destruct (rx_frontier self) as [f|] eqn:Hf; [|lia].
  pose proof (inv_top _ _ Hinv f Hf). lia.
Qed.

(** Phase 2 is the window test; [unreachable!] is not reached. *)
Lemma classify_spec seed self g :
  rx_inv seed self -> 0 <= g < u64_max ->
  classify self g =
  if g <=? rx_top self - Z.of_nat (length (rx_ring self)) then Ret (Err BehindWindow)
  else if rx_seek_cap self <? g - rx_top self then Ret (Err SeekCapExceeded)
  else if g <=? rx_top self then Ret (Ok (InWindow (gen_key seed g)))
  else Ret (Ok (Ahead (g - rx_top self))).
Proof.
  intros Hinv Hg. pose proof (inv_cap _ _ Hinv) as Hcap. pose proof (inv_k _ _ Hinv) as Hk.
  pose proof (inv_ring _ _ Hinv) as [Hin _]. unfold rx_top in *. unfold classify.
  destruct (rx_frontier self) as [f|] eqn:Hf.
  - pose proof (inv_top _ _ Hinv f Hf) as Hf0.
    destruct (Z.leb_spec g f).
    + destruct (Z.leb_spec (Z.of_nat (length (rx_ring self))) (f - g)),
        (Z.leb_spec g (f - Z.of_nat (length (rx_ring self)))); try lia; [done|].
      destruct (Z.ltb_spec (rx_seek_cap self) (g - f)); [lia|].
      unfold index. rewrite Hin by lia. cbn. by rewrite Z.eqb_refl.
    + destruct (Z.leb_spec g (f - Z.of_nat (length (rx_ring self)))); [lia|done].
  - destruct (Z.leb_spec g (-1 - Z.of_nat (length (rx_ring self)))); [lia|].
    rewrite u64_id by width. replace (g - -1) with (g + 1) by lia.
    destruct (Z.leb_spec g (-1)); [lia|done].
Qed.

(** Phase 3: the key is the one of [g], and a catch-up is the run to [g]. *)
Definition pending_for (seed : bytes) self (g : Z) : PendingCatchup :=
  let m := Z.to_nat (Z.min (Z.of_nat (length (rx_ring self))) (g - rx_top self)) in
  mkPending (ratchet_at seed (g + 1)) (key_run seed (g + 1 - Z.of_nat m) m) (g - rx_top self).

Lemma fetch_ahead seed self g :
  rx_inv seed self -> rx_top self < g < u64_max ->
  fetch_key self g (Ahead (g - rx_top self)) =
  Ret (gen_key seed g, Some (pending_for seed self g), set_stats self (add_catchup (g - rx_top self))).
Proof.
  intros Hinv Hg. pose proof (top_range _ _ Hinv). pose proof (inv_k _ _ Hinv) as Hk.
  unfold fetch_key. rewrite (inv_ratchet _ _ Hinv).
  change (generation (ratchet_at seed (rx_top self + 1))) with (rx_top self + 1).
  rewrite catch_up_spec by (first [apply Hinv|lia]). cbn [mbind outcome_bind].
  unfold pending_for. replace (g + 1 - (rx_top self + 1)) with (g - rx_top self) by lia.
  destruct (Z.to_nat (Z.min _ _)) as [|m] eqn:Hm; [lia|].
  rewrite last_key_run. cbn [expect mbind outcome_bind snd].
  by replace (g + 1 - Z.of_nat (Datatypes.S m) + Z.of_nat m) with g by lia.
Qed.

(** Loading a key: afterwards the cipher holds generation [g]'s. *)
Lemma install_spec seed self g :
  rx_inv seed self ->
  exists s st,
    spec_install (config seed self) (view self) g = Ret s /\
    install self g (gen_key seed g) =
      Ret (mkReceiver s (rx_ssrc self) (rx_scheme self) (rx_recovery self) (rx_ratchet self)
             (rx_ring self) (rx_frontier self) (Some g) (rx_seek_cap self) st) /\
    ss_key s (rx_ssrc self) = Some (split_key_salt (gen_key seed g)).
Proof.
  intros Hinv. unfold install, spec_install. cbn [v_installed view].
  case_bool_decide as Hi.
  - exists (rx_session self), (rx_stats self). split; [done|]. split; [by destruct self; cbn in *; subst|].
    by apply (inv_installed _ _ Hinv).
  - destruct (split_lengths seed g (inv_seed _ _ Hinv)) as [Hkl Hal].
    cbn [config c_seed c_ssrc view v_session].
    destruct (split_key_salt (gen_key seed g)) as [key salt]. cbn in Hkl, Hal.
    destruct (ss_rekey_ok (rx_session self) (rx_ssrc self) key salt (inv_stream _ _ Hinv) Hkl Hal)
      as (s' & -> & Hk').
    eexists s', _. split; [done|]. split; [reflexivity|done].
Qed.

(** ** The refinement *)

(** Header reads of a packet that is long enough. *)
Lemma index_byte_at buf i : (i < length buf)%nat -> index buf i = Ret (byte_at buf i).
Proof. intros [b Hb]%lookup_lt_is_Some_2. unfold index, byte_at. by rewrite Hb. Qed.

Lemma hdr_seq_range buf : bytes_ok buf -> in_u16 (hdr_seq buf).
Proof.
  intros Hb. assert (forall i, in_u8 (byte_at buf i)) as H.
  { intros i. unfold byte_at. destruct (buf !! i) eqn:E; [|done]. cbn. by eapply Forall_lookup_1. }
  pose proof (H 2%nat). pose proof (H 3%nat). unfold hdr_seq. cbn. width.
Qed.

(** The invariant only reads these fields. *)
Lemma inv_rebuild seed self self' :
  rx_inv seed self ->
  rx_frontier self' = rx_frontier self -> rx_ratchet self' = rx_ratchet self ->
  rx_ring self' = rx_ring self -> rx_seek_cap self' = rx_seek_cap self ->
  rx_ssrc self' = rx_ssrc self ->
  is_Some (ss_key (rx_session self') (rx_ssrc self)) ->
  (forall g, rx_installed self' = Some g ->
    ss_key (rx_session self') (rx_ssrc self) = Some (split_key_salt (gen_key seed g))) ->
  rx_inv seed self'.
Proof.
  intros [] Hf Hra Hri Hc Hss Hs Hi.
  split; unfold rx_top in *; rewrite ?Hf, ?Hra, ?Hri, ?Hc, ?Hss; done.
Qed.

Lemma inv_set_stats seed self f : rx_inv seed self -> rx_inv seed (set_stats self f).
Proof. intros H. eapply inv_rebuild; [exact H|done..|exact (inv_stream _ _ H)|exact (inv_installed _ _ H)]. Qed.

(** Adopting a catch-up moves the window to [g]. *)
Lemma inv_set_window seed self g :
  rx_inv seed self -> rx_top self < g ->
  let p := pending_for seed self g in
  rx_inv seed (set_window self (pending_ratchet p) (fold_ring (rx_ring self) (pending_derived p)) g).
Proof.
  intros Hinv Hg p. pose proof (top_range _ _ Hinv). unfold p, pending_for.
  split; cbn [set_window rx_frontier rx_ratchet rx_ring rx_seek_cap rx_session rx_ssrc rx_installed rx_top
    pending_ratchet pending_derived].
  - exact (inv_seed _ _ Hinv).
  - intros f [= <-]. lia.
  - done.
  - exact (inv_cap _ _ Hinv).
  - rewrite length_fold_ring. exact (inv_k _ _ Hinv).
  - eapply fold_ring_holds; [exact (inv_seed _ _ Hinv)|exact (inv_k _ _ Hinv)|split; [|exact Hg]; lia|done|exact (inv_ring _ _ Hinv)].
  - exact (inv_stream _ _ Hinv).
  - exact (inv_installed _ _ Hinv).
Qed.

(** Phase 4 against the specification, for a receiver whose key is loaded. *)
Lemma finalize_spec seed self g est pending r buf' s :
  rx_inv seed self -> rx_installed self = Some g ->
  ss_key s (rx_ssrc self) = Some (split_key_salt (gen_key seed g)) ->
  pending = (if g <=? rx_top self then None else Some (pending_for seed self g)) ->
  let out := '(res, self') ← finalize (set_session self s) g est pending r; Ret (res, buf', self') in
  (observe <$> out) =
    match r with
    | Ok _ =>
        let recovery := match est with Some i => update (rx_recovery self) i | None => rx_recovery self end in
        Ret (Ok g, buf', mkView s (Some g) (Z.max (rx_top self) g) recovery)
    | Err (REPLAY_FAIL | REPLAY_OLD) =>
        Ret (Err SrtpReplay, buf', mkView s (Some g) (rx_top self) (rx_recovery self))
    | Err AUTH_FAIL => Ret (Err AuthFail, buf', mkView s (Some g) (rx_top self) (rx_recovery self))
    | Err _ => Panic
    end /\
  forall res buf self', out = Ret (res, buf, self') -> rx_inv seed self' /\ config seed self' = config seed self.
Proof.
  intros Hinv Hi Hk -> out.
  assert (rx_inv seed (set_session self s)) as Hinv'.
  { eapply inv_rebuild; [exact Hinv|done..|by eexists|]. cbn. rewrite Hi. by intros ? [= <-]. }
  unfold out, finalize. destruct r as [[]|e].
  - destruct (Z.leb_spec g (rx_top self)) as [Hle|Hgt].
    + split.
      * rewrite Z.max_l by lia. destruct est; cbn; unfold view, rx_top; cbn; by rewrite Hi.
      * intros res buf self' [= <- <- <-]. split; [|by destruct est].
        apply inv_set_stats. destruct est; [|done].
        eapply inv_rebuild; [exact Hinv'|done..|exact (inv_stream _ _ Hinv')|exact (inv_installed _ _ Hinv')].
    + pose proof (inv_set_window seed (set_session self s) g Hinv' Hgt) as Hw. split.
      * rewrite Z.max_r by lia. destruct est; cbn; unfold view, rx_top; cbn; by rewrite Hi.
      * intros res buf self' [= <- <- <-]. split.
        -- apply inv_set_stats. destruct est; [|exact Hw].
           eapply inv_rebuild; [exact Hw|done..|exact (inv_stream _ _ Hw)|exact (inv_installed _ _ Hw)].
        -- unfold config. destruct est; cbn; by rewrite length_fold_ring.
  - split.
    + destruct e; try done; destruct (g <=? rx_top self); cbn; unfold view; cbn; by rewrite Hi.
    + intros res buf self'. destruct e; cbn; try discriminate; intros [= <- <- <-];
        (split; [|by destruct (g <=? rx_top self)]); apply inv_set_stats;
        destruct (g <=? rx_top self); try done; by apply inv_set_stats.
Qed.

(** A packet inside the window. *)
Lemma open_spec seed self g est buf :
  rx_inv seed self -> 0 <= g < u64_max ->
  let p := if g <=? rx_top self then InWindow (gen_key seed g) else Ahead (g - rx_top self) in
  let out :=
    '(key_salt, pending, self) ← fetch_key self g p;
    self ← install self g key_salt;
    let '(r, buf, s) := ss_unprotect (rx_session self) buf in
    '(res, self) ← finalize (set_session self s) g est pending r;
    Ret (res, buf, self) in
  (observe <$> out) = spec_open (config seed self) (view self) g est buf /\
  forall res buf self', out = Ret (res, buf, self') -> rx_inv seed self' /\ config seed self' = config seed self.
Proof.
  intros Hinv Hg p out.
  assert (exists f, fetch_key self g p =
    Ret (gen_key seed g, (if g <=? rx_top self then None else Some (pending_for seed self g)), set_stats self f))
    as [f Hfetch].
  { unfold p. destruct (Z.leb_spec g (rx_top self)); [by eexists|].
    rewrite (fetch_ahead seed) by (done || lia). by eexists. }
  unfold out, spec_open. rewrite Hfetch. cbn [mbind outcome_bind].
  destruct (install_spec seed (set_stats self f) g (inv_set_stats _ _ _ Hinv)) as (s & st & Hs & -> & Hk).
  change (spec_install (config seed (set_stats self f)) (view (set_stats self f)) g)
    with (spec_install (config seed self) (view self) g) in Hs.
  rewrite Hs. cbn [mbind outcome_bind rx_session].
  set (self1 := mkReceiver _ _ _ _ _ _ _ _ _ _).
  destruct (ss_unprotect s buf) as [[r buf'] s'] eqn:Hu.
  assert (rx_inv seed self1) as Hinv1.
  { eapply inv_rebuild; [exact Hinv|done..|by eexists|]. by intros ? [= <-]. }
  apply (finalize_spec seed self1 g est _ r buf' s' Hinv1); [done| |done].
  cbn in Hk |- *. by rewrite (ss_unprotect_key _ _ _ _ _ _ Hu).
Qed.

(** The whole of [unprotect]. *)
Lemma unprotect_spec seed self buf :
  rx_inv seed self -> scheme_ok (rx_scheme self) -> IndexRecovery_ok (rx_recovery self) ->
  in_u16 (hdr_seq buf) ->
  (observe <$> recv_unprotect self buf) = spec_unprotect (config seed self) (view self) buf /\
  forall res buf' self', recv_unprotect self buf = Ret (res, buf', self') ->
    rx_inv seed self' /\ config seed self' = config seed self.
Proof.
  intros Hinv Hsch Hrec Hseq. unfold recv_unprotect, spec_unprotect, RTP_HEADER_LEN.
  case_bool_decide as Hlen.
  { split; [done|]. intros res buf' self' [= <- <- <-]. split; [by apply inv_set_stats|done]. }
  rewrite !index_byte_at by lia. cbn [mbind outcome_bind].
  change (from_be_bytes [byte_at buf 2; byte_at buf 3]) with (hdr_seq buf).
  change (from_be_bytes [byte_at buf 4; byte_at buf 5; byte_at buf 6; byte_at buf 7]) with (hdr_ts buf).
  destruct (map_generation_range (rx_scheme self) (rx_recovery self) (hdr_seq buf) (hdr_ts buf))
    as (m & Hm & Hrange); [done..|].
  cbn [config c_scheme view v_recovery]. rewrite Hm. cbn [mbind outcome_bind].
  destruct m as [[g est]|].
  2:{ split; [reflexivity|]. intros res buf' self' [= <- <- <-]. split; [by apply inv_set_stats|done]. }
  pose proof (Hrange g est eq_refl) as Hg. rewrite (classify_spec seed) by done.
  change (v_top (view self)) with (rx_top self). cbn [config c_k c_cap]. fold (config seed self).
  destruct (Z.leb_spec g (rx_top self - Z.of_nat (length (rx_ring self)))).
  { split; [reflexivity|]. intros res buf' self' [= <- <- <-]. split; [by apply inv_set_stats|done]. }
  destruct (Z.ltb_spec (rx_seek_cap self) (g - rx_top self)).
  { split; [reflexivity|]. intros res buf' self' [= <- <- <-]. split; [by apply inv_set_stats|done]. }
  pose proof (open_spec seed self g est buf Hinv Hg) as Hopen. cbn zeta in Hopen.
  by destruct (Z.leb_spec g (rx_top self)); cbn [mbind outcome_bind].
Qed.

End Facts.
