(* ===== verification/ReceiverProps.v ===== *)
(** * ReceiverProps: the receiver's guarantees over whole runs

    Consequences of the refinement of ReceiverSpec.v: the invariant and its
    forward-secrecy reading on every reachable state, the accounting of the
    statistics, the work bound, that unauthenticated packets leave no trace
    in the key schedule, and exactly when [unprotect] panics. *)

From S2P Require Import Prelude Bytes Crypto Rtp IndexRecovery Mls Ratchet Rdbx Session Generation Granularity.
From S2P Require Import Receiver ReceiverWindow ReceiverSpec.

Section Props.
Context {CR : Crypto} {CL : CryptoLaws} {S : Type} {OPS : SrtpOps S} {LAWS : SrtpLaws S}.
Implicit Types self : ReceiverKeyManager S.

(** Receiving a sequence of datagrams. *)
Fixpoint recv_all self (bufs : list bytes) :
    outcome (list (result Z RecvDrop * bytes) * ReceiverKeyManager S) :=
  match bufs with
  | [] => Ret ([], self)
  | buf :: bufs =>
      '(r, buf', self) ← recv_unprotect self buf;
      '(out, self) ← recv_all self bufs;
      Ret ((r, buf') :: out, self)
  end.

(** The recovery state after few enough packets is far from overflow. *)
Definition rec_below (n : Z) (r : IndexRecovery) : Prop :=
  forall h, highest r = Some h -> 0 <= h < 65536 * n.

Lemma rec_below_ok n r : rec_below n r -> n < 2 ^ 47 -> IndexRecovery_ok r.
Proof. intros Hr Hn h Hh. pose proof (Hr h Hh). unfold u64_max. lia. Qed.

Lemma rec_below_mono n m r : rec_below n r -> n <= m -> rec_below m r.
Proof. intros Hr Hn h Hh. pose proof (Hr h Hh). lia. Qed.

Lemma rec_below_update n r seq :
  0 <= n < 2 ^ 47 -> rec_below n r -> in_u16 seq -> rec_below (n + 1) (update r (recover r seq)).
Proof.
  intros Hn Hr Hs. assert (0 <= recover r seq < 65536 * (n + 1)) as Hrec.
  { destruct r as [[h|]]; [|cbn; width]. pose proof (Hr h eq_refl).
    pose proof (recover_step h seq ltac:(unfold u64_max; lia) Hs). lia. }
  unfold update. case_match; [intros h [= <-]; done|].
  eapply rec_below_mono; [done|lia].
Qed.

(** What [unprotect] does to the recovery state. *)
Lemma map_generation_index scheme r seq ts g i :
  map_generation scheme r seq ts = Ret (Some (g, Some i)) -> i = recover r seq.
Proof.
  destruct scheme; cbn [map_generation]; try discriminate.
  - intros H. run_ret H. discriminate.
  - destruct (checked_sub _ _); [|discriminate]. by intros [= _ <-].
  - destruct (checked_sub _ _); [|discriminate]. intros H. run_ret H. by injection H as _ <-.
Qed.

(** What a successful [finalize] may have changed. *)
Lemma finalize_recovery self g est p r res self' :
  finalize self g est p r = Ret (res, self') ->
  rx_recovery self' = rx_recovery self \/
  exists i, est = Some i /\ rx_recovery self' = update (rx_recovery self) i.
Proof.
  unfold finalize. destruct r as [?|e].
  - intros [= <- <-]. destruct est as [i|]; [right; exists i|left]; destruct p; done.
  - intros H. left. destruct e; try discriminate; injection H as <- <-; by destruct p.
Qed.

(** [fetch_key] and [install] touch the statistics and the cipher only. *)
Lemma fetch_key_frame self g p ks pend self' :
  fetch_key self g p = Ret (ks, pend, self') -> exists f, self' = set_stats self f.
Proof.
  unfold fetch_key. destruct p; [intros [= <- <- <-]; by eexists|].
  intros H. apply bind_Ret in H as ([r d] & _ & H). apply bind_Ret in H as (b & _ & H).
  injection H as <- <- <-. by eexists.
Qed.

Lemma install_frame self g ks self' :
  install self g ks = Ret self' ->
  exists s o f, self' = set_stats (mkReceiver s (rx_ssrc self) (rx_scheme self) (rx_recovery self)
    (rx_ratchet self) (rx_ring self) (rx_frontier self) o (rx_seek_cap self) (rx_stats self)) f.
Proof.
  unfold install. case_bool_decide.
  - intros [= <-]. exists (rx_session self), (rx_installed self), id. by destruct self.
  - destruct (split_key_salt ks) as [key salt].
    destruct (ss_rekey _ _ _ _) as [[?|?] s]; [|discriminate]. intros [= <-]. by eexists _, _, _.
Qed.

(** The two ways [unprotect] returns: dropped before any key was touched, or
    through all four phases. *)
Lemma unprotect_cases self buf res buf' self' :
  recv_unprotect self buf = Ret (res, buf', self') ->
  (exists d, res = Err d /\ self' = set_stats self (bump_drop d)) \/
  exists g est p ks pend self1 self2 r s',
    map_generation (rx_scheme self) (rx_recovery self) (hdr_seq buf) (hdr_ts buf) = Ret (Some (g, est)) /\
    classify self g = Ret (Ok p) /\ fetch_key self g p = Ret (ks, pend, self1) /\
    install self1 g ks = Ret self2 /\ ss_unprotect (rx_session self2) buf = (r, buf', s') /\
    finalize (set_session self2 s') g est pend r = Ret (res, self').
Proof.
  unfold recv_unprotect, RTP_HEADER_LEN. case_bool_decide as Hlen; [intros [= <- <- <-]; eauto|].
  rewrite !index_byte_at by lia. cbn [mbind outcome_bind].
  change (from_be_bytes [byte_at buf 2; byte_at buf 3]) with (hdr_seq buf).
  change (from_be_bytes [byte_at buf 4; byte_at buf 5; byte_at buf 6; byte_at buf 7]) with (hdr_ts buf).
  intros H. apply bind_Ret in H as ([[g est]|] & Hm & H); [|injection H as <- <- <-; eauto].
  apply bind_Ret in H as ([p|d] & Hc & H); [|injection H as <- <- <-; eauto].
  apply bind_Ret in H as ([[ks pend] self1] & Hf & H). apply bind_Ret in H as (self2 & Hi & H).
  destruct (ss_unprotect _ _) as [[r b] s'] eqn:Hu. apply bind_Ret in H as ([res' self3] & Hfin & H).
  injection H as -> -> ->. right. by eexists g, est, p, ks, pend, self1, self2, r, s'.
Qed.

(** ** Rollback *)

(** The part of the state an unauthenticated packet must not move. *)
Definition key_state self := (rx_ratchet self, rx_ring self, rx_frontier self, rx_recovery self).

(** C7: A packet that is dropped for any reason, in particular because it did
    not authenticate, leaves the ratchet, the key ring, the frontier and the
    index recovery exactly as they were. *)
Theorem unauthenticated_rollback self buf d buf' self' :
  recv_unprotect self buf = Ret (Err d, buf', self') -> key_state self' = key_state self.
Proof.
  intros [(d' & _ & ->)|(g & est & p & ks & pend & self1 & self2 & r & s' & _ & _ & Hf & Hi & _ & Hfin)]%unprotect_cases;
    [done|].
  apply fetch_key_frame in Hf as [f ->]. apply install_frame in Hi as (s & o & f' & ->).
  unfold finalize in Hfin. destruct r as [[]|e]; [discriminate|].
  destruct e; try discriminate; injection Hfin as <- <-; by destruct pend.
Qed.

(** ** Runs *)

Lemma unprotect_recovery self buf res buf' self' n :
  0 <= n < 2 ^ 47 -> rec_below n (rx_recovery self) -> bytes_ok buf ->
  recv_unprotect self buf = Ret (res, buf', self') -> rec_below (n + 1) (rx_recovery self').
Proof.
  intros Hn Hr Hb
    [(d & _ & ->)|(g & est & p & ks & pend & self1 & self2 & r & s' & Hm & _ & Hf & Hi & _ & Hfin)]%unprotect_cases;
    [eapply rec_below_mono; [done|lia]|].
  apply fetch_key_frame in Hf as [f ->]. apply install_frame in Hi as (s & o & f' & ->).
  apply finalize_recovery in Hfin as [->|(i & -> & ->)]; [eapply rec_below_mono; [done|lia]|].
  apply map_generation_index in Hm as ->. apply rec_below_update; [done..|by apply hdr_seq_range].
Qed.

(** Invariants of a run: what one packet preserves, a run preserves. *)
Lemma recv_all_ind seed (P : Z -> ReceiverKeyManager S -> Prop) :
  (forall n self buf res buf' self',
     rx_inv seed self -> scheme_ok (rx_scheme self) -> IndexRecovery_ok (rx_recovery self) -> bytes_ok buf ->
     P n self -> recv_unprotect self buf = Ret (res, buf', self') -> P (n + 1) self') ->
  forall bufs n self out self',
    rx_inv seed self -> scheme_ok (rx_scheme self) -> rec_below n (rx_recovery self) -> P n self ->
    Forall bytes_ok bufs -> 0 <= n -> n + Z.of_nat (length bufs) < 2 ^ 47 ->
    recv_all self bufs = Ret (out, self') ->
    rx_inv seed self' /\ config seed self' = config seed self /\ P (n + Z.of_nat (length bufs)) self'.
Proof.
  intros Hstep bufs. induction bufs as [|buf bufs IH]; intros n self out self' Hinv Hsch Hrec HP Hb Hn Hlen Hrun.
  - injection Hrun as <- <-. by rewrite Z.add_0_r.
  - cbn [recv_all] in Hrun. apply bind_Ret in Hrun as ([[r buf'] self1] & Hrecv & Hrun).
    apply bind_Ret in Hrun as ([out' self2] & Hrun & [= <- <-]).
    apply Forall_cons in Hb as [Hb Hbs]. cbn [length] in *.
    assert (IndexRecovery_ok (rx_recovery self)) as Hok by (eapply rec_below_ok; [done|lia]).
    destruct (unprotect_spec seed self buf Hinv Hsch Hok (hdr_seq_range _ Hb)) as [_ Hpres].
    destruct (Hpres _ _ _ Hrecv) as [Hinv1 Hc1].
    assert (rx_scheme self1 = rx_scheme self) as Hs by by injection Hc1.
    replace (n + Z.of_nat (Datatypes.S (length bufs))) with (n + 1 + Z.of_nat (length bufs)) in * by lia.
    rewrite <- Hc1. eapply IH; try done; [by rewrite Hs| | |lia].
    + eapply unprotect_recovery; [|done..]. lia.
    + exact (Hstep _ _ _ _ _ _ Hinv Hsch Hok Hb HP Hrecv).
Qed.

(** A new receiver satisfies the invariant. *)
Lemma new_inv scheme ssrc seed k cap window self :
  length seed = CHAIN_SECRET_LEN -> 0 <= cap -> window = 0 \/ 64 <= window < 0x8000 ->
  ReceiverKeyManager_new scheme ssrc (ratchet_at seed 0) k cap window = Ret self ->
  rx_inv seed self /\ config seed self = mkConfig seed ssrc scheme k cap /\
  rx_recovery self = IndexRecovery_default /\ rx_frontier self = None /\ rx_installed self = None /\
  rx_stats self = RecvStats_default.
Proof.
  intros Hs Hcap Hw H. apply bind_Ret in H as ([] & Hk%assert_Ret%bool_decide_eq_true & H).
  destruct (ss_add_stream_ok ss_new ssrc (mkStreamPolicy throwaway window false)) as (s & Hadd & Hkey);
    [done|exact Hw|].
  cbn zeta in H. rewrite Hadd in H. injection H as <-. unfold config; cbn. rewrite length_replicate.
  split; [|done]. split; cbn; try done.
  - by rewrite length_replicate.
  - apply ring_holds_empty.
Qed.

Lemma new_returns scheme ssrc seed k cap window :
  (1 <= k)%nat -> window = 0 \/ 64 <= window < 0x8000 ->
  exists self, ReceiverKeyManager_new scheme ssrc (ratchet_at seed 0) k cap window = Ret self.
Proof.
  intros Hk Hw. unfold ReceiverKeyManager_new. rewrite bool_decide_eq_true_2 by done.
  cbn [assert mbind outcome_bind]. cbn zeta.
  destruct (ss_add_stream_ok ss_new ssrc (mkStreamPolicy throwaway window false)) as (s & -> & _);
    [done|exact Hw|]. by eexists.
Qed.

(** C3: ReceiverKeyManager::unprotect computes exactly what the abstract
    receiver computes, which knows the key of every generation and keeps no
    ring, no slots and no cloned ratchet; panics coincide as well, and the
    invariant that makes the implementation right is preserved. *)
Theorem receiver_refines seed self buf :
  rx_inv seed self -> scheme_ok (rx_scheme self) -> IndexRecovery_ok (rx_recovery self) -> bytes_ok buf ->
  (observe <$> recv_unprotect self buf) = spec_unprotect (config seed self) (view self) buf /\
  forall res buf' self', recv_unprotect self buf = Ret (res, buf', self') -> rx_inv seed self'.
Proof.
  intros Hinv Hs Hr Hb. destruct (unprotect_spec seed self buf Hinv Hs Hr (hdr_seq_range _ Hb)) as [Hsim Hpres].
  split; [done|]. intros res buf' self' H. by destruct (Hpres _ _ _ H).
Qed.

(** ** The keys in memory *)

(** The loaded generation is inside the window or within reach of one jump. *)
Definition installed_near self : Prop :=
  forall g, rx_installed self = Some g ->
    rx_top self - Z.of_nat (length (rx_ring self)) < g <= rx_top self + rx_seek_cap self.

Lemma installed_near_step seed self buf res buf' self' :
  rx_inv seed self -> scheme_ok (rx_scheme self) -> IndexRecovery_ok (rx_recovery self) -> bytes_ok buf ->
  installed_near self -> recv_unprotect self buf = Ret (res, buf', self') -> installed_near self'.
Proof.
  intros Hinv Hs Hr Hb Hnear Hrecv.
  destruct (unprotect_spec seed self buf Hinv Hs Hr (hdr_seq_range _ Hb)) as [Hsim Hpres].
  destruct (Hpres _ _ _ Hrecv) as [Hinv' Hc]. rewrite Hrecv in Hsim. cbn [fmap outcome_fmap observe] in Hsim.
  unfold installed_near. injection Hc as _ _ -> ->. pose proof (inv_k _ _ Hinv). pose proof (inv_cap _ _ Hinv).
  change (rx_installed self') with (v_installed (view self')). change (rx_top self') with (v_top (view self')).
  revert Hsim. generalize (view self') as v'. intros v'.
  unfold spec_unprotect. case_bool_decide; [by intros [= _ _ ->]|].
  destruct (map_generation _ _ _ _) as [[[g est]|]|]; cbn [mbind outcome_bind];
    [|by intros [= _ _ ->]|discriminate].
  cbn [config c_k c_cap view v_top].
  destruct (Z.leb_spec g (rx_top self - Z.of_nat (length (rx_ring self)))); [by intros [= _ _ ->]|].
  destruct (Z.ltb_spec (rx_seek_cap self) (g - rx_top self)); [by intros [= _ _ ->]|].
  unfold spec_open. destruct (spec_install _ _ _) as [s|]; [|discriminate]. cbn [mbind outcome_bind].
  destruct (ss_unprotect s buf) as [[r b] s'].
  destruct r as [[]|e]; [|destruct e; try discriminate]; intros [= _ _ ->]; cbn; intros ? [= <-]; lia.
Qed.

(** C6: After any sequence of datagrams, genuine or not, the ratchet stands one
    generation past the frontier, the ring holds exactly the keys of the
    last k generations, and the key loaded in the cipher is not older than
    the window: every older key is gone from memory. *)
Theorem receiver_forward_secrecy scheme ssrc seed k cap window bufs self0 self out :
  length seed = CHAIN_SECRET_LEN -> scheme_ok scheme -> 0 <= cap -> window = 0 \/ 64 <= window < 0x8000 ->
  Forall bytes_ok bufs -> Z.of_nat (length bufs) < 2 ^ 47 ->
  ReceiverKeyManager_new scheme ssrc (ratchet_at seed 0) k cap window = Ret self0 ->
  recv_all self0 bufs = Ret (out, self) ->
  rx_ratchet self = ratchet_at seed (rx_top self + 1) /\
  (forall i g ks, rx_ring self !! i = Some (Some (g, ks)) ->
     rx_top self - Z.of_nat k < g <= rx_top self /\ ks = gen_key seed g) /\
  (forall g, 0 <= g -> rx_top self - Z.of_nat k < g <= rx_top self ->
     Some (g, gen_key seed g) ∈ rx_ring self) /\
  (forall g, rx_installed self = Some g -> rx_top self - Z.of_nat k < g).
Proof.
  intros Hs Hok Hcap Hw Hb Hlen Hnew Hrun.
  destruct (new_inv _ _ _ _ _ _ _ Hs Hcap Hw Hnew) as (Hinv0 & Hc0 & Hr0 & _ & Hi0 & _).
  assert (rx_scheme self0 = scheme /\ length (rx_ring self0) = k) as [Hsch Hk] by by injection Hc0.
  destruct (recv_all_ind seed (fun _ => installed_near) ltac:(intros; by eapply installed_near_step)
    bufs 0 self0 out self) as (Hinv & Hc & Hnear); try done.
  - by rewrite Hsch.
  - rewrite Hr0. by intros h [=].
  - intros g. by rewrite Hi0.
  - assert (length (rx_ring self) = k) as Hk' by (injection Hc; congruence).
    pose proof (inv_ring _ _ Hinv) as [Hin Hout]. rewrite Hk' in *. split_and!.
    + apply (inv_ratchet _ _ Hinv).
    + intros i g ks Hg. destruct (Hout _ _ _ Hg) as (_ & ? & ? & _). done.
    + intros g Hg0 Hg. eapply list_elem_of_lookup_2, Hin; done.
    + intros g Hg. unfold installed_near in Hnear. rewrite Hk' in Hnear. by apply Hnear.
Qed.

(** ** Statistics *)

(** Every packet ends in exactly one of these counters. *)
Definition accounted (t : RecvStats) : Z :=
  decrypted t + drops_behind t + drops_seek_cap t + drops_replay t + drops_auth t.

Definition counters_ok (t : RecvStats) : Prop :=
  0 <= decrypted t /\ 0 <= drops_behind t /\ 0 <= drops_seek_cap t /\ 0 <= drops_replay t /\
  0 <= drops_auth t.

(** The accounting after [n] packets, ratchet work included: the largest
    catch-up stays under the cap, and the steps not wasted are the [w]
    generations the ratchet has passed. *)
Definition stats_ok (n w cap : Z) (t : RecvStats) : Prop :=
  counters_ok t /\ accounted t = n /\ max_catchup t <= cap /\
  u64 (catchup_steps t - catchup_steps_wasted t) = u64 w.

Lemma bump_drop_stats d n w cap t :
  n < 2 ^ 63 -> stats_ok n w cap t -> stats_ok (n + 1) w cap (bump_drop d t).
Proof.
  unfold stats_ok, counters_ok, accounted. intros Hn (H1 & H2 & H3 & H4).
  destruct d; cbn; rewrite u64_id by width; (split_and!; [lia..|done]).
Qed.

Lemma bump_decrypted_stats n w cap t :
  n < 2 ^ 63 -> stats_ok n w cap t -> stats_ok (n + 1) w cap (bump_decrypted t).
Proof.
  unfold stats_ok, counters_ok, accounted. intros Hn (H1 & H2 & H3 & H4).
  cbn. rewrite u64_id by width. split_and!; [lia..|done].
Qed.

Lemma add_catchup_stats j n w cap t :
  j <= cap -> stats_ok n w cap t -> stats_ok n (w + j) cap (add_catchup j t).
Proof.
  unfold stats_ok. intros Hj (H1 & H2 & H3 & H4). cbn. split_and!; [apply H1..|done|lia|].
  unfold u64 in *. rewrite Zminus_mod_idemp_l.
  replace (catchup_steps t + j - catchup_steps_wasted t) with (catchup_steps t - catchup_steps_wasted t + j) by lia.
  by rewrite <- Zplus_mod_idemp_l, H4, Zplus_mod_idemp_l.
Qed.

Lemma add_wasted_stats j n w cap t :
  stats_ok n (w + j) cap t -> stats_ok n w cap (add_wasted j t).
Proof.
  unfold stats_ok. intros (H1 & H2 & H3 & H4). cbn. split_and!; [apply H1..|done|done|].
  unfold u64 in *. rewrite Zminus_mod_idemp_r.
  replace (catchup_steps t - (catchup_steps_wasted t + j)) with (catchup_steps t - catchup_steps_wasted t - j) by lia.
  rewrite <- Zminus_mod_idemp_l, H4, Zminus_mod_idemp_l. f_equal. lia.
Qed.

Definition receiver_stats_ok (n : Z) self : Prop := stats_ok n (rx_top self + 1) (rx_seek_cap self) (rx_stats self).

(** The generations a placement asks the ratchet for. *)
Definition steps_of (p : Placement) : Z := match p with InWindow _ => 0 | Ahead j => j end.

Lemma fetch_key_stats self g p ks pend self1 n :
  steps_of p <= rx_seek_cap self -> receiver_stats_ok n self ->
  fetch_key self g p = Ret (ks, pend, self1) ->
  stats_ok n (rx_top self + 1 + steps_of p) (rx_seek_cap self) (rx_stats self1) /\
  match p with InWindow _ => pend = None | Ahead j => exists q, pend = Some q /\ pending_jump q = j end.
Proof.
  intros Hcap Hst. unfold fetch_key. destruct p as [ks'|j].
  - intros [= <- <- <-]. cbn [steps_of]. rewrite Z.add_0_r. split; [apply Hst|done].
  - intros H. apply bind_Ret in H as ([r d] & _ & H). apply bind_Ret in H as (b & _ & H).
    injection H as <- <- <-. cbn [set_stats rx_stats steps_of].
    split; [by apply add_catchup_stats|by eexists].
Qed.

Lemma install_stats self g ks self2 n w cap :
  stats_ok n w cap (rx_stats self) -> install self g ks = Ret self2 -> stats_ok n w cap (rx_stats self2).
Proof.
  intros Hst. unfold install. case_bool_decide; [by intros [= <-]|].
  destruct (split_key_salt ks) as [key salt].
  destruct (ss_rekey _ _ _ _) as [[?|?] s]; [|discriminate]. by intros [= <-].
Qed.

Lemma classify_steps seed self g p :
  rx_inv seed self -> 0 <= g < u64_max -> classify self g = Ret (Ok p) ->
  steps_of p <= rx_seek_cap self /\
  match p with InWindow _ => g <= rx_top self | Ahead j => j = g - rx_top self end.
Proof.
  intros Hinv Hg. rewrite (classify_spec seed) by done. pose proof (inv_cap _ _ Hinv).
  repeat case_match; try discriminate; intros [= <-]; bool_to_prop; try discriminate; cbn; lia.
Qed.

(** [finalize] books the packet and, when it failed, its catch-up as waste. *)
Lemma finalize_stats self g est p pend r res self' n :
  n < 2 ^ 63 ->
  stats_ok n (rx_top self + 1 + steps_of p) (rx_seek_cap self) (rx_stats self) ->
  match p with InWindow _ => pend = None | Ahead j => exists q, pend = Some q /\ pending_jump q = j end ->
  match p with InWindow _ => g <= rx_top self | Ahead j => j = g - rx_top self end ->
  finalize self g est pend r = Ret (res, self') -> receiver_stats_ok (n + 1) self'.
Proof.
  intros Hn Hst Hpend Hp Hfin. unfold finalize in Hfin. destruct r as [[]|e].
  - injection Hfin as <- <-. destruct p as [ks'|j]; cbn [steps_of] in Hst.
    + rewrite Hpend, Z.add_0_r in *. by destruct est; apply bump_decrypted_stats.
    + destruct Hpend as (q & -> & Hq). rewrite Hp in Hst.
      replace (rx_top self + 1 + (g - rx_top self)) with (g + 1) in Hst by lia.
      by destruct est; apply bump_decrypted_stats.
  - assert (receiver_stats_ok n
      match pend with Some q => set_stats self (add_wasted (pending_jump q)) | None => self end) as Hd.
    { destruct p as [ks'|j]; cbn [steps_of] in Hst.
      - subst pend. by rewrite Z.add_0_r in Hst.
      - destruct Hpend as (q & -> & Hq). apply add_wasted_stats. by rewrite Hq. }
    destruct e; try discriminate; injection Hfin as <- <-; by apply bump_drop_stats.
Qed.

Lemma receiver_stats_step seed n self buf res buf' self' :
  rx_inv seed self -> scheme_ok (rx_scheme self) -> IndexRecovery_ok (rx_recovery self) -> bytes_ok buf ->
  n < 2 ^ 63 -> receiver_stats_ok n self -> recv_unprotect self buf = Ret (res, buf', self') ->
  receiver_stats_ok (n + 1) self'.
Proof.
  intros Hinv Hs Hr Hb Hn Hst
    [(d & _ & ->)|(g & est & p & ks & pend & self1 & self2 & r & s' & Hm & Hc & Hf & Hi & _ & Hfin)]%unprotect_cases;
    [by apply bump_drop_stats|].
  destruct (map_generation_range (rx_scheme self) (rx_recovery self) (hdr_seq buf) (hdr_ts buf))
    as (m & Hm' & Hrange); [done|done|by apply hdr_seq_range|].
  rewrite Hm in Hm'. injection Hm' as <-. pose proof (Hrange _ _ eq_refl) as Hg.
  destruct (classify_steps seed self g p Hinv Hg Hc) as [Hcap Hp].
  destruct (fetch_key_stats self g p ks pend self1 n Hcap Hst Hf) as [Hst1 Hpend].
  pose proof (install_stats _ _ _ _ _ _ _ Hst1 Hi) as Hst2.
  apply fetch_key_frame in Hf as [f ->]. apply install_frame in Hi as (s & o & f' & ->).
  by eapply finalize_stats in Hfin.
Qed.

(** C27: After any sequence of datagrams the receiver's counters add up: each
    datagram is in exactly one of the decrypted and drop counters, no
    catch-up exceeded the seek cap, and the ratchet steps not counted as
    wasted are the generations the ratchet has advanced. *)
Theorem receiver_accounting scheme ssrc seed k cap window bufs self0 self out :
  length seed = CHAIN_SECRET_LEN -> scheme_ok scheme -> 0 <= cap -> window = 0 \/ 64 <= window < 0x8000 ->
  Forall bytes_ok bufs -> Z.of_nat (length bufs) < 2 ^ 47 ->
  ReceiverKeyManager_new scheme ssrc (ratchet_at seed 0) k cap window = Ret self0 ->
  recv_all self0 bufs = Ret (out, self) ->
  let t := rx_stats self in
  decrypted t + drops_behind t + drops_seek_cap t + drops_replay t + drops_auth t = Z.of_nat (length bufs) /\
  max_catchup t <= cap /\
  u64 (catchup_steps t - catchup_steps_wasted t) = u64 (generation (rx_ratchet self)).
Proof.
  intros Hs Hok Hcap Hw Hb Hlen Hnew Hrun.
  destruct (new_inv _ _ _ _ _ _ _ Hs Hcap Hw Hnew) as (Hinv0 & Hc0 & Hr0 & Hf0 & _ & Hst0).
  assert (rx_scheme self0 = scheme /\ rx_seek_cap self0 = cap) as [Hsch Hcp] by by injection Hc0.
  destruct (recv_all_ind seed (fun n self => n < 2 ^ 47 -> receiver_stats_ok n self)
    ltac:(intros ??????????? Hrecv Hn; eapply (receiver_stats_step seed _ _ _ _ _ _ ltac:(done)); eauto with lia)
    bufs 0 self0 out self) as (Hinv & Hc & Hst); try done.
  - by rewrite Hsch.
  - rewrite Hr0. by intros h [=].
  - intros _. unfold receiver_stats_ok, rx_top. rewrite Hst0, Hf0, Hcp. split_and!; cbn; done || lia.
  - destruct (Hst Hlen) as (_ & Hacc & Hmax & Hsteps).
    rewrite (inv_ratchet _ _ Hinv). injection Hc as _ _ _ Hcap'. split_and!; [done|congruence|done].
Qed.

(** ** Panics *)

Definition expected_error (e : Error) : bool :=
  match e with REPLAY_FAIL | REPLAY_OLD | AUTH_FAIL => true | _ => false end.

(** The refinement carries panics too. *)
Lemma panic_spec seed self buf :
  rx_inv seed self -> scheme_ok (rx_scheme self) -> IndexRecovery_ok (rx_recovery self) -> bytes_ok buf ->
  recv_unprotect self buf = Panic <-> spec_unprotect (config seed self) (view self) buf = Panic.
Proof.
  intros Hinv Hs Hr Hb. destruct (unprotect_spec seed self buf Hinv Hs Hr (hdr_seq_range _ Hb)) as [Hsim _].
  rewrite <- Hsim. by destruct (recv_unprotect self buf).
Qed.

(** C28: ReceiverKeyManager::unprotect panics exactly when libsrtp answers an
    in-window packet with an error other than a replay or an authentication
    failure; in particular the unreachable! on a missing ring slot, the
    expect on the derived keys and the rekeying never fire. *)
Theorem receiver_panics_iff seed self buf :
  rx_inv seed self -> scheme_ok (rx_scheme self) -> IndexRecovery_ok (rx_recovery self) -> bytes_ok buf ->
  recv_unprotect self buf = Panic <->
  exists g est s e buf' s',
    (RTP_HEADER_LEN <= length buf)%nat /\
    map_generation (rx_scheme self) (rx_recovery self) (hdr_seq buf) (hdr_ts buf) = Ret (Some (g, est)) /\
    rx_top self - Z.of_nat (length (rx_ring self)) < g <= rx_top self + rx_seek_cap self /\
    spec_install (config seed self) (view self) g = Ret s /\
    ss_unprotect s buf = (Err e, buf', s') /\ expected_error e = false.
Proof.
  intros Hinv Hs Hr Hb. rewrite (panic_spec seed) by done. unfold spec_unprotect.
  destruct (map_generation_range (rx_scheme self) (rx_recovery self) (hdr_seq buf) (hdr_ts buf))
    as (m & Hm & _); [done|done|by apply hdr_seq_range|].
  cbn [config c_scheme c_k c_cap view v_recovery v_top]. rewrite Hm. cbn [mbind outcome_bind].
  split.
  - case_bool_decide as Hlen; [discriminate|]. destruct m as [[g est]|]; [|discriminate].
    destruct (Z.leb_spec g (rx_top self - Z.of_nat (length (rx_ring self)))); [discriminate|].
    destruct (Z.ltb_spec (rx_seek_cap self) (g - rx_top self)); [discriminate|].
    fold (view self). fold (config seed self). intros Hopen. unfold spec_open in Hopen.
    destruct (install_spec seed self g Hinv) as (s & st & Hsp & _ & _).
    rewrite Hsp in Hopen. cbn [mbind outcome_bind] in Hopen.
    destruct (ss_unprotect s buf) as [[[[]|e] b] s'] eqn:Hu; [discriminate|].
    exists g, est, s, e, b, s'. split_and!; try done; [lia..|]. by destruct e.
  - intros (g & est & s & e & b & s' & Hlen & [= ->] & Hg & Hsp & Hu & He).
    rewrite bool_decide_eq_false_2 by lia.
    destruct (Z.leb_spec g (rx_top self - Z.of_nat (length (rx_ring self)))); [lia|].
    destruct (Z.ltb_spec (rx_seek_cap self) (g - rx_top self)); [lia|].
    fold (view self). fold (config seed self). unfold spec_open. rewrite Hsp. cbn [mbind outcome_bind].
    rewrite Hu. by destruct e.
Qed.

End Props.

(** ** The panic on a truncated datagram, with libsrtp below *)

Section Libsrtp.
Context {CR : Crypto} {CL : CryptoLaws}.

Lemma short_unprotect_error s st buf est delta :
  fixed_header buf -> (length buf < octets_in_rtp_header + TAG_LEN)%nat ->
  stream_list_get (stream_list s) (hdr_ssrc buf) = Some st ->
  rdbx_estimate_index (st_rdbx st) (hdr_seq buf) = (est, delta) -> rdbx_check (st_rdbx st) delta = None ->
  exists e s', unprotect s buf = (Err e, [], s') /\ expected_error e = false.
Proof.
  intros Hf Hlen Hget Hest Hchk. destruct (fixed_header_parse buf Hf) as [Hv He].
  destruct Hf as [Hl _]. unfold octets_in_rtp_header, TAG_LEN in *.
  unfold unprotect, overwrite, srtp_unprotect, c_int_max. rewrite Hv, Hget, Hest, Hchk.
  destruct (Z.ltb_spec 2147483647 (Z.of_nat (length buf))); [lia|].
  unfold srtp_unprotect_aead, TAG_LEN. rewrite He.
  destruct (Z.leb_spec (Z.of_nat 12) (u32 (Z.of_nat (length buf) - Z.of_nat 16))); [|by eexists _, _].
  rewrite (u32_id (Z.of_nat (length buf) - Z.of_nat 12)) by width.
  destruct (Z.ltb_spec (Z.of_nat (length buf) - Z.of_nat 12) (Z.of_nat 16)); [|lia].
  by eexists _, _.
Qed.

(** The stream a loaded session looks a packet up in. *)
Lemma spec_install_stream (c : Config) (v : View Session) g s st :
  stream_list_get (stream_list (v_session v)) (c_ssrc c) = Some st ->
  spec_install c v g = Ret s ->
  exists st', stream_list_get (stream_list s) (c_ssrc c) = Some st' /\ st_rdbx st' = st_rdbx st /\
    st_limit st' = st_limit st /\ st_ssrc st' = st_ssrc st.
Proof.
  intros Hget. unfold spec_install. case_bool_decide; [intros [= <-]; eauto|].
  destruct (split_key_salt _) as [key salt]. cbn [ss_rekey libsrtp_ops]. unfold inplace_rekey.
  case_bool_decide; [discriminate|]. rewrite Hget. intros [= <-].
  exists (set_key st key salt). split; [|done]. cbn [stream_list]. rewrite get_put.
  change (st_ssrc (set_key st key salt)) with (st_ssrc st).
  by rewrite (get_ssrc _ _ _ Hget), Z.eqb_refl, Hget.
Qed.

(** C29: A datagram of 12 to 27 bytes with a plain 12-byte header for the
    receiver's stream, whose sequence number is new to the replay database
    and whose generation is inside the key window and the seek cap, makes
    ReceiverKeyManager::unprotect panic instead of counting a drop; no key
    is needed to send one. *)
Theorem truncated_datagram_panics seed (self : ReceiverKeyManager Session) st buf g est i delta :
  rx_inv seed self -> scheme_ok (rx_scheme self) -> IndexRecovery_ok (rx_recovery self) -> bytes_ok buf ->
  fixed_header buf -> (length buf < octets_in_rtp_header + TAG_LEN)%nat ->
  hdr_ssrc buf = rx_ssrc self ->
  stream_list_get (stream_list (rx_session self)) (rx_ssrc self) = Some st ->
  rdbx_estimate_index (st_rdbx st) (hdr_seq buf) = (i, delta) -> rdbx_check (st_rdbx st) delta = None ->
  map_generation (rx_scheme self) (rx_recovery self) (hdr_seq buf) (hdr_ts buf) = Ret (Some (g, est)) ->
  rx_top self - Z.of_nat (length (rx_ring self)) < g <= rx_top self + rx_seek_cap self ->
  recv_unprotect self buf = Panic.
Proof.
  intros Hinv Hs Hr Hb Hf Hlen Hss Hget Hest Hchk Hm Hg. rewrite (panic_spec seed) by done.
  unfold spec_unprotect. rewrite bool_decide_eq_false_2 by (destruct Hf; unfold octets_in_rtp_header, RTP_HEADER_LEN in *; lia).
  change (c_scheme (config seed self)) with (rx_scheme self).
  change (v_recovery (view self)) with (rx_recovery self). rewrite Hm. cbn [mbind outcome_bind].
  change (v_top (view self)) with (rx_top self). change (c_k (config seed self)) with (length (rx_ring self)).
  change (c_cap (config seed self)) with (rx_seek_cap self).
  destruct (Z.leb_spec g (rx_top self - Z.of_nat (length (rx_ring self)))); [lia|].
  destruct (Z.ltb_spec (rx_seek_cap self) (g - rx_top self)); [lia|].
  unfold spec_open. destruct (install_spec seed self g Hinv) as (s & t & Hsp & _ & _).
  rewrite Hsp. cbn [mbind outcome_bind ss_unprotect libsrtp_ops].
  destruct (spec_install_stream (config seed self) (view self) g s st Hget Hsp) as (st' & Hget' & Hrd & _).
  cbn [config c_ssrc] in Hget'. rewrite <- Hss in Hget'. rewrite <- Hrd in Hest, Hchk.
  destruct (short_unprotect_error s st' buf i delta) as (e & s' & -> & He); [done..|].
  by destruct e.
Qed.

End Libsrtp.

(** ** Concrete instances *)

Import Toy.

Module RxExample.

Definition seed : bytes := replicate 32 1.

(** A packet-level receiver of window 4 and cap 8, and three datagrams no
    sender protected: a forgery of packet 5, a jump beyond the cap, and a
    datagram cut off inside the authentication tag. *)
Definition fresh : outcome (ReceiverKeyManager Session) :=
  ReceiverKeyManager_new (SchemePacket 0) 7 (ratchet_at seed 0) 4 8 64.
Definition header (seq : Z) : bytes := to_bytes (mkRtpPacket 96 seq 0 7 []).
Definition forgery : bytes := header 5 ++ replicate 20 0.
Definition far : bytes := header 9 ++ replicate 20 0.
Definition truncated : bytes := header 5 ++ replicate 3 0.

Definition rx0 : ReceiverKeyManager Session :=
  match fresh with
  | Ret self => self
  | Panic => mkReceiver (mkSession []) 0 SchemeEpochOnly IndexRecovery_default (ratchet_at seed 0) [] None None 0
               RecvStats_default
  end.

Definition step (self : ReceiverKeyManager Session) (buf : bytes) :
    result Z RecvDrop * bytes * ReceiverKeyManager Session :=
  match recv_unprotect self buf with Ret x => x | Panic => (Err AuthFail, [], self) end.

Definition rx1 : ReceiverKeyManager Session := (step rx0 forgery).2.
Definition rx2 : ReceiverKeyManager Session := (step rx1 far).2.

Lemma fresh_rx0 : fresh = Ret rx0.
Proof. vm_compute. reflexivity. Qed.

Lemma rx0_inv : rx_inv seed rx0.
Proof.
  destruct (new_inv (SchemePacket 0) 7 seed 4 8 64 rx0) as [H _];
    [reflexivity|lia|lia|exact fresh_rx0|exact H].
Qed.

Lemma rx0_recovery : IndexRecovery_ok (rx_recovery rx0).
Proof. assert (rx_recovery rx0 = IndexRecovery_default) as -> by (vm_compute; reflexivity). by intros h [=]. Qed.

Lemma rx0_scheme : scheme_ok (rx_scheme rx0).
Proof. assert (rx_scheme rx0 = SchemePacket 0) as -> by (vm_compute; reflexivity). cbn. lia. Qed.

Lemma bytes_ok_all : Forall bytes_ok [forgery; far] /\ bytes_ok truncated.
Proof. split; repeat constructor; done. Qed.

Lemma run2 : exists out, recv_all rx0 [forgery; far] = Ret (out, rx2).
Proof. eexists [((step rx0 forgery).1.1, _); ((step rx1 far).1.1, _)]. vm_compute. reflexivity. Qed.

End RxExample.

Lemma unauthenticated_rollback_witness :
  (RxExample.step RxExample.rx0 RxExample.forgery).1.1 = Err AuthFail /\
  rx_stats RxExample.rx1 = mkRecvStats 0 0 6 6 6 1 0 0 0 1 /\
  key_state RxExample.rx1 = key_state RxExample.rx0.
Proof.
  split; [vm_compute; reflexivity|]. split; [vm_compute; reflexivity|].
  apply (unauthenticated_rollback RxExample.rx0 RxExample.forgery AuthFail []). vm_compute. reflexivity.
Defined.

Lemma receiver_refines_witness :
  rx_inv RxExample.seed RxExample.rx0 /\
  (observe <$> recv_unprotect RxExample.rx0 RxExample.forgery) =
    spec_unprotect (config RxExample.seed RxExample.rx0) (view RxExample.rx0) RxExample.forgery /\
  forall res buf' self', recv_unprotect RxExample.rx0 RxExample.forgery = Ret (res, buf', self') ->
    rx_inv RxExample.seed self'.
Proof.
  split; [exact RxExample.rx0_inv|].
  apply (receiver_refines RxExample.seed RxExample.rx0 RxExample.forgery).
  - exact RxExample.rx0_inv.
  - exact RxExample.rx0_scheme.
  - exact RxExample.rx0_recovery.
  - apply (Forall_inv (proj1 RxExample.bytes_ok_all)).
Defined.

Lemma receiver_forward_secrecy_witness :
  rx_ratchet RxExample.rx2 = ratchet_at RxExample.seed (rx_top RxExample.rx2 + 1) /\
  (forall i g ks, rx_ring RxExample.rx2 !! i = Some (Some (g, ks)) ->
     rx_top RxExample.rx2 - 4 < g <= rx_top RxExample.rx2 /\ ks = gen_key RxExample.seed g) /\
  (forall g, 0 <= g -> rx_top RxExample.rx2 - 4 < g <= rx_top RxExample.rx2 ->
     Some (g, gen_key RxExample.seed g) ∈ rx_ring RxExample.rx2) /\
  (forall g, rx_installed RxExample.rx2 = Some g -> rx_top RxExample.rx2 - 4 < g).
Proof.
  destruct RxExample.run2 as [out Hrun].
  apply (receiver_forward_secrecy (SchemePacket 0) 7 RxExample.seed 4 8 64 [RxExample.forgery; RxExample.far]
    RxExample.rx0 RxExample.rx2 out);
    [reflexivity|cbn; lia|lia|lia|exact (proj1 RxExample.bytes_ok_all)|cbn; lia|exact RxExample.fresh_rx0|exact Hrun].
Defined.

Lemma receiver_accounting_witness :
  let t := rx_stats RxExample.rx2 in
  decrypted t + drops_behind t + drops_seek_cap t + drops_replay t + drops_auth t = 2 /\
  max_catchup t <= 8 /\
  u64 (catchup_steps t - catchup_steps_wasted t) = u64 (generation (rx_ratchet RxExample.rx2)).
Proof.
  destruct RxExample.run2 as [out Hrun].
  apply (receiver_accounting (SchemePacket 0) 7 RxExample.seed 4 8 64 [RxExample.forgery; RxExample.far]
    RxExample.rx0 RxExample.rx2 out);
    [reflexivity|cbn; lia|lia|lia|exact (proj1 RxExample.bytes_ok_all)|cbn; lia|exact RxExample.fresh_rx0|exact Hrun].
Defined.

Lemma receiver_panics_iff_witness :
  recv_unprotect RxExample.rx0 RxExample.truncated = Panic /\
  exists g est s e buf' s',
    (RTP_HEADER_LEN <= length RxExample.truncated)%nat /\
    map_generation (rx_scheme RxExample.rx0) (rx_recovery RxExample.rx0) (hdr_seq RxExample.truncated)
      (hdr_ts RxExample.truncated) = Ret (Some (g, est)) /\
    rx_top RxExample.rx0 - Z.of_nat (length (rx_ring RxExample.rx0)) < g <=
      rx_top RxExample.rx0 + rx_seek_cap RxExample.rx0 /\
    spec_install (config RxExample.seed RxExample.rx0) (view RxExample.rx0) g = Ret s /\
    ss_unprotect s RxExample.truncated = (Err e, buf', s') /\ expected_error e = false.
Proof.
  assert (recv_unprotect RxExample.rx0 RxExample.truncated = Panic) as Hp by (vm_compute; reflexivity).
  split; [exact Hp|].
  apply (receiver_panics_iff RxExample.seed RxExample.rx0 RxExample.truncated).
  - exact RxExample.rx0_inv.
  - exact RxExample.rx0_scheme.
  - exact RxExample.rx0_recovery.
  - exact (proj2 RxExample.bytes_ok_all).
  - exact Hp.
Defined.

Lemma truncated_datagram_panics_witness :
  length RxExample.truncated = 15%nat /\ recv_unprotect RxExample.rx0 RxExample.truncated = Panic.
Proof.
  split; [reflexivity|].
  eapply (truncated_datagram_panics RxExample.seed RxExample.rx0 _ RxExample.truncated 5 (Some 5) 5 5).
  - exact RxExample.rx0_inv.
  - exact RxExample.rx0_scheme.
  - exact RxExample.rx0_recovery.
  - exact (proj2 RxExample.bytes_ok_all).
  - split; [vm_compute; lia|reflexivity].
  - vm_compute. lia.
  - vm_compute. reflexivity.
  - vm_compute. reflexivity.
  - vm_compute. reflexivity.
  - vm_compute. reflexivity.
  - vm_compute. reflexivity.
  - vm_compute. split; congruence.
Defined.
