(* ===== verification/EndToEnd.v ===== *)
(** * EndToEnd: the rekeying sender against the windowed receiver

    Both ends run over the libsrtp model: a [RekeyingStream] protects a
    stream of RTP packets, the network delivers some of them in some order,
    and a [ReceiverKeyManager] for the same seed receives them.  [wire] is the
    packet as it travels; the sender lemma shows that this is what [protect]
    writes, the receiver lemma that it is what [unprotect] opens. *)

From S2P Require Import Prelude Bytes Crypto Rtp IndexRecovery Mls Ratchet Rdbx Kdf Session Generation Granularity.
From S2P Require Import Receiver ReceiverWindow ReceiverSpec ReceiverProps.

(** The [i]-th packet of a stream whose first sequence number is [s0]. *)
Definition genuine (ssrc s0 : Z) (i : nat) (buf : bytes) : Prop :=
  fixed_header buf /\ hdr_ssrc buf = ssrc /\ hdr_seq buf = u16 (s0 + Z.of_nat i) /\
  Z.of_nat (length buf) + 16 <= c_int_max /\ bytes_ok buf.

(** The generation of the [i]-th packet, from the stream's timestamps. *)
Definition gen_of (granularity : Granularity) (tss : list Z) (i : nat) : Z :=
  stream_generation granularity (take (S i) tss).

Section Wire.
Context {CR : Crypto}.

Definition wire (seed : bytes) (g e : Z) (buf : bytes) : bytes :=
  let '(key, salt) := split_key_salt (gen_key seed g) in seal_packet key salt e buf.

(** What the sender emits for the whole stream. *)
Definition wires (granularity : Granularity) (seed : bytes) (s0 : Z) (tss : list Z) (bufs : list bytes) :
    list bytes :=
  imap (fun i buf => wire seed (gen_of granularity tss i) (s0 + Z.of_nat i) buf) bufs.

End Wire.

Section Sender.
Context {CR : Crypto} {CL : CryptoLaws}.

(** Rekeying keeps a stream's replay database and key-use budget. *)
Lemma rekey_stream s ssrc key salt s' st :
  inplace_rekey s ssrc key salt = (Ok tt, s') -> stream_list_get (stream_list s) ssrc = Some st ->
  stream_list_get (stream_list s') ssrc = Some (set_key st key salt).
Proof.
  unfold inplace_rekey. intros H Hget. case_bool_decide; [discriminate|]. rewrite Hget in H.
  injection H as <-. cbn [stream_list]. rewrite get_put.
  change (st_ssrc (set_key st key salt)) with (st_ssrc st).
  by rewrite (get_ssrc _ _ _ Hget), Z.eqb_refl, Hget.
Qed.

Lemma install_next_stream (self self' : RekeyingStream Session) st :
  install_next_generation self = Ret self' ->
  stream_list_get (stream_list (rk_session self)) (rk_ssrc self) = Some st ->
  rk_ssrc self' = rk_ssrc self /\
  exists st', stream_list_get (stream_list (rk_session self')) (rk_ssrc self) = Some st' /\
    st_rdbx st' = st_rdbx st /\ st_limit st' = st_limit st.
Proof.
  intros H Hget. apply bind_Ret in H as ([[g ks] r] & _ & H). destruct (split_key_salt ks) as [key salt].
  destruct (ss_rekey _ _ key salt) as [[[]|?] s] eqn:Hre; [|discriminate]. injection H as <-.
  split; [done|]. exists (set_key st key salt). split; [by eapply rekey_stream|done].
Qed.

Lemma advance_stream (self self' : RekeyingStream Session) ts st :
  advance_for self ts = Ret self' ->
  stream_list_get (stream_list (rk_session self)) (rk_ssrc self) = Some st ->
  rk_ssrc self' = rk_ssrc self /\
  exists st', stream_list_get (stream_list (rk_session self')) (rk_ssrc self) = Some st' /\
    st_rdbx st' = st_rdbx st /\ st_limit st' = st_limit st.
Proof.
  intros H Hget. apply bind_Ret in H as (b & _ & H). apply bind_Ret in H as (self1 & H1 & H).
  injection H as <-. cbn [rk_session rk_ssrc]. destruct b; [by eapply install_next_stream|].
  injection H1 as <-. eauto.
Qed.

(** The sender's libsrtp stream after [n] packets. *)
Definition sent (ssrc s0 : Z) (n : nat) (s : Session) : Prop :=
  exists st, stream_list_get (stream_list s) ssrc = Some st /\ st_limit st = KEY_LIMIT_INIT - Z.of_nat n /\
    match n with
    | O => st_rdbx st = mkRdbx 0 WINDOW_SIZE 0
    | S _ => rdbx_index (st_rdbx st) = s0 + Z.of_nat n - 1
    end.

Lemma new_sent granularity ssrc s0 ratchet (self : RekeyingStream Session) :
  RekeyingStream_new granularity ssrc ratchet = Ret self ->
  rk_ssrc self = ssrc /\ sent ssrc s0 0 (rk_session self).
Proof.
  unfold RekeyingStream_new. cbn [ss_add_stream libsrtp_ops].
  unfold add_stream, stream_init, rdbx_init, WINDOW_SIZE. cbn [policy_key policy_window_size policy_allow_repeat_tx].
  rewrite sys_policy_gcm by (vm_compute; lia). cbn [negb andb orb Z.eqb Z.ltb Z.leb Z.compare].
  destruct (gcm_keys_some throwaway) as [[ks ks'] ->].
  cbn -[install_next_generation throwaway]. intros H.
  eapply install_next_stream in H as (Hss & st & Hget & Hr & Hl); [|cbn; by rewrite Z.eqb_refl].
  split; [done|]. exists st. split; [done|]. by rewrite Hl, Hr.
Qed.

(** The next packet's index: fresh, and one past the last. *)
Lemma sent_estimate ssrc s0 n s st seq :
  0 <= s0 < 65536 -> Z.of_nat n < 2 ^ 47 -> seq = u16 (s0 + Z.of_nat n) ->
  stream_list_get (stream_list s) ssrc = Some st ->
  match n with
  | O => st_rdbx st = mkRdbx 0 WINDOW_SIZE 0
  | S _ => rdbx_index (st_rdbx st) = s0 + Z.of_nat n - 1
  end ->
  exists delta, rdbx_estimate_index (st_rdbx st) seq = (s0 + Z.of_nat n, delta) /\
    rdbx_check (st_rdbx st) delta = None /\
    rdbx_index (rdbx_add_index (st_rdbx st) delta) = s0 + Z.of_nat n.
Proof.
  intros Hs0 Hn -> _ Hst. destruct n as [|n].
  - rewrite Hst. cbn [Z.of_nat]. rewrite Z.add_0_r, u16_id by width. exists s0.
    unfold rdbx_estimate_index, seq_num_median, rdbx_check, rdbx_add_index. cbn [rdbx_index rdbx_length rdbx_bitmask].
    replace (u16 0) with 0 by done. split; [cbn; by rewrite Z.sub_0_r|].
    destruct (Z.ltb_spec 0 s0).
    + split; [done|]. cbn [rdbx_index]. unfold u16. rewrite Z.mod_small by lia. by rewrite u64_id by width.
    + replace s0 with 0 by lia. done.
  - exists 1. rewrite estimate_recover by (unfold u16; width).
    rewrite Hst, recover_exact by (unfold u64_max; lia). split; [f_equal; lia|]. split; [done|].
    unfold rdbx_add_index. change (0 <? 1) with true. change (u16 1) with 1. cbn [rdbx_index].
    rewrite Hst, u64_id by width. lia.
Qed.

(** One packet through the sender: the wire packet of its generation. *)
Lemma protect_wire seed (self1 self : RekeyingStream Session) s0 n buf r b :
  0 <= s0 < 65536 -> Z.of_nat n < 2 ^ 47 -> genuine (rk_ssrc self1) s0 n buf ->
  sent (rk_ssrc self1) s0 n (rk_session self1) -> rk_protect self1 buf = Ret (r, b, self) ->
  keyed seed self ->
  r = Ok tt /\ b = wire seed (rk_installed_gen self) (s0 + Z.of_nat n) buf /\
  rk_ssrc self = rk_ssrc self1 /\ sent (rk_ssrc self1) s0 (S n) (rk_session self).
Proof.
  intros Hs0 Hn (Hf & Hss & Hseq & Hlen & _) (st1 & Hget1 & Hlim1 & Hrd1) Hp (_ & _ & Hkey).
  apply bind_Ret in Hp as (ts & _ & Hp). apply bind_Ret in Hp as (self2 & Hadv & Hp).
  destruct (advance_stream _ _ _ _ Hadv Hget1) as (Hss2 & st & Hget & Hrd & Hlim).
  destruct (ss_protect (rk_session self2) buf) as [[r' b'] s'] eqn:Hpr. injection Hp as <- <- <-.
  assert (limit_fresh st) as Hfresh by (unfold limit_fresh, KEY_LIMIT_INIT in *; lia).
  rewrite <- Hrd in Hrd1.
  destruct (sent_estimate (rk_ssrc self1) s0 n _ st _ Hs0 Hn Hseq Hget Hrd1) as (delta & Hest & Hchk & Hadd).
  rewrite <- Hss in Hget.
  destruct (protect_genuine (rk_session self2) st buf _ delta Hf ltac:(lia) Hget Hfresh Hest Hchk)
    as (st' & s'' & Hprot & Hs'' & Hsame & Hrd' & Hlim').
  cbn [ss_protect libsrtp_ops] in Hpr. rewrite Hprot in Hpr. injection Hpr as <- <- <-.
  pose proof (get_after_put _ _ _ _ Hget Hsame) as Hget'.
  cbn [with_session rk_session rk_ssrc rk_installed_gen ss_key libsrtp_ops] in Hkey |- *.
  rewrite Hs'' in Hkey |- *. cbn [stream_list] in Hkey. rewrite Hss2, <- Hss, Hget' in Hkey.
  cbn [fmap option_fmap option_map] in Hkey. destruct Hsame as (_ & Hk & Ha).
  split; [done|]. split; [|split; [done|]].
  - unfold wire. apply (inj Some) in Hkey. rewrite <- Hkey. by rewrite Hk, Ha.
  - exists st'. cbn [stream_list]. rewrite <- Hss. split; [done|]. split; [lia|]. rewrite Hrd', Hadd. lia.
Qed.

Lemma wires_snoc granularity seed s0 tss t bufs buf :
  length tss = length bufs ->
  wires granularity seed s0 (tss ++ [t]) (bufs ++ [buf]) =
  wires granularity seed s0 tss bufs ++
    [wire seed (stream_generation granularity (tss ++ [t])) (s0 + Z.of_nat (length bufs)) buf].
Proof.
  intros Hlen. unfold wires. rewrite imap_app. f_equal.
  - apply imap_ext. intros i x Hi%lookup_lt_Some. unfold gen_of. by rewrite take_app_le by lia.
  - cbn [imap compose]. unfold compose, gen_of. rewrite Nat.add_0_r, (take_ge (tss ++ [t])); [done|].
    rewrite length_app. cbn. lia.
Qed.

(** The whole stream through the sender. *)
Lemma sender_wires granularity ssrc seed s0 self0 bufs tss :
  length seed = CHAIN_SECRET_LEN -> granularity_ok granularity -> 0 <= s0 < 65536 ->
  RekeyingStream_new granularity ssrc (ratchet_at seed 0) = Ret self0 ->
  Forall2 (fun buf ts => packet_timestamp buf = Ret ts) bufs tss ->
  (forall i buf, bufs !! i = Some buf -> genuine ssrc s0 i buf) -> Z.of_nat (length bufs) < 2 ^ 47 ->
  exists self,
    protect_all self0 bufs = Ret ((fun b => (Ok tt, b)) <$> wires granularity seed s0 tss bufs, self) /\
    rk_ssrc self = ssrc /\ sent ssrc s0 (length bufs) (rk_session self).
Proof.
  intros Hs Hok Hs0 Hnew. revert tss.
  induction bufs as [|buf bufs IH] using rev_ind; intros tss Hts Hgen Hmax.
  - exists self0. split; [done|]. by eapply new_sent.
  - apply Forall2_app_inv_l in Hts as (tss0 & l2 & Hts & (t & [] & Ht & Hnil%Forall2_nil_inv_l & ->)%Forall2_cons_inv_l & ->); [|done].
    rewrite length_app in Hmax. cbn in Hmax. pose proof (Forall2_length _ _ _ Hts) as Hlen.
    destruct (IH tss0 Hts) as (self1 & Hrun1 & Hss1 & Hsent1); [|lia|].
    { intros i b Hi. apply Hgen. rewrite lookup_app_l; [done|]. by eapply lookup_lt_Some. }
    destruct (protect_all_after seed granularity ssrc self0 bufs tss0 buf t)
      as (out & self & Hrun & Hkey & (_ & _ & _ & _ & Hg)); [done..|unfold u64_max; lia|].
    rewrite protect_all_snoc, Hrun1 in Hrun |- *. cbn [mbind outcome_bind] in Hrun |- *.
    destruct (rk_protect self1 buf) as [[[r b] self2]|] eqn:Hp; [|discriminate].
    cbn [mbind outcome_bind] in Hrun |- *. injection Hrun as <- ->.
    assert (genuine (rk_ssrc self1) s0 (length bufs) buf) as Hgb.
    { rewrite Hss1. apply Hgen. rewrite lookup_app_r, Nat.sub_diag by lia. done. }
    rewrite <- Hss1 in Hsent1.
    destruct (protect_wire seed self1 self s0 (length bufs) buf r b Hs0 ltac:(lia) Hgb Hsent1 Hp Hkey)
      as (-> & -> & Hss2 & Hsent2).
    exists self. rewrite wires_snoc, fmap_app, Hg, length_app, Nat.add_1_r by done.
    rewrite <- Hss1 at 2. by rewrite Hss2.
Qed.

End Sender.

(** ** Generations on both sides *)

(** A frame clock: consecutive packets belong to the same frame or to the
    next one. *)
Fixpoint frame_run (f : Z) (l : list Z) : Prop :=
  match l with
  | [] => True
  | f' :: l => (f' = f \/ f' = f + 1) /\ frame_run f' l
  end.

(** Timestamps of such a stream, within one turn of the 32-bit clock. *)
Definition frame_clock (start period : Z) (tss : list Z) : Prop :=
  0 < period /\ exists frames,
    tss = (fun f => u32 (start + f * period)) <$> (0 :: frames) /\ frame_run 0 frames /\
    Forall (fun f => (f + 1) * period <= 2 ^ 32) (0 :: frames).

Definition clocked (granularity : Granularity) (start period : Z) (tss : list Z) : Prop :=
  match granularity with Frame => frame_clock start period tss | _ => True end.

Lemma frame_changes start period f l i :
  0 < period -> 0 <= f -> frame_run f l -> Forall (fun f => (f + 1) * period <= 2 ^ 32) (f :: l) ->
  (i <= length l)%nat ->
  exists fi, (f :: l) !! i = Some fi /\ 0 <= fi /\ (fi + 1) * period <= 2 ^ 32 /\
    changes (take (S i) ((fun f => u32 (start + f * period)) <$> (f :: l))) = fi - f.
Proof.
  intros Hp. revert f i. induction l as [|f' l IH]; intros f i Hf Hrun Hall Hi.
  - cbn in Hi. assert (i = 0%nat) as -> by lia. apply Forall_cons in Hall as [Hb _].
    exists f. cbn. split_and!; done || lia.
  - apply Forall_cons in Hall as [Hb Hall]. destruct Hrun as [Hstep Hrun].
    destruct i as [|i]; [exists f; cbn; split_and!; done || lia|].
    destruct (IH f' i) as (fi & Hfi & Hfi0 & Hfib & Hch); [lia|done|done|cbn in Hi; lia|].
    exists fi. split; [done|]. split; [done|]. split; [done|].
    rewrite fmap_cons in Hch |- *. cbn [fmap list_fmap] in Hch |- *.
    change (take (S (S i)) (u32 (start + f * period) :: u32 (start + f' * period) :: ?x))
      with (u32 (start + f * period) :: take (S i) (u32 (start + f' * period) :: x)) in *.
    rewrite !firstn_cons in *.
    match goal with |- changes (?a :: ?b :: ?x) = _ =>
      change (changes (a :: b :: x)) with ((if a =? b then 0 else 1) + changes (b :: x)) end.
    rewrite Hch. pose proof (Forall_inv Hall) as Hb'.
    destruct (Z.eqb_spec (u32 (start + f * period)) (u32 (start + f' * period))) as [E|E];
      destruct Hstep as [->| ->]; try lia.
    exfalso. assert (period <= 2 ^ 32) by nia. unfold u32 in E. nia.
Qed.

(** The scheme maps each packet to the generation the sender used. *)
Lemma packet_timestamp_hdr buf t : packet_timestamp buf = Ret t -> hdr_ts buf = t.
Proof.
  unfold packet_timestamp, hdr_ts, index, byte_at. intros H.
  destruct (buf !! 4%nat), (buf !! 5%nat), (buf !! 6%nat), (buf !! 7%nat); try discriminate.
  by injection H as <-.
Qed.

(** The recovered index of a packet, for the schemes that recover one. *)
Definition est_index (granularity : Granularity) (e : Z) : option Z :=
  match granularity with Packet | EveryN _ => Some e | _ => None end.

Lemma gen_agrees granularity start period s0 tss i t r seq :
  granularity_ok granularity -> clocked granularity start period tss -> 0 <= s0 ->
  tss !! i = Some t -> (is_Some (est_index granularity 0) -> recover r seq = s0 + Z.of_nat i) ->
  map_generation (for_granularity granularity start period s0) r seq t =
    Ret (Some (gen_of granularity tss i, est_index granularity (s0 + Z.of_nat i))).
Proof.
  intros Hok Hclk Hs0 Ht Hrec. pose proof (lookup_lt_Some _ _ _ Ht) as Hi.
  assert (length (take (S i) tss) = S i) as Hlen by (rewrite length_take; lia).
  unfold gen_of. destruct granularity as [| | |n]; cbn [for_granularity map_generation stream_generation est_index] in *.
  - done.
  - destruct Hclk as (Hp & frames & -> & Hrun & Hall). unfold checked_sub.
    rewrite length_fmap in Hi. cbn [length] in Hi.
    destruct (frame_changes start period 0 frames i) as (fi & Hfi & Hfi0 & Hfib & Hch);
      [done|done|done|done|lia|].
    rewrite Hch, Z.sub_0_r. rewrite list_lookup_fmap, Hfi in Ht. injection Ht as <-.
    replace (start + fi * period) with (start + fi * period + 0) by lia.
    rewrite frame_generation_frame by nia. done.
  - rewrite Hrec by eauto. unfold checked_sub. destruct (Z.leb_spec s0 (s0 + Z.of_nat i)); [|lia].
    rewrite Hlen. do 3 f_equal. lia.
  - rewrite Hrec by eauto. unfold checked_sub. destruct (Z.leb_spec s0 (s0 + Z.of_nat i)); [|lia].
    cbn in Hok. unfold div_. destruct (Z.eqb_spec n 0); [lia|]. cbn [mbind outcome_bind].
    rewrite Hlen. do 4 f_equal. lia.
Qed.

(** ** The receiver opens wire packets *)

(** The index [e] is recovered when [h] is the highest one accepted. *)
Definition near (h e : Z) : bool := (Z.abs (e - h) <? 32768) || ((h =? 0) && (e <? 65536)).

Lemma recover_near h e :
  0 <= h < 2 ^ 48 - 65536 -> 0 <= e -> near h e = true ->
  recover (mkIndexRecovery (Some h)) (u16 e) = e.
Proof.
  intros Hh He. unfold near. rewrite orb_true_iff, andb_true_iff, !Z.ltb_lt, Z.eqb_eq.
  intros [Hn|[-> Hlt]].
  - apply recover_exact; [unfold u64_max; lia|lia|lia].
  - rewrite recover_arith by (unfold u64_max; width). cbn [Z.ltb Z.compare Z.modulo Z.div].
    rewrite u16_id by width. repeat case_match; bool_to_prop; try lia; discriminate.
Qed.

(** Which packets, in which order, the network may deliver: each one new to
    the replay window, near the highest index, and of a generation inside the
    key window or within one jump of it. *)
Fixpoint deliverable (granularity : Granularity) (tss : list Z) (s0 : Z) (k : nat) (cap : Z)
    (rs : Replay.t) (f : Z) (l : list nat) : bool :=
  match l with
  | [] => true
  | i :: l =>
      let e := s0 + Z.of_nat i in
      let g := gen_of granularity tss i in
      bool_decide (i < length tss)%nat && bool_decide (Replay.check rs e = None) && near (Replay.top rs) e &&
      (f - Z.of_nat k <? g) && (g <=? f + cap) &&
      deliverable granularity tss s0 k cap (Replay.add rs e) (Z.max f g) l
  end.

Section Link.
Context {CR : Crypto} {CL : CryptoLaws}.

(** The recovery state follows the replay database's index. *)
Definition rec_link (granularity : Granularity) (r : IndexRecovery) (h : Z) : Prop :=
  match est_index granularity 0 with
  | Some _ => highest r = Some h \/ (highest r = None /\ h = 0)
  | None => highest r = None
  end.

Definition linked (granularity : Granularity) (ssrc : Z) (n : nat) (rs : Replay.t) (v : View Session) : Prop :=
  exists st, stream_list_get (stream_list (v_session v)) ssrc = Some st /\
    st_limit st = KEY_LIMIT_INIT - Z.of_nat n /\ rdbx_refines (st_rdbx st) rs /\ Replay.ok rs /\
    0 <= Replay.top rs < 2 ^ 48 - 65536 /\ rec_link granularity (v_recovery v) (Replay.top rs).

Lemma rec_link_recover granularity r h seq :
  is_Some (est_index granularity 0) -> rec_link granularity r h -> in_u16 seq ->
  recover r seq = recover (mkIndexRecovery (Some h)) seq.
Proof.
  intros [x Hx] Hl Hs. unfold rec_link in Hl. rewrite Hx in Hl.
  destruct r as [[h'|]]; cbn [highest] in Hl; destruct Hl as [Hl|[Hl ->]]; try done; [by injection Hl as ->|].
  rewrite recover_arith by (done || unfold u64_max; lia). cbn. unfold in_u16 in Hs.
  repeat case_match; bool_to_prop; try lia; discriminate.
Qed.

Lemma rec_link_ok granularity r h :
  0 <= h < 2 ^ 48 - 65536 -> rec_link granularity r h -> IndexRecovery_ok r.
Proof.
  unfold rec_link. intros Hh Hl h' Hh'.
  destruct (est_index granularity 0); [destruct Hl as [Hl|[Hl _]]|]; rewrite Hl in Hh'; try discriminate.
  injection Hh' as <-. unfold u64_max. lia.
Qed.

Lemma rec_link_update granularity r h e :
  0 <= h -> 0 <= e -> rec_link granularity r h ->
  rec_link granularity (match est_index granularity e with Some i => update r i | None => r end) (Z.max h e).
Proof.
  unfold rec_link. intros Hh He. destruct r as [h0].
  destruct granularity as [| | |n]; cbn [est_index highest]; try done; intros [->|[-> ->]].
  all: rewrite ?update_max; cbn [highest]; left; try done.
  all: unfold update; cbn; f_equal; lia.
Qed.

(** A wire packet keeps its header fields. *)
Lemma wire_fields seed g e buf :
  fixed_header buf ->
  fixed_header (wire seed g e buf) /\ hdr_seq (wire seed g e buf) = hdr_seq buf /\
  hdr_ts (wire seed g e buf) = hdr_ts buf /\ hdr_ssrc (wire seed g e buf) = hdr_ssrc buf.
Proof.
  intros Hf. unfold wire. destruct (split_key_salt _) as [key salt].
  destruct (seal_packet_fields key salt e buf Hf) as (? & ? & ? & _). split_and!; try done.
  destruct Hf. unfold hdr_ts, byte_at. by rewrite !lookup_seal_packet by (unfold octets_in_rtp_header in *; lia).
Qed.

(** The database's side of accepting index [e]. *)
Lemma rdbx_accept_step rs r seq e :
  rdbx_refines r rs -> Replay.ok rs -> 0 <= Replay.top rs < 2 ^ 48 - 65536 -> in_u16 seq ->
  recover (mkIndexRecovery (Some (Replay.top rs))) seq = e -> Replay.check rs e = None ->
  exists delta, rdbx_estimate_index r seq = (e, delta) /\ rdbx_check r delta = None /\
    rdbx_refines (rdbx_add_index r delta) (Replay.add rs e).
Proof.
  intros Href Hok Htop Hseq Hrec Hchk. pose proof (rdbx_accept_spec r rs seq Href Hok Htop Hseq) as Hacc.
  cbn zeta in Hacc. rewrite Hrec, Hchk in Hacc. destruct Hacc as (r' & Hacc & Href').
  unfold rdbx_accept in Hacc. destruct (rdbx_estimate_index r seq) as [est delta].
  destruct (rdbx_check r delta) eqn:Hc; [discriminate|]. injection Hacc as <- <-. eauto.
Qed.

(** A packet inside the window reaches the cipher. *)
Lemma spec_in_window (c : Config) (v : View Session) buf g est :
  (octets_in_rtp_header <= length buf)%nat ->
  map_generation (c_scheme c) (v_recovery v) (hdr_seq buf) (hdr_ts buf) = Ret (Some (g, est)) ->
  v_top v - Z.of_nat (c_k c) < g <= v_top v + c_cap c ->
  spec_unprotect c v buf = spec_open c v g est buf.
Proof.
  intros Hl Hmap Hg. unfold spec_unprotect, octets_in_rtp_header, RTP_HEADER_LEN in *.
  rewrite bool_decide_eq_false_2 by lia. rewrite Hmap. cbn [mbind outcome_bind].
  destruct (Z.leb_spec g (v_top v - Z.of_nat (c_k c))); [lia|].
  destruct (Z.ltb_spec (c_cap c) (g - v_top v)); [lia|done].
Qed.

(** With generation [g]'s key installed, libsrtp opens its wire packets. *)
Lemma open_wire seed (self : ReceiverKeyManager Session) n rs g e st buf :
  rx_inv seed self -> stream_list_get (stream_list (rx_session self)) (rx_ssrc self) = Some st ->
  st_limit st = KEY_LIMIT_INIT - Z.of_nat n -> Z.of_nat n < 2 ^ 47 ->
  rdbx_refines (st_rdbx st) rs -> Replay.ok rs -> 0 <= Replay.top rs < 2 ^ 48 - 65536 ->
  fixed_header buf -> hdr_ssrc buf = rx_ssrc self -> Z.of_nat (length buf) + 16 <= c_int_max ->
  in_u16 (hdr_seq buf) -> recover (mkIndexRecovery (Some (Replay.top rs))) (hdr_seq buf) = e ->
  Replay.check rs e = None ->
  exists s2 st2,
    (forall est, spec_open (config seed self) (view self) g est (wire seed g e buf) =
      Ret (Ok g, buf, mkView s2 (Some g) (Z.max (rx_top self) g)
        (match est with Some i => update (rx_recovery self) i | None => rx_recovery self end))) /\
    stream_list_get (stream_list s2) (rx_ssrc self) = Some st2 /\
    st_limit st2 = KEY_LIMIT_INIT - Z.of_nat (S n) /\ rdbx_refines (st_rdbx st2) (Replay.add rs e).
Proof.
  intros Hinv Hget Hlim Hn Href Hrok Htop Hf Hss Hlen Hsr Hrec Hchk.
  destruct (install_spec seed self g Hinv) as (s & stt & Hsp & _ & Hkey).
  destruct (spec_install_stream (config seed self) (view self) g s st Hget Hsp)
    as (st' & Hget' & Hrd & Hlim' & _).
  destruct (rdbx_accept_step rs (st_rdbx st') (hdr_seq buf) e) as (delta & Hest & Hck & Hadd);
    [by rewrite Hrd|done..|].
  cbn [config c_ssrc] in Hget'. rewrite <- Hss in Hget'.
  destruct (unprotect_genuine s st' buf e delta Hf Hlen Hget') as (st2 & s2 & Hun & Hs2 & Hsame & Hrd2 & Hlim2);
    [unfold limit_fresh, KEY_LIMIT_INIT in *; lia|done|done|].
  cbn [ss_key libsrtp_ops] in Hkey. rewrite <- Hss, Hget' in Hkey. apply (inj Some) in Hkey.
  replace (seal_packet (st_key st') (st_salt st') e buf) with (wire seed g e buf) in Hun
    by (unfold wire; by rewrite <- Hkey).
  exists s2, st2. rewrite Hs2, <- Hss. split; [|split; [by eapply get_after_put|split; [lia|by rewrite Hrd2]]].
  intros est. unfold spec_open. rewrite Hsp. cbn [mbind outcome_bind ss_unprotect libsrtp_ops].
  by rewrite Hun, Hs2.
Qed.

(** One wire packet through the receiver. *)
Lemma recv_wire granularity start period s0 seed (self : ReceiverKeyManager Session) n rs tss i t buf :
  rx_inv seed self -> granularity_ok granularity -> scheme_ok (rx_scheme self) ->
  clocked granularity start period tss ->
  rx_scheme self = for_granularity granularity start period s0 -> 0 <= s0 < 65536 ->
  linked granularity (rx_ssrc self) n rs (view self) ->
  Z.of_nat n < 2 ^ 47 -> Z.of_nat i < 2 ^ 47 ->
  genuine (rx_ssrc self) s0 i buf -> packet_timestamp buf = Ret t -> tss !! i = Some t ->
  let e := s0 + Z.of_nat i in
  let g := gen_of granularity tss i in
  Replay.check rs e = None -> near (Replay.top rs) e = true ->
  rx_top self - Z.of_nat (length (rx_ring self)) < g <= rx_top self + rx_seek_cap self ->
  exists self',
    recv_unprotect self (wire seed g e buf) = Ret (Ok g, buf, self') /\
    rx_inv seed self' /\ config seed self' = config seed self /\ rx_top self' = Z.max (rx_top self) g /\
    linked granularity (rx_ssrc self) (S n) (Replay.add rs e) (view self').
Proof.
  intros Hinv Hok Hsch Hclk Hscheme Hs0 (st & Hget & Hlim & Href & Hrok & Htop & Hlink) Hn Hi
    (Hf & Hss & Hseq & Hlen & _) Hts Ht e g Hchk Hnear Hg.
  destruct (wire_fields seed g e buf Hf) as (Hfw & Hseqw & Htsw & Hssw).
  assert (in_u16 (hdr_seq buf)) as Hsr by (rewrite Hseq; apply u16_range).
  assert (recover (mkIndexRecovery (Some (Replay.top rs))) (hdr_seq buf) = e) as Hrec
    by (rewrite Hseq; apply recover_near; [done|lia|done]).
  destruct (unprotect_spec seed self (wire seed g e buf) Hinv Hsch) as [Hsim Hpres];
    [by eapply rec_link_ok|by rewrite Hseqw|].
  assert (map_generation (rx_scheme self) (rx_recovery self) (hdr_seq buf) (hdr_ts buf) =
    Ret (Some (g, est_index granularity e))) as Hmap.
  { rewrite Hscheme, (packet_timestamp_hdr _ _ Hts). apply gen_agrees; try done; [lia|].
    intros Hest. by rewrite (rec_link_recover granularity _ (Replay.top rs)). }
  destruct (open_wire seed self n rs g e st buf) as (s2 & st2 & Hopen & Hget2 & Hlim2 & Href2); try done.
  pose proof (spec_in_window (config seed self) (view self) (wire seed g e buf) g (est_index granularity e)
    (proj1 Hfw)) as Hspec.
  rewrite Hseqw, Htsw, Hopen in Hspec. rewrite Hspec in Hsim by done.
  destruct (recv_unprotect self _) as [[[res b] self']|] eqn:Hrecv; [|discriminate].
  cbn [fmap outcome_fmap observe] in Hsim. injection Hsim as -> -> Hv1 Hv2 Hv3 Hv4.
  destruct (Hpres _ _ _ eq_refl) as [Hinv' Hc']. exists self'. split_and!; try done.
  exists st2. unfold view. cbn [v_session v_recovery]. rewrite Hv1, Hv4.
  split_and!; [done|done|done|by apply Replay.add_ok|cbn; lia|cbn; lia|].
  apply rec_link_update; [lia|lia|done].
Qed.

End Link.

(** ** End to end *)

Section Main.
Context {CR : Crypto} {CL : CryptoLaws}.

(** The replay window libsrtp allocates for a requested size. *)
Definition replay_init (window : Z) : Replay.t :=
  Replay.init (bitvector_length (if window =? 0 then 128 else window)).

Lemma new_linked granularity scheme ssrc ratchet k cap window (self : ReceiverKeyManager Session) :
  window = 0 \/ 64 <= window < 0x8000 ->
  ReceiverKeyManager_new scheme ssrc ratchet k cap window = Ret self ->
  linked granularity ssrc 0 (replay_init window) (view self).
Proof.
  intros Hw H. apply bind_Ret in H as ([] & _ & H). cbn zeta in H.
  cbn [ss_add_stream libsrtp_ops] in H. unfold add_stream, stream_init in H.
  cbn [policy_key policy_window_size policy_allow_repeat_tx] in H.
  rewrite sys_policy_gcm in H by (vm_compute; lia).
  set (ws := if window =? 0 then 128 else window) in *.
  assert (0 < ws) as Hws by (unfold ws; destruct (Z.eqb_spec window 0); lia).
  destruct (negb (window =? 0) && _); [discriminate|].
  destruct (rdbx_init ws) as [r|e] eqn:Hinit; [|discriminate].
  destruct (gcm_keys_some throwaway) as [[ks ks'] Hks]. rewrite Hks in H. injection H as <-.
  eexists. cbn [view v_session rx_session stream_list stream_list_get st_ssrc]. rewrite Z.eqb_refl.
  split; [done|]. cbn [st_limit st_rdbx v_recovery rx_recovery].
  split; [cbn; lia|]. split; [by apply rdbx_init_refines|].
  split; [apply Replay.init_ok; unfold bitvector_length; lia|]. split; [cbn; lia|].
  unfold rec_link. destruct (est_index granularity 0); [by right|done].
Qed.

(** The datagrams of a delivery order, and what each should become. *)
Definition delivery (ws : list bytes) (l : list nat) : list bytes := omap (fun i => ws !! i) l.

Definition delivered (granularity : Granularity) (tss : list Z) (bufs : list bytes) (l : list nat) :
    list (result Z RecvDrop * bytes) :=
  omap (fun i => (fun buf => (Ok (gen_of granularity tss i), buf)) <$> bufs !! i) l.

Lemma recv_wires granularity start period s0 seed ssrc tss bufs k cap l n rs (self : ReceiverKeyManager Session) :
  granularity_ok granularity -> clocked granularity start period tss -> 0 <= s0 < 65536 ->
  Forall2 (fun buf ts => packet_timestamp buf = Ret ts) bufs tss ->
  (forall i buf, bufs !! i = Some buf -> genuine ssrc s0 i buf) -> Z.of_nat (length bufs) < 2 ^ 47 ->
  rx_inv seed self ->
  config seed self = mkConfig seed ssrc (for_granularity granularity start period s0) k cap ->
  scheme_ok (for_granularity granularity start period s0) ->
  linked granularity ssrc n rs (view self) -> Z.of_nat n + Z.of_nat (length l) < 2 ^ 47 ->
  deliverable granularity tss s0 k cap rs (rx_top self) l = true ->
  exists self',
    recv_all self (delivery (wires granularity seed s0 tss bufs) l) =
    Ret (delivered granularity tss bufs l, self').
Proof.
  intros Hok Hclk Hs0 Hts Hgen Hmax. revert n rs self.
  induction l as [|i l IH]; intros n rs self Hinv Hc Hsch Hlink Hn Hdel; [by eexists|].
  cbn [deliverable length] in *. rewrite !andb_true_iff, !bool_decide_eq_true, Z.ltb_lt, Z.leb_le in Hdel.
  destruct Hdel as (((((Hi & Hchk) & Hnear) & Hlo) & Hhi) & Hdel).
  pose proof (Forall2_length _ _ _ Hts) as Hlen.
  destruct (lookup_lt_is_Some_2 bufs i ltac:(lia)) as [buf Hbuf].
  destruct (Forall2_lookup_l _ _ _ _ _ Hts Hbuf) as (t & Ht & Hpt).
  pose proof Hc as Hc0. injection Hc0 as Hss Hscheme Hk Hcap.
  destruct (recv_wire granularity start period s0 seed self n rs tss i t buf)
    as (self1 & Hrecv & Hinv1 & Hc1 & Htop1 & Hlink1);
    rewrite ?Hscheme, ?Hss, ?Hk, ?Hcap; try done; [lia|lia|by apply Hgen|].
  rewrite Hss in Hlink1. rewrite <- Htop1 in Hdel.
  destruct (IH (S n) _ self1 Hinv1 ltac:(congruence) Hsch Hlink1 ltac:(lia) Hdel) as (self' & Hrun).
  exists self'. unfold delivery, delivered, wires in *. cbn [omap list_omap].
  rewrite list_lookup_imap, Hbuf. cbn [fmap option_fmap option_map recv_all].
  rewrite Hrecv. cbn [mbind outcome_bind]. by rewrite Hrun.
Qed.

(** C1: End to end, at every granularity: the packets with consecutive sequence
    numbers (and, at frame granularity, timestamps on a regular frame clock)
    that a RekeyingStream protects and a network delivers in any order that
    stays inside the replay window, the half sequence range, the key window
    and the seek cap are all decrypted by the ReceiverKeyManager of the same
    seed, each under the generation the sender used, and come out byte for
    byte as they went in. *)
Theorem end_to_end granularity ssrc seed s0 start period bufs tss k cap window l :
  length seed = CHAIN_SECRET_LEN -> granularity_ok granularity -> clocked granularity start period tss ->
  0 <= s0 < 65536 -> (1 <= k)%nat -> 0 <= cap -> window = 0 \/ 64 <= window < 0x8000 ->
  Forall2 (fun buf ts => packet_timestamp buf = Ret ts) bufs tss ->
  (forall i buf, bufs !! i = Some buf -> genuine ssrc s0 i buf) ->
  Z.of_nat (length bufs) < 2 ^ 47 -> Z.of_nat (length l) < 2 ^ 47 ->
  deliverable granularity tss s0 k cap (replay_init window) (-1) l = true ->
  exists tx0 ws tx rx0 rx,
    RekeyingStream_new granularity ssrc (ratchet_at seed 0) = Ret tx0 /\
    protect_all tx0 bufs = Ret ((fun w => (Ok tt, w)) <$> ws, tx) /\
    ReceiverKeyManager_new (for_granularity granularity start period s0) ssrc (ratchet_at seed 0) k cap window
      = Ret rx0 /\
    recv_all rx0 (delivery ws l) = Ret (delivered granularity tss bufs l, rx).
Proof.
  intros Hs Hok Hclk Hs0 Hk Hcap Hw Hts Hgen Hmax Hl Hdel.
  destruct (new_keyed granularity ssrc seed Hs) as (tx0 & Htx & _).
  destruct (sender_wires granularity ssrc seed s0 tx0 bufs tss) as (tx & Hrun & _); [done..|].
  set (scheme := for_granularity granularity start period s0).
  destruct (new_returns scheme ssrc seed k cap window Hk Hw) as (rx0 & Hrx).
  destruct (new_inv _ _ _ _ _ _ _ Hs Hcap Hw Hrx) as (Hinv & Hc & _ & Hf & _).
  assert (scheme_ok scheme) as Hsch by (destruct granularity; cbn in *; [done|apply Hclk|lia|lia]).
  pose proof (new_linked granularity _ _ _ _ _ _ _ Hw Hrx) as Hlink.
  destruct (recv_wires granularity start period s0 seed ssrc tss bufs k cap l 0 (replay_init window) rx0)
    as (rx & Hrecv); try done.
  { unfold rx_top. by rewrite Hf. }
  by exists tx0, (wires granularity seed s0 tss bufs), tx, rx0, rx.
Qed.

End Main.

(** ** A concrete run *)

Import Toy.

Module Example.

Definition seed : bytes := replicate 32 1.
Definition packet (seq ts : Z) : bytes := to_bytes (mkRtpPacket 96 seq ts 7 [1; 2; 3]).

(** Three packets of two frames, the sequence number wrapping in between. *)
Definition bufs : list bytes := [packet 65535 5000; packet 0 5000; packet 1 6500].
Definition tss : list Z := [5000; 5000; 6500].

Lemma bufs_genuine i buf : bufs !! i = Some buf -> genuine 7 65535 i buf.
Proof.
  intros H. destruct i as [|[|[|i]]]; [injection H as <-..|discriminate].
  all: (split; [split; [vm_compute; lia|done]|]).
  all: (split; [done|]; split; [done|]; split; [vm_compute; discriminate|]).
  all: repeat constructor; done.
Qed.

End Example.

Lemma end_to_end_witness :
  exists tx0 ws tx rx0 rx,
    RekeyingStream_new (S := Session) Frame 7 (ratchet_at Example.seed 0) = Ret tx0 /\
    protect_all tx0 Example.bufs = Ret ((fun w => (Ok tt, w)) <$> ws, tx) /\
    ReceiverKeyManager_new (S := Session) (for_granularity Frame 5000 1500 65535) 7 (ratchet_at Example.seed 0) 2 8 64 = Ret rx0 /\
    recv_all rx0 (delivery ws [0; 2; 1]%nat) =
      Ret (delivered Frame Example.tss Example.bufs [0; 2; 1]%nat, rx).
Proof.
  apply (end_to_end Frame 7 Example.seed 65535 5000 1500 Example.bufs Example.tss 2 8 64 [0; 2; 1]%nat).
  - done.
  - done.
  - split; [done|]. exists [0; 1]. split; [done|]. split; [cbn; lia|]. repeat constructor; cbn; lia.
  - lia.
  - lia.
  - lia.
  - lia.
  - repeat constructor.
  - exact Example.bufs_genuine.
  - cbn; lia.
  - cbn; lia.
  - vm_compute. reflexivity.
Defined.
