(* ===== verification/TeslaChain.v ===== *)
(** * TeslaChain: the one-way key chain (src/src/tesla/chain.rs)

    The sender's chain, built backwards from its final key, and the
    receiver's [ChainVerifier], which trusts one key at a time and accepts a
    disclosed key when it hashes down to the trusted one. *)

From S2P Require Import Prelude Bytes Crypto.

Definition TESLA_KEY_LEN : nat := 20.

Inductive Disclosure :=
| New (keys : list (Z * bytes))
| NotNew
| Invalid
| TooFarAhead
| BeyondChain.

Record ChainVerifier := mkChainVerifier {
  cv_n_chain : Z;
  cv_g_max : Z;
  cv_trusted_index : Z;
  cv_trusted_key : bytes
}.

Record TeslaChain := mkTeslaChain { chain_keys : list bytes }.

Section Chain.
Context {CR : Crypto}.

Definition f_step (key : bytes) : bytes := take TESLA_KEY_LEN (hmac_sha256 key [0x00]).

Definition mac_key (key : bytes) (n_f : nat) : outcome bytes :=
  _ ← assert (bool_decide (n_f <= 32)%nat);
  slice (hmac_sha256 key [0x01]) 0 n_f.

(** The loop [for i in (0..n).rev()] of [from_final_key]. *)
Fixpoint fill_down (n : nat) (keys : list bytes) : outcome (list bytes) :=
  match n with
  | O => Ret keys
  | S i =>
      above ← index keys (S i);
      fill_down i (<[i := f_step above]> keys)
  end.

Definition from_final_key (k_final : bytes) (n_chain : Z) : outcome TeslaChain :=
  let n := Z.to_nat n_chain in
  let keys := replicate (S n) (replicate TESLA_KEY_LEN 0) in
  keys ← fill_down n (<[n := k_final]> keys);
  Ret (mkTeslaChain keys).

Definition chain_key (self : TeslaChain) (i : Z) : outcome bytes := index (chain_keys self) (Z.to_nat i).
Definition anchor (self : TeslaChain) : outcome bytes := index (chain_keys self) 0.

Definition ChainVerifier_new (anchor : bytes) (n_chain g_max : Z) : ChainVerifier :=
  mkChainVerifier n_chain g_max 0 anchor.

(** The loop [for s in 1..=gap] of [check], from step [s] on. *)
Fixpoint hash_down (steps : nat) (trusted index s : Z) (k : bytes) (recovered : list (Z * bytes)) :
    bytes * list (Z * bytes) :=
  match steps with
  | O => (k, recovered)
  | S steps =>
      let k := f_step k in
      let idx := index - s in
      let recovered := if trusted <? idx then recovered ++ [(idx, k)] else recovered in
      hash_down steps trusted index (s + 1) k recovered
  end.

Definition check (self : ChainVerifier) (candidate : bytes) (index : Z) : Disclosure * ChainVerifier :=
  if index <=? cv_trusted_index self then (NotNew, self)
  else if cv_n_chain self <? index then (BeyondChain, self)
  else
    let gap := index - cv_trusted_index self in
    if cv_g_max self <? gap then (TooFarAhead, self)
    else
      let '(k, recovered) :=
        hash_down (Z.to_nat gap) (cv_trusted_index self) index 1 candidate [(index, candidate)] in
      if bool_decide (k ≠ cv_trusted_key self) then (Invalid, self)
      else (New (rev recovered), mkChainVerifier (cv_n_chain self) (cv_g_max self) index candidate).

(** ** The reference chain *)

Fixpoint f_iter (n : nat) (k : bytes) : bytes :=
  match n with O => k | S n => f_iter n (f_step k) end.

(** [K_i] of the chain that ends in [k_final] at [n_chain]. *)
Definition true_key (k_final : bytes) (n_chain i : Z) : bytes := f_iter (Z.to_nat (n_chain - i)) k_final.

End Chain.

(** ** The sender's chain *)

Section Facts.
Context {CR : Crypto} {CL : CryptoLaws}.

Lemma f_iter_S n k : f_iter (S n) k = f_step (f_iter n k).
Proof. revert k; induction n as [|n IH]; intros k; [done|]. cbn [f_iter] in *. by rewrite <- IH. Qed.

Lemma f_iter_add n m k : f_iter (n + m) k = f_iter n (f_iter m k).
Proof.
  induction n as [|n IH]; [done|]. change (S n + m)%nat with (S (n + m)). by rewrite !f_iter_S, IH.
Qed.

Lemma length_f_step k : length (f_step k) = TESLA_KEY_LEN.
Proof. unfold f_step. rewrite length_take, length_hmac_sha256. done. Qed.

(** One step up the reference chain. *)
Lemma true_key_step kf n i : i < n -> f_step (true_key kf n (i + 1)) = true_key kf n i.
Proof.
  intros Hi. unfold true_key. replace (Z.to_nat (n - i)) with (S (Z.to_nat (n - (i + 1)))) by lia.
  by rewrite f_iter_S.
Qed.

Lemma true_key_down kf n i m :
  (Z.of_nat m <= i) -> i <= n -> f_iter m (true_key kf n i) = true_key kf n (i - Z.of_nat m).
Proof.
  intros Hm Hi. unfold true_key. rewrite <- f_iter_add. f_equal. lia.
Qed.

(** The loop leaves entries from [n] on alone and fills those below. *)
Lemma fill_down_spec kf m n keys :
  (n <= m)%nat -> length keys = S m ->
  (forall j, (n <= j <= m)%nat -> keys !! j = Some (f_iter (m - j) kf)) ->
  exists keys', fill_down n keys = Ret keys' /\ length keys' = S m /\
    forall j, (j <= m)%nat -> keys' !! j = Some (f_iter (m - j) kf).
Proof.
  revert keys; induction n as [|n IH]; intros keys Hn Hlen Hk.
  - exists keys. split; [done|]. split; [done|]. intros j Hj. apply Hk. lia.
  - cbn [fill_down]. unfold index. rewrite (Hk (S n)) by lia. cbn [mbind outcome_bind expect].
    apply IH; [lia|by rewrite length_insert|]. intros j Hj.
    destruct (decide (j = n)) as [->|Hne].
    + rewrite list_lookup_insert_eq by lia. f_equal.
      replace (m - n)%nat with (S (m - S n)) by lia. by rewrite f_iter_S.
    + rewrite list_lookup_insert_ne by done. apply Hk. lia.
Qed.

Lemma from_final_key_ok kf n :
  0 <= n -> exists c, from_final_key kf n = Ret c /\
    forall i, 0 <= i <= n -> chain_key c i = Ret (true_key kf n i).
Proof.
  intros Hn. unfold from_final_key.
  destruct (fill_down_spec kf (Z.to_nat n) (Z.to_nat n)
    (<[Z.to_nat n := kf]> (replicate (S (Z.to_nat n)) (replicate TESLA_KEY_LEN 0))))
    as (keys & -> & Hlen & Hk).
  - done.
  - by rewrite length_insert, length_replicate.
  - intros j Hj. assert (j = Z.to_nat n) as -> by lia.
    rewrite list_lookup_insert_eq by (rewrite length_replicate; lia). by rewrite Nat.sub_diag.
  - eexists. split; [done|]. intros i Hi. unfold chain_key, index. cbn [chain_keys].
    rewrite Hk by lia. cbn. unfold true_key. do 2 f_equal. lia.
Qed.

(** The chain from_final_key builds ends in the final key, starts at its
    n-fold hash, and each key is the hash of the next. *)
Lemma chain_is_hash_chain kf n c :
  0 <= n -> from_final_key kf n = Ret c ->
  chain_key c n = Ret kf /\ anchor c = Ret (f_iter (Z.to_nat n) kf) /\
  forall i, 0 <= i < n -> exists k, chain_key c (i + 1) = Ret k /\ chain_key c i = Ret (f_step k).
Proof.
  intros Hn Hc. destruct (from_final_key_ok kf n Hn) as (c' & Hc' & Hk).
  rewrite Hc in Hc'. apply (inj Ret) in Hc' as <-. split_and!.
  - rewrite Hk by lia. unfold true_key. by rewrite Z.sub_diag.
  - change (anchor c) with (chain_key c 0). rewrite Hk by lia. unfold true_key. by rewrite Z.sub_0_r.
  - intros i Hi. eexists. rewrite !Hk by lia. split; [done|]. by rewrite true_key_step by lia.
Qed.

(** ** The verifier *)

(** The keys met while hashing [k] down from index [c], [n] of them. *)
Fixpoint run_down (c : Z) (n : nat) (k : bytes) : list (Z * bytes) :=
  match n with
  | O => []
  | S n => (c, k) :: run_down (c - 1) n (f_step k)
  end.

Lemma hash_down_spec n t index s k l c :
  (1 <= n)%nat -> c = index - s + 1 -> t = c - Z.of_nat n ->
  hash_down n t index s k (l ++ [(c, k)]) = (f_iter n k, l ++ run_down c n k).
Proof.
  revert s k l c. induction n as [|n IH]; intros s k l c Hn Hc Ht; [lia|].
  cbn [hash_down f_iter run_down]. destruct n as [|n].
  - destruct (Z.ltb_spec t (index - s)); [lia|done].
  - destruct (Z.ltb_spec t (index - s)); [|lia].
    replace (c - 1) with (index - s) by lia.
    rewrite (IH (s + 1) (f_step k) (l ++ [(c, k)]) (index - s)) by lia. by rewrite <- app_assoc.
Qed.

(** The genuine keys of the [m] indices after [t]. *)
Definition true_keys (kf : bytes) (n t : Z) (m : nat) : list (Z * bytes) :=
  (fun j => (t + 1 + Z.of_nat j, true_key kf n (t + 1 + Z.of_nat j))) <$> seq 0 m.

Lemma rev_run_down kf n t m :
  0 <= t -> t + Z.of_nat m <= n ->
  rev (run_down (t + Z.of_nat m) m (true_key kf n (t + Z.of_nat m))) = true_keys kf n t m.
Proof.
  intros Ht. induction m as [|m IH]; intros Hm; [done|].
  cbn [run_down rev]. unfold true_keys in *. rewrite seq_S, fmap_app, <- IH by lia. f_equal.
  - replace (t + Z.of_nat (S m) - 1) with (t + Z.of_nat m) by lia.
    replace (t + Z.of_nat (S m)) with (t + Z.of_nat m + 1) by lia.
    by rewrite true_key_step by lia.
  - cbn. by replace (t + 1 + Z.of_nat m) with (t + Z.of_nat (S m)) by lia.
Qed.

(** [check] without its loop. *)
Lemma check_spec self candidate i :
  check self candidate i =
  if i <=? cv_trusted_index self then (NotNew, self)
  else if cv_n_chain self <? i then (BeyondChain, self)
  else if cv_g_max self <? i - cv_trusted_index self then (TooFarAhead, self)
  else
    let gap := Z.to_nat (i - cv_trusted_index self) in
    if bool_decide (f_iter gap candidate ≠ cv_trusted_key self) then (Invalid, self)
    else (New (rev (run_down i gap candidate)),
          mkChainVerifier (cv_n_chain self) (cv_g_max self) i candidate).
Proof.
  unfold check. destruct (Z.leb_spec i (cv_trusted_index self)); [done|].
  destruct (cv_n_chain self <? i); [done|]. destruct (_ <? _); [done|]. cbn zeta.
  rewrite (hash_down_spec _ _ i 1 candidate [] i) by lia. done.
Qed.

(** The verifier of the chain of [kf] trusts a genuine key. *)
Definition verifier_ok (kf : bytes) (n : Z) (v : ChainVerifier) : Prop :=
  cv_n_chain v = n /\ 0 <= cv_trusted_index v <= n /\
  cv_trusted_key v = true_key kf n (cv_trusted_index v).

Lemma verifier_new_ok kf n g_max :
  0 <= n -> verifier_ok kf n (ChainVerifier_new (true_key kf n 0) n g_max).
Proof. intros Hn. split_and!; cbn; done || lia. Qed.

(** Completeness: a genuine key within reach is accepted, with every key
    between it and the trusted one. *)
Lemma check_genuine kf n v i :
  verifier_ok kf n v -> cv_trusted_index v < i <= n -> i - cv_trusted_index v <= cv_g_max v ->
  check v (true_key kf n i) i =
  (New (true_keys kf n (cv_trusted_index v) (Z.to_nat (i - cv_trusted_index v))),
   mkChainVerifier n (cv_g_max v) i (true_key kf n i)).
Proof.
  intros (Hn & Ht & Hk) Hi Hg. rewrite check_spec, Hn.
  destruct (Z.leb_spec i (cv_trusted_index v)); [lia|]. destruct (Z.ltb_spec n i); [lia|].
  destruct (Z.ltb_spec (cv_g_max v) (i - cv_trusted_index v)); [lia|]. cbn zeta.
  set (m := Z.to_nat (i - cv_trusted_index v)).
  rewrite true_key_down, Hk by lia. replace (i - Z.of_nat m) with (cv_trusted_index v) by lia.
  rewrite bool_decide_eq_false_2 by (intros Hne; done).
  rewrite <- rev_run_down by lia. by replace (cv_trusted_index v + Z.of_nat m) with i by lia.
Qed.

(** Candidate [cand] for index [i] breaks the chain step: one of the values
    met while it is hashed down, a 20-byte string, is not the genuine key of
    its index but has the same hash. *)
Definition collides (kf : bytes) (n : Z) (cand : bytes) (i : Z) : Prop :=
  i <= n /\
  Exists (fun m =>
    let x := f_iter m cand in
    let k := true_key kf n (i - Z.of_nat m) in
    length x = TESLA_KEY_LEN /\ x ≠ k /\ f_step x = f_step k) (seq 0 (Z.to_nat i)).

#[export] Instance collides_dec kf n cand i : Decision (collides kf n cand i).
Proof. unfold collides. apply _. Defined.

(** A key that meets the chain after [m] steps is the genuine one or collides
    on the way. *)
Lemma meet_or_step kf n m i x :
  Z.of_nat m <= i -> i <= n -> f_iter m x = true_key kf n (i - Z.of_nat m) ->
  x = true_key kf n i \/
  exists m', (m' < m)%nat /\ f_iter m' x ≠ true_key kf n (i - Z.of_nat m') /\
    f_step (f_iter m' x) = f_step (true_key kf n (i - Z.of_nat m')).
Proof.
  revert i x. induction m as [|m IH]; intros i x Hm Hi Heq.
  - left. cbn [f_iter] in Heq. rewrite Heq. f_equal. lia.
  - cbn [f_iter] in Heq. destruct (decide (x = true_key kf n i)) as [->|Hne]; [by left|]. right.
    destruct (IH (i - 1) (f_step x)) as [Hx|(m' & Hm' & Hx & Hs)]; [lia|lia|rewrite Heq; f_equal; lia|..].
    + exists 0%nat. rewrite Z.sub_0_r. cbn [f_iter]. split; [lia|]. split; [done|]. rewrite Hx.
      replace i with (i - 1 + 1) at 2 by lia. by rewrite true_key_step by lia.
    + exists (Datatypes.S m'). replace (i - Z.of_nat (Datatypes.S m')) with (i - 1 - Z.of_nat m') by lia.
      split; [lia|done].
Qed.

Lemma length_f_iter m x : length x = TESLA_KEY_LEN -> length (f_iter m x) = TESLA_KEY_LEN.
Proof. revert x. induction m as [|m IH]; intros x Hx; [done|]. cbn [f_iter]. apply IH, length_f_step. Qed.

Lemma meet_or_collide kf n m i x :
  Z.of_nat m <= i -> i <= n -> length x = TESLA_KEY_LEN -> f_iter m x = true_key kf n (i - Z.of_nat m) ->
  x = true_key kf n i \/ collides kf n x i.
Proof.
  intros Hm Hi Hx Heq. destruct (meet_or_step kf n m i x Hm Hi Heq) as [?|(m' & Hm' & Hne & Hs)]; [by left|right].
  split; [done|]. apply Exists_exists. exists m'. rewrite elem_of_seq. cbn zeta.
  split; [lia|]. split; [by apply length_f_iter|done].
Qed.

(** Soundness: what is accepted is genuine, or the candidate breaks the chain step. *)
Lemma check_sound kf n v cand i d v' :
  verifier_ok kf n v -> length cand = TESLA_KEY_LEN -> check v cand i = (d, v') ->
  collides kf n cand i \/
  (verifier_ok kf n v' /\ cv_g_max v' = cv_g_max v /\ cv_trusted_index v <= cv_trusted_index v' /\
   match d with
   | New ks =>
       cand = true_key kf n i /\ cv_trusted_index v' = i /\
       i - cv_trusted_index v <= cv_g_max v /\
       ks = true_keys kf n (cv_trusted_index v) (Z.to_nat (i - cv_trusted_index v))
   | _ => v' = v
   end).
Proof.
  intros Hok Hlen. pose proof Hok as (Hn & Ht & Hk). rewrite check_spec, Hn.
  destruct (Z.leb_spec i (cv_trusted_index v)); [intros [= <- <-]; by right|].
  destruct (Z.ltb_spec n i); [intros [= <- <-]; by right|].
  destruct (Z.ltb_spec (cv_g_max v) (i - cv_trusted_index v)); [intros [= <- <-]; by right|].
  cbn zeta. case_bool_decide as Hd; [intros [= <- <-]; by right|].
  destruct (meet_or_collide kf n (Z.to_nat (i - cv_trusted_index v)) i cand) as [->|Hc];
    [lia|lia|done|rewrite Hd, Hk; f_equal; lia| |by left].
  intros [= <- <-]. right. split; [split_and!; cbn; done || lia|].
  cbn. split; [done|]. split; [lia|]. split; [done|]. split; [done|]. split; [done|].
  rewrite <- rev_run_down by lia.
  by replace (cv_trusted_index v + Z.of_nat (Z.to_nat (i - cv_trusted_index v))) with i by lia.
Qed.

(** ** Runs of the verifier *)

(** Feeds a sequence of (candidate, claimed index) pairs. *)
Fixpoint check_all (v : ChainVerifier) (l : list (bytes * Z)) : list Disclosure * ChainVerifier :=
  match l with
  | [] => ([], v)
  | (cand, i) :: l =>
      let '(d, v) := check v cand i in
      let '(ds, v) := check_all v l in
      (d :: ds, v)
  end.

(** Some candidate of the run breaks the chain step. *)
Definition collision_in (kf : bytes) (n : Z) (l : list (bytes * Z)) : Prop :=
  Exists (fun x => collides kf n x.1 x.2) l.

(** Candidates are [ChainKey]s. *)
Definition chain_keys_ok (l : list (bytes * Z)) : Prop := Forall (fun x => length x.1 = TESLA_KEY_LEN) l.

(** The keys a run handed out. *)
Definition handed_out (ds : list Disclosure) : list (Z * bytes) :=
  ds ≫= (fun d => match d with New ks => ks | _ => [] end).

Lemma true_keys_app kf n t m m' :
  true_keys kf n t m ++ true_keys kf n (t + Z.of_nat m) m' = true_keys kf n t (m + m').
Proof.
  unfold true_keys. rewrite seq_app, fmap_app. f_equal.
  replace (seq (0 + m) m') with (Nat.add m <$> seq 0 m') by (rewrite fmap_add_seq; f_equal; lia).
  rewrite <- list_fmap_compose.
  apply list_fmap_ext. intros j x _. unfold compose.
  by replace (t + Z.of_nat m + 1 + Z.of_nat x) with (t + 1 + Z.of_nat (m + x)) by lia.
Qed.

Lemma check_all_sound kf n v l ds v' :
  verifier_ok kf n v -> chain_keys_ok l -> check_all v l = (ds, v') ->
  collision_in kf n l \/
  (verifier_ok kf n v' /\ cv_trusted_index v <= cv_trusted_index v' /\
   handed_out ds = true_keys kf n (cv_trusted_index v) (Z.to_nat (cv_trusted_index v' - cv_trusted_index v))).
Proof.
  revert v ds. induction l as [|[cand i] l IH]; intros v ds Hok Hkeys Hrun.
  - injection Hrun as <- <-. right. rewrite Z.sub_diag. done.
  - apply Forall_cons in Hkeys as [Hcand Hkeys].
    cbn [check_all] in Hrun. destruct (check v cand i) as [d v1] eqn:Hc.
    destruct (check_all v1 l) as [ds1 v2] eqn:Hl. injection Hrun as <- <-.
    destruct (check_sound kf n v cand i d v1 Hok Hcand Hc) as [?|(Hok1 & _ & Hle & Hd)]; [by left; left|].
    destruct (IH v1 ds1 Hok1 Hkeys Hl) as [?|(Hok2 & Hle2 & Hout)]; [by left; right|].
    right. split; [done|]. split; [lia|].
    unfold handed_out in *. cbn [mbind list_bind]. fold (handed_out ds1) in *.
    destruct d as [ks| | | |]; try (subst v1; exact Hout).
    destruct Hd as (_ & Hi & _ & ->). change (mbind _ ds1) with (handed_out ds1) in Hout |- *.
    rewrite Hout, <- Hi.
    replace (cv_trusted_index v1) with (cv_trusted_index v + Z.of_nat (Z.to_nat (cv_trusted_index v1 - cv_trusted_index v))) at 2 by lia.
    rewrite true_keys_app. f_equal. lia.
Qed.

(** C9: Whatever sequence of 20-byte candidate keys the chain verifier is fed,
    the keys it hands out are the genuine chain keys, each once and in order
    up to the trusted index, and the trusted key is genuine; the only
    exception is a candidate of the sequence that is, or hashes down to, a
    second preimage of a genuine chain key under the chain step. *)
Theorem verifier_sound kf n g_max l ds v' :
  0 <= n -> chain_keys_ok l -> check_all (ChainVerifier_new (true_key kf n 0) n g_max) l = (ds, v') ->
  collision_in kf n l \/
  (cv_trusted_key v' = true_key kf n (cv_trusted_index v') /\
   handed_out ds = true_keys kf n 0 (Z.to_nat (cv_trusted_index v'))).
Proof.
  intros Hn Hkeys Hrun. destruct (check_all_sound kf n _ l ds v' (verifier_new_ok kf n g_max Hn) Hkeys Hrun)
    as [?|((_ & _ & Hk) & _ & Hout)]; [by left|right].
  split; [done|]. rewrite Hout. cbn. by rewrite Z.sub_0_r.
Qed.

(** A genuine disclosed key within the hash-work cap is accepted, together
    with every genuine key between it and the trusted one, so packets whose
    own disclosures were lost can still be verified. *)
Lemma verifier_complete kf n c v i k :
  0 <= n -> from_final_key kf n = Ret c -> verifier_ok kf n v ->
  cv_trusted_index v < i <= n -> i - cv_trusted_index v <= cv_g_max v -> chain_key c i = Ret k ->
  exists ks,
    check v k i = (New ks, mkChainVerifier n (cv_g_max v) i k) /\
    length ks = Z.to_nat (i - cv_trusted_index v) /\
    forall j, cv_trusted_index v < j <= i -> exists kj, chain_key c j = Ret kj /\ (j, kj) ∈ ks.
Proof.
  intros Hn Hc Hok Hi Hg Hk. destruct (from_final_key_ok kf n Hn) as (c' & Hc' & Hkeys).
  rewrite Hc in Hc'. apply (inj Ret) in Hc' as <-. pose proof Hok as (_ & Ht & _).
  rewrite Hkeys in Hk by lia. apply (inj Ret) in Hk as <-.
  rewrite (check_genuine kf n v i) by done. eexists. split; [done|]. unfold true_keys. split.
  - by rewrite length_fmap, length_seq.
  - intros j Hj. exists (true_key kf n j). rewrite Hkeys by lia. split; [done|].
    apply list_elem_of_fmap. exists (Z.to_nat (j - cv_trusted_index v - 1)).
    split; [|apply elem_of_seq; lia].
    by replace (cv_trusted_index v + 1 + Z.of_nat (Z.to_nat (j - cv_trusted_index v - 1))) with j by lia.
Qed.

(** A candidate that is not the genuine key of its index is rejected and
    leaves the verifier's state untouched, unless hashing it down meets a
    second preimage of the chain step. *)
Lemma verifier_rejects_forgery kf n v cand i :
  verifier_ok kf n v -> length cand = TESLA_KEY_LEN -> cand ≠ true_key kf n i ->
  collides kf n cand i \/
  exists d, check v cand i = (d, v) /\ forall ks, d ≠ New ks.
Proof.
  intros Hok Hlen Hne. destruct (check v cand i) as [d v'] eqn:Hc.
  destruct (check_sound kf n v cand i d v' Hok Hlen Hc) as [?|(_ & _ & _ & Hd)]; [by left|right].
  destruct d as [ks| | | |]; [by destruct Hd|..]; subst v'; by eexists.
Qed.

End Facts.

(** ** Concrete instances *)

Import Toy.

Module ChainExample.

Definition kf : bytes := replicate 20 7.
Definition chain : TeslaChain :=
  match from_final_key kf 8 with Ret c => c | Panic => mkTeslaChain [] end.
Definition verifier : ChainVerifier := ChainVerifier_new (true_key kf 8 0) 8 16.

Lemma chain_built : from_final_key kf 8 = Ret chain.
Proof. vm_compute. reflexivity. Qed.

(** A forgery of key 3, then the genuine keys 4 and 2. *)
Definition candidates : list (bytes * Z) :=
  [(replicate 20 0, 3); (true_key kf 8 4, 4); (true_key kf 8 2, 2)].

End ChainExample.

Lemma chain_is_hash_chain_witness :
  chain_key ChainExample.chain 8 = Ret ChainExample.kf /\
  anchor ChainExample.chain = Ret (f_iter (Z.to_nat 8) ChainExample.kf) /\
  forall i, 0 <= i < 8 ->
    exists k, chain_key ChainExample.chain (i + 1) = Ret k /\ chain_key ChainExample.chain i = Ret (f_step k).
Proof.
  apply (chain_is_hash_chain ChainExample.kf 8 ChainExample.chain); [lia|exact ChainExample.chain_built].
Defined.

(** None of the candidates collides, so the keys handed out are genuine. *)
Lemma verifier_sound_witness :
  let '(ds, v') := check_all ChainExample.verifier ChainExample.candidates in
  cv_trusted_index v' = 4 /\
  cv_trusted_key v' = true_key ChainExample.kf 8 (cv_trusted_index v') /\
  handed_out ds = true_keys ChainExample.kf 8 0 (Z.to_nat (cv_trusted_index v')).
Proof.
  destruct (check_all ChainExample.verifier ChainExample.candidates) as [ds v'] eqn:Hrun.
  split.
  - assert (cv_trusted_index (check_all ChainExample.verifier ChainExample.candidates).2 = 4) as H
      by (vm_compute; reflexivity).
    rewrite Hrun in H. exact H.
  - destruct (verifier_sound ChainExample.kf 8 16 ChainExample.candidates ds v') as [Hc|H]; [lia| |exact Hrun| |exact H].
    + repeat constructor.
    + exfalso. revert Hc. apply (bool_decide_unpack _). vm_compute. exact I.
Defined.

Lemma verifier_complete_witness :
  exists ks,
    check ChainExample.verifier (true_key ChainExample.kf 8 4) 4 =
      (New ks, mkChainVerifier 8 16 4 (true_key ChainExample.kf 8 4)) /\
    length ks = 4%nat /\
    forall j, 0 < j <= 4 -> exists kj, chain_key ChainExample.chain j = Ret kj /\ (j, kj) ∈ ks.
Proof.
  apply (verifier_complete ChainExample.kf 8 ChainExample.chain ChainExample.verifier 4).
  - lia.
  - exact ChainExample.chain_built.
  - apply verifier_new_ok. lia.
  - cbn. lia.
  - cbn. lia.
  - vm_compute. reflexivity.
Defined.
