(* ===== verification/TeslaSchedule.v ===== *)
(** * TeslaSchedule: intervals, disclosure and the accept test
      (src/src/tesla/schedule.rs)

    Times are nanoseconds on the shared timebase, 64-bit; interval numbers
    are 32-bit.  The theorems state what TESLA rests on: a packet that passes
    the accept test arrived before any packet disclosing its key could have
    been sent. *)

From S2P Require Import Prelude.

Inductive IntervalCheck := Safe | UnsafeLate.

#[export] Instance IntervalCheck_eq_dec : EqDecision IntervalCheck.
Proof. solve_decision. Defined.

Record TeslaSchedule := mkTeslaSchedule {
  t0_ns : Z;
  t_int_ns : Z;
  d : Z;
  n_chain : Z;
  d_t_ns : Z;
  g_max : Z
}.

Definition TeslaSchedule_new (t0_ns t_int_ns d n_chain d_t_ns g_max : Z) : outcome TeslaSchedule :=
  _ ← assert (0 <? t_int_ns);
  _ ← assert (2 <=? d);
  _ ← assert (1 <=? n_chain);
  _ ← assert (1 <=? g_max);
  Ret (mkTeslaSchedule t0_ns t_int_ns d n_chain d_t_ns g_max).

(** [t_int_ns] is positive for every schedule [new] returned, so the
    divisions below do not panic; the fields are public, and a division by a
    zero field would. *)
Definition div_u64 (a b : Z) : outcome Z := if b =? 0 then Panic else Ret (a / b).

Definition interval_of (self : TeslaSchedule) (send_ns : Z) : outcome Z :=
  _ ← assert (t0_ns self <=? send_ns);
  q ← div_u64 (send_ns - t0_ns self) (t_int_ns self);
  let i := u64 (1 + q) in
  _ ← assert (i <=? n_chain self);
  Ret (u32 i).

Definition disclosed_index (self : TeslaSchedule) (interval : Z) : Z := saturating_sub interval (d self).

Definition sender_upper_bound (self : TeslaSchedule) (arrival_ns : Z) : outcome Z :=
  let sender_clock := saturating_add64 arrival_ns (d_t_ns self) in
  q ← div_u64 (saturating_sub sender_clock (t0_ns self)) (t_int_ns self);
  Ret (u64 (1 + q)).

Definition accepts (self : TeslaSchedule) (arrival_ns interval : Z) : outcome IntervalCheck :=
  x ← sender_upper_bound self arrival_ns;
  Ret (if x <? u64 (interval + d self) then Safe else UnsafeLate).

(** ** Well-formed schedules *)

(** The fields' widths and what [new] asserts. *)
Definition schedule_ok (p : TeslaSchedule) : Prop :=
  in_u64 (t0_ns p) /\ in_u64 (t_int_ns p) /\ in_u32 (d p) /\ in_u32 (n_chain p) /\ in_u64 (d_t_ns p) /\
  in_u32 (g_max p) /\ 0 < t_int_ns p /\ 2 <= d p /\ 1 <= n_chain p /\ 1 <= g_max p.

Lemma new_ok t0 t d n dt g p :
  in_u64 t0 -> in_u64 t -> in_u32 d -> in_u32 n -> in_u64 dt -> in_u32 g ->
  TeslaSchedule_new t0 t d n dt g = Ret p -> schedule_ok p.
Proof.
  intros ? ? ? ? ? ? H. unfold TeslaSchedule_new in H.
  do 4 (apply bind_Ret in H as ([] & ?%assert_Ret & H)). injection H as <-.
  rewrite ?Z.ltb_lt, ?Z.leb_le in *. unfold schedule_ok. cbn. split_and!; done || lia.
Qed.

(** When interval [i] begins. *)
Definition interval_start (p : TeslaSchedule) (i : Z) : Z := t0_ns p + (i - 1) * t_int_ns p.

Lemma interval_of_spec p send i :
  schedule_ok p -> 0 <= send < u64_max -> interval_of p send = Ret i ->
  1 <= i <= n_chain p /\ interval_start p i <= send < interval_start p (i + 1).
Proof.
  intros (? & ? & ? & Hn & ? & ? & Ht & ?) Hs Hrun. unfold interval_of, div_u64 in Hrun.
  apply bind_Ret in Hrun as ([] & Hle%assert_Ret & Hrun). apply Z.leb_le in Hle.
  destruct (Z.eqb_spec (t_int_ns p) 0); [lia|]. cbn [mbind outcome_bind] in Hrun.
  apply bind_Ret in Hrun as ([] & Hi%assert_Ret & Hrun). apply Z.leb_le in Hi. injection Hrun as <-.
  set (q := (send - t0_ns p) / t_int_ns p) in *.
  pose proof (Z.div_mod (send - t0_ns p) (t_int_ns p) ltac:(lia)) as Hdm. fold q in Hdm.
  pose proof (Z.mod_pos_bound (send - t0_ns p) (t_int_ns p) ltac:(lia)).
  assert (0 <= q) by (apply Z.div_pos; lia).
  assert (q <= send - t0_ns p) by (apply Z.div_le_upper_bound; nia).
  rewrite (u64_id (1 + q)) in * by width. rewrite u32_id by width. unfold interval_start. nia.
Qed.

Lemma interval_of_total p send :
  schedule_ok p -> t0_ns p <= send < interval_start p (n_chain p + 1) -> 0 <= send < u64_max ->
  exists i, interval_of p send = Ret i.
Proof.
  intros (? & ? & ? & Hn & ? & ? & Ht & ?) Hs Hs64. unfold interval_of, div_u64.
  destruct (Z.leb_spec (t0_ns p) send); [|lia]. destruct (Z.eqb_spec (t_int_ns p) 0); [lia|].
  cbn [assert mbind outcome_bind]. unfold interval_start in Hs.
  assert ((send - t0_ns p) / t_int_ns p < n_chain p) by (apply Z.div_lt_upper_bound; nia).
  assert (0 <= (send - t0_ns p) / t_int_ns p) by (apply Z.div_pos; lia).
  rewrite u64_id by width. destruct (Z.leb_spec (1 + (send - t0_ns p) / t_int_ns p) (n_chain p)); [|lia].
  by eexists.
Qed.

(** Clock readings that do not saturate. *)
Definition clock_fits (p : TeslaSchedule) (arrival : Z) : Prop :=
  0 <= arrival /\ arrival + d_t_ns p < u64_max.

Lemma upper_bound_spec p arrival :
  schedule_ok p -> clock_fits p arrival ->
  exists x, sender_upper_bound p arrival = Ret x /\ 1 <= x /\
    (forall tau, t0_ns p <= tau <= arrival + d_t_ns p -> tau < interval_start p (x + 1)) /\
    (t0_ns p <= arrival + d_t_ns p -> interval_start p x <= arrival + d_t_ns p).
Proof.
  intros (? & ? & ? & Hn & ? & ? & Ht & ?) [Ha Hf]. unfold sender_upper_bound, div_u64, saturating_add64, saturating_sub.
  destruct (Z.eqb_spec (t_int_ns p) 0); [lia|]. cbn [mbind outcome_bind].
  rewrite Z.min_r by lia. set (e := Z.max 0 (arrival + d_t_ns p - t0_ns p)).
  pose proof (Z.div_mod e (t_int_ns p) ltac:(lia)). pose proof (Z.mod_pos_bound e (t_int_ns p) ltac:(lia)).
  assert (0 <= e / t_int_ns p) by (apply Z.div_pos; lia).
  assert (e / t_int_ns p <= e) by (apply Z.div_le_upper_bound; nia).
  eexists. split; [done|]. rewrite u64_id by (unfold u64_max in *; width).
  unfold interval_start. split; [lia|]. split; [intros tau Htau; nia|]. intros. nia.
Qed.

(** ** The accept test *)

Lemma accepts_safe p arrival i :
  schedule_ok p -> clock_fits p arrival -> in_u32 i -> accepts p arrival i = Ret Safe ->
  forall tau, t0_ns p <= tau <= arrival + d_t_ns p -> tau < interval_start p (i + d p).
Proof.
  intros Hok Hclk Hi H tau Htau. pose proof Hok as (_ & _ & Hd & _ & _ & _ & Ht & _).
  destruct (upper_bound_spec p arrival Hok Hclk) as (x & Hx & _ & Hbound & _).
  unfold accepts in H. rewrite Hx in H. cbn [mbind outcome_bind] in H. rewrite u64_id in H by width.
  destruct (Z.ltb_spec x (i + d p)); [|discriminate]. specialize (Hbound tau Htau).
  unfold interval_start in *. nia.
Qed.

Lemma accepts_before p arrival i :
  schedule_ok p -> clock_fits p arrival -> in_u32 i -> 1 <= i ->
  arrival + d_t_ns p < interval_start p (i + d p) -> accepts p arrival i = Ret Safe.
Proof.
  intros Hok Hclk Hi Hi1 Hlate.
  destruct (upper_bound_spec p arrival Hok Hclk) as (x & Hx & Hx1 & _ & Hstart).
  pose proof Hok as (?&?&Hd&Hn&?&?&Ht&Hd2&?).
  unfold accepts. rewrite Hx. cbn [mbind outcome_bind]. rewrite u64_id by width.
  destruct (Z.ltb_spec x (i + d p)); [done|]. exfalso.
  destruct (Z.le_gt_cases (t0_ns p) (arrival + d_t_ns p)) as [Hle|Hgt].
  - specialize (Hstart Hle). unfold interval_start in *. nia.
  - unfold sender_upper_bound, div_u64, saturating_add64, saturating_sub in Hx.
    destruct Hclk. rewrite Z.min_r, Z.max_l in Hx by lia.
    destruct (Z.eqb_spec (t_int_ns p) 0); [lia|]. cbn [mbind outcome_bind] in Hx.
    rewrite Z.div_0_l in Hx by lia. apply (inj Ret) in Hx. change (u64 (1 + 0)) with 1 in Hx. lia.
Qed.

(** A key is disclosed only in packets sent after every arrival that
    accepted its interval. *)
Lemma key_still_secret p arrival i send j :
  schedule_ok p -> clock_fits p arrival -> in_u32 i -> 1 <= i -> accepts p arrival i = Ret Safe ->
  0 <= send < u64_max -> send <= arrival + d_t_ns p -> interval_of p send = Ret j ->
  disclosed_index p j < i.
Proof.
  intros Hok Hclk Hi Hi1 Hacc Hs Hle Hj.
  destruct (interval_of_spec p send j Hok Hs Hj) as (Hjr & Hstart & _).
  assert (t0_ns p <= send) by (unfold interval_start in Hstart; destruct Hok as (?&?&?&?&?&?&?&?); nia).
  pose proof (accepts_safe p arrival i Hok Hclk Hi Hacc send ltac:(lia)) as Hlt.
  destruct Hok as (?&?&?&?&?&?&?&?). unfold disclosed_index, saturating_sub, interval_start in *. nia.
Qed.

(** TESLA's security condition: if the accept test passes a packet of
    interval i at an arrival time, then no packet the sender can have sent
    by then, its clock being at most D_t ahead, discloses the key of
    interval i or a later one. *)
Lemma accepted_key_still_secret p arrival i send j :
  schedule_ok p -> clock_fits p arrival -> in_u32 i -> 1 <= i -> accepts p arrival i = Ret Safe ->
  0 <= send < u64_max -> send <= arrival + d_t_ns p -> interval_of p send = Ret j ->
  disclosed_index p j < i.
Proof. intros. by eapply key_still_secret. Qed.

(** A packet that travels no longer than (d-1)*T_int - D_t passes the
    accept test, wherever in its interval it was sent. *)
Lemma travel_budget p send arrival i :
  schedule_ok p -> clock_fits p arrival -> 0 <= send < u64_max -> interval_of p send = Ret i ->
  arrival - send <= (d p - 1) * t_int_ns p - d_t_ns p -> accepts p arrival i = Ret Safe.
Proof.
  intros Hok Hclk Hs Hi Hb. destruct (interval_of_spec p send i Hok Hs Hi) as (Hir & _ & Hend).
  pose proof Hok as (?&?&?&?&?&?&?&?&?). apply accepts_before; [done|done|width|lia|].
  unfold interval_start in *. nia.
Qed.

(** ** Concrete instances *)

(** The schedule of the source's own tests: one-second intervals, [d = 2],
    [D_t] a tenth of a second. *)
Definition sample : TeslaSchedule := mkTeslaSchedule 0 1000000000 2 100 100000000 16.

Lemma sample_ok : schedule_ok sample.
Proof. unfold schedule_ok; cbn; split_and!; width. Qed.

Lemma accepted_key_still_secret_witness :
  accepts sample 6400000000 6 = Ret Safe /\ interval_of sample 6500000000 = Ret 7 /\
  disclosed_index sample 7 < 6.
Proof.
  split; [reflexivity|]. split; [reflexivity|].
  apply (accepted_key_still_secret sample 6400000000 6 6500000000 7);
    [exact sample_ok|split; cbn; width|width|lia|reflexivity|unfold u64_max; lia|cbn; lia|reflexivity].
Defined.

Lemma travel_budget_witness :
  interval_of sample 5999999999 = Ret 6 /\ accepts sample 6899999999 6 = Ret Safe.
Proof.
  split; [reflexivity|].
  apply (travel_budget sample 5999999999 6899999999 6);
    [exact sample_ok|split; cbn; width|unfold u64_max; lia|reflexivity|cbn; lia].
Defined.
