(* ===== verification/TeslaMac.v ===== *)
(** * TeslaMac: the packet MAC and the authentication extension
      (src/src/tesla/mac.rs, src/src/tesla/mod.rs) *)

From S2P Require Import Prelude Bytes Crypto TeslaChain.

Definition TESLA_MAC_LEN : nat := 10.
Definition TESLA_EXT_LEN : nat := 4 + TESLA_KEY_LEN + TESLA_MAC_LEN.

Inductive TeslaMacAlg := HmacSha256 | GmacAes128.

#[export] Instance TeslaMacAlg_eq_dec : EqDecision TeslaMacAlg.
Proof. solve_decision. Defined.

(** The keyed MAC state: a hash state that absorbed its key, or a cipher
    context whose key schedule ran.  [tag] works on a copy of the former and
    resets the nonce of the latter, so neither carries anything over from one
    packet to the next. *)
Inductive PreparedMac :=
| Hmac (key : bytes)
| Gmac (key : bytes).

Definition mac_key_len (self : TeslaMacAlg) : nat :=
  match self with HmacSha256 => 32 | GmacAes128 => 16 end.

Section Mac.
Context {CR : Crypto}.

Definition prepare (self : TeslaMacAlg) (chain_key : bytes) : outcome PreparedMac :=
  key ← mac_key chain_key (mac_key_len self);
  Ret (match self with HmacSha256 => Hmac key | GmacAes128 => Gmac key end).

Definition tag (self : PreparedMac) (ext_index : Z) (packet : bytes) : bytes :=
  match self with
  | Hmac key =>
      let roc := u32_be (u32 (Z.shiftr ext_index 16)) in
      take TESLA_MAC_LEN (hmac_sha256 key (roc ++ packet))
  | Gmac key =>
      let nonce := replicate 4 0 ++ u64_be ext_index in
      (* no plaintext: the sealed output is the sixteen-byte tag *)
      take TESLA_MAC_LEN (gcm_seal key nonce packet [])
  end.

End Mac.

Definition append_extension (buf : bytes) (interval : Z) (disclosed mac : bytes) : bytes :=
  buf ++ u32_be interval ++ disclosed ++ mac.

(** The extension's fields and the buffer truncated to the SRTP packet. *)
Definition split_extension (buf : bytes) : outcome (option (Z * bytes * bytes) * bytes) :=
  if bool_decide (length buf <= TESLA_EXT_LEN)%nat then Ret (None, buf)
  else
    let base := (length buf - TESLA_EXT_LEN)%nat in
    i ← slice buf base (base + 4);
    disclosed ← slice buf (base + 4) (base + 4 + TESLA_KEY_LEN);
    mac ← slice buf (base + 4 + TESLA_KEY_LEN) (length buf);
    Ret (Some (from_be_bytes i, disclosed, mac), take base buf).

(** ** Properties *)

Section Facts.
Context {CR : Crypto} {CL : CryptoLaws}.

Lemma mac_key_ok k n : (n <= 32)%nat -> exists mk, mac_key k n = Ret mk /\ length mk = n.
Proof.
  intros Hn. unfold mac_key. rewrite bool_decide_eq_true_2 by done. cbn [assert mbind outcome_bind]. unfold slice.
  pose proof (length_hmac_sha256 k [1]) as Hl. unfold HASH_LEN in Hl.
  rewrite bool_decide_eq_true_2 by lia. eexists. split; [done|].
  rewrite drop_0, length_take. lia.
Qed.

Lemma prepare_ok alg k : exists p, prepare alg k = Ret p.
Proof.
  unfold prepare. destruct (mac_key_ok k (mac_key_len alg)) as (mk & -> & _); [destruct alg; cbn; lia|].
  by eexists.
Qed.

Lemma length_tag p e pkt : length (tag p e pkt) = TESLA_MAC_LEN.
Proof.
  destruct p; unfold tag; rewrite length_take, ?length_hmac_sha256, ?length_gcm_seal; done.
Qed.

End Facts.

(** Splitting what was appended, as a lemma for the components above. *)
Lemma split_append buf interval disclosed mac :
  buf ≠ [] -> in_u32 interval -> length disclosed = TESLA_KEY_LEN -> length mac = TESLA_MAC_LEN ->
  split_extension (append_extension buf interval disclosed mac) = Ret (Some (interval, disclosed, mac), buf).
Proof.
  intros Hb Hi Hd Hm. unfold split_extension, append_extension.
  assert (0 < length buf)%nat by (destruct buf; cbn; [done|lia]).
  assert (length (buf ++ u32_be interval ++ disclosed ++ mac) = length buf + TESLA_EXT_LEN)%nat as Hlen.
  { rewrite !length_app, length_u32_be, Hd, Hm. unfold TESLA_EXT_LEN. lia. }
  rewrite Hlen, bool_decide_eq_false_2 by lia. rewrite Nat.add_sub. cbn zeta.
  assert (slice (buf ++ u32_be interval ++ disclosed ++ mac) (length buf) (length buf + 4) =
    Ret (u32_be interval)) as -> by (change 4%nat with (length (u32_be interval)); apply slice_app_mid).
  assert (slice (buf ++ u32_be interval ++ disclosed ++ mac) (length buf + 4) (length buf + 4 + TESLA_KEY_LEN) =
    Ret disclosed) as ->.
  { rewrite app_assoc, <- Hd. change 4%nat with (length (u32_be interval)).
    rewrite <- length_app. apply slice_app_mid. }
  assert (slice (buf ++ u32_be interval ++ disclosed ++ mac) (length buf + 4 + TESLA_KEY_LEN)
    (length buf + TESLA_EXT_LEN) = Ret mac) as ->.
  { rewrite <- Hlen, <- Hd. change 4%nat with (length (u32_be interval)).
    rewrite <- !length_app, !app_assoc. apply slice_app_end. }
  cbn [mbind outcome_bind]. by rewrite from_u32_be, take_app_length.
Qed.

(** C31: Splitting the TESLA extension off what append_extension built around a
    non-empty packet gives back the interval, the disclosed key, the MAC and
    the packet, and the extension is 34 bytes long. *)
Theorem extension_roundtrip buf interval disclosed mac :
  buf ≠ [] -> in_u32 interval -> length disclosed = TESLA_KEY_LEN -> length mac = TESLA_MAC_LEN ->
  split_extension (append_extension buf interval disclosed mac) = Ret (Some (interval, disclosed, mac), buf) /\
  length (append_extension buf interval disclosed mac) = (length buf + TESLA_EXT_LEN)%nat.
Proof.
  intros Hb Hi Hd Hm. split; [by apply split_append|].
  unfold append_extension. rewrite !length_app, length_u32_be, Hd, Hm. unfold TESLA_EXT_LEN. lia.
Qed.

Lemma extension_roundtrip_witness :
  split_extension (append_extension [1; 2; 3] 0x01020304 (replicate 20 0xAB) (replicate 10 0xCD)) =
    Ret (Some (0x01020304, replicate 20 0xAB, replicate 10 0xCD), [1; 2; 3]) /\
  length (append_extension [1; 2; 3] 0x01020304 (replicate 20 0xAB) (replicate 10 0xCD)) = 37%nat.
Proof.
  apply (extension_roundtrip [1; 2; 3] 0x01020304 (replicate 20 0xAB) (replicate 10 0xCD));
    [done|width|reflexivity|reflexivity].
Defined.

(** Splitting never panics, and a packet that is long enough is the
    extension's re-encoding. *)
Lemma split_total buf :
  exists r buf', split_extension buf = Ret (r, buf') /\
    match r with
    | None => (length buf <= TESLA_EXT_LEN)%nat /\ buf' = buf
    | Some (i, k, m) =>
        buf' ≠ [] /\ length k = TESLA_KEY_LEN /\ length m = TESLA_MAC_LEN /\
        (bytes_ok buf -> in_u32 i /\ append_extension buf' i k m = buf)
    end.
Proof.
  unfold split_extension. case_bool_decide as Hlen; [by eexists _, _|].
  unfold TESLA_EXT_LEN, TESLA_KEY_LEN, TESLA_MAC_LEN in *. cbn [Nat.add] in *. cbn zeta.
  set (base := (length buf - 34)%nat). unfold slice.
  rewrite !bool_decide_eq_true_2 by lia. cbn [mbind outcome_bind].
  replace (base + 4 - base)%nat with 4%nat by lia.
  replace (base + 4 + 20 - (base + 4))%nat with 20%nat by lia.
  eexists _, _. split; [done|]. cbn beta iota. split_and!.
  - intros Hn%(f_equal length). rewrite length_take in Hn. cbn in Hn. lia.
  - rewrite length_take, length_drop. lia.
  - rewrite length_take, length_drop. lia.
  - intros Hok. assert (bytes_ok (take 4 (drop base buf))) as Hi4 by (by apply Forall_take, Forall_drop).
    assert (length (take 4 (drop base buf)) = 4%nat) as Hl4 by (rewrite length_take, length_drop; lia).
    split.
    + pose proof (from_be_range _ Hi4) as Hr. rewrite Hl4 in Hr. done.
    + unfold append_extension, u32_be. rewrite to_from_be_n by done.
      rewrite (take_ge (drop (base + 4 + 20) buf)) by (rewrite length_drop; lia).
      rewrite <- (drop_drop buf 20 (base + 4)), take_drop, <- (drop_drop buf 4 base), take_drop.
      apply take_drop.
Qed.
