(* ===== verification/TeslaCommitment.v ===== *)
(** * TeslaCommitment: the signed bootstrap message
      (src/src/tesla/commitment.rs)

    The bytes that get signed determine every field, so a signature binds
    the anchor, the schedule, the algorithm and the stream's context. *)

From Stdlib Require Import String.
From S2P Require Import Prelude Bytes Crypto TeslaChain TeslaSchedule TeslaMac.

Definition DOMAIN : bytes := str_bytes "MLS-SRTP TESLA commitment"%string.

Record TeslaCommitment := mkTeslaCommitment {
  tc_anchor : bytes;
  tc_t0_ns : Z;
  tc_t_int_ns : Z;
  tc_d : Z;
  tc_n_chain : Z;
  tc_mac_alg : TeslaMacAlg;
  tc_sender_identity : bytes;
  tc_ssrc : Z;
  tc_group_id : bytes;
  tc_epoch : Z
}.

Definition mac_alg_byte (alg : TeslaMacAlg) : Z :=
  match alg with HmacSha256 => 0 | GmacAes128 => 1 end.

(** [len() as u32]. *)
Definition len_u32 (l : bytes) : Z := u32 (Z.of_nat (length l)).

Definition TeslaCommitment_to_bytes (self : TeslaCommitment) : bytes :=
  DOMAIN ++ tc_anchor self ++ u64_be (tc_t0_ns self) ++ u64_be (tc_t_int_ns self) ++
  u32_be (tc_d self) ++ u32_be (tc_n_chain self) ++ [mac_alg_byte (tc_mac_alg self)] ++
  u32_be (len_u32 (tc_sender_identity self)) ++ tc_sender_identity self ++
  u32_be (tc_ssrc self) ++
  u32_be (len_u32 (tc_group_id self)) ++ tc_group_id self ++
  u64_be (tc_epoch self).

Section Commitment.
Context {CR : Crypto}.

Definition commitment_sign (self : TeslaCommitment) (signer : bytes) : bytes :=
  ed25519_sign signer (TeslaCommitment_to_bytes self).

Definition commitment_verify (self : TeslaCommitment) (signature sender_public_key : bytes) : bool :=
  ed25519_verify sender_public_key (TeslaCommitment_to_bytes self) signature.

End Commitment.

Definition commitment_schedule (self : TeslaCommitment) (d_t_ns g_max : Z) : outcome TeslaSchedule :=
  TeslaSchedule_new (tc_t0_ns self) (tc_t_int_ns self) (tc_d self) (tc_n_chain self) d_t_ns g_max.

(** ** Properties *)

(** The field widths, and byte vectors a 32-bit length describes. *)
Definition commitment_ok (c : TeslaCommitment) : Prop :=
  length (tc_anchor c) = TESLA_KEY_LEN /\ in_u64 (tc_t0_ns c) /\ in_u64 (tc_t_int_ns c) /\
  in_u32 (tc_d c) /\ in_u32 (tc_n_chain c) /\ in_u32 (tc_ssrc c) /\ in_u64 (tc_epoch c) /\
  Z.of_nat (length (tc_sender_identity c)) < 2 ^ 32 /\ Z.of_nat (length (tc_group_id c)) < 2 ^ 32.

Lemma mac_alg_byte_inj a b : mac_alg_byte a = mac_alg_byte b -> a = b.
Proof. by destruct a, b. Qed.

(** A length-prefixed field and what follows it. *)
Lemma prefixed_eq (v w x y : bytes) :
  Z.of_nat (length v) < 2 ^ 32 -> Z.of_nat (length w) < 2 ^ 32 ->
  u32_be (len_u32 v) ++ v ++ x = u32_be (len_u32 w) ++ w ++ y -> v = w /\ x = y.
Proof.
  intros Hv Hw. rewrite app_eq_fields by by rewrite !length_u32_be. intros [Hl Hr].
  unfold len_u32 in Hl. rewrite !u32_id in Hl by width.
  apply u32_be_inj in Hl; [|width..]. apply app_eq_fields in Hr; [done|lia].
Qed.

(** C32: The signed bytes determine the commitment: two commitments with the
    same encoding agree in every field, so a signature cannot be moved to
    another anchor, schedule, algorithm, sender, stream, group or epoch. *)
Theorem commitment_bytes_injective c c' :
  commitment_ok c -> commitment_ok c' ->
  TeslaCommitment_to_bytes c = TeslaCommitment_to_bytes c' -> c = c'.
Proof.
  intros (Ha & Ht0 & Ht & Hd & Hn & Hs & He & Hi & Hg) (Ha' & Ht0' & Ht' & Hd' & Hn' & Hs' & He' & Hi' & Hg') H.
  unfold TeslaCommitment_to_bytes in H.
  apply app_eq_fields in H as [_ H]; [|done].
  apply app_eq_fields in H as [E1 H]; [|congruence].
  apply app_eq_fields in H as [E2 H]; [|by rewrite !length_u64_be].
  apply app_eq_fields in H as [E3 H]; [|by rewrite !length_u64_be].
  apply app_eq_fields in H as [E4 H]; [|by rewrite !length_u32_be].
  apply app_eq_fields in H as [E5 H]; [|by rewrite !length_u32_be].
  apply app_eq_fields in H as [E6 H]; [|done].
  assert (mac_alg_byte (tc_mac_alg c) = mac_alg_byte (tc_mac_alg c')) as E6' by congruence.
  apply mac_alg_byte_inj in E6'.
  apply prefixed_eq in H as [E7 H]; [|done..].
  apply app_eq_fields in H as [E8 H]; [|by rewrite !length_u32_be].
  apply prefixed_eq in H as [E9 E10]; [|done..].
  apply u64_be_inj in E2, E3, E10; [|done..]. apply u32_be_inj in E4, E5, E8; [|done..].
  destruct c, c'; unfold tc_anchor, tc_t0_ns, tc_t_int_ns, tc_d, tc_n_chain, tc_mac_alg,
    tc_sender_identity, tc_ssrc, tc_group_id, tc_epoch in *; congruence.
Qed.

Section Facts.
Context {CR : Crypto} {CL : CryptoLaws}.

Lemma verify_signed c sk :
  commitment_verify c (commitment_sign c sk) (ed25519_public sk) = true.
Proof. apply ed25519_verify_sign. Qed.

End Facts.

Definition sample_commitment : TeslaCommitment :=
  mkTeslaCommitment (replicate 20 7) 0 1000000 2 64 HmacSha256 (str_bytes "camera-1:sender"%string) 0x1234
    (str_bytes "studio-group"%string) 3.

Lemma sample_commitment_ok : commitment_ok sample_commitment.
Proof. unfold commitment_ok; split_and!; first [reflexivity | vm_compute; split; congruence | vm_compute; reflexivity]. Qed.

Lemma commitment_bytes_injective_witness :
  TeslaCommitment_to_bytes sample_commitment = TeslaCommitment_to_bytes sample_commitment /\
  sample_commitment = sample_commitment.
Proof.
  split; [reflexivity|].
  apply (commitment_bytes_injective sample_commitment sample_commitment);
    [exact sample_commitment_ok..|reflexivity].
Defined.
