(* ===== verification/TeslaSender.v ===== *)
(** * TeslaSender: authenticating outgoing packets (src/src/tesla/sender.rs)

    The sender keeps the whole chain and the prepared MAC state of the
    current interval.  The final key, fresh randomness in the source, is an
    argument of [TeslaSender_new]. *)

From S2P Require Import Prelude Bytes Crypto TeslaChain TeslaSchedule TeslaMac.

Record TeslaSender := mkTeslaSender {
  ts_params : TeslaSchedule;
  ts_chain : TeslaChain;
  ts_alg : TeslaMacAlg;
  ts_current_interval : Z;
  ts_prepared : PreparedMac
}.

Section Sender.
Context {CR : Crypto}.

(** [TeslaChain::generate] with its random bytes made explicit. *)
Definition generate (k_final : bytes) (n_chain : Z) : outcome TeslaChain := from_final_key k_final n_chain.

Definition TeslaSender_new (params : TeslaSchedule) (alg : TeslaMacAlg) (k_final : bytes) : outcome TeslaSender :=
  chain ← generate k_final (n_chain params);
  k1 ← chain_key chain 1;
  prepared ← prepare alg k1;
  Ret (mkTeslaSender params chain alg 1 prepared).

Definition sender_anchor (self : TeslaSender) : outcome bytes := anchor (ts_chain self).

Definition authenticate (self : TeslaSender) (buf : bytes) (ext_index send_ns : Z) :
    outcome (bytes * TeslaSender) :=
  interval ← interval_of (ts_params self) send_ns;
  self ← (if negb (interval =? ts_current_interval self) then
            k ← chain_key (ts_chain self) interval;
            prepared ← prepare (ts_alg self) k;
            Ret (mkTeslaSender (ts_params self) (ts_chain self) (ts_alg self) interval prepared)
          else Ret self);
  let mac := tag (ts_prepared self) ext_index buf in
  disclosed ← chain_key (ts_chain self) (disclosed_index (ts_params self) interval);
  Ret (append_extension buf interval disclosed mac, self).

(** ** The reference: what an authenticated packet is *)

(** The MAC of a packet under the chain key of its interval. *)
Definition packet_mac (alg : TeslaMacAlg) (k : bytes) (ext_index : Z) (buf : bytes) : bytes :=
  match prepare alg k with Ret p => tag p ext_index buf | Panic => [] end.

(** The datagram for [buf] sent in [interval] by the chain of [kf]. *)
Definition tesla_packet (p : TeslaSchedule) (alg : TeslaMacAlg) (kf buf : bytes) (ext_index interval : Z) : bytes :=
  append_extension buf interval (true_key kf (n_chain p) (disclosed_index p interval))
    (packet_mac alg (true_key kf (n_chain p) interval) ext_index buf).

End Sender.

Section Facts.
Context {CR : Crypto} {CL : CryptoLaws}.

(** The MAC state is always the current interval's. *)
Definition sender_ok (kf : bytes) (self : TeslaSender) : Prop :=
  schedule_ok (ts_params self) /\ from_final_key kf (n_chain (ts_params self)) = Ret (ts_chain self) /\
  1 <= ts_current_interval self <= n_chain (ts_params self) /\
  prepare (ts_alg self) (true_key kf (n_chain (ts_params self)) (ts_current_interval self)) =
    Ret (ts_prepared self).

Lemma chain_keys_true kf n c i :
  0 <= i <= n -> from_final_key kf n = Ret c -> chain_key c i = Ret (true_key kf n i).
Proof.
  intros Hi Hc. destruct (from_final_key_ok kf n ltac:(lia)) as (c' & Hc' & Hk).
  rewrite Hc in Hc'. apply (inj Ret) in Hc' as <-. by apply Hk.
Qed.

Lemma sender_new_ok params alg kf :
  schedule_ok params ->
  exists self, TeslaSender_new params alg kf = Ret self /\ sender_ok kf self /\
    ts_params self = params /\ ts_alg self = alg.
Proof.
  intros Hok. pose proof Hok as (_ & _ & _ & _ & _ & _ & _ & _ & Hn & _).
  unfold TeslaSender_new, generate.
  destruct (from_final_key_ok kf (n_chain params) ltac:(lia)) as (c & Hc & Hk). rewrite Hc.
  cbn [mbind outcome_bind]. rewrite Hk by lia. cbn [mbind outcome_bind].
  destruct (prepare_ok alg (true_key kf (n_chain params) 1)) as (p & Hp). rewrite Hp.
  eexists. split; [done|]. split; [|done]. split_and!; cbn; done || lia.
Qed.

(** [authenticate] writes the reference datagram. *)
Lemma authenticate_spec kf self buf e send i :
  sender_ok kf self -> interval_of (ts_params self) send = Ret i -> 0 <= send < u64_max ->
  exists self',
    authenticate self buf e send = Ret (tesla_packet (ts_params self) (ts_alg self) kf buf e i, self') /\
    sender_ok kf self' /\ ts_params self' = ts_params self /\ ts_alg self' = ts_alg self.
Proof.
  intros (Hok & Hc & Hcur & Hp) Hi Hs. destruct (interval_of_spec _ _ _ Hok Hs Hi) as [Hir _].
  pose proof Hok as (_ & _ & Hd & _ & _ & _ & _ & Hd2 & _).
  assert (0 <= disclosed_index (ts_params self) i <= n_chain (ts_params self)) as Hdi
    by (unfold disclosed_index, saturating_sub; lia).
  unfold authenticate, tesla_packet. rewrite Hi. cbn [mbind outcome_bind].
  destruct (Z.eqb_spec i (ts_current_interval self)) as [->|Hne]; cbn [negb].
  - cbn [mbind outcome_bind]. rewrite (chain_keys_true kf (n_chain (ts_params self))) by done.
    cbn [mbind outcome_bind]. exists self. split; [|done]. unfold packet_mac. by rewrite Hp.
  - rewrite (chain_keys_true kf (n_chain (ts_params self))) by (done || lia). cbn [mbind outcome_bind].
    destruct (prepare_ok (ts_alg self) (true_key kf (n_chain (ts_params self)) i)) as (p & Hp').
    rewrite Hp'. cbn [mbind outcome_bind ts_prepared ts_chain ts_params].
    rewrite (chain_keys_true kf (n_chain (ts_params self))) by done. cbn [mbind outcome_bind].
    eexists. split; [unfold packet_mac; by rewrite Hp'|].
    split; [|done]. split_and!; cbn; done || lia.
Qed.

(** Authenticating a whole stream: (packet, index, send time) triples. *)
Fixpoint authenticate_all (self : TeslaSender) (l : list (bytes * Z * Z)) : outcome (list bytes * TeslaSender) :=
  match l with
  | [] => Ret ([], self)
  | (buf, e, send) :: l =>
      '(w, self) ← authenticate self buf e send;
      '(ws, self) ← authenticate_all self l;
      Ret (w :: ws, self)
  end.

Lemma authenticate_all_spec kf self l ivs :
  sender_ok kf self ->
  Forall2 (fun '(_, _, send) i => interval_of (ts_params self) send = Ret i /\ 0 <= send < u64_max) l ivs ->
  exists self',
    authenticate_all self l =
      Ret (zip_with (fun '(buf, e, _) i => tesla_packet (ts_params self) (ts_alg self) kf buf e i) l ivs, self') /\
    sender_ok kf self' /\ ts_params self' = ts_params self /\ ts_alg self' = ts_alg self.
Proof.
  revert self ivs. induction l as [|[[buf e] send] l IH]; intros self ivs Hok Hall.
  - apply Forall2_nil_inv_l in Hall as ->. by exists self.
  - apply Forall2_cons_inv_l in Hall as (i & ivs' & [Hi Hs] & Hall & ->).
    destruct (authenticate_spec kf self buf e send i Hok Hi Hs) as (self1 & H1 & Hok1 & Hp1 & Ha1).
    destruct (IH self1 ivs' Hok1) as (self2 & H2 & Hok2 & Hp2 & Ha2); [by rewrite Hp1|].
    exists self2. cbn [authenticate_all]. rewrite H1. cbn [mbind outcome_bind]. rewrite H2.
    rewrite Hp1, Ha1 in *. done.
Qed.

(** TeslaSender::authenticate, over a whole stream and across interval
    changes, appends to each packet its interval, the key disclosed for that
    interval and the MAC under the interval's own chain key. *)
Lemma sender_stream_authenticated params alg kf l ivs :
  schedule_ok params ->
  Forall2 (fun '(_, _, send) i => interval_of params send = Ret i /\ 0 <= send < u64_max) l ivs ->
  exists self0 self',
    TeslaSender_new params alg kf = Ret self0 /\
    authenticate_all self0 l =
      Ret (zip_with (fun '(buf, e, _) i => tesla_packet params alg kf buf e i) l ivs, self').
Proof.
  intros Hok Hall. destruct (sender_new_ok params alg kf Hok) as (self0 & Hnew & Hs & Hp & Ha).
  destruct (authenticate_all_spec kf self0 l ivs Hs) as (self' & Hrun & _); [by rewrite Hp|].
  exists self0, self'. by rewrite Hp, Ha in Hrun.
Qed.

End Facts.

Import Toy.

Lemma sender_stream_authenticated_witness :
  exists self0 self',
    TeslaSender_new sample GmacAes128 (replicate 20 9) = Ret self0 /\
    authenticate_all self0 [([1; 2], 0, 500000000); ([3], 1, 2500000000)] =
      Ret (zip_with (fun '(buf, e, _) i => tesla_packet sample GmacAes128 (replicate 20 9) buf e i)
             [([1; 2], 0, 500000000); ([3], 1, 2500000000)] [1; 3], self').
Proof.
  apply (sender_stream_authenticated sample GmacAes128 (replicate 20 9)).
  - exact sample_ok.
  - repeat constructor; unfold u64_max; lia.
Defined.
