(* ===== verification/TeslaReceiver.v ===== *)
(** * TeslaReceiver: accepting, buffering and settling packets
      (src/src/tesla/receiver.rs)

    The receiver wraps the SRTP receiver of Receiver.v.  The drawers, a
    [BTreeMap] in the source, are a finite map from intervals to the waiting
    packets in arrival order. *)

From S2P Require Import Prelude Bytes Crypto Rtp IndexRecovery Session Receiver TeslaChain TeslaSchedule TeslaMac.
From S2P Require Import TeslaCommitment.

Inductive TeslaDrop :=
| Malformed
| TDUnsafeLate
| BadDisclosure
| Srtp (drop : RecvDrop).

Record TeslaStats := mkTeslaStats {
  delivered : Z;
  verified : Z;
  forged : Z;
  drops_malformed : Z;
  drops_unsafe : Z;
  drops_bad_disclosure : Z;
  drops_srtp : Z;
  peak_pending : Z;
  latencies_ns : list Z
}.

Definition TeslaStats_default : TeslaStats := mkTeslaStats 0 0 0 0 0 0 0 0 [].

Record DrawerEntry := mkDrawerEntry {
  de_ext_index : Z;
  de_arrival_ns : Z;
  de_mac : bytes;
  de_covered : bytes
}.

Abbreviation drawers_t := (gmap Z (list DrawerEntry)).

Record TeslaReceiver (S : Type) := mkTeslaReceiver {
  tr_params : TeslaSchedule;
  tr_verifier : ChainVerifier;
  tr_alg : TeslaMacAlg;
  tr_inner : ReceiverKeyManager S;
  tr_recovery : IndexRecovery;
  tr_drawers : drawers_t;
  tr_pending : Z;
  tr_stats : TeslaStats
}.
Arguments mkTeslaReceiver {S}.
Arguments tr_params {S}.
Arguments tr_verifier {S}.
Arguments tr_alg {S}.
Arguments tr_inner {S}.
Arguments tr_recovery {S}.
Arguments tr_drawers {S}.
Arguments tr_pending {S}.
Arguments tr_stats {S}.

(** ** Counter updates *)

Definition count_drop (drop : TeslaDrop) (t : TeslaStats) : TeslaStats :=
  let upd m u b s :=
    mkTeslaStats (delivered t) (verified t) (forged t) m u b s (peak_pending t) (latencies_ns t) in
  let m := drops_malformed t in
  let u := drops_unsafe t in
  let b := drops_bad_disclosure t in
  let s := drops_srtp t in
  match drop with
  | Malformed => upd (u64 (m + 1)) u b s
  | TDUnsafeLate => upd m (u64 (u + 1)) b s
  | BadDisclosure => upd m u (u64 (b + 1)) s
  | Srtp _ => upd m u b (u64 (s + 1))
  end.

Definition count_verified (latency : Z) (t : TeslaStats) : TeslaStats :=
  mkTeslaStats (delivered t) (u64 (verified t + 1)) (forged t) (drops_malformed t) (drops_unsafe t)
    (drops_bad_disclosure t) (drops_srtp t) (peak_pending t) (latencies_ns t ++ [latency]).

Definition count_forged (t : TeslaStats) : TeslaStats :=
  mkTeslaStats (delivered t) (verified t) (u64 (forged t + 1)) (drops_malformed t) (drops_unsafe t)
    (drops_bad_disclosure t) (drops_srtp t) (peak_pending t) (latencies_ns t).

Definition count_delivered (pending : Z) (t : TeslaStats) : TeslaStats :=
  mkTeslaStats (u64 (delivered t + 1)) (verified t) (forged t) (drops_malformed t) (drops_unsafe t)
    (drops_bad_disclosure t) (drops_srtp t) (Z.max (peak_pending t) pending) (latencies_ns t).

Section Receiver.
Context {CR : Crypto} {S : Type} {OPS : SrtpOps S}.
Implicit Types self : TeslaReceiver S.

Definition tr_set_stats self (f : TeslaStats -> TeslaStats) : TeslaReceiver S :=
  mkTeslaReceiver (tr_params self) (tr_verifier self) (tr_alg self) (tr_inner self) (tr_recovery self)
    (tr_drawers self) (tr_pending self) (f (tr_stats self)).
Definition tr_set_inner self (inner : ReceiverKeyManager S) : TeslaReceiver S :=
  mkTeslaReceiver (tr_params self) (tr_verifier self) (tr_alg self) inner (tr_recovery self)
    (tr_drawers self) (tr_pending self) (tr_stats self).
Definition tr_set_recovery self (r : IndexRecovery) : TeslaReceiver S :=
  mkTeslaReceiver (tr_params self) (tr_verifier self) (tr_alg self) (tr_inner self) r
    (tr_drawers self) (tr_pending self) (tr_stats self).
Definition tr_set_verifier self (v : ChainVerifier) : TeslaReceiver S :=
  mkTeslaReceiver (tr_params self) v (tr_alg self) (tr_inner self) (tr_recovery self)
    (tr_drawers self) (tr_pending self) (tr_stats self).
Definition tr_set_drawers self (drawers : drawers_t) (pending : Z) : TeslaReceiver S :=
  mkTeslaReceiver (tr_params self) (tr_verifier self) (tr_alg self) (tr_inner self) (tr_recovery self)
    drawers pending (tr_stats self).

Definition accept (commitment : TeslaCommitment) (signature sender_public_key : bytes) (d_t_ns g_max : Z)
    (inner : ReceiverKeyManager S) : outcome (option (TeslaReceiver S)) :=
  if negb (commitment_verify commitment signature sender_public_key) then Ret None
  else
    params ← commitment_schedule commitment d_t_ns g_max;
    Ret (Some (mkTeslaReceiver params
      (ChainVerifier_new (tc_anchor commitment) (n_chain params) (TeslaSchedule.g_max params))
      (tc_mac_alg commitment) inner IndexRecovery_default ∅ 0 TeslaStats_default)).

Definition unsettled self : Z := tr_pending self.

(** One waiting packet against its interval's key. *)
Definition settle_entry (prepared : PreparedMac) (now_ns : Z) self (entry : DrawerEntry) : TeslaReceiver S :=
  let self :=
    if bool_decide (tag prepared (de_ext_index entry) (de_covered entry) = de_mac entry)
    then tr_set_stats self (count_verified (u64 (now_ns - de_arrival_ns entry)))
    else tr_set_stats self count_forged in
  tr_set_drawers self (tr_drawers self) (u64 (tr_pending self - 1)).

Fixpoint settle (keys : list (Z * bytes)) (now_ns settled : Z) self : outcome (Z * TeslaReceiver S) :=
  match keys with
  | [] => Ret (settled, self)
  | (interval, key) :: keys =>
      match tr_drawers self !! interval with
      | None => settle keys now_ns settled self
      | Some entries =>
          let self := tr_set_drawers self (delete interval (tr_drawers self)) (tr_pending self) in
          prepared ← prepare (tr_alg self) key;
          let self := fold_left (settle_entry prepared now_ns) entries self in
          settle keys now_ns (u64 (settled + Z.of_nat (length entries))) self
      end
  end.

(** The packet joins its interval's drawer. *)
Definition push_drawer self (interval : Z) (entry : DrawerEntry) : TeslaReceiver S :=
  let entries := default [] (tr_drawers self !! interval) in
  let pending := u64 (tr_pending self + 1) in
  tr_set_stats (tr_set_drawers self (<[interval := entries ++ [entry]]> (tr_drawers self)) pending)
    (count_delivered pending).

(** What follows a successful [inner.unprotect]. *)
Definition deliver self (interval : Z) (disclosed : bytes) (entry : DrawerEntry) (arrival_ns : Z) :
    outcome (result Z TeslaDrop * TeslaReceiver S) :=
  let '(disc, v) := check (tr_verifier self) disclosed (disclosed_index (tr_params self) interval) in
  let self := tr_set_verifier self v in
  match disc with
  | New keys =>
      '(settled, self) ← settle keys arrival_ns 0 self;
      Ret (Ok settled, push_drawer self interval entry)
  | NotNew => Ret (Ok 0, push_drawer self interval entry)
  | Invalid | TooFarAhead | BeyondChain =>
      Ret (Err BadDisclosure, tr_set_stats self (count_drop BadDisclosure))
  end.

Definition process_arrival self (buf : bytes) (arrival_ns : Z) :
    outcome (result Z TeslaDrop * bytes * TeslaReceiver S) :=
  '(ext, buf) ← split_extension buf;
  match ext with
  | None => Ret (Err Malformed, buf, tr_set_stats self (count_drop Malformed))
  | Some (interval, disclosed, mac) =>
      if bool_decide (length buf < RTP_HEADER_LEN)%nat then
        Ret (Err Malformed, buf, tr_set_stats self (count_drop Malformed))
      else
        verdict ← accepts (tr_params self) arrival_ns interval;
        if bool_decide (verdict = UnsafeLate) then
          Ret (Err TDUnsafeLate, buf, tr_set_stats self (count_drop TDUnsafeLate))
        else
          b2 ← index buf 2; b3 ← index buf 3;
          let seq := from_be_bytes [b2; b3] in
          let ext_index := recover (tr_recovery self) seq in
          let covered := buf in
          '(r, buf, inner) ← recv_unprotect (tr_inner self) buf;
          let self := tr_set_inner self inner in
          match r with
          | Err drop => Ret (Err (Srtp drop), buf, tr_set_stats self (count_drop (Srtp drop)))
          | Ok _ =>
              let self := tr_set_recovery self (update (tr_recovery self) ext_index) in
              let entry := mkDrawerEntry ext_index arrival_ns mac covered in
              '(res, self) ← deliver self interval disclosed entry arrival_ns;
              Ret (res, buf, self)
          end
  end.

(** A sequence of arriving datagrams. *)
Fixpoint process_all self (l : list (bytes * Z)) : outcome (list (result Z TeslaDrop * bytes) * TeslaReceiver S) :=
  match l with
  | [] => Ret ([], self)
  | (buf, arrival) :: l =>
      '(r, buf, self) ← process_arrival self buf arrival;
      '(out, self) ← process_all self l;
      Ret ((r, buf) :: out, self)
  end.

End Receiver.
