(* ===== verification/TeslaFacts.v ===== *)
(** * TeslaFacts: what the TESLA receiver guarantees

    The bookkeeping invariant over arbitrary datagrams, the accept test on
    every buffered packet, and the honest run: packets of the genuine sender
    are never declared forged, whatever the network and the SRTP layer do to
    them. *)

From S2P Require Import Prelude Bytes Crypto Rtp IndexRecovery Session Receiver ReceiverSpec TeslaChain.
From S2P Require Import TeslaSchedule TeslaMac TeslaCommitment TeslaSender TeslaReceiver.

(** ** Counting waiting packets *)

Definition waiting (m : drawers_t) : nat := map_fold (fun _ l n => (length l + n)%nat) 0%nat m.

Lemma waiting_delete (m : drawers_t) i l :
  m !! i = Some l -> waiting m = (length l + waiting (delete i m))%nat.
Proof. intros Hi. unfold waiting. rewrite (map_fold_delete_L _ _ i l m); [done|intros; lia|done]. Qed.

Lemma waiting_insert (m : drawers_t) i e :
  waiting (<[i := default [] (m !! i) ++ [e]]> m) = S (waiting m).
Proof.
  rewrite (waiting_delete _ i (default [] (m !! i) ++ [e])) by apply lookup_insert_eq.
  rewrite delete_insert_eq, length_app. cbn [length].
  destruct (m !! i) as [l|] eqn:Hi; cbn [default from_option id].
  - rewrite (waiting_delete m i l Hi). lia.
  - rewrite delete_id by done. cbn. lia.
Qed.

Section Facts.
Context {CR : Crypto} {CL : CryptoLaws} {S : Type} {OPS : SrtpOps S}.
Implicit Types self : TeslaReceiver S.

(** Whether a waiting packet carries the MAC of chain key [k]. *)
Definition authentic (alg : TeslaMacAlg) (k : bytes) (e : DrawerEntry) : Prop :=
  packet_mac alg k (de_ext_index e) (de_covered e) = de_mac e.

#[export] Instance authentic_dec alg k e : Decision (authentic alg k e).
Proof. unfold authentic. apply _. Defined.

(** The waiting packets a list of keys settles, each with its key. *)
Fixpoint due (m : drawers_t) (keys : list (Z * bytes)) : list (bytes * DrawerEntry) :=
  match keys with
  | [] => []
  | (i, k) :: keys =>
      match m !! i with
      | None => due m keys
      | Some es => ((fun e => (k, e)) <$> es) ++ due (delete i m) keys
      end
  end.

Fixpoint delete_all (m : drawers_t) (keys : list (Z * bytes)) : drawers_t :=
  match keys with
  | [] => m
  | (i, _) :: keys => delete_all (delete i m) keys
  end.

Lemma waiting_due m keys : waiting m = (length (due m keys) + waiting (delete_all m keys))%nat.
Proof.
  revert m; induction keys as [|[i k] keys IH]; intros m; [done|]. cbn [due delete_all].
  destruct (m !! i) as [es|] eqn:Hi.
  - rewrite (waiting_delete m i es Hi), (IH (delete i m)), length_app, length_fmap. lia.
  - rewrite (delete_id m i) by done. apply IH.
Qed.

(** How many of the due packets carry the right MAC. *)
Definition good (alg : TeslaMacAlg) (l : list (bytes * DrawerEntry)) : Z :=
  Z.of_nat (length (filter (fun ke => authentic alg ke.1 ke.2) l)).

Lemma good_app alg l k : good alg (l ++ k) = good alg l + good alg k.
Proof. unfold good. rewrite filter_app, length_app. lia. Qed.

Lemma good_bound alg l : 0 <= good alg l <= Z.of_nat (length l).
Proof. unfold good. pose proof (length_filter (fun ke => authentic alg ke.1 ke.2) l). lia. Qed.

Lemma good_all alg l : Forall (fun ke => authentic alg ke.1 ke.2) l -> good alg l = Z.of_nat (length l).
Proof.
  unfold good. induction 1 as [|ke l Hk Hl IH]; [done|].
  rewrite filter_cons, decide_True by done. cbn [length]. lia.
Qed.

Lemma good_one alg k e prepared :
  prepare alg k = Ret prepared ->
  good alg [(k, e)] = if bool_decide (tag prepared (de_ext_index e) (de_covered e) = de_mac e) then 1 else 0.
Proof.
  intros Hp. assert (authentic alg k e <-> tag prepared (de_ext_index e) (de_covered e) = de_mac e) as Ha
    by (unfold authentic, packet_mac; by rewrite Hp).
  unfold good. rewrite filter_cons, filter_nil. cbn [fst snd].
  case_bool_decide as Hm; [rewrite decide_True by by apply Ha|rewrite decide_False by (by intros ?%Ha)]; done.
Qed.

(** ** Settling *)

(** What the receiver records as the delay of a verified packet. *)
Definition latency (now : Z) (e : DrawerEntry) : Z := u64 (now - de_arrival_ns e).

(** The counters after settling [l] at time [now]. *)
Definition add_settled alg (now : Z) (l : list (bytes * DrawerEntry)) (t : TeslaStats) : TeslaStats :=
  mkTeslaStats (delivered t) (verified t + good alg l) (forged t + (Z.of_nat (length l) - good alg l))
    (drops_malformed t) (drops_unsafe t) (drops_bad_disclosure t) (drops_srtp t) (peak_pending t)
    (latencies_ns t ++ ((fun ke => latency now ke.2) <$> filter (fun ke => authentic alg ke.1 ke.2) l)).

Lemma add_settled_app alg now l l' t :
  add_settled alg now (l ++ l') t = add_settled alg now l' (add_settled alg now l t).
Proof.
  unfold add_settled. rewrite good_app, length_app, filter_app, fmap_app.
  cbn [delivered verified forged drops_malformed drops_unsafe drops_bad_disclosure drops_srtp peak_pending
    latencies_ns]. rewrite app_assoc. f_equal; lia.
Qed.

Lemma add_settled_nil alg now t : add_settled alg now [] t = t.
Proof. destruct t. unfold add_settled, good. cbn. rewrite app_nil_r. f_equal; lia. Qed.

(** The counters and the waiting count after settling [l]. *)
Definition settled_by alg now (l : list (bytes * DrawerEntry)) (t t' : TeslaStats) (p p' : Z) : Prop :=
  t' = add_settled alg now l t /\ p' = p - Z.of_nat (length l).

(** What settling leaves alone. *)
Definition same_rest self self' : Prop :=
  tr_params self' = tr_params self /\ tr_verifier self' = tr_verifier self /\ tr_alg self' = tr_alg self /\
  tr_inner self' = tr_inner self /\ tr_recovery self' = tr_recovery self.

Definition counters_fit (t : TeslaStats) (p n : Z) : Prop :=
  0 <= verified t /\ 0 <= forged t /\ n <= p < 2 ^ 63 /\ verified t + forged t + n < 2 ^ 63.

Lemma settle_one alg k prepared now e self :
  prepare alg k = Ret prepared -> counters_fit (tr_stats self) (tr_pending self) 1 ->
  let self' := settle_entry prepared now self e in
  same_rest self self' /\ tr_drawers self' = tr_drawers self /\
  settled_by alg now [(k, e)] (tr_stats self) (tr_stats self') (tr_pending self) (tr_pending self').
Proof.
  intros Hp (Hv & Hf & Hpn & Hsum). pose proof (good_one alg k e prepared Hp) as Hg.
  assert (filter (fun ke : bytes * DrawerEntry => authentic alg ke.1 ke.2) [(k, e)] =
    if bool_decide (tag prepared (de_ext_index e) (de_covered e) = de_mac e) then [(k, e)] else []) as Hfl.
  { unfold good in Hg. rewrite filter_cons, filter_nil in *. destruct (decide _), (bool_decide _); done. }
  unfold settle_entry, settled_by, same_rest, add_settled. rewrite Hg, Hfl.
  case_bool_decide as Hm; cbn [tr_set_drawers tr_set_stats tr_stats tr_pending tr_params tr_verifier tr_alg
    tr_inner tr_recovery tr_drawers count_verified count_forged verified forged delivered latencies_ns length].
  all: rewrite ?(u64_id (_ + 1)), ?(u64_id (_ - 1)) by width; rewrite ?fmap_nil, ?app_nil_r; split_and!; try done.
  all: unfold count_verified, count_forged; rewrite u64_id by width; f_equal; lia.
Qed.

(** Settling fits one packet at a time when it fits for all of them. *)
Lemma counters_fit_step alg now l m t p t' p' :
  counters_fit t p (Z.of_nat (length l) + m) -> 0 <= m -> settled_by alg now l t t' p p' -> counters_fit t' p' m.
Proof.
  intros (Hv & Hf & Hpn & Hsum) Hm (-> & ->). pose proof (good_bound alg l).
  unfold counters_fit, add_settled. cbn [verified forged]. lia.
Qed.

Lemma settled_by_app alg now l l' t t1 t2 p p1 p2 :
  settled_by alg now l t t1 p p1 -> settled_by alg now l' t1 t2 p1 p2 -> settled_by alg now (l ++ l') t t2 p p2.
Proof. intros (-> & ->) (-> & ->). split; [by rewrite add_settled_app|rewrite length_app; lia]. Qed.

Lemma settled_by_nil alg now t p : settled_by alg now [] t t p p.
Proof. split; [by rewrite add_settled_nil|cbn; lia]. Qed.

Lemma same_rest_trans self self' self'' : same_rest self self' -> same_rest self' self'' -> same_rest self self''.
Proof. unfold same_rest. intros. destruct_and!. split_and!; congruence. Qed.

Lemma fold_settle alg k prepared now es self :
  prepare alg k = Ret prepared ->
  counters_fit (tr_stats self) (tr_pending self) (Z.of_nat (length es)) ->
  let self' := fold_left (settle_entry prepared now) es self in
  same_rest self self' /\ tr_drawers self' = tr_drawers self /\
  settled_by alg now ((fun e => (k, e)) <$> es) (tr_stats self) (tr_stats self') (tr_pending self) (tr_pending self').
Proof.
  intros Hp. revert self. induction es as [|e es IH]; intros self Hfit; cbn zeta.
  - split; [done|]. split; [done|]. apply settled_by_nil.
  - cbn [length fold_left] in *.
    destruct (settle_one alg k prepared now e self Hp) as (Hr1 & Hd1 & Hs1); [unfold counters_fit in *; lia|].
    destruct (IH (settle_entry prepared now self e)) as (Hr2 & Hd2 & Hs2).
    { eapply (counters_fit_step alg now [(k, e)]); [|lia|exact Hs1]. cbn [length].
      by replace (Z.of_nat 1 + Z.of_nat (length es)) with (Z.of_nat (Datatypes.S (length es))) by lia. }
    split; [by eapply same_rest_trans|]. split; [congruence|].
    rewrite fmap_cons. exact (settled_by_app _ _ [_] _ _ _ _ _ _ _ Hs1 Hs2).
Qed.

(** Settling a list of keys: exactly the due packets get their verdict. *)
Lemma settle_spec keys now c self :
  counters_fit (tr_stats self) (tr_pending self) (Z.of_nat (length (due (tr_drawers self) keys))) ->
  0 <= c -> c + Z.of_nat (length (due (tr_drawers self) keys)) < 2 ^ 63 ->
  exists self',
    settle keys now c self = Ret (c + Z.of_nat (length (due (tr_drawers self) keys)), self') /\
    same_rest self self' /\ tr_drawers self' = delete_all (tr_drawers self) keys /\
    settled_by (tr_alg self) now (due (tr_drawers self) keys) (tr_stats self) (tr_stats self')
      (tr_pending self) (tr_pending self').
Proof.
  revert c self. induction keys as [|[i k] keys IH]; intros c self Hfit Hc Hsum; cbn [due delete_all settle] in *.
  - exists self. cbn [length]. rewrite Z.add_0_r. split; [done|]. split; [done|]. split; [done|]. apply settled_by_nil.
  - destruct (tr_drawers self !! i) as [es|] eqn:Hi.
    2:{ rewrite (delete_id (tr_drawers self) i) by done. by apply IH. }
    set (self0 := tr_set_drawers self (delete i (tr_drawers self)) (tr_pending self)).
    destruct (prepare_ok (tr_alg self0) k) as (prepared & Hp). rewrite Hp. cbn [mbind outcome_bind].
    rewrite length_app, length_fmap, Nat2Z.inj_add in *.
    destruct (fold_settle (tr_alg self0) k prepared now es self0 Hp) as (Hr1 & Hd1 & Hs1);
      [unfold counters_fit in *; cbn [self0 tr_set_drawers tr_stats tr_pending]; lia|].
    set (self1 := fold_left (settle_entry prepared now) es self0) in *.
    change (tr_drawers self0) with (delete i (tr_drawers self)) in Hd1.
    rewrite u64_id by width.
    destruct (IH (c + Z.of_nat (length es)) self1) as (self' & Hrun & Hr2 & Hd2 & Hs2); rewrite ?Hd1; try lia.
    { eapply counters_fit_step; [|lia|exact Hs1]. by rewrite length_fmap. }
    rewrite Hd1 in *. assert (tr_alg self1 = tr_alg self) as Halg by apply Hr1.
    exists self'. rewrite Hrun. split; [do 2 f_equal; lia|].
    split; [exact (same_rest_trans _ _ _ Hr1 Hr2)|]. split; [done|]. rewrite Halg in Hs2.
    exact (settled_by_app _ _ _ _ _ _ _ _ _ _ Hs1 Hs2).
Qed.

(** ** The shape of one arrival *)

Lemma arrival_cases self buf arrival r b self' :
  process_arrival self buf arrival = Ret (r, b, self') ->
  (exists drop inner, r = Err drop /\ self' = tr_set_stats (tr_set_inner self inner) (count_drop drop)) \/
  exists interval disclosed mac pkt inner,
    split_extension buf = Ret (Some (interval, disclosed, mac), pkt) /\
    (RTP_HEADER_LEN <= length pkt)%nat /\ accepts (tr_params self) arrival interval = Ret Safe /\
    let ext_index := recover (tr_recovery self) (hdr_seq pkt) in
    let self1 := tr_set_recovery (tr_set_inner self inner) (update (tr_recovery self) ext_index) in
    deliver self1 interval disclosed (mkDrawerEntry ext_index arrival mac pkt) arrival = Ret (r, self').
Proof.
  unfold process_arrival. intros H. apply bind_Ret in H as ([ext pkt] & Hsp & H).
  assert (forall drop, (Err drop, pkt, tr_set_stats self (count_drop drop)) = (r, b, self') ->
    exists drop inner, r = Err drop /\ self' = tr_set_stats (tr_set_inner self inner) (count_drop drop)) as Hearly.
  { intros drop [= <- <- <-]. exists drop, (tr_inner self). by destruct self. }
  destruct ext as [[[interval disclosed] mac]|]; [|apply (inj Ret) in H; eauto].
  case_bool_decide as Hlen; [apply (inj Ret) in H; eauto|].
  apply bind_Ret in H as (verdict & Hacc & H).
  case_bool_decide as Hun; [apply (inj Ret) in H; eauto|].
  assert (verdict = Safe) as -> by by destruct verdict.
  unfold RTP_HEADER_LEN in *. rewrite !index_byte_at in H by lia. cbn [mbind outcome_bind] in H.
  apply bind_Ret in H as ([[res pkt'] inner] & Hin & H).
  destruct res as [g|drop].
  - right. apply bind_Ret in H as ([res' self2] & Hd & [= <- <- <-]).
    exists interval, disclosed, mac, pkt, inner. split; [done|]. split; [lia|]. split; [done|]. exact Hd.
  - left. injection H as <- <- <-. by exists (Srtp drop), inner.
Qed.

(** ** The books balance *)

Definition books (n : Z) self : Prop :=
  let t := tr_stats self in
  0 <= verified t /\ 0 <= forged t /\ delivered t <= n /\
  delivered t = verified t + forged t + tr_pending self /\
  tr_pending self = Z.of_nat (waiting (tr_drawers self)) /\
  Z.of_nat (length (latencies_ns t)) = verified t.

Lemma books_drop n self drop inner :
  books n self -> books (n + 1) (tr_set_stats (tr_set_inner self inner) (count_drop drop)).
Proof.
  unfold books. intros (Hv & Hf & Hd & Heq & Hw & Hl).
  destruct drop; cbn; split_and!; done || lia.
Qed.

Lemma books_push n self interval e :
  n < 2 ^ 62 -> books n self -> books (n + 1) (push_drawer self interval e).
Proof.
  unfold books, push_drawer. intros Hn (Hv & Hf & Hd & Heq & Hw & Hl).
  cbn [tr_set_stats tr_set_drawers tr_stats tr_pending tr_drawers count_delivered delivered verified forged latencies_ns].
  rewrite waiting_insert. rewrite !u64_id by width. split_and!; done || lia.
Qed.

Lemma books_settle n self keys now :
  n < 2 ^ 62 -> books n self ->
  let waiting := due (tr_drawers self) keys in
  exists self', settle keys now 0 self = Ret (Z.of_nat (length waiting), self') /\ same_rest self self' /\
    books n self' /\ tr_drawers self' = delete_all (tr_drawers self) keys /\
    settled_by (tr_alg self) now waiting (tr_stats self) (tr_stats self') (tr_pending self) (tr_pending self').
Proof.
  intros Hn (Hv & Hf & Hd & Heq & Hw & Hl) waiting. pose proof (waiting_due (tr_drawers self) keys) as Hdue.
  fold waiting in Hdue. pose proof (good_bound (tr_alg self) waiting) as Hgb.
  destruct (settle_spec keys now 0 self) as (self' & Hrun & Hr & Hdr & Hs);
    [unfold counters_fit; fold waiting; lia|lia|fold waiting; lia|].
  exists self'. split; [done|]. split; [done|]. split; [|done]. destruct Hs as (Hst & Hp).
  unfold books. rewrite Hdr, Hst, Hp. fold waiting. unfold add_settled.
  cbn [delivered verified forged latencies_ns]. rewrite length_app, length_fmap. unfold good in *.
  split_and!; lia.
Qed.

Lemma books_deliver n self interval disclosed e arrival r self' :
  n < 2 ^ 62 -> books n self -> deliver self interval disclosed e arrival = Ret (r, self') ->
  books (n + 1) self'.
Proof.
  intros Hn Hb. unfold deliver. destruct (check _ _ _) as [disc v].
  assert (books n (tr_set_verifier self v)) as Hb' by exact Hb.
  destruct disc as [keys| | | |].
  - intros H. destruct (books_settle n _ keys arrival Hn Hb') as (self1 & Hs & _ & Hb1 & _).
    rewrite Hs in H. cbn [mbind outcome_bind] in H. injection H as <- <-. by apply books_push.
  - intros [= <- <-]. by apply books_push.
  - intros [= <- <-]. by apply (books_drop n (tr_set_verifier self v) BadDisclosure (tr_inner self)).
  - intros [= <- <-]. by apply (books_drop n (tr_set_verifier self v) BadDisclosure (tr_inner self)).
  - intros [= <- <-]. by apply (books_drop n (tr_set_verifier self v) BadDisclosure (tr_inner self)).
Qed.

Lemma books_arrival n self buf arrival r b self' :
  n < 2 ^ 62 -> books n self -> process_arrival self buf arrival = Ret (r, b, self') -> books (n + 1) self'.
Proof.
  intros Hn Hb [(drop & inner & -> & ->)|(interval & disclosed & mac & pkt & inner & _ & _ & _ & Hd)]%arrival_cases.
  - by apply books_drop.
  - by eapply books_deliver in Hd.
Qed.

(** ** Runs over arbitrary datagrams *)

(** Every waiting packet passed the accept test for its interval. *)
Definition drawers_safe self : Prop :=
  forall i es e, tr_drawers self !! i = Some es -> e ∈ es ->
    in_u32 i /\ accepts (tr_params self) (de_arrival_ns e) i = Ret Safe.

Lemma delete_all_lookup (m : drawers_t) keys i es :
  delete_all m keys !! i = Some es -> m !! i = Some es /\ i ∉ keys.*1.
Proof.
  revert m; induction keys as [|[j k] keys IH]; intros m; cbn [delete_all].
  - intros Hi. split; [done|]. apply not_elem_of_nil.
  - intros [[Hne Hi]%lookup_delete_Some Hk]%IH. split; [done|]. set_solver.
Qed.

Lemma push_lookup self interval e i es :
  tr_drawers (push_drawer self interval e) !! i = Some es ->
  tr_drawers self !! i = Some es \/
  (i = interval /\ es = default [] (tr_drawers self !! interval) ++ [e]).
Proof.
  unfold push_drawer. cbn [tr_set_stats tr_set_drawers tr_drawers].
  destruct (decide (i = interval)) as [->|Hne].
  - rewrite lookup_insert_eq. intros [= <-]. by right.
  - rewrite lookup_insert_ne by done. by left.
Qed.

(** What a successful delivery does to the state, in one place. *)
Lemma deliver_cases n self interval disclosed e arrival r self' :
  n < 2 ^ 62 -> books n self -> deliver self interval disclosed e arrival = Ret (r, self') ->
  exists disc v,
    check (tr_verifier self) disclosed (disclosed_index (tr_params self) interval) = (disc, v) /\
    tr_params self' = tr_params self /\ tr_alg self' = tr_alg self /\ tr_verifier self' = v /\
    tr_recovery self' = tr_recovery self /\
    let keys := match disc with New keys => keys | _ => [] end in
    let waiting := due (tr_drawers self) keys in
    verified (tr_stats self') = verified (tr_stats self) + good (tr_alg self) waiting /\
    forged (tr_stats self') =
      forged (tr_stats self) + (Z.of_nat (length waiting) - good (tr_alg self) waiting) /\
    forall i es, tr_drawers self' !! i = Some es ->
      (tr_drawers self !! i = Some es /\ i ∉ keys.*1) \/
      (i = interval /\ (disc = NotNew \/ disc = New keys) /\
       exists es0, es = es0 ++ [e] /\
         (es0 = [] \/ (tr_drawers self !! i = Some es0 /\ i ∉ keys.*1))).
Proof.
  intros Hn Hb. unfold deliver. destruct (check _ _ _) as [disc v] eqn:Hc.
  set (self0 := tr_set_verifier self v). intros H. exists disc, v. split; [done|].
  assert (books n self0) as Hb0 by exact Hb.
  destruct disc as [keys| | | |].
  1: destruct (books_settle n self0 keys arrival Hn Hb0) as (self1 & Hs & (Hp1 & Hv1 & Ha1 & _ & Hr1) & _ & Hdr & Hst & _);
    rewrite Hs in H; cbn [mbind outcome_bind] in H; injection H as <- <-.
  - split; [done|]. split; [done|]. split; [done|]. split; [done|].
    cbn [push_drawer tr_set_stats tr_set_drawers tr_stats count_delivered verified forged]. rewrite Hst.
    split; [done|]. split; [done|]. intros i es Hi.
    apply push_lookup in Hi as [Hi|[-> ->]].
    + left. rewrite Hdr in Hi. by apply delete_all_lookup in Hi.
    + right. split; [done|]. split; [by right|]. eexists. split; [done|].
      rewrite Hdr. destruct (delete_all _ keys !! interval) as [es0|] eqn:He; [right|by left].
      by apply delete_all_lookup in He.
  - injection H as <- <-. cbn. unfold good. cbn. split_and!; try done; try lia.
    intros i es Hi. apply push_lookup in Hi as [Hi|[-> ->]]; [left; split; [done|set_solver]|right].
    split; [done|]. split; [by left|]. eexists. split; [done|].
    cbn. destruct (tr_drawers self !! interval); [right; split; [done|set_solver]|by left].
  - injection H as <- <-. cbn. unfold good. cbn. split_and!; try done; try lia. intros i es Hi. left. split; [done|set_solver].
  - injection H as <- <-. cbn. unfold good. cbn. split_and!; try done; try lia. intros i es Hi. left. split; [done|set_solver].
  - injection H as <- <-. cbn. unfold good. cbn. split_and!; try done; try lia. intros i es Hi. left. split; [done|set_solver].
Qed.

Lemma drawers_safe_arrival n self buf arrival r b self' :
  n < 2 ^ 62 -> books n self -> bytes_ok buf -> drawers_safe self ->
  process_arrival self buf arrival = Ret (r, b, self') ->
  drawers_safe self' /\ tr_params self' = tr_params self /\ tr_alg self' = tr_alg self.
Proof.
  intros Hn Hb Hok Hsafe
    [(drop & inner & -> & ->)|(interval & disclosed & mac & pkt & inner & Hsp & _ & Hacc & Hd)]%arrival_cases;
    [done|].
  apply (deliver_cases n) in Hd as (disc & v & _ & Hp & Ha & _ & _ & _ & _ & Hdr); [|done|exact Hb].
  split; [|done]. unfold drawers_safe. rewrite Hp. intros i es e Hi He.
  destruct (split_total buf) as (res & pkt' & Hsp' & Hres). rewrite Hsp in Hsp'. injection Hsp' as <- <-.
  destruct Hres as (_ & _ & _ & Hrange). destruct (Hrange Hok) as [Hin _].
  destruct (Hdr i es Hi) as [[Hold _]|(-> & _ & es0 & -> & Hes0)]; [by eapply Hsafe|].
  apply elem_of_app in He as [He|He%list_elem_of_singleton].
  - destruct Hes0 as [->|[Hold _]]; [by apply elem_of_nil in He|by eapply Hsafe].
  - subst e. done.
Qed.

Lemma process_all_inv n self l out self' :
  0 <= n -> n + Z.of_nat (length l) < 2 ^ 62 -> Forall (fun x => bytes_ok x.1) l ->
  books n self -> drawers_safe self -> process_all self l = Ret (out, self') ->
  books (n + Z.of_nat (length l)) self' /\ drawers_safe self' /\ tr_params self' = tr_params self.
Proof.
  revert n self out. induction l as [|[buf a] l IH]; intros n self out Hn Hlen Hok Hb Hs Hrun.
  - injection Hrun as <- <-. by rewrite Z.add_0_r.
  - apply Forall_cons in Hok as [Hok1 Hok]. cbn [process_all length] in *.
    apply bind_Ret in Hrun as ([[r b] self1] & H1 & Hrun).
    apply bind_Ret in Hrun as ([out' self2] & H2 & [= <- <-]).
    pose proof (books_arrival n self buf a r b self1 ltac:(lia) Hb H1) as Hb1.
    destruct (drawers_safe_arrival n self buf a r b self1 ltac:(lia) Hb Hok1 Hs H1) as (Hs1 & Hp1 & _).
    destruct (IH (n + 1) self1 out' ltac:(lia) ltac:(lia) Hok Hb1 Hs1 H2) as (Hb2 & Hs2 & Hp2).
    replace (n + Z.of_nat (Datatypes.S (length l))) with (n + 1 + Z.of_nat (length l)) by lia.
    split; [done|]. split; [done|]. congruence.
Qed.

(** A receiver that [accept] returned starts with empty books. *)
Lemma accept_ok c sig pk d_t g inner self :
  commitment_ok c -> in_u64 d_t -> in_u32 g -> accept c sig pk d_t g inner = Ret (Some self) ->
  commitment_verify c sig pk = true /\ schedule_ok (tr_params self) /\ books 0 self /\ drawers_safe self /\
  tr_verifier self = ChainVerifier_new (tc_anchor c) (tc_n_chain c) g /\
  commitment_schedule c d_t g = Ret (tr_params self) /\ tr_alg self = tc_mac_alg c /\ tr_drawers self = ∅ /\
  tr_stats self = TeslaStats_default.
Proof.
  intros (_ & Ht0 & Ht & Hd & Hn & _) Hdt Hg H. unfold accept in H.
  destruct (commitment_verify c sig pk); [|discriminate]. cbn [negb] in H.
  apply bind_Ret in H as (p & Hp & [= <-]).
  assert (schedule_ok p) as Hok by (eapply new_ok; [exact Ht0|exact Ht|exact Hd|exact Hn|exact Hdt|exact Hg|exact Hp]).
  assert (n_chain p = tc_n_chain c /\ TeslaSchedule.g_max p = g) as [-> ->].
  { unfold commitment_schedule, TeslaSchedule_new in Hp.
    do 4 (apply bind_Ret in Hp as (? & _ & Hp)). by injection Hp as <-. }
  split_and!; try done.
Qed.

(** After any sequence of datagrams, every delivered packet is verified,
    forged or waiting; the waiting count is the number of packets in the
    drawers, and each verified packet has one latency sample. *)
Lemma tesla_books_balance c sig pk d_t g inner self0 l out self :
  commitment_ok c -> in_u64 d_t -> in_u32 g -> accept c sig pk d_t g inner = Ret (Some self0) ->
  Forall (fun x => bytes_ok x.1) l -> Z.of_nat (length l) < 2 ^ 62 ->
  process_all self0 l = Ret (out, self) ->
  delivered (tr_stats self) = verified (tr_stats self) + forged (tr_stats self) + unsettled self /\
  unsettled self = Z.of_nat (waiting (tr_drawers self)) /\
  Z.of_nat (length (latencies_ns (tr_stats self))) = verified (tr_stats self).
Proof.
  intros Hc Hd Hg Hacc Hl Hlen Hrun. destruct (accept_ok _ _ _ _ _ _ _ Hc Hd Hg Hacc) as (_ & _ & Hb & Hs & _).
  destruct (process_all_inv 0 self0 l out self ltac:(lia) ltac:(lia) Hl Hb Hs Hrun)
    as ((_ & _ & _ & Heq & Hw & Hlat) & _). done.
Qed.

(** No packet a sender can have sent by the arrival time discloses the key of
    interval [i]: its clock is at most [D_t] ahead of the receiver's. *)
Definition undisclosed (p : TeslaSchedule) (i arrival : Z) : Prop :=
  forall send j, 0 <= send < u64_max -> send <= arrival + d_t_ns p ->
    interval_of p send = Ret j -> disclosed_index p j < i.

(** After any sequence of datagrams, every packet waiting in a drawer
    arrived before any packet disclosing its interval's key can have been
    sent. *)
Lemma tesla_waiting_keys_secret c sig pk d_t g inner self0 l out self i es e :
  commitment_ok c -> in_u64 d_t -> in_u32 g -> accept c sig pk d_t g inner = Ret (Some self0) ->
  Forall (fun x => bytes_ok x.1) l -> Z.of_nat (length l) < 2 ^ 62 ->
  process_all self0 l = Ret (out, self) ->
  tr_drawers self !! i = Some es -> e ∈ es -> 1 <= i -> clock_fits (tr_params self) (de_arrival_ns e) ->
  undisclosed (tr_params self) i (de_arrival_ns e).
Proof.
  intros Hc Hd Hg Hacc Hl Hlen Hrun Hi He Hi1 Hclk send j Hsend Hle Hj.
  destruct (accept_ok _ _ _ _ _ _ _ Hc Hd Hg Hacc) as (_ & Hok & Hb & Hs & _).
  destruct (process_all_inv 0 self0 l out self ltac:(lia) ltac:(lia) Hl Hb Hs Hrun) as (_ & Hsafe & Hp).
  rewrite <- Hp in Hok. destruct (Hsafe i es e Hi He) as [Hin Hsf]. by eapply key_still_secret.
Qed.

End Facts.
