(* ===== verification/TeslaHonest.v ===== *)
(** * TeslaHonest: the genuine sender's packets at the TESLA receiver

    A run in which every datagram was written by [TeslaSender::authenticate]
    and arrives no earlier, on the receiver's clock plus the bound [D_t], than
    it was sent.  Loss, reordering, late packets and drops by the SRTP layer
    are allowed, as long as each packet is within half the sequence range of
    the highest index accepted before it: beyond that the receiver recovers
    another index than the one the MAC covers.  The run is a relation; its invariant is proved by rule
    induction. *)

From S2P Require Import Prelude Bytes Crypto Rtp IndexRecovery Ratchet Session Generation Granularity Receiver ReceiverSpec TeslaChain.
From S2P Require Import TeslaSchedule TeslaMac TeslaCommitment TeslaSender TeslaReceiver TeslaFacts.

Record Arrival := mkArrival {
  ha_buf : bytes;
  ha_ext : Z;
  ha_interval : Z;
  ha_send : Z;
  ha_time : Z
}.

(** Sent in its interval, and within the clock bound of its arrival. *)
Definition honest_arrival (p : TeslaSchedule) (a : Arrival) : Prop :=
  interval_of p (ha_send a) = Ret (ha_interval a) /\ 0 <= ha_send a < u64_max /\
  ha_send a <= ha_time a + d_t_ns p /\ clock_fits p (ha_time a) /\ ha_buf a ≠ [].

(** Within half the sequence range of the highest index accepted so far; the
    first packet is in the first sequence cycle. *)
Definition near_highest (r : IndexRecovery) (a : Arrival) : Prop :=
  hdr_seq (ha_buf a) = u16 (ha_ext a) /\ 0 <= ha_ext a < u64_max - 65536 /\
  match highest r with
  | None => ha_ext a < 65536
  | Some h => Z.abs (ha_ext a - h) < 32768
  end.

Lemma recover_arrival r a : IndexRecovery_ok r -> near_highest r a -> recover r (hdr_seq (ha_buf a)) = ha_ext a.
Proof.
  intros Hr (-> & Hext & Hnear). destruct r as [[h|]]; cbn [highest] in Hnear.
  - apply recover_exact; [by apply Hr|lia|done].
  - cbn. width.
Qed.

Lemma update_arrival r a : IndexRecovery_ok r -> near_highest r a -> IndexRecovery_ok (update r (ha_ext a)).
Proof.
  intros Hr (_ & Hext & _). unfold update. destruct (match highest r with None => true | Some h => h <? ha_ext a end); [|done].
  by intros h [= <-].
Qed.

Section Honest.
Context {CR : Crypto} {CL : CryptoLaws} {S : Type} {OPS : SrtpOps S}.
Context (p : TeslaSchedule) (alg : TeslaMacAlg) (kf : bytes).

(** The datagram [authenticate] writes (TeslaSender.authenticate_spec). *)
Definition datagram (a : Arrival) : bytes := tesla_packet p alg kf (ha_buf a) (ha_ext a) (ha_interval a).

(** Receiving honest datagrams in arrival order. *)
Inductive honest_run (self0 : TeslaReceiver S) : list Arrival -> TeslaReceiver S -> Prop :=
| honest_nil : honest_run self0 [] self0
| honest_step l a self r b self' :
    honest_run self0 l self -> honest_arrival p a ->
    (forall a', last l = Some a' -> ha_time a' <= ha_time a) ->
    near_highest (tr_recovery self) a ->
    process_arrival self (datagram a) (ha_time a) = Ret (r, b, self') ->
    honest_run self0 (l ++ [a]) self'.

(** The newest trusted key was disclosed by a packet that arrived. *)
Definition trust_justified (l : list Arrival) (t : Z) : Prop :=
  t = 0 \/ exists a, last l = Some a /\ exists send j,
    interval_of p send = Ret j /\ 0 <= send < u64_max /\ send <= ha_time a + d_t_ns p /\ disclosed_index p j = t.

Record honest_inv (l : list Arrival) (self : TeslaReceiver S) : Prop := {
  hi_params : tr_params self = p;
  hi_alg : tr_alg self = alg;
  hi_books : books (Z.of_nat (length l)) self;
  hi_verifier : verifier_ok kf (n_chain p) (tr_verifier self);
  hi_trust : trust_justified l (cv_trusted_index (tr_verifier self));
  hi_drawers : forall i es e, tr_drawers self !! i = Some es -> e ∈ es ->
    authentic alg (true_key kf (n_chain p) i) e /\ cv_trusted_index (tr_verifier self) < i;
  hi_forged : forged (tr_stats self) = 0;
  hi_recovery : IndexRecovery_ok (tr_recovery self)
}.

Lemma due_elem m keys k e :
  (k, e) ∈ due m keys -> exists i es, (i, k) ∈ keys /\ m !! i = Some es /\ e ∈ es.
Proof.
  revert m; induction keys as [|[i k'] keys IH]; intros m; cbn [due]; [by intros ?%elem_of_nil|].
  destruct (m !! i) as [es|] eqn:Hi.
  - intros [Hin|Hin]%elem_of_app.
    + apply list_elem_of_fmap in Hin as (e' & [= -> ->] & He). exists i, es. split; [left|done].
    + apply IH in Hin as (j & es' & Hk & [_ Hj]%lookup_delete_Some & He). exists j, es'. split; [by right|done].
  - intros (j & es' & Hk & Hj & He)%IH. exists j, es'. split; [by right|done].
Qed.

Lemma true_keys_elem n t m i k :
  (i, k) ∈ true_keys kf n t m <-> t < i <= t + Z.of_nat m /\ k = true_key kf n i.
Proof.
  unfold true_keys. rewrite list_elem_of_fmap. split.
  - intros (j & [= -> ->] & Hj%elem_of_seq). split; [lia|done].
  - intros [Hi ->]. exists (Z.to_nat (i - t - 1)). rewrite elem_of_seq. split; [|lia].
    by replace (t + 1 + Z.of_nat (Z.to_nat (i - t - 1))) with i by lia.
Qed.

Lemma true_keys_index n t m i : t < i <= t + Z.of_nat m -> i ∈ (true_keys kf n t m).*1.
Proof.
  intros Hi. apply list_elem_of_fmap. exists (i, true_key kf n i). split; [done|]. by apply true_keys_elem.
Qed.

Lemma split_datagram a :
  schedule_ok p -> honest_arrival p a ->
  split_extension (datagram a) =
    Ret (Some (ha_interval a, true_key kf (n_chain p) (disclosed_index p (ha_interval a)),
      packet_mac alg (true_key kf (n_chain p) (ha_interval a)) (ha_ext a) (ha_buf a)), ha_buf a).
Proof.
  intros Hok (Hi & Hs & _ & _ & Hb). destruct (interval_of_spec _ _ _ Hok Hs Hi) as [Hr _].
  pose proof Hok as (_ & _ & Hd & Hn & _ & _ & _ & Hd2 & Hn1 & _). apply split_append; [done| | |].
  - width.
  - unfold true_key, disclosed_index, saturating_sub.
    destruct (Z.to_nat (n_chain p - Z.max 0 (ha_interval a - d p))) as [|m] eqn:Hm; [lia|].
    rewrite f_iter_S. apply length_f_step.
  - unfold packet_mac. destruct (prepare_ok alg (true_key kf (n_chain p) (ha_interval a))) as (q & ->).
    apply length_tag.
Qed.

(** An honest disclosure: nothing new, too far ahead, or exactly the missing
    keys. *)
Lemma check_honest v j :
  verifier_ok kf (n_chain p) v -> 0 <= j <= n_chain p ->
  let t := cv_trusted_index v in
  check v (true_key kf (n_chain p) j) j = (NotNew, v) /\ j <= t \/
  check v (true_key kf (n_chain p) j) j = (TooFarAhead, v) \/
  t < j /\ exists v', check v (true_key kf (n_chain p) j) j =
    (New (true_keys kf (n_chain p) t (Z.to_nat (j - t))), v') /\
    verifier_ok kf (n_chain p) v' /\ cv_trusted_index v' = j.
Proof.
  intros Hv Hj t. pose proof Hv as (Hn & Ht & _).
  destruct (Z.le_gt_cases j t) as [Hle|Hgt].
  - left. rewrite check_spec. destruct (Z.leb_spec j (cv_trusted_index v)); [done|lia].
  - right. destruct (Z.le_gt_cases (j - t) (cv_g_max v)) as [Hg|Hg].
    + right. split; [done|]. eexists. split; [apply check_genuine; [done|lia|done]|]. split; [|done].
      split_and!; cbn; done || lia.
    + left. rewrite check_spec, Hn. destruct (Z.leb_spec j (cv_trusted_index v)); [lia|].
      destruct (Z.ltb_spec (n_chain p) j); [lia|].
      by destruct (Z.ltb_spec (cv_g_max v) (j - cv_trusted_index v)); [|lia].
Qed.

(** ** One arrival *)

Lemma last_snoc_le l a :
  (forall a', last l = Some a' -> ha_time a' <= ha_time a) ->
  forall t, trust_justified l t -> trust_justified (l ++ [a]) t.
Proof.
  intros Hle t [->|(a' & Hl & send & j & Hj & Hs & Hb & Ht)]; [by left|right].
  exists a. rewrite last_snoc. split; [done|]. exists send, j. specialize (Hle a' Hl). split_and!; done || lia.
Qed.

(** An accepted packet's key is newer than the trusted one. *)
Lemma accepted_above_trust l a t :
  schedule_ok p -> honest_arrival p a -> accepts p (ha_time a) (ha_interval a) = Ret Safe ->
  (forall a', last l = Some a' -> ha_time a' <= ha_time a) -> trust_justified l t -> t < ha_interval a.
Proof.
  intros Hok (Hi & Hs & _ & Hclk & _) Hacc Hle Ht. destruct (interval_of_spec _ _ _ Hok Hs Hi) as [Hr _].
  destruct Ht as [->|(a' & Hl & send & j & Hj & Hsj & Hb & <-)]; [lia|].
  specialize (Hle a' Hl). pose proof Hok as (_ & _ & _ & Hn & _).
  eapply (key_still_secret p (ha_time a) (ha_interval a) send j); try done; [width|lia|lia].
Qed.

(** The packets an honest disclosure settles all verify. *)
Lemma due_honest l self t m :
  honest_inv l self ->
  good alg (due (tr_drawers self) (true_keys kf (n_chain p) t m)) =
  Z.of_nat (length (due (tr_drawers self) (true_keys kf (n_chain p) t m))).
Proof.
  intros Hinv. apply good_all. apply Forall_forall. intros [k e] Hin. cbn [fst snd].
  apply due_elem in Hin as (i & es & [_ ->]%true_keys_elem & Hi & He).
  by apply (hi_drawers _ _ Hinv i es e Hi He).
Qed.

(** Rebuilding the invariant after settling [keys] and pushing [e] into the
    drawer of [a]'s interval, or after refusing the disclosure. *)
Lemma honest_build l a self self' keys e :
  honest_inv l self -> tr_params self' = p -> tr_alg self' = alg -> IndexRecovery_ok (tr_recovery self') ->
  books (Z.of_nat (length (l ++ [a]))) self' ->
  let t' := cv_trusted_index (tr_verifier self') in
  verifier_ok kf (n_chain p) (tr_verifier self') -> trust_justified (l ++ [a]) t' ->
  forged (tr_stats self') = forged (tr_stats self) +
    (Z.of_nat (length (due (tr_drawers self) keys)) - good alg (due (tr_drawers self) keys)) ->
  good alg (due (tr_drawers self) keys) = Z.of_nat (length (due (tr_drawers self) keys)) ->
  (forall i, cv_trusted_index (tr_verifier self) < i -> i ∉ keys.*1 -> t' < i) ->
  t' < ha_interval a -> authentic alg (true_key kf (n_chain p) (ha_interval a)) e ->
  (forall i es, tr_drawers self' !! i = Some es ->
    (tr_drawers self !! i = Some es /\ i ∉ keys.*1) \/
    (i = ha_interval a /\ exists es0, es = es0 ++ [e] /\
       (es0 = [] \/ (tr_drawers self !! i = Some es0 /\ i ∉ keys.*1)))) ->
  honest_inv (l ++ [a]) self'.
Proof.
  intros [_ _ _ _ _ Hdr Hf _] Hp Halg Hrec Hb t' Hvk Htk Hfk Hgk Hnew Hiv Hauth Hdk. split; try done.
  - intros i es x Hi Hx. destruct (Hdk i es Hi) as [[Ho Hk]|(-> & es0 & -> & Hes0)].
    + destruct (Hdr i es x Ho Hx). auto.
    + apply elem_of_app in Hx as [Hx| ->%list_elem_of_singleton]; [|done].
      destruct Hes0 as [->|[Ho Hk]]; [by apply elem_of_nil in Hx|]. split; [|done]. by apply (Hdr _ es0).
  - rewrite Hfk, Hgk, Hf. lia.
Qed.

Lemma honest_deliver l a self inner r self' :
  schedule_ok p -> honest_inv l self -> honest_arrival p a -> Z.of_nat (length l) < 2 ^ 62 ->
  (forall a', last l = Some a' -> ha_time a' <= ha_time a) ->
  accepts p (ha_time a) (ha_interval a) = Ret Safe -> near_highest (tr_recovery self) a ->
  let self1 := tr_set_recovery (tr_set_inner self inner) (update (tr_recovery self) (ha_ext a)) in
  let e := mkDrawerEntry (ha_ext a) (ha_time a)
    (packet_mac alg (true_key kf (n_chain p) (ha_interval a)) (ha_ext a) (ha_buf a)) (ha_buf a) in
  deliver self1 (ha_interval a) (true_key kf (n_chain p) (disclosed_index p (ha_interval a))) e (ha_time a) =
    Ret (r, self') ->
  honest_inv (l ++ [a]) self'.
Proof.
  intros Hok Hinv Ha Hn Hle Hacc Hnear self1 e Hd. pose proof Hinv as [Hp Halg Hb Hv Ht _ _ Hrec].
  pose proof (accepted_above_trust l a _ Hok Ha Hacc Hle Ht) as Habove.
  pose proof (books_deliver _ self1 _ _ _ _ _ _ Hn Hb Hd) as Hb'.
  replace (Z.of_nat (length l) + 1) with (Z.of_nat (length (l ++ [a]))) in Hb' by (rewrite length_app; cbn; lia).
  apply (deliver_cases (Z.of_nat (length l))) in Hd
    as (disc & v & Hc & Hp' & Halg' & Hv' & Hrec' & _ & Hf' & Hdr'); [|done|exact Hb].
  assert (IndexRecovery_ok (tr_recovery self')) as Hrok by (rewrite Hrec'; by apply update_arrival).
  pose proof Ha as (Hi & Hs & Hsend & _ & _). destruct (interval_of_spec _ _ _ Hok Hs Hi) as [Hir _].
  pose proof Hok as (_ & _ & Hd & _ & _ & _ & _ & Hd2 & _).
  change (tr_params self1) with (tr_params self) in *. change (tr_verifier self1) with (tr_verifier self) in *.
  change (tr_alg self1) with (tr_alg self) in *. change (tr_drawers self1) with (tr_drawers self) in *.
  change (tr_stats self1) with (tr_stats self) in *. rewrite Hp in *. rewrite Halg in *.
  set (j := disclosed_index p (ha_interval a)) in *.
  assert (j < ha_interval a /\ 0 <= j <= n_chain p) as [Hdi Hj] by (unfold j, disclosed_index, saturating_sub; lia).
  pose proof (last_snoc_le l a Hle _ Ht) as Ht'.
  destruct (check_honest (tr_verifier self) j Hv Hj) as [[Hck Hjt]|[Hck|(Hjt & v' & Hck & Hvk & Htk)]];
    rewrite Hck in Hc; injection Hc as <- <-.
  - apply (honest_build l a self self' [] e); rewrite ?Hv'; try done.
    intros i es Hx. destruct (Hdr' i es Hx) as [?|(? & _ & ?)]; eauto.
  - apply (honest_build l a self self' [] e); rewrite ?Hv'; try done.
    intros i es Hx. destruct (Hdr' i es Hx) as [?|(? & [?|?] & ?)]; [eauto|done..].
  - eapply (honest_build l a self self' _ e); rewrite ?Hv', ?Htk; try done.
    + right. exists a. rewrite last_snoc. split; [done|]. by exists (ha_send a), (ha_interval a).
    + by eapply due_honest.
    + intros i Hi' Hk. destruct (Z.le_gt_cases i j) as [Hle'|]; [|done].
      destruct Hk. apply true_keys_index. lia.
    + intros i es Hx. destruct (Hdr' i es Hx) as [?|(? & _ & ?)]; eauto.
Qed.

(** ** The whole run *)

Lemma honest_run_inv self0 l self :
  schedule_ok p -> honest_inv [] self0 -> Z.of_nat (length l) < 2 ^ 62 ->
  honest_run self0 l self -> honest_inv l self.
Proof.
  intros Hok Hinit Hlen Hrun. induction Hrun as [|l a self r b self' Hrun IH Ha Hle Hnear Harr]; [done|].
  rewrite length_app in Hlen. cbn in Hlen. specialize (IH ltac:(lia)).
  pose proof (hi_params _ _ IH) as Hp. pose proof (recover_arrival _ _ (hi_recovery _ _ IH) Hnear) as Hrec.
  apply arrival_cases in Harr
    as [(drop & inner & -> & ->)|(interval & disclosed & mac & pkt & inner & Hsp & _ & Hacc & Hd)].
  - destruct IH as [? ? Hb Hv Ht Hdr Hf Hro]. split; try done.
    + rewrite length_app, Nat2Z.inj_add. by apply books_drop.
    + by apply last_snoc_le.
    + by destruct drop.
  - rewrite (split_datagram a Hok Ha) in Hsp. injection Hsp as <- <- <- <-.
    rewrite Hp in Hacc. cbn zeta in Hd. rewrite Hrec in Hd.
    by eapply honest_deliver in Hd; [|done|done|done|lia|done|done|done].
Qed.

End Honest.

Section Main.
Context {CR : Crypto} {CL : CryptoLaws} {S : Type} {OPS : SrtpOps S}.

(** C8: Packets of the committed sender that arrive within the clock bound and
    in the order of their arrival times, each within half the sequence range
    of the highest index accepted before it (the first one in the first
    sequence cycle), are never declared forged, whatever is lost, delayed or
    dropped by the SRTP layer: every delivered packet is verified or still
    waiting, and what waits belongs to an interval whose key has not been
    disclosed yet. *)
Theorem honest_packets_verify c sk kf d_t g (inner : ReceiverKeyManager S) self0 l self :
  commitment_ok c -> in_u64 d_t -> in_u32 g -> tc_anchor c = true_key kf (tc_n_chain c) 0 ->
  accept c (commitment_sign c sk) (ed25519_public sk) d_t g inner = Ret (Some self0) ->
  Z.of_nat (length l) < 2 ^ 62 -> honest_run (tr_params self0) (tc_mac_alg c) kf self0 l self ->
  forged (tr_stats self) = 0 /\
  delivered (tr_stats self) = verified (tr_stats self) + unsettled self /\
  (forall i es, tr_drawers self !! i = Some es -> es ≠ [] -> cv_trusted_index (tr_verifier self) < i).
Proof.
  intros Hc Hd Hg Hanchor Hacc Hlen Hrun.
  destruct (accept_ok _ _ _ _ _ _ _ Hc Hd Hg Hacc) as (_ & Hok & Hb & _ & Hv & Hsch & Halg & Hdr & Hst).
  assert (n_chain (tr_params self0) = tc_n_chain c) as Hn.
  { unfold commitment_schedule, TeslaSchedule_new in Hsch.
    do 4 (apply bind_Ret in Hsch as (? & _ & Hsch)). by injection Hsch as <-. }
  assert (honest_inv (tr_params self0) (tc_mac_alg c) kf [] self0) as Hinit.
  { split; try done.
    - rewrite Hv, Hanchor, Hn. apply verifier_new_ok.
      destruct Hok as (_ & _ & _ & _ & _ & _ & _ & _ & Hn1 & _). lia.
    - rewrite Hv. by left.
    - intros i es e. by rewrite Hdr, lookup_empty.
    - by rewrite Hst.
    - unfold accept in Hacc. destruct (negb _); [discriminate Hacc|]. apply bind_Ret in Hacc as (q & _ & Hacc).
      by injection Hacc as <-. }
  destruct (honest_run_inv _ _ _ _ _ _ Hok Hinit Hlen Hrun) as [_ _ (_ & _ & _ & Heq & _) _ _ Hdrs Hf _].
  split; [done|]. split; [unfold unsettled; lia|].
  intros i es Hi Hne. destruct es as [|e es]; [done|]. by apply (Hdrs i (e :: es) e Hi); left.
Qed.

End Main.

(** ** A concrete run: two packets, the second disclosing the first one's key *)

Import Toy.

Module Example.

Definition kf : bytes := replicate 20 9.
Definition sk : bytes := replicate 32 3.
Definition seed : bytes := replicate 32 1.
Definition commitment : TeslaCommitment :=
  mkTeslaCommitment (true_key kf 5 0) 0 1000 2 5 HmacSha256 [65] 7 [66] 0.

Definition get {A} (o : outcome A) (a : A) : A := match o with Ret a => a | Panic => a end.

Definition plain (seq : Z) : bytes := to_bytes (mkRtpPacket 96 seq 0 7 [1; 2; 3]).

(** The two packets as the SRTP sender protects them. *)
Definition srtp : list bytes :=
  match RekeyingStream_new (S := Session) EpochOnly 7 (ratchet_at seed 0) with
  | Ret tx => match protect_all tx [plain 0; plain 1] with Ret (out, _) => out.*2 | Panic => [] end
  | Panic => []
  end.

Definition inner : ReceiverKeyManager Session :=
  get (ReceiverKeyManager_new SchemeEpochOnly 7 (ratchet_at seed 0) 1 1 64)
    (mkReceiver (mkSession []) 0 SchemeEpochOnly IndexRecovery_default (ratchet_at seed 0) [] None None 0
       RecvStats_default).

Definition no_receiver : TeslaReceiver Session :=
  mkTeslaReceiver sample (ChainVerifier_new [] 0 0) HmacSha256 inner IndexRecovery_default ∅ 0 TeslaStats_default.

Definition receiver : TeslaReceiver Session :=
  default no_receiver (get (accept commitment (commitment_sign commitment sk) (ed25519_public sk) 100 16 inner) None).

Definition first : Arrival := mkArrival (srtp !!! 0%nat) 0 1 500 600.
Definition second : Arrival := mkArrival (srtp !!! 1%nat) 1 3 2500 2600.
Definition arrivals : list Arrival := [first; second].

Definition arrive (self : TeslaReceiver Session) (a : Arrival) : result Z TeslaDrop * bytes * TeslaReceiver Session :=
  get (process_arrival self (datagram (tr_params receiver) HmacSha256 kf a) (ha_time a)) (Err Malformed, [], self).

Definition after_first : TeslaReceiver Session := (arrive receiver first).2.
Definition after_second : TeslaReceiver Session := (arrive after_first second).2.

Definition datagrams : list (bytes * Z) :=
  [(datagram (tr_params receiver) HmacSha256 kf first, 600); ([1; 2; 3], 700);
   (datagram (tr_params receiver) HmacSha256 kf second, 2600)].

Definition outcome_of : list (result Z TeslaDrop * bytes) * TeslaReceiver Session :=
  get (process_all receiver datagrams) ([], receiver).

Definition out : list (result Z TeslaDrop * bytes) := outcome_of.1.
Definition final : TeslaReceiver Session := outcome_of.2.

Lemma commitment_fits : commitment_ok commitment.
Proof.
  unfold commitment_ok. split_and!; first [reflexivity | vm_compute; split; congruence | vm_compute; reflexivity].
Qed.

Lemma receiver_accepted :
  accept commitment (commitment_sign commitment sk) (ed25519_public sk) 100 16 inner = Ret (Some receiver).
Proof. vm_compute. reflexivity. Qed.

Lemma datagrams_run : process_all receiver datagrams = Ret (out, final).
Proof. vm_compute. reflexivity. Qed.

Lemma datagrams_bytes : Forall (fun x => bytes_ok x.1) datagrams.
Proof.
  assert (forallb (fun x => forallb (fun b => (0 <=? b) && (b <? 256)) x.1) datagrams = true) as H
    by (vm_compute; reflexivity).
  rewrite List.forallb_forall in H. apply List.Forall_forall. intros x Hx. specialize (H x Hx).
  rewrite List.forallb_forall in H. apply List.Forall_forall. intros b Hb. specialize (H b Hb).
  unfold in_u8. lia.
Qed.

End Example.

Lemma tesla_books_balance_witness :
  verified (tr_stats Example.final) = 1 /\
  delivered (tr_stats Example.final) =
    verified (tr_stats Example.final) + forged (tr_stats Example.final) + unsettled Example.final /\
  unsettled Example.final = Z.of_nat (waiting (tr_drawers Example.final)) /\
  Z.of_nat (length (latencies_ns (tr_stats Example.final))) = verified (tr_stats Example.final).
Proof.
  split; [vm_compute; reflexivity|].
  apply (tesla_books_balance Example.commitment (commitment_sign Example.commitment Example.sk)
    (ed25519_public Example.sk) 100 16 Example.inner Example.receiver Example.datagrams Example.out
    Example.final);
    [exact Example.commitment_fits|width|width|exact Example.receiver_accepted|exact Example.datagrams_bytes
    |vm_compute; reflexivity|exact Example.datagrams_run].
Defined.

Lemma tesla_waiting_keys_secret_witness :
  exists es e, tr_drawers Example.final !! 3 = Some es /\ e ∈ es /\
    undisclosed (tr_params Example.final) 3 (de_arrival_ns e).
Proof.
  assert (exists e, tr_drawers Example.final !! 3 = Some [e] /\ de_arrival_ns e = 2600) as (e & Hes & Ha).
  { eexists. split; vm_compute; reflexivity. }
  exists [e], e. split; [exact Hes|]. split; [left|].
  eapply (tesla_waiting_keys_secret Example.commitment (commitment_sign Example.commitment Example.sk)
    (ed25519_public Example.sk) 100 16 Example.inner Example.receiver Example.datagrams Example.out
    Example.final 3 [e] e);
    [exact Example.commitment_fits|width|width|exact Example.receiver_accepted|exact Example.datagrams_bytes
    |vm_compute; reflexivity|exact Example.datagrams_run|exact Hes|left|lia|].
  rewrite Ha. unfold clock_fits. vm_compute. split; congruence.
Defined.

Lemma honest_packets_verify_witness :
  honest_run (tr_params Example.receiver) HmacSha256 Example.kf Example.receiver Example.arrivals Example.after_second /\
  verified (tr_stats Example.after_second) = 1 /\
  forged (tr_stats Example.after_second) = 0 /\
  delivered (tr_stats Example.after_second) =
    verified (tr_stats Example.after_second) + unsettled Example.after_second /\
  (forall i es, tr_drawers Example.after_second !! i = Some es -> es ≠ [] ->
     cv_trusted_index (tr_verifier Example.after_second) < i).
Proof.
  assert (honest_run (tr_params Example.receiver) HmacSha256 Example.kf Example.receiver Example.arrivals
    Example.after_second) as Hrun.
  { apply (honest_step _ _ _ _ [Example.first] Example.second Example.after_first
      (Example.arrive Example.after_first Example.second).1.1
      (Example.arrive Example.after_first Example.second).1.2).
    - apply (honest_step _ _ _ _ [] Example.first Example.receiver
        (Example.arrive Example.receiver Example.first).1.1
        (Example.arrive Example.receiver Example.first).1.2); [constructor|..].
      + unfold honest_arrival, clock_fits. split_and!; vm_compute; congruence.
      + done.
      + unfold near_highest. split_and!; vm_compute; congruence.
      + vm_compute. reflexivity.
    - unfold honest_arrival, clock_fits. split_and!; vm_compute; congruence.
    - intros a' [= <-]. vm_compute. congruence.
    - unfold near_highest. split_and!; vm_compute; congruence.
    - vm_compute. reflexivity. }
  split; [exact Hrun|]. split; [vm_compute; reflexivity|].
  apply (honest_packets_verify Example.commitment Example.sk Example.kf 100 16 Example.inner Example.receiver
    Example.arrivals Example.after_second).
  - exact Example.commitment_fits.
  - width.
  - width.
  - reflexivity.
  - exact Example.receiver_accepted.
  - vm_compute. reflexivity.
  - exact Hrun.
Defined.
