(* ===== verification/TeslaIdeal.v ===== *)
(** * TeslaIdeal: the receiver against one that knows the chain

    The abstract receiver holds the genuine chain, the packets waiting in
    arrival order and the packets settled so far; it has no verifier, no
    drawers and no counters.  Unless a datagram discloses a key that
    hashes down through a second preimage of the chain step, the receiver of receiver.rs and the abstract one answer
    every sequence of datagrams alike, and the abstract state determines the
    concrete one. *)

From S2P Require Import Prelude Bytes Crypto Rtp IndexRecovery Session Receiver ReceiverSpec TeslaChain.
From S2P Require Import TeslaSchedule TeslaMac TeslaCommitment TeslaSender TeslaReceiver TeslaFacts TeslaHonest.

(** A settled packet: its interval, the packet, and when it was settled. *)
Record Settled := mkSettled {
  st_interval : Z;
  st_entry : DrawerEntry;
  st_time : Z
}.

Record Ideal (S : Type) := mkIdeal {
  id_trusted : Z;
  id_waiting : list (Z * DrawerEntry);
  id_log : list Settled;
  id_drops : list TeslaDrop;
  id_peak : Z;
  id_inner : ReceiverKeyManager S;
  id_recovery : IndexRecovery
}.
Arguments mkIdeal {S}.
Arguments id_trusted {S}.
Arguments id_waiting {S}.
Arguments id_log {S}.
Arguments id_drops {S}.
Arguments id_peak {S}.
Arguments id_inner {S}.
Arguments id_recovery {S}.

(** ** Filters *)

Lemma filter_none {A} (P : A -> Prop) `{!forall x, Decision (P x)} (l : list A) :
  Forall (fun x => ¬ P x) l -> filter P l = [].
Proof. induction 1 as [|x l Hx _ IH]; [done|]. by rewrite filter_cons, decide_False. Qed.

Lemma filter_every {A} (P : A -> Prop) `{!forall x, Decision (P x)} (l : list A) : Forall P l -> filter P l = l.
Proof. induction 1 as [|x l Hx _ IH]; [done|]. by rewrite filter_cons, decide_True, IH. Qed.

Lemma filter_map {A B} (f : A -> B) (P : B -> Prop) `{!forall x, Decision (P x)} (l : list A) :
  filter P (f <$> l) = f <$> filter (fun x => P (f x)) l.
Proof. induction l as [|x l IH]; [done|]. rewrite fmap_cons, !filter_cons, IH. by destruct (decide _). Qed.

(** ** Drawers as the waiting list sorted by interval *)

(** The packets of interval [i] among the waiting ones. *)
Definition of_interval (w : list (Z * DrawerEntry)) (i : Z) : list DrawerEntry :=
  (filter (fun x => x.1 = i) w).*2.

(** The intervals after [t], up to and including [j]. *)
Definition after_upto (t j : Z) (x : Z * DrawerEntry) : Prop := t < x.1 <= j.

#[export] Instance after_upto_dec t j x : Decision (after_upto t j x).
Proof. unfold after_upto. apply _. Defined.

(** What a disclosure of key [j] settles, [t] being the newest key known:
    interval by interval, in arrival order within one. *)
Definition settles (w : list (Z * DrawerEntry)) (t j now : Z) : list Settled :=
  seqZ (t + 1) (j - t) ≫= fun i => (fun e => mkSettled i e now) <$> of_interval w i.

Definition keeps (w : list (Z * DrawerEntry)) (t j : Z) : list (Z * DrawerEntry) :=
  filter (fun x => ¬ after_upto t j x) w.

Section Ideal.
Context {CR : Crypto} {CL : CryptoLaws} {S : Type} {OPS : SrtpOps S}.
Context (p : TeslaSchedule) (alg : TeslaMacAlg) (kf : bytes).
Implicit Types (A : Ideal S) (self : TeslaReceiver S).

(** The verdict on a settled packet: its MAC under the genuine key. *)
Definition genuine (s : Settled) : Prop := authentic alg (true_key kf (n_chain p) (st_interval s)) (st_entry s).

#[export] Instance genuine_dec s : Decision (genuine s).
Proof. unfold genuine. apply _. Defined.

(** ** The abstract receiver *)

(** What both receivers do before looking at the disclosed key. *)
Definition admit_packet (recovery : IndexRecovery) (inner : ReceiverKeyManager S) (buf : bytes) (arrival_ns : Z) :
    outcome (result (Z * bytes * DrawerEntry) TeslaDrop * bytes * ReceiverKeyManager S) :=
  '(ext, buf) ← split_extension buf;
  match ext with
  | None => Ret (Err Malformed, buf, inner)
  | Some (interval, disclosed, mac) =>
      if bool_decide (length buf < RTP_HEADER_LEN)%nat then Ret (Err Malformed, buf, inner)
      else
        verdict ← accepts p arrival_ns interval;
        if bool_decide (verdict = UnsafeLate) then Ret (Err TDUnsafeLate, buf, inner)
        else
          let covered := buf in
          '(r, buf, inner) ← recv_unprotect inner buf;
          Ret (match r with
               | Err drop => Err (Srtp drop)
               | Ok _ => Ok (interval, disclosed, mkDrawerEntry (recover recovery (hdr_seq covered)) arrival_ns mac covered)
               end, buf, inner)
  end.

Definition id_drop A (drop : TeslaDrop) : Ideal S :=
  mkIdeal (id_trusted A) (id_waiting A) (id_log A) (id_drops A ++ [drop]) (id_peak A) (id_inner A) (id_recovery A).

(** The packet waits, after [due] has been settled with key [t]. *)
Definition id_wait A (t : Z) (rest : list (Z * DrawerEntry)) (due : list Settled) (interval : Z) (e : DrawerEntry) : Ideal S :=
  let w := rest ++ [(interval, e)] in
  mkIdeal t w (id_log A ++ due) (id_drops A) (Z.max (id_peak A) (Z.of_nat (length w))) (id_inner A) (id_recovery A).

Definition ideal_deliver A (interval : Z) (disclosed : bytes) (e : DrawerEntry) (now : Z) :
    result Z TeslaDrop * Ideal S :=
  let t := id_trusted A in
  let w := id_waiting A in
  let j := disclosed_index p interval in
  if j <=? t then (Ok 0, id_wait A t w [] interval e)
  else if bool_decide (j <= n_chain p /\ j - t <= g_max p /\ disclosed = true_key kf (n_chain p) j) then
    let due := settles w t j now in
    (Ok (Z.of_nat (length due)), id_wait A j (keeps w t j) due interval e)
  else (Err BadDisclosure, id_drop A BadDisclosure).

Definition id_admit A (inner : ReceiverKeyManager S) (e : DrawerEntry) : Ideal S :=
  mkIdeal (id_trusted A) (id_waiting A) (id_log A) (id_drops A) (id_peak A) inner
    (update (id_recovery A) (de_ext_index e)).

Definition ideal_arrival A (buf : bytes) (arrival_ns : Z) : outcome (result Z TeslaDrop * bytes * Ideal S) :=
  '(r, buf, inner) ← admit_packet (id_recovery A) (id_inner A) buf arrival_ns;
  match r with
  | Err drop =>
      let A := mkIdeal (id_trusted A) (id_waiting A) (id_log A) (id_drops A) (id_peak A) inner (id_recovery A) in
      Ret (Err drop, buf, id_drop A drop)
  | Ok (interval, disclosed, e) =>
      let '(r, A) := ideal_deliver (id_admit A inner e) interval disclosed e arrival_ns in
      Ret (r, buf, A)
  end.

Fixpoint ideal_all A (l : list (bytes * Z)) : outcome (list (result Z TeslaDrop * bytes) * Ideal S) :=
  match l with
  | [] => Ret ([], A)
  | (buf, arrival) :: l =>
      '(r, buf, A) ← ideal_arrival A buf arrival;
      '(out, A) ← ideal_all A l;
      Ret ((r, buf) :: out, A)
  end.

Definition ideal_new (inner : ReceiverKeyManager S) : Ideal S :=
  mkIdeal 0 [] [] [] 0 inner IndexRecovery_default.

(** ** The counters the abstract state determines *)

Definition is_malformed (d : TeslaDrop) : bool := match d with Malformed => true | _ => false end.
Definition is_unsafe (d : TeslaDrop) : bool := match d with TDUnsafeLate => true | _ => false end.
Definition is_bad_disclosure (d : TeslaDrop) : bool := match d with BadDisclosure => true | _ => false end.
Definition is_srtp (d : TeslaDrop) : bool := match d with Srtp _ => true | _ => false end.

Definition count (f : TeslaDrop -> bool) (l : list TeslaDrop) : Z := Z.of_nat (length (filter f l)).

Definition stats_of A : TeslaStats :=
  let good := filter genuine (id_log A) in
  mkTeslaStats (Z.of_nat (length (id_log A) + length (id_waiting A))) (Z.of_nat (length good))
    (Z.of_nat (length (id_log A) - length good))
    (count is_malformed (id_drops A)) (count is_unsafe (id_drops A)) (count is_bad_disclosure (id_drops A))
    (count is_srtp (id_drops A)) (id_peak A) ((fun s => latency (st_time s) (st_entry s)) <$> good).

Record represents (n : Z) A self : Prop := {
  rp_params : tr_params self = p;
  rp_alg : tr_alg self = alg;
  rp_verifier : tr_verifier self =
    mkChainVerifier (n_chain p) (g_max p) (id_trusted A) (true_key kf (n_chain p) (id_trusted A));
  rp_trusted : 0 <= id_trusted A <= n_chain p;
  rp_inner : tr_inner self = id_inner A;
  rp_recovery : tr_recovery self = id_recovery A;
  rp_drawers : forall i, default [] (tr_drawers self !! i) = of_interval (id_waiting A) i;
  rp_pending : tr_pending self = Z.of_nat (length (id_waiting A));
  rp_stats : tr_stats self = stats_of A;
  rp_drops : Z.of_nat (length (id_drops A)) <= n;
  rp_books : books n self
}.


(** ** Both receivers admit alike *)

Lemma process_arrival_admit self buf arrival :
  tr_params self = p ->
  process_arrival self buf arrival =
  '(r, buf, inner) ← admit_packet (tr_recovery self) (tr_inner self) buf arrival;
  let self := tr_set_inner self inner in
  match r with
  | Err drop => Ret (Err drop, buf, tr_set_stats self (count_drop drop))
  | Ok (interval, disclosed, e) =>
      '(res, self) ← deliver (tr_set_recovery self (update (tr_recovery self) (de_ext_index e)))
        interval disclosed e arrival;
      Ret (res, buf, self)
  end.
Proof using Type.
  clear CL. intros Hp. unfold process_arrival, admit_packet. rewrite Hp. destruct (split_extension buf) as [[ext pkt]|]; [|done].
  cbn [mbind outcome_bind]. assert (tr_set_inner self (tr_inner self) = self) as Hself by by destruct self.
  destruct ext as [[[interval disclosed] mac]|]; [|cbn; by rewrite Hself].
  case_bool_decide as Hlen; [cbn; by rewrite Hself|].
  destruct (accepts p arrival interval) as [v|]; [|done]. cbn [mbind outcome_bind].
  case_bool_decide as Hv; [cbn; by rewrite Hself|].
  unfold RTP_HEADER_LEN in *. rewrite !index_byte_at by lia. cbn [mbind outcome_bind].
  change (from_be_bytes [byte_at pkt 2; byte_at pkt 3]) with (hdr_seq pkt).
  destruct (recv_unprotect (tr_inner self) pkt) as [[[[g|drop] pkt'] inner]|]; done.
Qed.

(** ** What is due, without the drawers *)

Lemma due_no_dup (m : drawers_t) keys :
  NoDup keys.*1 -> due m keys = keys ≫= fun ik => (fun e => (ik.2, e)) <$> default [] (m !! ik.1).
Proof using Type.
  clear. revert m. induction keys as [|[i k] keys IH]; intros m; [done|]. cbn [fmap list_fmap due].
  intros [Hi Hnd]%NoDup_cons. rewrite bind_cons. cbn [fst snd].
  assert (forall m', (forall x, x ∈ keys.*1 -> m' !! x = m !! x) ->
    due m' keys = keys ≫= fun ik => (fun e => (ik.2, e)) <$> default [] (m !! ik.1)) as Hm.
  { intros m' Heq. rewrite (IH m' Hnd). clear -Heq. induction keys as [|[x k'] keys IHk]; [done|].
    rewrite !bind_cons. cbn [fst snd]. rewrite Heq by left. f_equal. apply IHk. intros y Hy. apply Heq. by right. }
  destruct (m !! i) as [es|] eqn:Hmi; [|by rewrite Hm].
  cbn [default from_option id]. f_equal. apply Hm. intros x Hx. apply lookup_delete_ne. by intros ->.
Qed.

Lemma delete_all_default (m : drawers_t) keys i :
  default [] (delete_all m keys !! i) = if decide (i ∈ keys.*1) then [] else default [] (m !! i).
Proof using Type.
  clear. revert m. induction keys as [|[j k] keys IH]; intros m; [done|].
  cbn [delete_all fmap list_fmap fst]. rewrite IH.
  destruct (decide (i = j)) as [->|Hne].
  - rewrite lookup_delete_eq. destruct (decide (j ∈ j :: _)) as [_|Hj]; [by destruct (decide _)|destruct Hj; left].
  - rewrite lookup_delete_ne by done.
    destruct (decide (i ∈ keys.*1)) as [Hi|Hi], (decide (i ∈ j :: _)) as [Hij|Hij]; try done.
    + destruct Hij. by right.
    + by apply elem_of_cons in Hij as [?|?].
Qed.

Lemma true_keys_seqZ n t m :
  true_keys kf n t m = (fun i => (i, true_key kf n i)) <$> seqZ (t + 1) (Z.of_nat m).
Proof using Type.
  unfold true_keys, seqZ. rewrite Nat2Z.id, <- list_fmap_compose. apply list_fmap_ext.
  intros _ j _. cbn. by replace (Z.of_nat j + (t + 1)) with (t + 1 + Z.of_nat j) by lia.
Qed.

(** The packets the recovered keys settle, each with its key. *)
Lemma due_settles (m : drawers_t) w n t j now :
  t <= j -> (forall i, default [] (m !! i) = of_interval w i) ->
  due m (true_keys kf n t (Z.to_nat (j - t))) =
  (fun s => (true_key kf n (st_interval s), st_entry s)) <$> settles w t j now.
Proof using Type.
  intros Hj Hm. rewrite true_keys_seqZ, Z2Nat.id by lia. rewrite due_no_dup.
  2:{ rewrite <- list_fmap_compose. unfold compose. cbn. rewrite list_fmap_id. apply NoDup_seqZ. }
  unfold settles. generalize (seqZ (t + 1) (j - t)) as js.
  induction js as [|i js IH]; [done|]. rewrite fmap_cons, !bind_cons, fmap_app, IH, Hm. cbn [fst snd].
  by rewrite <- list_fmap_compose.
Qed.

Lemma pairs_of_interval w i : (fun e => (i, e)) <$> of_interval w i = filter (fun x : Z * DrawerEntry => x.1 = i) w.
Proof using Type.
  clear. unfold of_interval. rewrite <- list_fmap_compose. induction w as [|[x e] w IH]; [done|].
  rewrite filter_cons. destruct (decide _) as [Hx|]; [|done]. cbn in *. by rewrite IH, Hx.
Qed.

(** Settling parts the waiting packets. *)
Lemma settles_keeps w t j now :
  w ≡ₚ ((fun s => (st_interval s, st_entry s)) <$> settles w t j now) ++ keeps w t j.
Proof using Type.
  clear. assert (forall js, NoDup js ->
    w ≡ₚ (js ≫= fun i => filter (fun x : Z * DrawerEntry => x.1 = i) w) ++
      filter (fun x : Z * DrawerEntry => x.1 ∉ js) w) as Hgen.
  { induction js as [|i js IH]; intros Hnd.
    - cbn. clear. induction w as [|x w IHw]; [done|]. rewrite filter_cons, decide_True by apply not_elem_of_nil.
      by rewrite <- IHw.
    - apply NoDup_cons in Hnd as [Hi Hnd]. rewrite bind_cons. rewrite (IH Hnd) at 1. clear IH Hnd.
      rewrite (Permutation_app_comm (filter _ _) (js ≫= _)), <- app_assoc. f_equiv.
      rewrite <- (filter_app_complement (fun x => x.1 = i) (filter (fun x : Z * DrawerEntry => x.1 ∉ js) w)).
      rewrite !list_filter_filter. apply Permutation_app; apply reflexive_eq, list_filter_iff;
        intros [x e]; cbn; [split; [tauto|intros ->; tauto]|rewrite elem_of_cons; tauto]. }
  rewrite (Hgen (seqZ (t + 1) (j - t)) (NoDup_seqZ _ _)) at 1. f_equiv.
  - apply reflexive_eq. unfold settles. generalize (seqZ (t + 1) (j - t)) as js.
    induction js as [|i js IH]; [done|]. rewrite !bind_cons, fmap_app, IH. f_equal.
    rewrite <- pairs_of_interval, <- list_fmap_compose. done.
  - apply reflexive_eq, list_filter_iff. intros [x e]. unfold after_upto. rewrite elem_of_seqZ. cbn. lia.
Qed.

Lemma of_interval_snoc w k e i :
  of_interval (w ++ [(k, e)]) i = of_interval w i ++ (if decide (k = i) then [e] else []).
Proof using Type. clear. unfold of_interval. rewrite filter_app, fmap_app, filter_cons. by destruct (decide _). Qed.

Lemma of_interval_keeps w t j i :
  of_interval (keeps w t j) i = if decide (t < i <= j) then [] else of_interval w i.
Proof using Type.
  clear. unfold of_interval, keeps. rewrite list_filter_filter. destruct (decide _) as [Hi|Hi].
  - rewrite filter_none; [done|]. apply Forall_forall. intros [x e] _. unfold after_upto. cbn. lia.
  - f_equal. apply list_filter_iff. intros [x e]. unfold after_upto. cbn. lia.
Qed.


(** ** One packet at both receivers *)

Lemma count_snoc f l drop : count f (l ++ [drop]) = count f l + (if f drop then 1 else 0).
Proof using Type.
  clear. unfold count. rewrite filter_app, length_app, filter_cons, filter_nil.
  destruct (f drop); [rewrite decide_True by done|rewrite decide_False by (by intros [])]; cbn; lia.
Qed.

Lemma count_bound f l : 0 <= count f l <= Z.of_nat (length l).
Proof using Type. clear. unfold count. pose proof (length_filter (fun x => Is_true (f x)) l). lia. Qed.

Lemma stats_of_drop A drop :
  Z.of_nat (length (id_drops A)) < 2 ^ 62 -> stats_of (id_drop A drop) = count_drop drop (stats_of A).
Proof using Type.
  intros Hn. pose proof (count_bound is_malformed (id_drops A)). pose proof (count_bound is_unsafe (id_drops A)).
  pose proof (count_bound is_bad_disclosure (id_drops A)). pose proof (count_bound is_srtp (id_drops A)).
  unfold stats_of, id_drop. cbn [id_log id_waiting id_drops id_peak]. rewrite !count_snoc.
  destruct drop; unfold count_drop; cbn [is_malformed is_unsafe is_bad_disclosure is_srtp delivered verified forged
    drops_malformed drops_unsafe drops_bad_disclosure drops_srtp peak_pending latencies_ns];
    rewrite u64_id by width; f_equal; lia.
Qed.

Lemma represents_drop n A self drop :
  n < 2 ^ 62 -> represents n A self ->
  represents (n + 1) (id_drop A drop) (tr_set_stats self (count_drop drop)).
Proof using Type.
  intros Hn [? ? ? ? ? ? ? ? Hst Hdr Hb]. split; try done.
  - rewrite stats_of_drop by lia. cbn [tr_set_stats tr_stats]. by rewrite Hst.
  - cbn [id_drop id_drops]. rewrite length_app. cbn [length]. lia.
  - pose proof (books_drop n self drop (tr_inner self) Hb) as Hb'. by destruct self.
Qed.

(** The counters after settling [due] and delivering one more packet. *)
Lemma stats_of_wait A t rest due now interval e :
  Z.of_nat (length (id_log A) + length (id_waiting A)) < 2 ^ 62 -> Forall (fun s => st_time s = now) due ->
  (length due + length rest)%nat = length (id_waiting A) ->
  stats_of (id_wait A t rest due interval e) =
  count_delivered (Z.of_nat (length rest) + 1)
    (add_settled alg now ((fun s => (true_key kf (n_chain p) (st_interval s), st_entry s)) <$> due) (stats_of A)).
Proof using Type.
  intros Hn Hnow Hlen. unfold stats_of, id_wait, add_settled, count_delivered, good.
  cbn [id_log id_waiting id_drops id_peak delivered verified forged drops_malformed drops_unsafe
    drops_bad_disclosure drops_srtp peak_pending latencies_ns].
  rewrite filter_map, filter_app, fmap_app, !length_app, !length_fmap, <- !list_fmap_compose. cbn [length].
  change (filter (fun x => authentic alg _.1 _.2) due) with (filter genuine due).
  pose proof (length_filter genuine due). pose proof (length_filter genuine (id_log A)).
  rewrite u64_id by width. f_equal; try lia.
  f_equal. apply list_fmap_ext. intros _ s Hs%list_elem_of_lookup_2. cbn.
  apply list_elem_of_filter in Hs as [_ Hs]. rewrite Forall_forall in Hnow. by rewrite (Hnow s Hs).
Qed.

(** The concrete receiver's waiting step, from a state where [due] has been
    settled. *)
Lemma represents_push n A self t rest due now interval e :
  n < 2 ^ 62 -> tr_params self = p -> tr_alg self = alg ->
  tr_verifier self = mkChainVerifier (n_chain p) (g_max p) t (true_key kf (n_chain p) t) ->
  0 <= t <= n_chain p -> tr_inner self = id_inner A -> tr_recovery self = id_recovery A ->
  (forall i, default [] (tr_drawers self !! i) = of_interval rest i) ->
  tr_pending self = Z.of_nat (length rest) ->
  Forall (fun s => st_time s = now) due -> (length due + length rest)%nat = length (id_waiting A) ->
  tr_stats self =
    add_settled alg now ((fun s => (true_key kf (n_chain p) (st_interval s), st_entry s)) <$> due) (stats_of A) ->
  Z.of_nat (length (id_drops A)) <= n -> books n self ->
  represents (n + 1) (id_wait A t rest due interval e) (push_drawer self interval e).
Proof using Type.
  intros Hn Hp Ha Hv Ht Hi Hr Hd Hpn Hnow Hlen Hst Hdr Hb. pose proof Hb as (_ & _ & Hbd & Hbeq & _).
  rewrite Hst in Hbd. cbn [add_settled delivered stats_of] in Hbd.
  assert (u64 (tr_pending self + 1) = Z.of_nat (length rest) + 1) as Hpu by (rewrite Hpn; apply u64_id; width).
  split; try done.
  - intros i. unfold push_drawer. cbn [tr_set_stats tr_set_drawers tr_drawers id_wait id_waiting].
    rewrite of_interval_snoc, Hd. destruct (decide (interval = i)) as [->|Hne].
    + by rewrite lookup_insert_eq.
    + by rewrite lookup_insert_ne, Hd, app_nil_r by done.
  - unfold push_drawer. cbn [tr_set_stats tr_set_drawers tr_pending id_wait id_waiting].
    rewrite Hpu, length_app. cbn. lia.
  - rewrite (stats_of_wait _ _ _ _ now) by (done || lia).
    unfold push_drawer. cbn [tr_set_stats tr_set_drawers tr_stats]. by rewrite Hpu, Hst.
  - cbn [id_wait id_drops]. lia.
  - by apply books_push.
Qed.

(** The verifier of the chain trusting key [t]. *)
Definition verifier_at (t : Z) : ChainVerifier :=
  mkChainVerifier (n_chain p) (g_max p) t (true_key kf (n_chain p) t).

(** The verifier answers like one who knows the chain. *)
Definition answers_known (t : Z) (disclosed : bytes) (j : Z) : Prop :=
  let v := verifier_at t in
  if j <=? t then check v disclosed j = (NotNew, v)
  else if bool_decide (j <= n_chain p /\ j - t <= g_max p /\ disclosed = true_key kf (n_chain p) j) then
    check v disclosed j = (New (true_keys kf (n_chain p) t (Z.to_nat (j - t))), verifier_at j)
  else exists d, check v disclosed j = (d, v) /\ (d = Invalid \/ d = TooFarAhead \/ d = BeyondChain).

Lemma check_known t disclosed j :
  0 <= t <= n_chain p -> length disclosed = TESLA_KEY_LEN ->
  collides kf (n_chain p) disclosed j \/ answers_known t disclosed j.
Proof using CL.
  intros Ht Hlen. unfold answers_known. cbn zeta. set (v := verifier_at t).
  assert (v = mkChainVerifier (n_chain p) (g_max p) t (true_key kf (n_chain p) t)) as Hv by done. clearbody v. assert (verifier_ok kf (n_chain p) v) as Hok by by subst v.
  destruct (Z.leb_spec j t) as [Hj|Hj].
  { right. subst v. unfold check. cbn [cv_trusted_index]. by destruct (Z.leb_spec j t); [|lia]. }
  case_bool_decide as Hc.
  - right. destruct Hc as (Hn & Hg & ->). rewrite (check_genuine kf (n_chain p) v j Hok); subst v; cbn; done || lia.
  - destruct (check v disclosed j) as [d v'] eqn:Hck.
    destruct (check_sound kf (n_chain p) v disclosed j d v' Hok Hlen Hck) as [?|((_ & Hb & _) & _ & _ & Hd)]; [by left|].
    right. rewrite check_spec in Hck. subst v. cbn [cv_trusted_index cv_n_chain cv_g_max] in *.
    destruct (Z.leb_spec j t); [lia|].
    destruct (n_chain p <? j); [injection Hck as <- <-; eauto|].
    destruct (g_max p <? j - t); [injection Hck as <- <-; eauto|].
    destruct (bool_decide _); [injection Hck as <- <-; eauto|]. injection Hck as <- <-.
    destruct Hc. cbn in Hd, Hb. destruct Hd as (-> & _ & Hg & _). split_and!; done || lia.
Qed.

(** A genuine key within reach needs no assumption. *)
Lemma check_known_genuine t j :
  0 <= t <= n_chain p -> j <= n_chain p -> j <= t \/ j - t <= g_max p ->
  answers_known t (true_key kf (n_chain p) j) j.
Proof using Type.
  intros Ht Hn Hg. unfold answers_known. cbn zeta. destruct (Z.leb_spec j t) as [Hj|Hj].
  - unfold check, verifier_at. cbn [cv_trusted_index]. by destruct (Z.leb_spec j t); [|lia].
  - rewrite bool_decide_eq_true_2 by (split_and!; done || lia).
    rewrite (check_genuine kf (n_chain p) (verifier_at t) j); cbn; done || lia.
Qed.

Lemma settles_time w t j now : Forall (fun s => st_time s = now) (settles w t j now).
Proof using Type.
  clear. apply Forall_forall. intros s (i & Hs & _)%list_elem_of_bind.
  by apply list_elem_of_fmap in Hs as (e & -> & _).
Qed.

Lemma represents_deliver n A self interval disclosed e now :
  n < 2 ^ 62 -> represents n A self ->
  answers_known (id_trusted A) disclosed (disclosed_index p interval) ->
  exists self', deliver self interval disclosed e now = Ret ((ideal_deliver A interval disclosed e now).1, self') /\
    represents (n + 1) (ideal_deliver A interval disclosed e now).2 self'.
Proof using CL.
  intros Hn Hrep Hck. pose proof Hrep as [Hp Ha Hv Ht Hi Hr Hd Hpn Hst Hdr Hb].
  unfold answers_known in Hck. cbn zeta in Hck. fold (verifier_at (id_trusted A)) in Hv. rewrite <- Hv in Hck.
  unfold deliver, ideal_deliver. rewrite Hp. set (j := disclosed_index p interval) in *.
  assert (tr_set_verifier self (tr_verifier self) = self) as Hsame by by destruct self.
  destruct (Z.leb_spec j (id_trusted A)) as [Hj|Hj].
  { rewrite Hck. eexists. split; [done|]. cbn [snd].
    apply (represents_push n A _ _ _ [] 0); try done.
    cbn [fmap list_fmap]. by rewrite add_settled_nil. }
  case_bool_decide as Hc.
  2:{ destruct Hck as (disc & -> & Hdisc). rewrite Hsame. exists (tr_set_stats self (count_drop BadDisclosure)).
      split; [by destruct Hdisc as [->|[->| ->]]|]. by apply represents_drop. }
  rewrite Hck. set (keys := true_keys _ _ _ _). set (self0 := tr_set_verifier self _).
  destruct (books_settle n self0 keys now Hn Hb) as (self1 & Hrun & (Hp1 & Hv1 & Ha1 & Hi1 & Hr1) & Hb1 & Hdr1 & Hst1 & Hpn1).
  change (tr_drawers self0) with (tr_drawers self) in *.
  pose proof (due_settles (tr_drawers self) (id_waiting A) (n_chain p) (id_trusted A) j now ltac:(lia) Hd) as Hdue.
  fold keys in Hdue. rewrite Hdue in Hrun, Hst1, Hpn1. rewrite length_fmap in Hrun, Hpn1.
  rewrite Hrun. cbn [mbind outcome_bind]. eexists. split; [done|]. cbn [snd].
  pose proof (Permutation_length (settles_keeps (id_waiting A) (id_trusted A) j now)) as Hlen.
  rewrite length_app, length_fmap in Hlen.
  assert (tr_alg self0 = alg) as Ha0 by exact Ha. rewrite Ha0 in *.
  assert (tr_params self0 = p) as Hp0 by exact Hp. rewrite Hp0 in *.
  apply (represents_push n A self1 j _ _ now); try done.
  - lia.
  - by rewrite Hi1.
  - by rewrite Hr1.
  - intros i. rewrite Hdr1, delete_all_default, of_interval_keeps.
    change (tr_drawers self0) with (tr_drawers self). rewrite Hd.
    assert (i ∈ keys.*1 <-> id_trusted A < i <= j) as Hiff.
    { unfold keys. rewrite true_keys_seqZ, <- list_fmap_compose. unfold compose. cbn.
      rewrite list_fmap_id, elem_of_seqZ. lia. }
    destruct (decide (i ∈ _)) as [Hin|Hin], (decide (_ < i <= j)) as [Hr'|Hr']; tauto.
  - rewrite Hpn1. change (tr_pending self0) with (tr_pending self). lia.
  - apply settles_time.
  - rewrite Hst1. change (tr_stats self0) with (tr_stats self). by rewrite Hst.
Qed.


Lemma represents_admitted n A self buf arrival interval disclosed e b inner :
  n < 2 ^ 62 -> represents n A self ->
  admit_packet (id_recovery A) (id_inner A) buf arrival = Ret (Ok (interval, disclosed, e), b, inner) ->
  answers_known (id_trusted A) disclosed (disclosed_index p interval) ->
  let d := ideal_deliver (id_admit A inner e) interval disclosed e arrival in
  exists self', process_arrival self buf arrival = Ret (d.1, b, self') /\ represents (n + 1) d.2 self' /\
    tr_inner self' = inner /\ tr_recovery self' = update (id_recovery A) (de_ext_index e).
Proof using CL.
  intros Hn Hrep Hadm Hck d. pose proof Hrep as [Hp _ _ _ Hi Hr _ _ _ _ _].
  rewrite process_arrival_admit, Hi, Hr, Hadm by done. cbn [mbind outcome_bind]. cbn zeta.
  set (self2 := tr_set_recovery _ _).
  assert (represents n (id_admit A inner e) self2) as Hrep2
    by (destruct Hrep; split; first [assumption | reflexivity | cbn; by rewrite Hr]).
  destruct (represents_deliver n _ self2 interval disclosed e arrival Hn Hrep2 Hck) as (self' & -> & Hrep').
  exists self'. split; [done|]. split; [done|]. fold d in Hrep'. destruct Hrep' as [_ _ _ _ -> -> _ _ _ _ _].
  unfold d, ideal_deliver. repeat case_match; done.
Qed.

(** The key a datagram discloses breaks the chain step: hashing it down
    meets a second preimage of a genuine key. *)
Definition discloses_collision (x : bytes * Z) : Prop :=
  match split_extension x.1 with
  | Ret (Some (interval, disclosed, _), _) => collides kf (n_chain p) disclosed (disclosed_index p interval)
  | _ => False
  end.

#[export] Instance discloses_collision_dec x : Decision (discloses_collision x).
Proof using Type. unfold discloses_collision. repeat case_match; apply _. Defined.

Lemma admit_disclosed recovery inner buf arrival interval disclosed e b inner' :
  admit_packet recovery inner buf arrival = Ret (Ok (interval, disclosed, e), b, inner') ->
  exists mac pkt, split_extension buf = Ret (Some (interval, disclosed, mac), pkt) /\
    length disclosed = TESLA_KEY_LEN.
Proof using Type.
  unfold admit_packet. intros H. apply bind_Ret in H as ([ext pkt] & Hsp & H).
  destruct ext as [[[i disc] mac]|]; [|discriminate H]. case_bool_decide; [discriminate H|].
  apply bind_Ret in H as (verdict & _ & H). case_bool_decide; [discriminate H|].
  apply bind_Ret in H as ([[res pkt'] inn] & _ & H). destruct res; [|discriminate H].
  injection H as <- <- <- <- <-. exists mac, pkt. split; [done|].
  destruct (split_total buf) as (res & pkt2 & Hsp' & Hres). rewrite Hsp in Hsp'. injection Hsp' as <- <-.
  by destruct Hres as (_ & Hd & _).
Qed.

Lemma represents_arrival n A self buf arrival :
  n < 2 ^ 62 -> represents n A self ->
  discloses_collision (buf, arrival) \/
  match ideal_arrival A buf arrival with
  | Ret (r, b, A') =>
      exists self', process_arrival self buf arrival = Ret (r, b, self') /\ represents (n + 1) A' self'
  | Panic => process_arrival self buf arrival = Panic
  end.
Proof using CL.
  intros Hn Hrep. pose proof Hrep as [Hp _ _ _ Hi Hr _ _ _ _ _]. unfold ideal_arrival.
  destruct (admit_packet _ _ _ _) as [[[[[[interval disclosed] e]|drop] b] inner]|] eqn:Hadm; cbn [mbind outcome_bind].
  - destruct (admit_disclosed _ _ _ _ _ _ _ _ _ Hadm) as (mac & pkt & Hsp & Hlen).
    destruct (check_known (id_trusted A) disclosed (disclosed_index p interval) (rp_trusted _ _ _ Hrep) Hlen) as [?|Hck];
      [left; unfold discloses_collision; cbn [fst]; by rewrite Hsp|right].
    destruct (represents_admitted n A self _ _ _ _ _ _ _ Hn Hrep Hadm Hck) as (self' & Hrun & Hrep' & _).
    rewrite Hrun. destruct (ideal_deliver _ _ _ _ _) as [r A']. by exists self'.
  - right. rewrite process_arrival_admit, Hi, Hr, Hadm by done. eexists. split; [done|]. apply represents_drop; [done|].
    destruct Hrep. split; first [assumption | reflexivity].
  - right. by rewrite process_arrival_admit, Hi, Hr, Hadm by done.
Qed.

Lemma represents_all n A self l :
  0 <= n -> n + Z.of_nat (length l) < 2 ^ 62 -> represents n A self ->
  Exists discloses_collision l \/
  match ideal_all A l with
  | Ret (out, A') =>
      exists self', process_all self l = Ret (out, self') /\ represents (n + Z.of_nat (length l)) A' self'
  | Panic => process_all self l = Panic
  end.
Proof using CL.
  revert n A self. induction l as [|[buf a] l IH]; intros n A self Hn Hlen Hrep; cbn [ideal_all process_all length].
  - right. exists self. by rewrite Z.add_0_r.
  - cbn [length] in Hlen. destruct (represents_arrival n A self buf a ltac:(lia) Hrep) as [?|H1]; [by left; left|].
    destruct (ideal_arrival A buf a) as [[[r b] A1]|]; [|right; by rewrite H1].
    destruct H1 as (self1 & -> & Hrep1). cbn [mbind outcome_bind].
    destruct (IH (n + 1) A1 self1 ltac:(lia) ltac:(lia) Hrep1) as [?|H2]; [by left; right|right].
    destruct (ideal_all A1 l) as [[out A2]|]; [|by rewrite H2].
    destruct H2 as (self2 & -> & Hrep2). exists self2. split; [done|].
    by replace (n + Z.of_nat (Datatypes.S (length l))) with (n + 1 + Z.of_nat (length l)) by lia.
Qed.

(** ** Where settled packets come from *)

(** What a datagram says: interval, arrival time, MAC and covered packet. *)
Definition shape (x : bytes * Z) : option (Z * Z * bytes * bytes) :=
  match split_extension x.1 with
  | Ret (Some (interval, _, mac), covered) => Some (interval, x.2, mac, covered)
  | _ => None
  end.

Definition shape_of (x : Z * DrawerEntry) : Z * Z * bytes * bytes :=
  (x.1, de_arrival_ns x.2, de_mac x.2, de_covered x.2).

Definition packet_of (s : Settled) : Z * DrawerEntry := (st_interval s, st_entry s).

(** Every packet delivered so far, settled or waiting. *)
Definition history A : list (Z * DrawerEntry) := (packet_of <$> id_log A) ++ id_waiting A.

Definition admitted (x : Z * DrawerEntry) : Prop :=
  in_u32 x.1 /\ accepts p (de_arrival_ns x.2) x.1 = Ret Safe.

Record traced (l : list (bytes * Z)) A : Prop := {
  tc_shapes : shape_of <$> history A ⊆+ omap shape l;
  tc_admitted : Forall admitted (history A);
  tc_trusted : 0 <= id_trusted A;
  tc_log : Forall (fun s => 0 < st_interval s) (id_log A)
}.

Lemma admit_cases recovery inner buf arrival interval disclosed e b inner' :
  bytes_ok buf ->
  admit_packet recovery inner buf arrival = Ret (Ok (interval, disclosed, e), b, inner') ->
  shape (buf, arrival) = Some (shape_of (interval, e)) /\ admitted (interval, e).
Proof using Type.
  unfold admit_packet, shape, shape_of, admitted. cbn [fst snd]. intros Hok H.
  apply bind_Ret in H as ([ext pkt] & Hsp & H). rewrite Hsp.
  destruct ext as [[[i disc] mac]|]; [|discriminate H]. case_bool_decide; [discriminate H|].
  apply bind_Ret in H as (verdict & Hacc & H). case_bool_decide as Hun; [discriminate H|].
  assert (verdict = Safe) as -> by by destruct verdict.
  apply bind_Ret in H as ([[res pkt'] inn] & _ & H). destruct res; [|discriminate H].
  injection H as <- <- <- <- <-. split; [done|]. split; [|done].
  destruct (split_total buf) as (res & pkt2 & Hsp' & Hres). rewrite Hsp in Hsp'. injection Hsp' as <- <-.
  destruct Hres as (_ & _ & _ & Hrange). by destruct (Hrange Hok).
Qed.

Lemma settles_positive w t j now : 0 <= t -> Forall (fun s => 0 < st_interval s) (settles w t j now).
Proof using Type.
  clear. intros Ht. apply Forall_forall. intros s (i & Hs & Hi%elem_of_seqZ)%list_elem_of_bind.
  apply list_elem_of_fmap in Hs as (e & -> & _). cbn. lia.
Qed.

Lemma history_wait A t rest due interval e :
  id_waiting A ≡ₚ (packet_of <$> due) ++ rest ->
  history (id_wait A t rest due interval e) ≡ₚ (interval, e) :: history A.
Proof using Type.
  intros Hw. unfold history, id_wait. cbn [id_log id_waiting]. rewrite Hw, fmap_app, <- !app_assoc, !app_assoc.
  by rewrite <- Permutation_cons_append.
Qed.

Lemma history_deliver A interval disclosed e now r A' :
  0 <= id_trusted A -> Forall (fun s => 0 < st_interval s) (id_log A) ->
  ideal_deliver A interval disclosed e now = (r, A') ->
  (history A' ≡ₚ history A \/ history A' ≡ₚ (interval, e) :: history A) /\
  0 <= id_trusted A' /\ Forall (fun s => 0 < st_interval s) (id_log A').
Proof using Type.
  intros Ht Hlog. unfold ideal_deliver.
  destruct (Z.leb_spec (disclosed_index p interval) (id_trusted A)); [|case_bool_decide]; intros [= <- <-].
  - split; [right; by apply history_wait|]. cbn. by rewrite app_nil_r.
  - split; [right; apply history_wait, settles_keeps|]. cbn. split; [lia|].
    apply Forall_app. split; [done|]. by apply settles_positive.
  - split; [by left|done].
Qed.

Lemma traced_arrival l A buf arrival r b A' :
  bytes_ok buf -> traced l A -> ideal_arrival A buf arrival = Ret (r, b, A') -> traced (l ++ [(buf, arrival)]) A'.
Proof using Type.
  intros Hok [Hsh Had Ht Hlog] H. unfold ideal_arrival in H. apply bind_Ret in H as ([[r1 b1] inner] & Hadm & H).
  assert (omap shape l ⊆+ omap shape (l ++ [(buf, arrival)])) as Hsub
    by (rewrite omap_app; apply submseteq_inserts_r; reflexivity).
  destruct r1 as [[[interval disclosed] e]|drop].
  2:{ injection H as <- <- <-. split; try done. by etrans. }
  destruct (admit_cases _ _ _ _ _ _ _ _ _ Hok Hadm) as [Hshape Hadmit]. clear Hadm.
  set (A1 := id_admit A inner e) in H.
  destruct (ideal_deliver A1 interval disclosed e arrival) as [r2 A2] eqn:Hd. injection H as <- <- <-.
  destruct (history_deliver A1 _ _ _ _ _ _ Ht Hlog Hd) as ([Hh|Hh] & Ht' & Hlog');
    change (history A1) with (history A) in Hh; split; try done; rewrite Hh; try done.
  - by etrans.
  - rewrite omap_app. cbn [omap list_omap]. rewrite Hshape, fmap_cons, <- Permutation_cons_append.
    by apply submseteq_skip.
  - by apply Forall_cons_2.
Qed.

Lemma traced_all l0 A l out A' :
  Forall (fun x => bytes_ok x.1) l -> traced l0 A -> ideal_all A l = Ret (out, A') -> traced (l0 ++ l) A'.
Proof using Type.
  revert l0 A out. induction l as [|[buf a] l IH]; intros l0 A out Hok Htr Hrun.
  - injection Hrun as <- <-. by rewrite app_nil_r.
  - apply Forall_cons in Hok as [Hok1 Hok]. cbn [ideal_all] in Hrun.
    apply bind_Ret in Hrun as ([[r b] A1] & H1 & Hrun). apply bind_Ret in Hrun as ([out' A2] & H2 & [= <- <-]).
    apply (traced_arrival l0) in H1; [|done|done]. apply (IH _ _ _ Hok H1) in H2.
    by rewrite <- app_assoc in H2.
Qed.

End Ideal.

Section Main.
Context {CR : Crypto} {CL : CryptoLaws} {S : Type} {OPS : SrtpOps S}.

Lemma accepted_represents c sig pk kf d_t g (inner : ReceiverKeyManager S) self0 :
  commitment_ok c -> in_u64 d_t -> in_u32 g -> tc_anchor c = true_key kf (tc_n_chain c) 0 ->
  accept c sig pk d_t g inner = Ret (Some self0) ->
  schedule_ok (tr_params self0) /\ n_chain (tr_params self0) = tc_n_chain c /\
  represents (tr_params self0) (tc_mac_alg c) kf 0 (ideal_new inner) self0.
Proof.
  intros Hc Hd Hg Hanchor Hacc.
  destruct (accept_ok _ _ _ _ _ _ _ Hc Hd Hg Hacc) as (_ & Hok & Hb & _ & Hv & Hsch & Halg & Hdr & Hst).
  unfold commitment_schedule, TeslaSchedule_new in Hsch.
  do 4 (apply bind_Ret in Hsch as (? & _ & Hsch)). apply (inj Ret) in Hsch.
  assert (n_chain (tr_params self0) = tc_n_chain c) as Hn by by rewrite <- Hsch.
  assert (g_max (tr_params self0) = g) as Hgm by by rewrite <- Hsch.
  unfold accept in Hacc. destruct (negb _); [discriminate Hacc|]. apply bind_Ret in Hacc as (q & _ & Hacc).
  injection Hacc as <-. split; [done|]. split; [done|]. split; cbn in *; try done.
  - by rewrite Hn, Hgm, Hanchor.
  - destruct Hok as (_ & _ & _ & _ & _ & _ & _ & _ & ? & _). lia.
Qed.

(** C4: On any sequence of datagrams the TESLA receiver behaves like an abstract
    receiver that knows the sender's whole key chain and keeps no verifier,
    no drawers and no counters: same answers, same packet buffers, same
    panics, and every field of the concrete state is determined by the
    abstract one; the only exception is a datagram in the sequence whose
    disclosed 20-byte key is, or hashes down to, a second preimage of a
    genuine chain key under the chain step. *)
Theorem tesla_receiver_refines c sig pk kf d_t g (inner : ReceiverKeyManager S) self0 l :
  commitment_ok c -> in_u64 d_t -> in_u32 g -> tc_anchor c = true_key kf (tc_n_chain c) 0 ->
  accept c sig pk d_t g inner = Ret (Some self0) -> Z.of_nat (length l) < 2 ^ 62 ->
  Exists (discloses_collision (tr_params self0) kf) l \/
  match ideal_all (tr_params self0) kf (ideal_new inner) l with
  | Ret (out, A) =>
      exists self, process_all self0 l = Ret (out, self) /\
        represents (tr_params self0) (tc_mac_alg c) kf (Z.of_nat (length l)) A self
  | Panic => process_all self0 l = Panic
  end.
Proof.
  intros Hc Hd Hg Hanchor Hacc Hlen.
  destruct (accepted_represents _ _ _ _ _ _ _ _ Hc Hd Hg Hanchor Hacc) as (_ & _ & Hrep).
  by apply (represents_all _ _ _ 0).
Qed.

(** C5: TESLA authenticity against any network: each packet counted as verified
    is a datagram that arrived, counted once, whose MAC is that of the
    committed chain's key for its interval, and which arrived, on a clock
    that does not overflow, while no packet disclosing that key can have
    been sent; the only exception is a datagram in the sequence whose
    disclosed 20-byte key is, or hashes down to, a second preimage of a
    genuine chain key under the chain step. *)
Theorem verified_packets_authentic c sig pk kf d_t g (inner : ReceiverKeyManager S) self0 l out self :
  commitment_ok c -> in_u64 d_t -> in_u32 g -> tc_anchor c = true_key kf (tc_n_chain c) 0 ->
  accept c sig pk d_t g inner = Ret (Some self0) -> Z.of_nat (length l) < 2 ^ 62 ->
  Forall (fun x => bytes_ok x.1) l -> process_all self0 l = Ret (out, self) ->
  Exists (discloses_collision (tr_params self0) kf) l \/
  exists packets,
    verified (tr_stats self) = Z.of_nat (length packets) /\ shape_of <$> packets ⊆+ omap shape l /\
    Forall (fun x =>
      authentic (tc_mac_alg c) (true_key kf (tc_n_chain c) x.1) x.2 /\
      (clock_fits (tr_params self) (de_arrival_ns x.2) ->
       undisclosed (tr_params self) x.1 (de_arrival_ns x.2))) packets.
Proof.
  intros Hc Hd Hg Hanchor Hacc Hlen Hl Hrun.
  destruct (accepted_represents _ _ _ _ _ _ _ _ Hc Hd Hg Hanchor Hacc) as (Hok & Hn & Hrep).
  destruct (represents_all _ _ _ 0 _ _ l ltac:(lia) Hlen Hrep) as [?|Hall]; [by left|right].
  destruct (ideal_all _ _ _ l) as [[out' A]|] eqn:HA; [|by rewrite Hrun in Hall].
  destruct Hall as (self' & Hrun' & [Hp _ _ _ _ _ _ _ Hst _ _]).
  rewrite Hrun in Hrun'. apply (inj Ret) in Hrun'. injection Hrun' as <- <-.
  assert (traced (tr_params self0) [] (ideal_new inner)) as Htr by (split; done || constructor).
  apply (traced_all _ _ [] _ _ _ _ Hl Htr) in HA as [Hsh Had _ Hpos]. cbn [app] in Hsh.
  set (good := filter (genuine (tr_params self0) (tc_mac_alg c) kf) (id_log A)).
  exists (packet_of <$> good). rewrite Hst. split; [by rewrite length_fmap|]. split.
  - etrans; [|exact Hsh]. unfold history. rewrite fmap_app. apply submseteq_inserts_r.
    apply sublist_submseteq. do 2 apply fmap_sublist. apply sublist_filter.
  - apply Forall_forall. intros x (s & -> & [Hgen Hs]%list_elem_of_filter)%list_elem_of_fmap.
    rewrite <- Hn. split; [exact Hgen|]. intros Hclk send j Hsend Hle Hj.
    unfold history in Had. apply Forall_app in Had as [Had _]. rewrite Forall_fmap, Forall_forall in Had.
    destruct (Had s Hs) as [Hin Hsafe]. rewrite Forall_forall in Hpos. specialize (Hpos s Hs).
    rewrite Hp in *. cbn in *. by eapply (key_still_secret (tr_params self0)); [..|exact Hj]; try done; lia.
Qed.

End Main.

(** ** The run of TeslaHonest at both receivers *)

Import Toy.

(** No datagram discloses a colliding key. *)
Lemma no_collision : ¬ Exists (discloses_collision (tr_params Example.receiver) Example.kf) Example.datagrams.
Proof. apply (bool_decide_unpack _). vm_compute. exact I. Qed.

Lemma tesla_receiver_refines_witness :
  verified (tr_stats Example.final) = 1 /\
  match ideal_all (tr_params Example.receiver) Example.kf (ideal_new Example.inner) Example.datagrams with
  | Ret (out, A) =>
      exists self, process_all Example.receiver Example.datagrams = Ret (out, self) /\
        represents (tr_params Example.receiver) HmacSha256 Example.kf 3 A self
  | Panic => process_all Example.receiver Example.datagrams = Panic
  end.
Proof.
  split; [vm_compute; reflexivity|].
  destruct (tesla_receiver_refines Example.commitment (commitment_sign Example.commitment Example.sk)
    (ed25519_public Example.sk) Example.kf 100 16 Example.inner Example.receiver Example.datagrams) as [Hc|H].
  - exact Example.commitment_fits.
  - width.
  - width.
  - reflexivity.
  - exact Example.receiver_accepted.
  - vm_compute. reflexivity.
  - destruct (no_collision Hc).
  - exact H.
Defined.

Lemma verified_packets_authentic_witness :
  verified (tr_stats Example.final) = 1 /\
  exists packets,
    verified (tr_stats Example.final) = Z.of_nat (length packets) /\
    shape_of <$> packets ⊆+ omap shape Example.datagrams /\
    Forall (fun x =>
      authentic HmacSha256 (true_key Example.kf 5 x.1) x.2 /\
      (clock_fits (tr_params Example.final) (de_arrival_ns x.2) ->
       undisclosed (tr_params Example.final) x.1 (de_arrival_ns x.2))) packets.
Proof.
  split; [vm_compute; reflexivity|].
  destruct (verified_packets_authentic Example.commitment (commitment_sign Example.commitment Example.sk)
    (ed25519_public Example.sk) Example.kf 100 16 Example.inner Example.receiver Example.datagrams Example.out
    Example.final) as [Hc|H].
  - exact Example.commitment_fits.
  - width.
  - width.
  - reflexivity.
  - exact Example.receiver_accepted.
  - vm_compute. reflexivity.
  - exact Example.datagrams_bytes.
  - exact Example.datagrams_run.
  - destruct (no_collision Hc).
  - exact H.
Defined.
