(* ===== verification/TeslaEndToEnd.v ===== *)
(** * TeslaEndToEnd: the authenticated stream from sender to receiver

    The whole sending side (a [RekeyingStream] protecting RTP packets, then
    [TeslaSender::authenticate]) against the whole receiving side
    ([TeslaReceiver::process_arrival] over the [ReceiverKeyManager]).  The
    network may lose and reorder packets; [EndToEnd.deliverable] says what the
    SRTP layer tolerates, [timely] what TESLA does. *)

From S2P Require Import Prelude Bytes Crypto Rtp IndexRecovery Mls Ratchet Rdbx Kdf Session Generation Granularity.
From S2P Require Import Receiver ReceiverWindow ReceiverSpec ReceiverProps EndToEnd TeslaChain TeslaSchedule TeslaMac.
From S2P Require Import TeslaCommitment TeslaSender TeslaReceiver TeslaFacts TeslaHonest TeslaIdeal.

(** Arrivals (packet number, time) in order of time, each inside the travel
    budget, from a clock at most [D_t] behind the sender's, and disclosing a
    key no further ahead than the receiver is willing to hash. *)
Fixpoint timely (p : TeslaSchedule) (sends ivs : list Z) (t now : Z) (l : list (nat * Z)) : bool :=
  match l with
  | [] => true
  | (i, a) :: l =>
      match sends !! i, ivs !! i with
      | Some s, Some v =>
          let j := disclosed_index p v in
          (now <=? a) && (a + d_t_ns p <? u64_max) && (s <=? a + d_t_ns p) &&
          (a - s <=? (d p - 1) * t_int_ns p - d_t_ns p) && (j - t <=? g_max p) &&
          timely p sends ivs (Z.max t j) a l
      | _, _ => false
      end
  end.

(** The intervals of the delivered packets, and the newest key they disclose. *)
Definition intervals (ivs : list Z) (l : list (nat * Z)) : list Z := omap (fun x => ivs !! x.1) l.
Definition newest (p : TeslaSchedule) (l : list Z) : Z := fold_left (fun t v => Z.max t (disclosed_index p v)) l 0.

(** ** The abstract receiver on the sender's packets *)

Section Abstract.
Context {CR : Crypto} {CL : CryptoLaws} {S : Type}.
Context (p : TeslaSchedule) (alg : TeslaMacAlg) (kf : bytes).
Context (Hok : schedule_ok p).
Implicit Types A : Ideal S.

(** The newest key was disclosed by a packet sent by [now]. *)
Definition disclosed_by (now t : Z) : Prop :=
  t = 0 \/ exists send j, interval_of p send = Ret j /\ 0 <= send < u64_max /\ send <= now + d_t_ns p /\
    disclosed_index p j = t.

(** Packets of the intervals [seen], all authentic, settled up to the newest
    key and waiting beyond it. *)
Record on_schedule (seen : list Z) (now : Z) A : Prop := {
  os_seen : (history A).*1 ≡ₚ seen;
  os_trusted : 0 <= id_trusted A <= n_chain p;
  os_disclosed : disclosed_by now (id_trusted A);
  os_log : Forall (fun s => TeslaIdeal.genuine p alg kf s /\ st_interval s <= id_trusted A) (id_log A);
  os_waiting : Forall (fun x => authentic alg (true_key kf (n_chain p) x.1) x.2 /\ id_trusted A < x.1) (id_waiting A)
}.

(** A packet inside its travel budget belongs to an interval whose key is
    still unknown. *)
Lemma interval_beyond now t a send v :
  disclosed_by now t -> now <= a -> clock_fits p a -> interval_of p send = Ret v -> 0 <= send < u64_max ->
  accepts p a v = Ret Safe -> t < v.
Proof using Hok.
  intros Ht Hle Hclk Hv Hs Hacc. destruct (interval_of_spec p send v Hok Hs Hv) as [Hr _].
  destruct Ht as [->|(send' & j & Hj & Hs' & Hb & <-)]; [lia|]. pose proof Hok as (_ & _ & _ & Hn & _).
  apply (key_still_secret p a v send' j); try done; [width|lia|lia].
Qed.

Lemma settles_subset w t j now s :
  s ∈ settles w t j now -> (st_interval s, st_entry s) ∈ w /\ t < st_interval s <= j.
Proof using Type.
  clear. intros Hs. split.
  - rewrite (settles_keeps w t j now). apply elem_of_app. left. by apply (list_elem_of_fmap_2 packet_of).
  - apply list_elem_of_bind in Hs as (i & Hs & Hi%elem_of_seqZ).
    apply list_elem_of_fmap in Hs as (e & -> & _). cbn. lia.
Qed.

(** The packet waits after [due] was settled with key [j]. *)
Lemma on_schedule_wait seen now A a t rest due v e :
  on_schedule seen now A -> id_waiting A ≡ₚ (packet_of <$> due) ++ rest ->
  id_trusted A <= t <= n_chain p -> disclosed_by a t -> t < v ->
  authentic alg (true_key kf (n_chain p) v) e ->
  Forall (fun s => st_interval s <= t) due -> Forall (fun x => t < x.1) rest ->
  on_schedule (v :: seen) a (id_wait A t rest due v e).
Proof using Type.
  intros [Hseen Ht _ Hlog Hwait] Hw Htt Hdisc Hv He Hdue Hrest.
  rewrite Hw in Hwait. apply Forall_app in Hwait as [Hwd Hwr]. rewrite Forall_fmap in Hwd.
  split; cbn [id_wait id_trusted id_log id_waiting].
  - by rewrite (history_wait A t rest due v e Hw), fmap_cons, Hseen.
  - lia.
  - done.
  - apply Forall_app. split; [apply (Forall_impl _ _ _ Hlog); intros s [? ?]; split; [done|lia]|].
    apply Forall_and. split; [|done]. apply (Forall_impl _ _ _ Hwd). by intros s [? _].
  - apply Forall_app. split; [|by apply Forall_singleton].
    apply Forall_and. split; [|done]. apply (Forall_impl _ _ _ Hwr). by intros s [? _].
Qed.

Lemma disclosed_by_later now a t : now <= a -> disclosed_by now t -> disclosed_by a t.
Proof using Type.
  intros Hle [->|(send & j & Hj & Hs & Hb & Ht)]; [by left|right]. exists send, j. split_and!; done || lia.
Qed.

Lemma on_schedule_deliver seen now A a send v e :
  on_schedule seen now A -> now <= a -> clock_fits p a -> interval_of p send = Ret v -> 0 <= send < u64_max ->
  send <= a + d_t_ns p -> accepts p a v = Ret Safe -> authentic alg (true_key kf (n_chain p) v) e ->
  disclosed_index p v - id_trusted A <= g_max p ->
  let j := disclosed_index p v in
  exists c A', ideal_deliver p kf A v (true_key kf (n_chain p) j) e a = (Ok c, A') /\
    on_schedule (v :: seen) a A' /\ id_trusted A' = Z.max (id_trusted A) j.
Proof using Hok.
  intros Hos Hnow Hclk Hv Hs Hsa Hacc He Hg j. pose proof Hos as [_ Ht Hdisc _ Hwait].
  destruct (interval_of_spec p send v Hok Hs Hv) as [Hr _].
  pose proof (interval_beyond now _ a send v Hdisc Hnow Hclk Hv Hs Hacc) as Hbeyond.
  assert (0 <= j /\ j < v) as [Hj0 Hjv]
    by (unfold j, disclosed_index, saturating_sub; destruct Hok as (_&_&_&_&_&_&_&?&_); lia).
  assert (Forall (fun x => id_trusted A < x.1) (id_waiting A)) as Hlater
    by (apply (Forall_impl _ _ _ Hwait); by intros x [_ ?]).
  unfold ideal_deliver. fold j. destruct (Z.leb_spec j (id_trusted A)) as [Hle|Hgt].
  - eexists _, _. split; [done|]. split; [|cbn; lia].
    apply (on_schedule_wait seen now); try done; [lia|by apply (disclosed_by_later now)].
  - rewrite bool_decide_eq_true_2 by (fold j in Hg; split_and!; done || lia).
    eexists _, _. split; [done|]. split; [|cbn; lia].
    apply (on_schedule_wait seen now); try done; [apply settles_keeps|lia| | |].
    + right. by exists send, v.
    + apply Forall_forall. intros s Hs'%settles_subset. lia.
    + apply Forall_forall. intros x [Hn Hx]%list_elem_of_filter. rewrite Forall_forall in Hlater.
      specialize (Hlater x Hx). unfold after_upto in Hn. lia.
Qed.

(** What the counters say of a state on schedule. *)
Lemma on_schedule_counts seen now A :
  on_schedule seen now A ->
  verified (stats_of p alg kf A) = Z.of_nat (length (filter (fun v => v <= id_trusted A) seen)) /\
  forged (stats_of p alg kf A) = 0 /\
  Z.of_nat (length (id_waiting A)) = Z.of_nat (length (filter (fun v => id_trusted A < v) seen)).
Proof using Type.
  intros [Hseen _ _ Hlog Hwait]. unfold stats_of. cbn [verified forged].
  assert (filter (TeslaIdeal.genuine p alg kf) (id_log A) = id_log A) as ->
    by (apply filter_every, (Forall_impl _ _ _ Hlog); by intros s [? _]).
  assert (Forall (fun v => v <= id_trusted A) (packet_of <$> id_log A).*1) as Hl
    by (rewrite !Forall_fmap; apply (Forall_impl _ _ _ Hlog); by intros s [_ ?]).
  assert (Forall (fun v => id_trusted A < v) (id_waiting A).*1) as Hw
    by (rewrite Forall_fmap; apply (Forall_impl _ _ _ Hwait); by intros x [_ ?]).
  rewrite <- Hseen. unfold history. rewrite fmap_app, !filter_app, !length_app.
  rewrite (filter_every _ _ Hl), (filter_every _ _ Hw), (filter_none _ (id_waiting A).*1), (filter_none _ (_ <$> _).*1).
  - cbn [length]. rewrite !length_fmap. split_and!; lia.
  - apply (Forall_impl _ _ _ Hl). intros. lia.
  - apply (Forall_impl _ _ _ Hw). intros. lia.
Qed.

Lemma on_schedule_perm seen seen' now A : seen ≡ₚ seen' -> on_schedule seen now A -> on_schedule seen' now A.
Proof using Type. intros Heq [Hs ? ? ? ?]. split; try done. by rewrite Hs. Qed.

End Abstract.

(** ** One packet through both layers *)

Section Run.
Context {CR : Crypto} {CL : CryptoLaws}.
Context (granularity : Granularity) (start period s0 : Z) (seed : bytes) (ssrc : Z) (k : nat) (cap : Z).
Context (tss : list Z) (bufs : list bytes).
Context (p : TeslaSchedule) (alg : TeslaMacAlg) (kf : bytes) (sends ivs : list Z).

Context (Hgran : granularity_ok granularity) (Hclock : clocked granularity start period tss)
  (Hs0 : 0 <= s0 < 65536) (Hscheme : scheme_ok (for_granularity granularity start period s0))
  (Hts : Forall2 (fun buf ts => packet_timestamp buf = Ret ts) bufs tss)
  (Hgen : forall i buf, bufs !! i = Some buf -> EndToEnd.genuine ssrc s0 i buf)
  (Hmax : Z.of_nat (length bufs) < 2 ^ 47).
Context (Hok : schedule_ok p)
  (Hivs : Forall2 (fun s v => interval_of p s = Ret v /\ 0 <= s < u64_max) sends ivs).

(** Packet [i] as it travels. *)
Definition tesla_wire (i : nat) (buf : bytes) (v : Z) : bytes :=
  let e := s0 + Z.of_nat i in
  tesla_packet p alg kf (wire seed (gen_of granularity tss i) e buf) e v.

(** After [n] packets: the TESLA state represents an abstract one on
    schedule, and the SRTP layer below follows the replay database. *)
Record tracks (n : nat) (rs : Replay.t) (f : Z) (seen : list Z) (now : Z) (A : Ideal Session)
    (self : TeslaReceiver Session) : Prop := {
  tk_tesla : represents p alg kf (Z.of_nat n) A self;
  tk_schedule : on_schedule p alg kf seen now A;
  tk_inv : rx_inv seed (tr_inner self);
  tk_config : config seed (tr_inner self) = mkConfig seed ssrc (for_granularity granularity start period s0) k cap;
  tk_linked : linked granularity ssrc n rs (view (tr_inner self));
  tk_recovery : rec_link Packet (tr_recovery self) (Replay.top rs);
  tk_top : rx_top (tr_inner self) = f
}.

(** The packet reaches the TESLA layer as its sender built it. *)
Lemma admit_wire n rs f seen now A self i buf v send a :
  tracks n rs f seen now A self -> Z.of_nat n < 2 ^ 47 -> bufs !! i = Some buf ->
  let e := s0 + Z.of_nat i in
  let g := gen_of granularity tss i in
  Replay.check rs e = None -> near (Replay.top rs) e = true -> f - Z.of_nat k < g <= f + cap ->
  interval_of p send = Ret v -> 0 <= send < u64_max -> send <= a + d_t_ns p -> clock_fits p a ->
  accepts p a v = Ret Safe ->
  exists inner,
    admit_packet p (tr_recovery self) (tr_inner self) (tesla_wire i buf v) a =
      Ret (Ok (v, true_key kf (n_chain p) (disclosed_index p v),
               mkDrawerEntry e a (packet_mac alg (true_key kf (n_chain p) v) e (wire seed g e buf)) (wire seed g e buf)),
           buf, inner) /\
    rx_inv seed inner /\ config seed inner = config seed (tr_inner self) /\ rx_top inner = Z.max f g /\
    linked granularity ssrc (S n) (Replay.add rs e) (view inner).
Proof using Hgran Hclock Hs0 Hscheme Hts Hgen Hmax Hok CL.
  intros [_ _ Hinv Hc Hlink Hrec Htop] Hn Hbuf e g Hchk Hnear Hg Hv Hs Hsa Hclk Hacc.
  pose proof Hc as Hc0. injection Hc0 as Hss Hsch Hk Hcap.
  destruct (Forall2_lookup_l _ _ _ _ _ Hts Hbuf) as (t & Ht & Hpt).
  pose proof (lookup_lt_Some _ _ _ Hbuf) as Hi. pose proof (Hgen i buf Hbuf) as Hgn.
  destruct (recv_wire granularity start period s0 seed (tr_inner self) n rs tss i t buf)
    as (inner & Hrecv & Hinv' & Hc' & Htop' & Hlink');
    rewrite ?Hsch, ?Hss, ?Hk, ?Hcap, ?Htop; try done; [lia|].
  exists inner. fold e g in Hrecv, Htop', Hlink'. rewrite Hss in Hlink'. rewrite Htop in Htop'.
  split; [|done]. pose proof Hgn as (Hf & _ & Hseq & _). destruct (wire_fields seed g e buf Hf) as ((Hlw & _) & Hseqw & _).
  set (w := wire seed g e buf) in *. unfold octets_in_rtp_header in Hlw.
  assert (w ≠ []) as Hw by (intros Hw; rewrite Hw in Hlw; cbn in Hlw; lia).
  assert (split_extension (tesla_wire i buf v) =
    Ret (Some (v, true_key kf (n_chain p) (disclosed_index p v), packet_mac alg (true_key kf (n_chain p) v) e w), w))
    as Hsp by exact (split_datagram p alg kf (mkArrival w e v send a) Hok (conj Hv (conj Hs (conj Hsa (conj Hclk Hw))))).
  unfold admit_packet. rewrite Hsp. cbn [mbind outcome_bind]. unfold RTP_HEADER_LEN.
  rewrite bool_decide_eq_false_2 by lia. rewrite Hacc. cbn [mbind outcome_bind].
  rewrite bool_decide_eq_false_2 by done. cbn zeta. rewrite Hrecv. cbn [mbind outcome_bind].
  destruct Hlink as (st & _ & _ & _ & _ & Hrs & _).
  assert (recover (tr_recovery self) (hdr_seq w) = e) as ->; [|done].
  rewrite Hseqw, Hseq, (rec_link_recover Packet _ (Replay.top rs)) by (done || apply u16_range).
  apply recover_near; [done|lia|done].
Qed.

Lemma tesla_step n rs f seen now A self i buf v send a :
  tracks n rs f seen now A self -> Z.of_nat n < 2 ^ 47 -> bufs !! i = Some buf ->
  let e := s0 + Z.of_nat i in
  let g := gen_of granularity tss i in
  Replay.check rs e = None -> near (Replay.top rs) e = true -> f - Z.of_nat k < g <= f + cap ->
  interval_of p send = Ret v -> 0 <= send < u64_max -> send <= a + d_t_ns p -> clock_fits p a -> now <= a ->
  a - send <= (d p - 1) * t_int_ns p - d_t_ns p -> disclosed_index p v - id_trusted A <= g_max p ->
  exists c A' self',
    process_arrival self (tesla_wire i buf v) a = Ret (Ok c, buf, self') /\
    tracks (S n) (Replay.add rs e) (Z.max f g) (v :: seen) a A' self' /\
    id_trusted A' = Z.max (id_trusted A) (disclosed_index p v).
Proof using Hgran Hclock Hs0 Hscheme Hts Hgen Hmax Hok CL.
  intros Htk Hn Hbuf e g Hchk Hnear Hg Hv Hs Hsa Hclk Hnow Hbudget Hreach.
  pose proof (travel_budget p send a v Hok Hclk Hs Hv Hbudget) as Hacc.
  destruct (admit_wire n rs f seen now A self i buf v send a) as (inner & Hadm & Hinv & Hc & Htop & Hlink); try done.
  destruct Htk as [Hrep Hos _ Hcfg Hlnk Hrec _]. fold e g in Hadm. set (entry := mkDrawerEntry _ _ _ _) in Hadm.
  rewrite (rp_inner _ _ _ _ _ _ Hrep), (rp_recovery _ _ _ _ _ _ Hrep) in Hadm.
  destruct (interval_of_spec p send v Hok Hs Hv) as [Hvr _]. pose proof (os_trusted _ _ _ _ _ _ Hos) as Ht.
  assert (disclosed_index p v <= n_chain p) as Hjn
    by (unfold disclosed_index, saturating_sub; destruct Hok as (_&_&?&_&_&_&_&?&_); lia).
  destruct (represents_admitted p alg kf (Z.of_nat n) A self _ _ _ _ _ _ _ ltac:(lia) Hrep Hadm)
    as (self' & Hrun & Hrep' & Hin & Hrc); [apply check_known_genuine; lia|].
  assert (on_schedule p alg kf seen now (id_admit A inner entry)) as Hos' by (destruct Hos; by split).
  destruct (on_schedule_deliver p alg kf Hok seen now (id_admit A inner entry) a send v entry)
    as (c & A' & Hd & HosA & HtA); try done.
  rewrite Hd in Hrun, Hrep'. exists c, A', self'. split; [done|]. split; [|done].
  replace (Z.of_nat n + 1) with (Z.of_nat (S n)) in Hrep' by lia.
  split; rewrite ?Hin; try done; [congruence|].
  rewrite Hrc, <- (rp_recovery _ _ _ _ _ _ Hrep). destruct Hlnk as (st & _ & _ & _ & _ & Hrs & _).
  apply (rec_link_update Packet _ _ e); [lia|unfold e; lia|done].
Qed.


(** ** The whole run *)

(** What [authenticate] is given: the protected packets with their stream
    indices and send times. *)
Definition stamped (ws : list bytes) : list (bytes * Z * Z) :=
  imap (fun i x => (x.1, s0 + Z.of_nat i, x.2)) (zip ws sends).

Definition datagrams : list bytes :=
  zip_with (fun '(buf, e, _) v => tesla_packet p alg kf buf e v) (stamped (wires granularity seed s0 tss bufs)) ivs.

Definition tesla_delivery (ds : list bytes) (l : list (nat * Z)) : list (bytes * Z) :=
  omap (fun x => (fun b => (b, x.2)) <$> ds !! x.1) l.

Lemma datagrams_lookup i buf send v :
  bufs !! i = Some buf -> sends !! i = Some send -> ivs !! i = Some v ->
  datagrams !! i = Some (tesla_wire i buf v).
Proof using Type.
  clear. intros Hb Hs Hv. unfold datagrams, stamped. rewrite lookup_zip_with, list_lookup_imap.
  assert (zip (wires granularity seed s0 tss bufs) sends !! i =
    Some (wire seed (gen_of granularity tss i) (s0 + Z.of_nat i) buf, send)) as ->.
  { apply lookup_zip_Some. split; [|done]. unfold wires. by rewrite list_lookup_imap, Hb. }
  cbn. by rewrite Hv.
Qed.

Lemma tesla_run l n rs f seen now A self :
  tracks n rs f seen now A self -> 0 <= now -> Z.of_nat n + Z.of_nat (length l) < 2 ^ 47 ->
  deliverable granularity tss s0 k cap rs f l.*1 = true ->
  timely p sends ivs (id_trusted A) now l = true ->
  exists out rs' f' now' A' self',
    process_all self (tesla_delivery datagrams l) = Ret (out, self') /\
    tracks (n + length l) rs' f' (intervals ivs l ++ seen) now' A' self' /\
    id_trusted A' = fold_left (fun t v => Z.max t (disclosed_index p v)) (intervals ivs l) (id_trusted A) /\
    out.*2 = omap (fun x => bufs !! x.1) l /\ Forall (fun r => exists c, r = Ok c) out.*1.
Proof using Hgran Hclock Hs0 Hscheme Hts Hgen Hmax Hok Hivs CL.
  revert n rs f seen now A self. induction l as [|[i a] l IH]; intros n rs f seen now A self Htk Hnow Hn Hdel Htime.
  { exists [], rs, f, now, A, self. rewrite Nat.add_0_r. by split_and!. }
  cbn [timely deliverable fmap list_fmap fst length] in *.
  rewrite !andb_true_iff, !bool_decide_eq_true, Z.ltb_lt, Z.leb_le in Hdel.
  destruct Hdel as (((((Hi & Hchk) & Hnear) & Hlo) & Hhi) & Hdel).
  destruct (sends !! i) as [send|] eqn:Hsend; [|discriminate].
  destruct (ivs !! i) as [v|] eqn:Hv; [|discriminate].
  rewrite !andb_true_iff, Z.ltb_lt, !Z.leb_le in Htime.
  destruct Htime as (((((Hle & Hfit) & Hsa) & Hbudget) & Hreach) & Htime).
  destruct (lookup_lt_is_Some_2 bufs i) as [buf Hbuf]; [by rewrite (Forall2_length _ _ _ Hts)|].
  destruct (Forall2_lookup_lr _ _ _ _ _ _ Hivs Hsend Hv) as [Hiv Hs].
  destruct (tesla_step n rs f seen now A self i buf v send a Htk) as (c & A1 & self1 & Hrun & Htk1 & Ht1);
    try done; [lia|split; lia|].
  rewrite <- Ht1 in Htime.
  destruct (IH _ _ _ _ _ _ _ Htk1 ltac:(lia) ltac:(lia) Hdel Htime)
    as (out & rs' & f' & now' & A' & self' & Hall & Htk' & Ht' & Hout & Hres).
  exists ((Ok c, buf) :: out), rs', f', now', A', self'.
  unfold tesla_delivery, intervals in *. cbn [omap list_omap fst snd]. rewrite (datagrams_lookup i buf send v) by done.
  cbn [fmap option_fmap option_map process_all]. rewrite Hrun, Hv. cbn [mbind outcome_bind]. rewrite Hall.
  split; [done|]. split; [|split; [cbn [fold_left]; by rewrite <- Ht1|]].
  - replace (n + S (length l))%nat with (S n + length l)%nat by lia.
    destruct Htk'. split; try done. eapply on_schedule_perm; [|done]. by rewrite <- Permutation_middle.
  - rewrite Hbuf, !fmap_cons, Hout. split; [done|]. apply Forall_cons_2; [by exists c|done].
Qed.

End Run.

(** ** From commitment to verified packets *)

Section Main.
Context {CR : Crypto} {CL : CryptoLaws}.

(** Signing, accepting and the two senders' set-up, in one place. *)
Lemma accept_signed c sk d_t g_max (inner : ReceiverKeyManager Session) p :
  commitment_schedule c d_t g_max = Ret p ->
  exists self0, accept c (commitment_sign c sk) (ed25519_public sk) d_t g_max inner = Ret (Some self0) /\
    tr_params self0 = p /\ tr_inner self0 = inner /\ tr_recovery self0 = IndexRecovery_default.
Proof.
  intros Hp. unfold accept. rewrite verify_signed. cbn [negb]. rewrite Hp. by eexists.
Qed.

Lemma stamped_intervals s0 p sends ivs (ws : list bytes) :
  Forall2 (fun s v => interval_of p s = Ret v /\ 0 <= s < u64_max) sends ivs -> length ws = length sends ->
  Forall2 (fun '(_, _, send) i => interval_of p send = Ret i /\ 0 <= send < u64_max) (stamped s0 sends ws) ivs.
Proof.
  intros Hf Hlen. apply Forall2_same_length_lookup. split.
  - unfold stamped. rewrite length_imap, length_zip_with, <- (Forall2_length _ _ _ Hf). lia.
  - intros i [[w e] s] v Hx Hv. unfold stamped in Hx. rewrite list_lookup_imap in Hx.
    destruct (zip ws sends !! i) as [[w' s']|] eqn:Hz; [|discriminate]. injection Hx as <- <- <-.
    apply lookup_zip_Some in Hz as [_ Hs]. by apply (Forall2_lookup_lr _ _ _ _ _ _ Hf Hs Hv).
Qed.

(** C2: The authenticated stream end to end: RTP packets with consecutive
    sequence numbers (and, at frame granularity, timestamps on a regular
    frame clock), protected by a RekeyingStream and authenticated by a
    TeslaSender, delivered with losses and reorderings that stay within the
    SRTP limits, the travel budget, the clock bound and the hash-work cap,
    are all accepted and decrypted by a TeslaReceiver that accepted the
    sender's signed commitment; none is declared forged, exactly the packets
    of intervals up to the newest disclosed key are verified, and the others
    wait. *)
Theorem tesla_end_to_end granularity ssrc seed s0 start period bufs tss k cap window c sk kf d_t g p sends ivs l :
  length seed = CHAIN_SECRET_LEN -> granularity_ok granularity -> clocked granularity start period tss ->
  0 <= s0 < 65536 -> (1 <= k)%nat -> 0 <= cap -> window = 0 \/ 64 <= window < 0x8000 ->
  Forall2 (fun buf ts => packet_timestamp buf = Ret ts) bufs tss ->
  (forall i buf, bufs !! i = Some buf -> EndToEnd.genuine ssrc s0 i buf) ->
  Z.of_nat (length bufs) < 2 ^ 47 -> Z.of_nat (length l) < 2 ^ 47 ->
  commitment_ok c -> in_u64 d_t -> in_u32 g -> tc_anchor c = true_key kf (tc_n_chain c) 0 ->
  commitment_schedule c d_t g = Ret p -> length sends = length bufs ->
  Forall2 (fun s v => interval_of p s = Ret v /\ 0 <= s < u64_max) sends ivs ->
  deliverable granularity tss s0 k cap (replay_init window) (-1) l.*1 = true ->
  timely p sends ivs 0 0 l = true ->
  exists tx0 ws tx ts0 ds ts rx0 self0 out self,
    RekeyingStream_new granularity ssrc (ratchet_at seed 0) = Ret tx0 /\
    protect_all tx0 bufs = Ret ((fun w => (Ok tt, w)) <$> ws, tx) /\
    TeslaSender_new p (tc_mac_alg c) kf = Ret ts0 /\
    authenticate_all ts0 (stamped s0 sends ws) = Ret (ds, ts) /\
    ReceiverKeyManager_new (for_granularity granularity start period s0) ssrc (ratchet_at seed 0) k cap window
      = Ret rx0 /\
    accept c (commitment_sign c sk) (ed25519_public sk) d_t g rx0 = Ret (Some self0) /\
    process_all self0 (tesla_delivery ds l) = Ret (out, self) /\
    out.*2 = omap (fun x => bufs !! x.1) l /\ Forall (fun r => exists n, r = Ok n) out.*1 /\
    let seen := intervals ivs l in
    verified (tr_stats self) = Z.of_nat (length (filter (fun v => v <= newest p seen) seen)) /\
    unsettled self = Z.of_nat (length (filter (fun v => newest p seen < v) seen)) /\
    forged (tr_stats self) = 0.
Proof.
  intros Hs Hok Hclk Hs0 Hk Hcap Hw Hts Hgen Hmax Hl Hc Hd Hg Hanchor Hp Hlen Hivs Hdel Htime.
  destruct (new_keyed granularity ssrc seed Hs) as (tx0 & Htx & _).
  destruct (sender_wires granularity ssrc seed s0 tx0 bufs tss) as (tx & Hrun & _); [done..|].
  set (ws := wires granularity seed s0 tss bufs) in *.
  set (scheme := for_granularity granularity start period s0).
  destruct (new_returns scheme ssrc seed k cap window Hk Hw) as (rx0 & Hrx).
  destruct (new_inv _ _ _ _ _ _ _ Hs Hcap Hw Hrx) as (Hinv & Hcfg & _ & Hf & _).
  assert (scheme_ok scheme) as Hsch by (destruct granularity; cbn in *; [done|apply Hclk|lia|lia]).
  destruct (accept_signed c sk d_t g rx0 p Hp) as (self0 & Hacc & <- & Hin & Hrec).
  destruct (accepted_represents _ _ _ _ _ _ _ _ Hc Hd Hg Hanchor Hacc) as (Hpok & Hn & Hrep).
  destruct (sender_new_ok _ (tc_mac_alg c) kf Hpok) as (ts0 & Hts0 & Htok & Htp & Hta).
  destruct (authenticate_all_spec kf ts0 (stamped s0 sends ws) ivs Htok) as (ts & Hauth & _).
  { rewrite Htp. apply stamped_intervals; [done|]. unfold ws, wires. by rewrite length_imap. }
  rewrite Htp, Hta in Hauth.
  destruct (tesla_run granularity start period s0 seed ssrc k cap tss bufs (tr_params self0) (tc_mac_alg c) kf sends ivs
    Hok Hclk Hs0 Hsch Hts Hgen Hmax Hpok Hivs l 0 (replay_init window) (-1) [] 0 (ideal_new rx0) self0)
    as (out & rs & f & now & A & self & Hall & Htk & Ht & Hout & Hres); try done.
  { split; rewrite ?Hin, ?Hrec; try done.
    - split; try done; [|by left]. destruct Hpok as (_&_&_&_&_&_&_&_&?&_). cbn. lia.
    - exact (new_linked granularity _ _ _ _ _ _ _ Hw Hrx).
    - by right.
    - unfold rx_top. by rewrite Hf. }
  exists tx0, ws, tx, ts0, (datagrams granularity s0 seed tss bufs (tr_params self0) (tc_mac_alg c) kf sends ivs), ts, rx0, self0, out, self.
  split_and!; try done. destruct Htk as [Hrep' Hos _ _ _ _ _]. rewrite app_nil_r in Hos.
  destruct (on_schedule_counts _ _ _ _ _ _ Hos) as (Hv & Hfg & Hpn). rewrite Ht in Hv, Hpn.
  cbn zeta. unfold unsettled. rewrite (rp_stats _ _ _ _ _ _ Hrep'), (rp_pending _ _ _ _ _ _ Hrep'). done.
Qed.

End Main.

(** ** A concrete stream: three packets, the last two swapped on the way *)

Import Toy.

Module StreamExample.

Definition sends : list Z := [500; 2400; 2450].
Definition ivs : list Z := [1; 3; 3].
Definition arrivals : list (nat * Z) := [(0%nat, 600); (2%nat, 2600); (1%nat, 2700)].
Definition schedule : TeslaSchedule := mkTeslaSchedule 0 1000 2 5 100 16.

End StreamExample.

Lemma tesla_end_to_end_witness :
  Z.of_nat (length (filter (fun v => v <= newest StreamExample.schedule [1; 3; 3]) [1; 3; 3])) = 1 /\
  exists tx0 ws tx ts0 ds ts rx0 self0 out self,
    RekeyingStream_new (S := Session) Frame 7 (ratchet_at EndToEnd.Example.seed 0) = Ret tx0 /\
    protect_all tx0 EndToEnd.Example.bufs = Ret ((fun w => (Ok tt, w)) <$> ws, tx) /\
    TeslaSender_new StreamExample.schedule HmacSha256 TeslaHonest.Example.kf = Ret ts0 /\
    authenticate_all ts0 (stamped 65535 StreamExample.sends ws) = Ret (ds, ts) /\
    ReceiverKeyManager_new (S := Session) (for_granularity Frame 5000 1500 65535) 7
      (ratchet_at EndToEnd.Example.seed 0) 2 8 64 = Ret rx0 /\
    accept TeslaHonest.Example.commitment (commitment_sign TeslaHonest.Example.commitment TeslaHonest.Example.sk)
      (ed25519_public TeslaHonest.Example.sk) 100 16 rx0 = Ret (Some self0) /\
    process_all self0 (tesla_delivery ds StreamExample.arrivals) = Ret (out, self) /\
    out.*2 = omap (fun x => EndToEnd.Example.bufs !! x.1) StreamExample.arrivals /\
    Forall (fun r => exists n, r = Ok n) out.*1 /\
    let seen := intervals StreamExample.ivs StreamExample.arrivals in
    verified (tr_stats self) = Z.of_nat (length (filter (fun v => v <= newest StreamExample.schedule seen) seen)) /\
    unsettled self = Z.of_nat (length (filter (fun v => newest StreamExample.schedule seen < v) seen)) /\
    forged (tr_stats self) = 0.
Proof.
  split; [vm_compute; reflexivity|].
  apply (tesla_end_to_end Frame 7 EndToEnd.Example.seed 65535 5000 1500 EndToEnd.Example.bufs EndToEnd.Example.tss
    2 8 64 TeslaHonest.Example.commitment TeslaHonest.Example.sk TeslaHonest.Example.kf 100 16 StreamExample.schedule
    StreamExample.sends StreamExample.ivs StreamExample.arrivals).
  - done.
  - done.
  - split; [done|]. exists [0; 1]. split; [done|]. split; [cbn; lia|]. repeat constructor; cbn; lia.
  - lia.
  - lia.
  - lia.
  - lia.
  - repeat constructor.
  - exact EndToEnd.Example.bufs_genuine.
  - cbn; lia.
  - cbn; lia.
  - exact TeslaHonest.Example.commitment_fits.
  - width.
  - width.
  - reflexivity.
  - reflexivity.
  - reflexivity.
  - apply Forall2_cons_2; [split; [reflexivity|unfold u64_max; lia]|].
    apply Forall2_cons_2; [split; [reflexivity|unfold u64_max; lia]|].
    apply Forall2_cons_2; [split; [reflexivity|unfold u64_max; lia]|]. apply Forall2_nil_2.
  - vm_compute. reflexivity.
  - vm_compute. reflexivity.
Defined.
