(* ===== verification/UnitTests.v ===== *)
(** * UnitTests: the repository's unit tests, run on the model

    Each [#[test]] function of src/src is a program of the model here, with
    its assertions as panics.  The primitives are the parameters of Crypto.v,
    so a test that compares derived values holds or fails with them: the
    theorem says the suite passes exactly when the primitives separate the
    inputs the tests compare, and that the rest of the suite passes whatever
    the primitives are.  Random key generation is an argument. *)

From Stdlib Require Import String.
From S2P Require Import Prelude Bytes Crypto IndexRecovery Mls Ratchet Generation TeslaChain TeslaSchedule TeslaMac.
From S2P Require Import TeslaCommitment TeslaSender.

#[export] Instance Disclosure_eq_dec : EqDecision Disclosure.
Proof. solve_decision. Defined.

(** [assert_eq!] and [assert_ne!]. *)
Definition assert_eq {A} `{EqDecision A} (a b : A) : outcome unit := assert (bool_decide (a = b)).
Definition assert_ne {A} `{EqDecision A} (a b : A) : outcome unit := assert (bool_decide (a ≠ b)).

(** [l[i] ^= m]. *)
Definition xor_at (l : bytes) (i : nat) (m : Z) : outcome bytes :=
  x ← index l i; Ret (<[i := Z.lxor x m]> l).

(** [(a..b).collect()] of bytes. *)
Definition byte_range (a b : Z) : bytes := seqZ a (b - a).

(** ** src/src/keying/ratchet.rs *)

Section RatchetTests.
Context {CR : Crypto}.

Definition test_seed : bytes := byte_range 0 (Z.of_nat CHAIN_SECRET_LEN).

(** The loop of [ratchet_is_deterministic], from [expected_g] on. *)
Fixpoint deterministic_from (n : nat) (expected_g : Z) (a b : StreamRatchet) : outcome unit :=
  match n with
  | O => Ret tt
  | S n =>
      '((ga, ks_a), a) ← next_key_salt a;
      '((gb, ks_b), b) ← next_key_salt b;
      _ ← assert_eq ga expected_g;
      _ ← assert_eq gb expected_g;
      _ ← assert_eq ks_a ks_b;
      deterministic_from n (expected_g + 1) a b
  end.

Definition ratchet_is_deterministic : outcome unit :=
  a ← from_seed test_seed;
  b ← from_seed test_seed;
  deterministic_from 8 0 a b.

Definition key_salt_is_derived_and_distinct_per_generation : outcome unit :=
  r ← from_seed test_seed;
  ks0 ← derive_key_salt r;
  r1 ← advance r;
  ks1 ← derive_key_salt r1;
  head ← slice test_seed 0 SRTP_KEY_MATERIAL_LEN;
  _ ← assert_ne ks0 head;
  assert_ne ks0 ks1.

Definition generation_counter_advances : outcome unit :=
  r ← from_seed test_seed;
  _ ← assert_eq (generation r) 0;
  r ← advance r;
  _ ← assert_eq (generation r) 1;
  '((g, _), r) ← next_key_salt r;
  _ ← assert_eq g 1;
  assert_eq (generation r) 2.

Definition different_seeds_diverge : outcome unit :=
  a ← from_seed test_seed;
  other ← xor_at test_seed 0 0xFF;
  b ← from_seed other;
  '((_, ks_a), _) ← next_key_salt a;
  '((_, ks_b), _) ← next_key_salt b;
  assert_ne ks_a ks_b.

Definition key_salt_splits_16_12 : outcome unit :=
  r ← from_seed test_seed;
  ks ← derive_key_salt r;
  let '(key, salt) := split_key_salt ks in
  _ ← assert_eq (length key) 16%nat;
  assert_eq (length salt) 12%nat.

End RatchetTests.

(** ** src/src/tesla/chain.rs *)

Section ChainTests.
Context {CR : Crypto}.

Definition test_chain (n : Z) : outcome TeslaChain := from_final_key (replicate TESLA_KEY_LEN 7) n.

(** The loop of [chain_roundtrip] over [i..=8]. *)
Fixpoint roundtrip_from (n : nat) (i : Z) (chain : TeslaChain) (v : ChainVerifier) : outcome unit :=
  match n with
  | O => Ret tt
  | S n =>
      k ← chain_key chain i;
      let '(disc, v) := check v k i in
      match disc with
      | New keys => _ ← assert_eq keys [(i, k)]; roundtrip_from n (i + 1) chain v
      | _ => Panic
      end
  end.

Definition chain_roundtrip : outcome unit :=
  chain ← test_chain 8;
  k0 ← anchor chain;
  roundtrip_from 8 1 chain (ChainVerifier_new k0 8 16).

Definition gap_recovery : outcome unit :=
  chain ← test_chain 8;
  k0 ← anchor chain;
  k1 ← chain_key chain 1;
  k2 ← chain_key chain 2;
  k3 ← chain_key chain 3;
  k4 ← chain_key chain 4;
  let '(disc, v) := check (ChainVerifier_new k0 8 16) k4 4 in
  _ ← (match disc with
       | New keys => assert_eq keys [(1, k1); (2, k2); (3, k3); (4, k4)]
       | _ => Panic
       end);
  _ ← assert_eq (cv_trusted_index v) 4;
  let '(disc, v) := check v k3 3 in
  _ ← assert_eq disc NotNew;
  assert_eq (cv_trusted_index v) 4.

Definition tampered_key_rejected : outcome unit :=
  chain ← test_chain 8;
  k0 ← anchor chain;
  k3 ← chain_key chain 3;
  bad ← xor_at k3 0 0xFF;
  let '(disc, v) := check (ChainVerifier_new k0 8 16) bad 3 in
  _ ← assert_eq disc Invalid;
  _ ← assert_eq (cv_trusted_index v) 0;
  let '(disc, v) := check v k3 3 in
  assert (match disc with New _ => true | _ => false end).

End ChainTests.

(** ** src/src/tesla/mac.rs and src/src/tesla/mod.rs *)

Section MacTests.
Context {CR : Crypto}.

Definition algs : list TeslaMacAlg := [HmacSha256; GmacAes128].

(** The loop body of [deterministic_and_input_sensitive]. *)
Definition input_sensitive (alg : TeslaMacAlg) : outcome unit :=
  let chain_key := replicate TESLA_KEY_LEN 5 in
  let packet := byte_range 0 64 in
  p ← prepare alg chain_key;
  let t := tag p 7 packet in
  _ ← assert_eq t (tag p 7 packet);
  q ← prepare alg chain_key;
  _ ← assert_eq t (tag q 7 packet);
  other ← xor_at packet 10 1;
  _ ← assert_ne t (tag p 7 other);
  _ ← assert_ne t (tag p (7 + Z.shiftl 1 16) packet);
  p2 ← prepare alg (replicate TESLA_KEY_LEN 6);
  assert_ne t (tag p2 7 packet).

Fixpoint for_each {A} (f : A -> outcome unit) (l : list A) : outcome unit :=
  match l with [] => Ret tt | a :: l => _ ← f a; for_each f l end.

Definition deterministic_and_input_sensitive : outcome unit := for_each input_sensitive algs.

Definition extension_roundtrip_test : outcome unit :=
  let packet := byte_range 0 100 in
  let disclosed := replicate TESLA_KEY_LEN 0xAB in
  let mac := replicate TESLA_MAC_LEN 0xCD in
  let buf := append_extension packet 0x01020304 disclosed mac in
  _ ← assert_eq (length buf) (length packet + TESLA_EXT_LEN)%nat;
  '(ext, buf) ← split_extension buf;
  '(i, d, m) ← expect ext;
  _ ← assert_eq i 0x01020304;
  _ ← assert_eq d disclosed;
  _ ← assert_eq m mac;
  assert_eq buf packet.

End MacTests.

(** ** src/src/tesla/commitment.rs *)

Section CommitmentTests.
Context {CR : Crypto}.

Definition commitment : TeslaCommitment :=
  mkTeslaCommitment (replicate 20 7) 0 1000000 2 64 HmacSha256 (str_bytes "camera-1:sender"%string) 0x1234
    (str_bytes "studio-group"%string) 3.

(** The commitment with another MAC algorithm. *)
Definition with_mac_alg (c : TeslaCommitment) (alg : TeslaMacAlg) : TeslaCommitment :=
  mkTeslaCommitment (tc_anchor c) (tc_t0_ns c) (tc_t_int_ns c) (tc_d c) (tc_n_chain c) alg
    (tc_sender_identity c) (tc_ssrc c) (tc_group_id c) (tc_epoch c).

(** [signer] and [other] are the two generated key pairs' secret keys. *)
Definition sign_verify_and_tamper (signer other : bytes) : outcome unit :=
  let c := commitment in
  let sig := commitment_sign c signer in
  _ ← assert (commitment_verify c sig (ed25519_public signer));
  let altered := with_mac_alg c GmacAes128 in
  _ ← assert (negb (commitment_verify altered sig (ed25519_public signer)));
  assert (negb (commitment_verify c sig (ed25519_public other))).

End CommitmentTests.

(** ** src/src/tesla/sender.rs and src/src/tesla/schedule.rs *)

Section SenderTests.
Context {CR : Crypto}.

(** [k_final] is the sender's random final key. *)
Definition receiver_can_verify_sender_output (k_final : bytes) : outcome unit :=
  params ← TeslaSchedule_new 0 1000000 2 10 0 16;
  sender ← TeslaSender_new params HmacSha256 k_final;
  k0 ← sender_anchor sender;
  let verifier := ChainVerifier_new k0 10 16 in
  '(p0, sender) ← authenticate sender (byte_range 0 60) 0 500000;
  '(ext, p0) ← split_extension p0;
  '(i0, k0, mac0) ← expect ext;
  _ ← assert_eq i0 1;
  let '(disc, verifier) := check verifier k0 (disclosed_index params i0) in
  _ ← assert_eq disc NotNew;
  '(p1, sender) ← authenticate sender (byte_range 100 160) 1 2500000;
  '(ext, p1) ← split_extension p1;
  '(i1, k1, _mac1) ← expect ext;
  _ ← assert_eq i1 3;
  let '(disc, verifier) := check verifier k1 (disclosed_index params i1) in
  recovered ← (match disc with New keys => Ret keys | _ => Panic end);
  _ ← assert_eq (length recovered) 1%nat;
  '(idx, key1) ← index recovered 0;
  _ ← assert_eq idx 1;
  q ← prepare HmacSha256 key1;
  assert_eq (tag q 0 p0) mac0.

End SenderTests.

Definition params : outcome TeslaSchedule := TeslaSchedule_new 0 1000000000 2 100 100000000 16.

Definition safety_boundaries : outcome unit :=
  p ← params;
  a ← accepts p 6400000000 6;
  _ ← assert_eq a Safe;
  b ← accepts p 7200000000 6;
  assert_eq b UnsafeLate.

Definition interval_assignment_and_disclosure : outcome unit :=
  p ← params;
  i ← interval_of p 0; _ ← assert_eq i 1;
  i ← interval_of p 999999999; _ ← assert_eq i 1;
  i ← interval_of p 1000000000; _ ← assert_eq i 2;
  _ ← assert_eq (disclosed_index p 1) 0;
  _ ← assert_eq (disclosed_index p 2) 0;
  assert_eq (disclosed_index p 3) 1.

(** ** src/src/receiver/generation.rs and src/src/receiver/index_recovery.rs *)

Definition frame_generation_increments_per_frame : outcome unit :=
  let start := 1000 in
  let period := 1500 in
  g ← frame_generation start start period; _ ← assert_eq g 0;
  g ← frame_generation start start period; _ ← assert_eq g 0;
  g ← frame_generation (u32 (start + period)) start period; _ ← assert_eq g 1;
  g ← frame_generation (u32 (start + period + 700)) start period; _ ← assert_eq g 1;
  g ← frame_generation (u32 (start + 5 * period)) start period; assert_eq g 5.

Definition frame_generation_survives_timestamp_wrap : outcome unit :=
  let period := 1500 in
  let start := u32 (u32 (2 ^ 32 - 1 - 2 * period) + 1) in
  let ts := u32 (start + 3 * period) in
  g ← frame_generation ts start period; assert_eq g 3.

Definition index_recovery_cold_start : outcome unit :=
  let rec := IndexRecovery_default in
  _ ← assert_eq (recover rec 0) 0;
  assert_eq (recover rec 500) 500.

Definition index_recovery_within_rollover : outcome unit :=
  let rec := update IndexRecovery_default 40000 in
  _ ← assert_eq (recover rec 40010) 40010;
  assert_eq (recover rec 39990) 39990.

Definition index_recovery_across_wrap : outcome unit :=
  let rec := update IndexRecovery_default 65530 in
  _ ← assert_eq (recover rec 3) (65536 + 3);
  let rec := update rec (65536 + 2) in
  _ ← assert_eq (recover rec 65534) 65534;
  assert_eq (recover rec 50) (65536 + 50).

(** ** The suite *)

Section Suite.
Context {CR : Crypto} {CL : CryptoLaws}.

Definition unit_tests (signer other k_final : bytes) : list (outcome unit) :=
  [ratchet_is_deterministic; key_salt_is_derived_and_distinct_per_generation; generation_counter_advances;
   different_seeds_diverge; key_salt_splits_16_12; chain_roundtrip; gap_recovery; tampered_key_rejected;
   deterministic_and_input_sensitive; extension_roundtrip_test; sign_verify_and_tamper signer other;
   receiver_can_verify_sender_output k_final; safety_boundaries; interval_assignment_and_disclosure;
   frame_generation_increments_per_frame; frame_generation_survives_timestamp_wrap;
   index_recovery_cold_start; index_recovery_within_rollover; index_recovery_across_wrap].

Definition passes (t : outcome unit) : Prop := t = Ret tt.

Definition flip_at (l : bytes) (i : nat) (m : Z) : bytes := <[i := Z.lxor (l !!! i) m]> l.

Definition test_key (i : Z) : bytes := true_key (replicate TESLA_KEY_LEN 7) 8 i.

(** What the sensitive tests ask of the primitives, on the tests' inputs:
    HKDF's outputs differ with the generation and the seed, a flipped chain
    key does not hash down to the anchor, the packet MAC depends on the
    packet, the rollover count and the key, and a signature fails for other
    bytes and for another key. *)
Definition mac_separates (alg : TeslaMacAlg) : Prop :=
  let mac k e pkt := packet_mac alg (replicate TESLA_KEY_LEN k) e pkt in
  let packet := byte_range 0 64 in
  mac 5 7 packet ≠ mac 5 7 (flip_at packet 10 1) /\ mac 5 7 packet ≠ mac 5 65543 packet /\
  mac 5 7 packet ≠ mac 6 7 packet.

Definition separates (signer other : bytes) : Prop :=
  (gen_key test_seed 0 ≠ take SRTP_KEY_MATERIAL_LEN test_seed /\ gen_key test_seed 0 ≠ gen_key test_seed 1) /\
  gen_key test_seed 0 ≠ gen_key (flip_at test_seed 0 0xFF) 0 /\
  f_iter 3 (flip_at (test_key 3) 0 0xFF) ≠ test_key 0 /\
  (mac_separates HmacSha256 /\ mac_separates GmacAes128) /\
  let sig := commitment_sign commitment signer in
  commitment_verify (with_mac_alg commitment GmacAes128) sig (ed25519_public signer) = false /\
  commitment_verify commitment sig (ed25519_public other) = false.

(** ** Steps of a test *)

Lemma passes_bind (m : outcome unit) (f : unit -> outcome unit) :
  passes (m ≫= f) <-> passes m /\ passes (f tt).
Proof using Type. clear. unfold passes. destruct m as [[]|]; cbn; naive_solver. Qed.

Lemma passes_ne {A} `{EqDecision A} (a b : A) : passes (assert_ne a b) <-> a ≠ b.
Proof using Type. clear CL. unfold passes, assert_ne, assert. case_bool_decide; naive_solver. Qed.

Lemma passes_eq {A} `{EqDecision A} (a b : A) : passes (assert_eq a b) <-> a = b.
Proof using Type. clear CL. unfold passes, assert_eq, assert. case_bool_decide; naive_solver. Qed.

Lemma passes_negb b : passes (assert (negb b)) <-> b = false.
Proof using Type. clear. by destruct b. Qed.

Lemma xor_at_ok l i m : (i < length l)%nat -> xor_at l i m = Ret (flip_at l i m).
Proof using Type.
  clear. intros Hi. unfold xor_at, flip_at, index. apply lookup_lt_is_Some_2 in Hi as [x Hx].
  rewrite Hx. cbn. by rewrite (list_lookup_total_correct _ _ _ Hx).
Qed.

Lemma length_flip l i m : length (flip_at l i m) = length l.
Proof using Type. apply length_insert. Qed.

Lemma length_test_seed : length test_seed = CHAIN_SECRET_LEN.
Proof using Type. reflexivity. Qed.

(** ** The ratchet *)

Lemma derive_at seed g : length seed = CHAIN_SECRET_LEN -> derive_key_salt (ratchet_at seed g) = Ret (gen_key seed g).
Proof using CL.
  intros Hs. pose proof (length_chain seed (Z.to_nat g) Hs) as Hc.
  unfold derive_key_salt, gen_key, key_material, ratchet_at. cbn [chain_secret].
  destruct (hkdf_expand_ok _ KEY_MATERIAL_LABEL SRTP_KEY_MATERIAL_LEN Hc) as (ks & -> & Hks); [lens|].
  cbn [expect_ok mbind outcome_bind or_empty]. by rewrite bool_decide_eq_true_2.
Qed.

Lemma advance_at seed g :
  length seed = CHAIN_SECRET_LEN -> 0 <= g < u64_max -> advance (ratchet_at seed g) = Ret (ratchet_at seed (g + 1)).
Proof using CL.
  intros Hs Hg. pose proof (next_key_salt_at seed g Hs Hg) as H. unfold next_key_salt in H.
  apply bind_Ret in H as (ks & _ & H). apply bind_Ret in H as (r & -> & H). by injection H as _ <-.
Qed.

Lemma deterministic_from_ok n g : 0 <= g -> g + Z.of_nat n <= u64_max ->
  passes (deterministic_from n g (ratchet_at test_seed g) (ratchet_at test_seed g)).
Proof using CL.
  revert g. induction n as [|n IH]; intros g Hg Hn; [done|]. cbn [deterministic_from].
  rewrite next_key_salt_at by (done || lia). cbn [mbind outcome_bind].
  rewrite !passes_bind, !passes_eq. split_and!; try done. apply IH; lia.
Qed.

Lemma ratchet_tests :
  passes ratchet_is_deterministic /\ passes generation_counter_advances /\ passes key_salt_splits_16_12.
Proof using CL.
  unfold ratchet_is_deterministic, generation_counter_advances, key_salt_splits_16_12.
  rewrite from_seed_at by exact length_test_seed. cbn [mbind outcome_bind]. split_and!.
  - apply deterministic_from_ok; unfold u64_max; lia.
  - rewrite advance_at, passes_bind, passes_eq by (done || (unfold u64_max; lia)). split; [done|].
    cbn [mbind outcome_bind]. rewrite passes_bind, passes_eq. split; [done|].
    rewrite next_key_salt_at by (done || (unfold u64_max; lia)). cbn [mbind outcome_bind].
    by rewrite passes_bind, !passes_eq.
  - rewrite derive_at by exact length_test_seed. cbn [mbind outcome_bind].
    pose proof (length_gen_key test_seed 0 length_test_seed) as Hl. unfold split_key_salt.
    rewrite passes_bind, !passes_eq, length_take, length_drop, Hl. done.
Qed.

Lemma distinct_generations_iff :
  passes key_salt_is_derived_and_distinct_per_generation <->
  gen_key test_seed 0 ≠ take SRTP_KEY_MATERIAL_LEN test_seed /\ gen_key test_seed 0 ≠ gen_key test_seed 1.
Proof using CL.
  unfold key_salt_is_derived_and_distinct_per_generation.
  rewrite from_seed_at by exact length_test_seed. cbn [mbind outcome_bind].
  rewrite derive_at by exact length_test_seed. cbn [mbind outcome_bind].
  rewrite advance_at by (done || (unfold u64_max; lia)). cbn [mbind outcome_bind].
  rewrite derive_at by exact length_test_seed. cbn [mbind outcome_bind].
  change (slice test_seed 0 SRTP_KEY_MATERIAL_LEN) with (Ret (take SRTP_KEY_MATERIAL_LEN test_seed)).
  cbn [mbind outcome_bind]. by rewrite passes_bind, !passes_ne.
Qed.

Lemma diverge_iff :
  passes different_seeds_diverge <-> gen_key test_seed 0 ≠ gen_key (flip_at test_seed 0 0xFF) 0.
Proof using CL.
  unfold different_seeds_diverge. rewrite from_seed_at by exact length_test_seed. cbn [mbind outcome_bind].
  rewrite xor_at_ok by (rewrite length_test_seed; lens). cbn [mbind outcome_bind].
  rewrite from_seed_at by by rewrite length_flip. cbn [mbind outcome_bind].
  rewrite !next_key_salt_at by first [done | by rewrite length_flip | unfold u64_max; lia]. cbn [mbind outcome_bind].
  apply passes_ne.
Qed.


(** ** The chain and the MAC *)

Lemma test_chain_ok :
  exists c, test_chain 8 = Ret c /\ anchor c = Ret (test_key 0) /\
    forall i, 0 <= i <= 8 -> chain_key c i = Ret (test_key i).
Proof using Type.
  clear CL. destruct (from_final_key_ok (replicate TESLA_KEY_LEN 7) 8 ltac:(lia)) as (c & Hc & Hk).
  exists c. split; [exact Hc|]. split; [exact (Hk 0 ltac:(lia))|exact Hk].
Qed.

(** The verifier of the test chain at index [t]. *)
Definition test_verifier (t : Z) : ChainVerifier := mkChainVerifier 8 16 t (test_key t).

Lemma test_verifier_ok t : 0 <= t <= 8 -> verifier_ok (replicate TESLA_KEY_LEN 7) 8 (test_verifier t).
Proof using Type. done. Qed.

Lemma check_test t i :
  0 <= t < i -> i <= 8 ->
  check (test_verifier t) (test_key i) i =
  (New (true_keys (replicate TESLA_KEY_LEN 7) 8 t (Z.to_nat (i - t))), test_verifier i).
Proof using Type.
  intros Ht Hi. unfold test_key. rewrite (check_genuine _ 8 _ _ (test_verifier_ok t ltac:(lia))); cbn; done || lia.
Qed.

Lemma roundtrip_from_ok n t c :
  0 <= t -> t + Z.of_nat n = 8 -> (forall i, 0 <= i <= 8 -> chain_key c i = Ret (test_key i)) ->
  passes (roundtrip_from n (t + 1) c (test_verifier t)).
Proof using Type.
  intros Ht Hn Hk. revert t Ht Hn. induction n as [|n IH]; intros t Ht Hn; [done|]. cbn [roundtrip_from].
  rewrite Hk by lia. cbn [mbind outcome_bind]. rewrite check_test by lia.
  rewrite passes_bind, passes_eq. split; [|apply IH; lia].
  replace (Z.to_nat (t + 1 - t)) with 1%nat by lia. cbn. by rewrite Z.add_0_r.
Qed.

Lemma chain_tests : passes chain_roundtrip /\ passes gap_recovery.
Proof using Type.
  unfold chain_roundtrip, gap_recovery. destruct test_chain_ok as (c & -> & Ha & Hk).
  cbn [mbind outcome_bind]. rewrite Ha. cbn [mbind outcome_bind].
  change (ChainVerifier_new (test_key 0) 8 16) with (test_verifier 0). split.
  - exact (roundtrip_from_ok 8 0 c ltac:(lia) ltac:(lia) Hk).
  - do 4 (rewrite Hk by lia; cbn [mbind outcome_bind]). rewrite check_test by lia.
    rewrite !passes_bind, !passes_eq. split; [reflexivity|]. split; [done|].
    replace (check (test_verifier 4) (test_key 3) 3) with (NotNew, test_verifier 4) by reflexivity.
    by rewrite !passes_bind, !passes_eq.
Qed.

Lemma tampered_iff :
  passes tampered_key_rejected <-> f_iter 3 (flip_at (test_key 3) 0 0xFF) ≠ test_key 0.
Proof using CL.
  unfold tampered_key_rejected. destruct test_chain_ok as (c & -> & Ha & Hk).
  cbn [mbind outcome_bind]. rewrite Ha. cbn [mbind outcome_bind]. rewrite Hk by lia. cbn [mbind outcome_bind].
  rewrite xor_at_ok.
  2:{ unfold test_key. rewrite <- (true_key_step _ 8 3), length_f_step by lia. unfold TESLA_KEY_LEN. lia. }
  cbn [mbind outcome_bind]. set (bad := flip_at _ _ _).
  change (ChainVerifier_new (test_key 0) 8 16) with (test_verifier 0).
  rewrite (check_spec (test_verifier 0) bad 3). cbn [test_verifier cv_trusted_index cv_n_chain cv_g_max cv_trusted_key].
  change (3 <=? 0) with false. change (8 <? 3) with false. change (16 <? 3 - 0) with false.
  change (Z.to_nat (3 - 0)) with 3%nat. cbn zeta iota. case_bool_decide as Hb; fold (test_verifier 0).
  - rewrite !passes_bind, !passes_eq. change (mkChainVerifier 8 16 0 (test_key 0)) with (test_verifier 0).
    rewrite check_test by lia. split; [done|]. done.
  - rewrite !passes_bind, !passes_eq. split; [intros [? _]; discriminate|by intros].
Qed.

Lemma input_sensitive_iff alg : passes (input_sensitive alg) <-> mac_separates alg.
Proof using CL.
  unfold input_sensitive, mac_separates, packet_mac. cbn zeta.
  destruct (prepare_ok alg (replicate TESLA_KEY_LEN 5)) as (p & ->).
  destruct (prepare_ok alg (replicate TESLA_KEY_LEN 6)) as (p2 & ->). cbn [mbind outcome_bind].
  rewrite xor_at_ok by (vm_compute; lia). cbn [mbind outcome_bind].
  change (7 + Z.shiftl 1 16) with 65543. rewrite !passes_bind, !passes_eq, !passes_ne. tauto.
Qed.

Lemma mac_test_iff : passes deterministic_and_input_sensitive <-> mac_separates HmacSha256 /\ mac_separates GmacAes128.
Proof using CL.
  unfold deterministic_and_input_sensitive, algs. cbn [for_each].
  rewrite !passes_bind, !input_sensitive_iff. unfold passes. tauto.
Qed.

Lemma signature_iff signer other :
  passes (sign_verify_and_tamper signer other) <->
  let sig := commitment_sign commitment signer in
  commitment_verify (with_mac_alg commitment GmacAes128) sig (ed25519_public signer) = false /\
  commitment_verify commitment sig (ed25519_public other) = false.
Proof using CL.
  unfold sign_verify_and_tamper. cbn zeta. rewrite verify_signed, !passes_bind, !passes_negb. unfold passes. cbn. tauto.
Qed.

(** ** The sender *)

Definition sender_params : TeslaSchedule := mkTeslaSchedule 0 1000000 2 10 0 16.

Lemma sender_params_ok : schedule_ok sender_params.
Proof using Type. clear. unfold schedule_ok. cbn. split_and!; width. Qed.

Lemma split_tesla_packet kf buf e i :
  buf ≠ [] -> 0 < i <= 10 ->
  split_extension (tesla_packet sender_params HmacSha256 kf buf e i) =
  Ret (Some (i, true_key kf 10 (disclosed_index sender_params i), packet_mac HmacSha256 (true_key kf 10 i) e buf), buf).
Proof using CL.
  intros Hb Hi. apply split_append; [done|width| |].
  - unfold disclosed_index, saturating_sub. cbn [d sender_params n_chain].
    rewrite <- true_key_step by lia. apply length_f_step.
  - unfold packet_mac. destruct (prepare_ok HmacSha256 (true_key kf 10 i)) as (q & ->). apply length_tag.
Qed.

Lemma sender_test kf : passes (receiver_can_verify_sender_output kf).
Proof using CL.
  unfold receiver_can_verify_sender_output. change (TeslaSchedule_new _ _ _ _ _ _) with (Ret sender_params).
  cbn [mbind outcome_bind].
  destruct (sender_new_ok sender_params HmacSha256 kf sender_params_ok) as (s0 & -> & Hs0 & Hp0 & Ha0).
  cbn [mbind outcome_bind]. pose proof Hs0 as (_ & Hc & _). rewrite Hp0 in Hc.
  unfold sender_anchor. change (anchor (ts_chain s0)) with (chain_key (ts_chain s0) 0).
  rewrite (chain_keys_true kf 10) by (done || lia). cbn [mbind outcome_bind].
  destruct (authenticate_spec kf s0 (byte_range 0 60) 0 500000 1 Hs0) as (s1 & -> & Hs1 & Hp1 & Ha1);
    [by rewrite Hp0|unfold u64_max; lia|]. rewrite Hp0, Ha0 in *. cbn [mbind outcome_bind].
  rewrite split_tesla_packet by (done || lia). cbn [mbind outcome_bind expect].
  rewrite passes_bind, passes_eq. split; [done|].
  change (disclosed_index sender_params 1) with 0. rewrite (check_spec (ChainVerifier_new _ _ _) _ 0). cbn [ChainVerifier_new cv_trusted_index Z.leb Z.compare].
  rewrite passes_bind, passes_eq. split; [done|].
  destruct (authenticate_spec kf s1 (byte_range 100 160) 1 2500000 3 Hs1) as (s2 & -> & _);
    [by rewrite Hp1|unfold u64_max; lia|]. rewrite Hp1, Ha1. cbn [mbind outcome_bind].
  rewrite split_tesla_packet by (done || lia). cbn [mbind outcome_bind expect].
  rewrite passes_bind, passes_eq. split; [done|].
  change (disclosed_index sender_params 3) with 1.
  rewrite (check_genuine kf 10) by (cbn; done || lia || split_and!; done || lia).
  cbn [mbind outcome_bind]. rewrite passes_bind, passes_eq. split; [done|].
  change (index _ 0) with (Ret (1, true_key kf 10 1)). cbn [mbind outcome_bind].
  rewrite passes_bind, passes_eq. split; [done|]. unfold packet_mac.
  destruct (prepare_ok HmacSha256 (true_key kf 10 1)) as (q & ->). cbn [mbind outcome_bind]. by apply passes_eq.
Qed.

End Suite.

Section Main.
Context {CR : Crypto} {CL : CryptoLaws}.

(** The tests that compare no two outputs of a primitive for being different. *)
Definition independent_tests (k_final : bytes) : list (outcome unit) :=
  [ratchet_is_deterministic; generation_counter_advances; key_salt_splits_16_12;
   chain_roundtrip; gap_recovery; extension_roundtrip_test; receiver_can_verify_sender_output k_final;
   safety_boundaries; interval_assignment_and_disclosure; frame_generation_increments_per_frame;
   frame_generation_survives_timestamp_wrap; index_recovery_cold_start; index_recovery_within_rollover;
   index_recovery_across_wrap].

(** The unit tests on the model: these fourteen pass whatever the primitives
    are, and the whole suite passes exactly when the primitives separate the
    inputs that the other five compare. *)
Lemma unit_tests_pass signer other k_final :
  Forall passes (independent_tests k_final) /\
  (Forall passes (unit_tests signer other k_final) <-> separates signer other).
Proof.
  destruct ratchet_tests as (? & ? & ?), chain_tests as (? & ?). pose proof (sender_test k_final).
  assert (passes extension_roundtrip_test /\ passes safety_boundaries /\ passes interval_assignment_and_disclosure /\
    passes frame_generation_increments_per_frame /\ passes frame_generation_survives_timestamp_wrap /\
    passes index_recovery_cold_start /\ passes index_recovery_within_rollover /\ passes index_recovery_across_wrap)
    by (split_and!; reflexivity).
  unfold independent_tests, unit_tests, separates. rewrite !Forall_cons, !Forall_nil. cbn zeta.
  rewrite distinct_generations_iff, diverge_iff, tampered_iff, mac_test_iff, signature_iff. cbn zeta.
  tauto.
Qed.

End Main.

Import Toy.

(** The suite passes on the example primitives, so they separate the tests'
    inputs. *)
Lemma toy_suite_passes : Forall passes (unit_tests (replicate 32 1) (replicate 32 2) (replicate 20 3)).
Proof. repeat (apply Forall_cons_2; [vm_compute; reflexivity|]). apply Forall_nil_2. Qed.

Lemma toy_separates : separates (replicate 32 1) (replicate 32 2).
Proof. apply (unit_tests_pass (replicate 32 1) (replicate 32 2) (replicate 20 3)), toy_suite_passes. Qed.
