(* ===== verification/StreamModel.v ===== *)
(** * StreamModel: the simulated sender (src/src/simulation/sender.rs)

    [StreamModel] computes every packet of the modelled video stream from its
    index; [SimulatedSender] protects them in order.  The theorems connect the
    simulation to EndToEnd.v: the modelled stream is one the receiver can
    follow at every granularity. *)

From S2P Require Import Prelude Bytes Crypto Rtp IndexRecovery Ratchet Rdbx Session Generation Granularity Receiver ReceiverSpec ReceiverProps EndToEnd.

Definition GCM_TAG_LEN : Z := 16.
Definition FRAME_BYTES : Z := 1920 * 1080 * 5 / 2.
Definition FRAME_PERIOD : Z := 1500.
Definition FPS : Z := 60.
Definition START_TS : Z := 0.

Record StreamModel := mkStreamModel {
  sm_payload_size : Z;
  sm_ppf : Z;
  sm_ssrc : Z
}.

Definition StreamModel_new (payload_size ssrc : Z) : outcome StreamModel :=
  _ ← assert (8 <=? payload_size);
  Ret (mkStreamModel payload_size (Z.max (FRAME_BYTES / payload_size) 1) ssrc).

Definition sm_timestamp (self : StreamModel) (i : Z) : Z :=
  u32 (START_TS + u32 (u32 (i / sm_ppf self) * FRAME_PERIOD)).

Definition send_ns (self : StreamModel) (i : Z) : Z :=
  let f := i / sm_ppf self in
  let p := i mod sm_ppf self in
  let frame_start := u64 (f * 1000000000) / FPS in
  let offset := u64 (p * 1000000000) / u64 (FPS * sm_ppf self) in
  u64 (frame_start + offset).

(** [payload[..8].copy_from_slice] panics on a shorter payload; [new] rules
    that out. *)
Definition sm_payload (self : StreamModel) (i : Z) : outcome bytes :=
  let payload := replicate (Z.to_nat (sm_payload_size self)) 0 in
  _ ← slice payload 0 8;
  Ret (u64_le i ++ drop 8 payload).

Definition plain_packet (self : StreamModel) (i : Z) : outcome bytes :=
  payload ← sm_payload self i;
  Ret ([0x80] ++ [96] ++ u16_be (u16 i) ++ u32_be (sm_timestamp self i) ++ u32_be (sm_ssrc self) ++ payload).

Record SimulatedSender (S : Type) := mkSimulatedSender {
  sim_model : StreamModel;
  sim_crypto : RekeyingStream S;
  sim_next_i : Z
}.
Arguments mkSimulatedSender {S}.
Arguments sim_model {S}.
Arguments sim_crypto {S}.
Arguments sim_next_i {S}.

Section Sender.
Context {CR : Crypto} {S : Type} {OPS : SrtpOps S}.

Definition SimulatedSender_new (model : StreamModel) (granularity : Granularity) (ratchet : StreamRatchet) :
    outcome (SimulatedSender S) :=
  crypto ← RekeyingStream_new granularity (sm_ssrc model) ratchet;
  Ret (mkSimulatedSender model crypto 0).

Definition next_protected (self : SimulatedSender S) : outcome ((Z * bytes) * SimulatedSender S) :=
  let i := sim_next_i self in
  buf ← plain_packet (sim_model self) i;
  '(r, buf, crypto) ← rk_protect (sim_crypto self) buf;
  _ ← expect_ok r;
  Ret ((i, buf), mkSimulatedSender (sim_model self) crypto (u64 (i + 1))).

(** The first [n] packets of the stream. *)
Fixpoint produce (n : nat) (self : SimulatedSender S) : outcome (list (Z * bytes) * SimulatedSender S) :=
  match n with
  | O => Ret ([], self)
  | Datatypes.S n =>
      '(x, self) ← next_protected self;
      '(xs, self) ← produce n self;
      Ret (x :: xs, self)
  end.

End Sender.

(** ** The stream's packets *)

Definition model_ok (m : StreamModel) : Prop :=
  8 <= sm_payload_size m <= 65536 /\ 1 <= sm_ppf m <= FRAME_BYTES /\ in_u32 (sm_ssrc m).

Lemma StreamModel_new_ok payload_size ssrc m :
  payload_size <= 65536 -> in_u32 ssrc -> StreamModel_new payload_size ssrc = Ret m -> model_ok m.
Proof.
  intros Hp Hs H. apply bind_Ret in H as ([] & Hb%assert_Ret & [= <-]). apply Z.leb_le in Hb.
  unfold model_ok, FRAME_BYTES. cbn [sm_payload_size sm_ppf sm_ssrc].
  assert (1920 * 1080 * 5 / 2 / payload_size <= 1920 * 1080 * 5 / 2) by (apply Z.div_le_upper_bound; lia).
  split; [lia|]. split; [lia|done].
Qed.

(** The packet without the panic check. *)
Definition packet_bytes (m : StreamModel) (i : Z) : bytes :=
  to_bytes (mkRtpPacket 96 (u16 i) (sm_timestamp m i) (sm_ssrc m)
    (u64_le i ++ replicate (Z.to_nat (sm_payload_size m) - 8) 0)).

Lemma plain_packet_spec m i : model_ok m -> plain_packet m i = Ret (packet_bytes m i).
Proof.
  intros (Hp & _). unfold plain_packet, sm_payload, slice.
  rewrite bool_decide_eq_true_2 by (rewrite length_replicate; lia). cbn [mbind outcome_bind].
  unfold packet_bytes, to_bytes. cbn [payload_type sequence_number timestamp ssrc payload].
  by rewrite drop_replicate.
Qed.

Lemma length_packet_bytes m i : model_ok m -> Z.of_nat (length (packet_bytes m i)) = 12 + sm_payload_size m.
Proof.
  intros (Hp & _). unfold packet_bytes, to_bytes. cbn [payload_type sequence_number timestamp ssrc payload].
  rewrite !length_app, length_u16_be, !length_u32_be, length_u64_le, length_replicate. cbn [length]. lia.
Qed.

(** The timestamp of a frame, in ticks since the start. *)
Lemma sm_timestamp_frame m i : sm_timestamp m i = u32 (0 + (i / sm_ppf m) * FRAME_PERIOD).
Proof.
  unfold sm_timestamp, START_TS, FRAME_PERIOD, u32.
  by rewrite !Z.add_0_l, Z.mod_mod, Zmult_mod_idemp_l by lia.
Qed.

Lemma packet_bytes_genuine m i :
  model_ok m -> genuine (sm_ssrc m) 0 i (packet_bytes m (Z.of_nat i)) /\
  packet_timestamp (packet_bytes m (Z.of_nat i)) = Ret (sm_timestamp m (Z.of_nat i)).
Proof.
  intros Hm. pose proof (length_packet_bytes m (Z.of_nat i) Hm) as Hlen. pose proof Hm as (Hp & _ & Hs).
  assert (in_u32 (sm_timestamp m (Z.of_nat i))) as Ht by apply u32_range.
  assert (in_u16 (u16 (Z.of_nat i))) as Hq by apply u16_range.
  assert (bytes_ok (packet_bytes m (Z.of_nat i))) as Hok.
  { apply to_bytes_ok. unfold RtpPacket_ok. cbn [payload_type sequence_number timestamp ssrc payload]. split_and!; try done.
    apply Forall_app. split; [apply to_le_ok|]. by apply Forall_replicate. }
  unfold packet_bytes, to_bytes in *. cbn [payload_type sequence_number timestamp ssrc payload] in *.
  set (rest := u64_le _ ++ _) in *.
  rewrite u16_be_cells, !u32_be_cells in *. cbn [app] in *. unfold u16, u32 in Hq, Ht.
  split.
  - split_and!.
    + split; [unfold octets_in_rtp_header; cbn [length]; lia|done].
    + unfold hdr_ssrc. cbn. width.
    + unfold hdr_seq, byte_at. cbn. rewrite Z.add_0_l. width.
    + unfold c_int_max. lia.
    + done.
  - unfold packet_timestamp, index. cbn. f_equal. width.
Qed.

(** ** The stream as EndToEnd.v sees it *)

Definition stream_bufs (m : StreamModel) (n : nat) : list bytes :=
  (fun i => packet_bytes m (Z.of_nat i)) <$> seq 0 n.
Definition stream_tss (m : StreamModel) (n : nat) : list Z :=
  (fun i => sm_timestamp m (Z.of_nat i)) <$> seq 0 n.

(** The generation of packet [i]. *)
Definition sim_generation (granularity : Granularity) (m : StreamModel) (i : nat) : Z :=
  match granularity with
  | EpochOnly => 0
  | Frame => Z.of_nat i / sm_ppf m
  | Packet => Z.of_nat i
  | EveryN n => Z.of_nat i / n
  end.

(** Frame keying is followed while the stream lasts one turn of the clock. *)
Definition within_clock (granularity : Granularity) (m : StreamModel) (n : nat) : Prop :=
  match granularity with
  | Frame => (Z.of_nat (n - 1) / sm_ppf m + 1) * FRAME_PERIOD <= 2 ^ 32
  | _ => True
  end.

Lemma lookup_stream {A} (f : nat -> A) n i x : (f <$> seq 0 n) !! i = Some x <-> (i < n)%nat /\ x = f i.
Proof.
  rewrite list_lookup_fmap. split.
  - destruct (seq 0 n !! i) eqn:Hi; [|done]. apply lookup_seq in Hi as [-> Hi]. by intros [= <-].
  - intros [Hi ->]. by rewrite lookup_seq_lt.
Qed.

Lemma frame_run_stream m a n :
  1 <= sm_ppf m -> frame_run (Z.of_nat a / sm_ppf m) ((fun i => Z.of_nat i / sm_ppf m) <$> seq (S a) n).
Proof.
  intros Hp. revert a. induction n as [|n IH]; intros a; [done|]. cbn [seq]. rewrite fmap_cons.
  cbn [frame_run]. split; [|apply IH].
  replace (Z.of_nat (S a)) with (Z.of_nat a + 1) by lia. nia.
Qed.

Lemma stream_clocked granularity m n :
  model_ok m -> (1 <= n)%nat -> within_clock granularity m n ->
  clocked granularity START_TS FRAME_PERIOD (stream_tss m n).
Proof.
  intros (_ & Hp & _) Hn Hw. destruct granularity; try done. cbn in Hw. split; [done|].
  destruct n as [|n]; [lia|]. exists ((fun i => Z.of_nat i / sm_ppf m) <$> seq 1 n).
  assert (0 :: ((fun i => Z.of_nat i / sm_ppf m) <$> seq 1 n) = (fun i => Z.of_nat i / sm_ppf m) <$> seq 0 (S n)) as ->.
  { cbn [seq]. by rewrite fmap_cons, Z.div_0_l by lia. }
  split; [|split].
  - unfold stream_tss. rewrite <- list_fmap_compose. apply list_fmap_ext. intros i x _. unfold compose.
    apply sm_timestamp_frame.
  - replace 0 with (Z.of_nat 0 / sm_ppf m) by (by rewrite Z.div_0_l by lia). apply frame_run_stream. lia.
  - apply Forall_fmap, Forall_forall. intros i Hi%elem_of_seq. unfold compose.
    assert (Z.of_nat i / sm_ppf m <= Z.of_nat (S n - 1) / sm_ppf m) by (apply Z.div_le_mono; lia).
    unfold FRAME_PERIOD in *. nia.
Qed.

Lemma stream_genuine m n i buf :
  model_ok m -> stream_bufs m n !! i = Some buf -> genuine (sm_ssrc m) 0 i buf.
Proof. intros Hm [_ ->]%lookup_stream. by apply packet_bytes_genuine. Qed.

Lemma stream_timestamps m n :
  model_ok m -> Forall2 (fun buf ts => packet_timestamp buf = Ret ts) (stream_bufs m n) (stream_tss m n).
Proof.
  intros Hm. unfold stream_bufs, stream_tss. apply Forall2_fmap, Forall_Forall2_diag, Forall_forall.
  intros i _. by apply packet_bytes_genuine.
Qed.

(** The sender's generation along the stream is the closed form. *)
Lemma gen_of_stream granularity m n i :
  model_ok m -> granularity_ok granularity -> (i < n)%nat -> within_clock granularity m n ->
  gen_of granularity (stream_tss m n) i = sim_generation granularity m i.
Proof.
  intros Hm Hok Hi Hw. pose proof (stream_clocked granularity m n Hm ltac:(lia) Hw) as Hclk.
  pose proof Hm as (_ & Hp & _).
  assert (stream_tss m n !! i = Some (sm_timestamp m (Z.of_nat i))) as Ht by (by apply lookup_stream).
  (* the receiver's mapping determines it *)
  pose proof (gen_agrees granularity START_TS FRAME_PERIOD 0 (stream_tss m n) i _
    (mkIndexRecovery (Some (Z.of_nat i))) 0 Hok Hclk ltac:(lia) Ht) as Hgen.
  assert (length (take (S i) (stream_tss m n)) = S i) as Hlen.
  { rewrite length_take. unfold stream_tss. rewrite length_fmap, length_seq. lia. }
  destruct granularity as [| | |k]; cbn [sim_generation].
  - done.
  - cbn [for_granularity map_generation] in Hgen. rewrite sm_timestamp_frame in Hgen.
    replace (0 + Z.of_nat i / sm_ppf m * FRAME_PERIOD) with (START_TS + Z.of_nat i / sm_ppf m * FRAME_PERIOD + 0)
      in Hgen by (unfold START_TS; lia).
    assert (Z.of_nat i / sm_ppf m <= Z.of_nat (n - 1) / sm_ppf m) by (apply Z.div_le_mono; lia).
    assert (0 <= Z.of_nat i / sm_ppf m) by (apply Z.div_pos; lia).
    cbn in Hw. unfold FRAME_PERIOD in *.
    rewrite frame_generation_frame in Hgen by nia. cbn [mbind outcome_bind] in Hgen.
    specialize (Hgen ltac:(by intros [? [=]])). injection Hgen as Hgen. symmetry. exact Hgen.
  - unfold gen_of. cbn [stream_generation]. rewrite Hlen. lia.
  - unfold gen_of. cbn [stream_generation]. rewrite Hlen. f_equal. lia.
Qed.

Section Produce.
Context {CR : Crypto} {S : Type} {OPS : SrtpOps S}.

(** Producing packets is protecting the modelled ones. *)
Lemma produce_spec n a (self : SimulatedSender S) ws crypto :
  model_ok (sim_model self) -> sim_next_i self = Z.of_nat a -> Z.of_nat (a + n) < 2 ^ 63 ->
  protect_all (sim_crypto self) ((fun i => packet_bytes (sim_model self) (Z.of_nat i)) <$> seq a n) =
    Ret ((fun w => (Ok tt, w)) <$> ws, crypto) ->
  produce n self =
    Ret (zip (Z.of_nat <$> seq a n) ws, mkSimulatedSender (sim_model self) crypto (Z.of_nat (a + n))).
Proof.
  revert a self ws. induction n as [|n IH]; intros a self ws Hm Ha Hmax Hrun.
  - injection Hrun as Hws <-. destruct ws; [|done]. cbn. rewrite Nat.add_0_r, <- Ha. by destruct self.
  - rewrite <- cons_seq in Hrun. rewrite fmap_cons in Hrun. rewrite <- cons_seq, fmap_cons. cbn [protect_all produce] in Hrun |- *.
    apply bind_Ret in Hrun as ([[r b] crypto1] & H1 & Hrun).
    apply bind_Ret in Hrun as ([out crypto2] & H2 & Hrun). injection Hrun as Hout <-.
    destruct ws as [|w ws]; [done|]. injection Hout as -> <- ->.
    unfold next_protected. rewrite Ha, plain_packet_spec by done. cbn [mbind outcome_bind].
    rewrite H1. cbn [mbind outcome_bind expect_ok]. rewrite u64_id by width.
    rewrite (IH (Datatypes.S a) (mkSimulatedSender (sim_model self) crypto1 (Z.of_nat a + 1)) ws Hm)
      by (cbn [sim_next_i sim_crypto sim_model]; (done || lia)).
    cbn [mbind outcome_bind zip_with]. do 3 f_equal. lia.
Qed.

End Produce.
