(* ===== verification/Network.v ===== *)
(** * Network: the simulated dual-path network (src/src/simulation/network.rs)

    [disturb] decides when each packet arrives, or that it is lost.  The
    random generator is a package outside the repository: its state and
    operations are the class [Rng].  Floating-point numbers are Stdlib's
    executable binary64, [spec_float]. *)

From Stdlib Require Import SpecFloat Sorting.Sorted.
From S2P Require Import Prelude Bytes.

(** ** Random numbers and floats *)

Class Rng (R : Type) := {
  seed_from_u64 : Z -> R;
  (** [rng.random::<f64>()], uniform in [0, 1). *)
  random_f64 : R -> spec_float * R;
  (** [rng.random_range(0..=hi)]. *)
  random_range : R -> Z -> Z * R
}.

(** The documented contract of [random_range]. *)
Class RngLaws (R : Type) `{Rng R} := {
  random_range_bounds r hi : 0 <= hi -> 0 <= (random_range r hi).1 <= hi
}.

Definition f64_of_Z (z : Z) : spec_float := binary_normalize 53 1024 z 0 false.
Definition f64_mul : spec_float -> spec_float -> spec_float := SFmul 53 1024.

(** [x.round() as usize]: half away from zero; negative values and NaN cast to 0. *)
Definition f64_round_usize (x : spec_float) : Z :=
  match x with
  | S754_finite false m e =>
      if 0 <=? e then Z.shiftl (Z.pos m) e
      else (Z.pos m + 2 ^ (- e - 1)) / 2 ^ (- e)
  | S754_infinity false => u64_max
  | _ => 0
  end.

(** The constants 0.50, 0.99 and 0.999. *)
Definition f64_0_50 : spec_float := S754_finite false 4503599627370496 (-53).
Definition f64_0_99 : spec_float := S754_finite false 8917127262193582 (-53).
Definition f64_0_999 : spec_float := S754_finite false 8998192055486251 (-53).

(** ** Configuration and counters *)

Inductive LossModel :=
| NoLoss
| Independent (p : spec_float)
| GilbertElliott (p_good_to_bad p_bad_to_good : spec_float).

Record PathConfig := mkPathConfig {
  base_delay_ns : Z;
  jitter_ns : Z;
  loss : LossModel
}.

Record NetworkConfig := mkNetworkConfig {
  path_a : PathConfig;
  path_b : option PathConfig;
  cfg_seed : Z
}.

Record DisplacementStats := mkDisplacementStats {
  reordered : Z;
  max_lateness : Z;
  p50 : Z;
  p99 : Z;
  p99_9 : Z;
  gaps : Z;
  max_gap : Z
}.

Definition DisplacementStats_default : DisplacementStats := mkDisplacementStats 0 0 0 0 0 0 0.

Record NetworkStats := mkNetworkStats {
  sent : Z;
  net_delivered : Z;
  lost_a : Z;
  lost_b : Z;
  lost_packets : Z;
  wins_a : Z;
  wins_b : Z;
  duplicates_dropped : Z;
  displacement : DisplacementStats
}.

(** Adds to the per-packet counters: lost_a, lost_b, lost_packets, wins_a,
    wins_b, duplicates_dropped. *)
Definition tally (t : NetworkStats) (la lb lp wa wb dup : Z) : NetworkStats :=
  mkNetworkStats (sent t) (net_delivered t) (u64 (lost_a t + la)) (u64 (lost_b t + lb))
    (u64 (lost_packets t + lp)) (u64 (wins_a t + wa)) (u64 (wins_b t + wb))
    (u64 (duplicates_dropped t + dup)) (displacement t).

(** ** Loss *)

Record LossState := mkLossState { model : LossModel; in_bad : bool }.

Definition LossState_new (m : LossModel) : LossState := mkLossState m false.

Section Network.
Context {R : Type} {RG : Rng R}.

Definition next_lost (self : LossState) (rng : R) : bool * LossState * R :=
  match model self with
  | NoLoss => (false, self, rng)
  | Independent p =>
      let '(x, rng) := random_f64 rng in (SFltb x p, self, rng)
  | GilbertElliott p_good_to_bad p_bad_to_good =>
      let lost := in_bad self in
      let '(x, rng) := random_f64 rng in
      let flipped :=
        if in_bad self then if SFltb x p_bad_to_good then false else true
        else SFltb x p_good_to_bad in
      (lost, mkLossState (model self) flipped, rng)
  end.

Definition copy_arrival (path : PathConfig) (send_ns : Z) (loss : LossState) (rng : R) :
    option Z * LossState * R :=
  let '(lost, loss, rng) := next_lost loss rng in
  if lost then (None, loss, rng)
  else
    let '(jitter, rng) := random_range rng (jitter_ns path) in
    (Some (u64 (u64 (send_ns + base_delay_ns path) + jitter)), loss, rng).

(** The state of the sending loop. *)
Record NetState := mkNetState {
  ns_rng : R;
  ns_loss_a : LossState;
  ns_loss_b : option LossState;
  ns_schedule : list (Z * Z);
  ns_stats : NetworkStats
}.

(** One iteration: packet [i] over both paths, and the merge. *)
Definition send_one (cfg : NetworkConfig) (send_ns : Z -> Z) (st : NetState) (i : Z) : NetState :=
  let s := send_ns i in
  let '(a, loss_a, rng) := copy_arrival (path_a cfg) s (ns_loss_a st) (ns_rng st) in
  let '(b, loss_b, rng) :=
    match path_b cfg, ns_loss_b st with
    | Some path, Some state =>
        let '(b, state, rng) := copy_arrival path s state rng in (b, Some state, rng)
    | _, _ => (None, ns_loss_b st, rng)
    end in
  let has_b := match path_b cfg with Some _ => 1 | None => 0 end in
  let t := ns_stats st in
  let '(schedule, t) :=
    match a, b with
    | None, None => (ns_schedule st, tally t 1 has_b 1 0 0 0)
    | Some ta, None => (ns_schedule st ++ [(ta, i)], tally t 0 has_b 0 1 0 0)
    | None, Some tb => (ns_schedule st ++ [(tb, i)], tally t 1 0 0 0 1 0)
    | Some ta, Some tb =>
        (ns_schedule st ++ [(Z.min ta tb, i)],
         if ta <=? tb then tally t 0 0 0 1 0 1 else tally t 0 0 0 0 1 1)
    end in
  mkNetState rng loss_a loss_b schedule t.

(** [schedule.sort_by_key(|&(t, _)| t)]: the stable sort by arrival time. *)
Fixpoint insert_by_time (x : Z * Z) (l : list (Z * Z)) : list (Z * Z) :=
  match l with
  | [] => [x]
  | y :: l' => if fst x <=? fst y then x :: l else y :: insert_by_time x l'
  end.
Definition sort_by_time (l : list (Z * Z)) : list (Z * Z) := foldr insert_by_time [] l.

End Network.

(** ** Displacement *)

(** The walk of [measure_displacement]. *)
Record Walk := mkWalk {
  w_lateness : list Z;
  w_max_seen : option Z;
  w_gaps : Z;
  w_max_gap : Z
}.

Definition walk_step (w : Walk) (idx : Z) : Walk :=
  let d :=
    match w_max_seen w with
    | Some m => if idx <? m then m - idx else 0
    | None => 0
    end in
  let skipped :=
    match w_max_seen w with
    | None => idx
    | Some m => if m <? idx then idx - m - 1 else 0
    end in
  let '(gaps, max_gap) :=
    if 0 <? skipped then (u64 (w_gaps w + 1), Z.max (w_max_gap w) skipped) else (w_gaps w, w_max_gap w) in
  let max_seen :=
    match w_max_seen w with
    | None => Some idx
    | Some m => if m <? idx then Some idx else Some m
    end in
  mkWalk (w_lateness w ++ [d]) max_seen gaps max_gap.

Definition walk (schedule : list (Z * Z)) : Walk :=
  fold_left (fun w x => walk_step w (snd x)) schedule (mkWalk [] None 0 0).

Fixpoint insert_z (x : Z) (l : list Z) : list Z :=
  match l with
  | [] => [x]
  | y :: l' => if x <=? y then x :: l else y :: insert_z x l'
  end.
Definition sort_z (l : list Z) : list Z := foldr insert_z [] l.

Definition pct (lateness : list Z) (q : spec_float) : outcome Z :=
  index lateness (Z.to_nat (f64_round_usize (f64_mul (f64_of_Z (Z.of_nat (length lateness) - 1)) q))).

Definition measure_displacement (schedule : list (Z * Z)) : outcome DisplacementStats :=
  let w := walk schedule in
  if bool_decide (w_lateness w = []) then Ret DisplacementStats_default
  else
    let reordered := Z.of_nat (length (List.filter (fun d => 0 <? d) (w_lateness w))) in
    let lateness := sort_z (w_lateness w) in
    max ← expect (last lateness);
    p50 ← pct lateness f64_0_50;
    p99 ← pct lateness f64_0_99;
    p99_9 ← pct lateness f64_0_999;
    Ret (mkDisplacementStats reordered max p50 p99 p99_9 (w_gaps w) (w_max_gap w)).

Section Disturb.
Context {R : Type} {RG : Rng R}.

(** The loop [for i in 0..n]. *)
Definition send_all (n : nat) (send_ns : Z -> Z) (cfg : NetworkConfig) : NetState :=
  fold_left (send_one cfg send_ns) (Z.of_nat <$> seq 0 n)
    (mkNetState (seed_from_u64 (cfg_seed cfg)) (LossState_new (loss (path_a cfg)))
      ((fun p => LossState_new (loss p)) <$> path_b cfg) []
      (mkNetworkStats (Z.of_nat n) 0 0 0 0 0 0 0 DisplacementStats_default)).

Definition disturb (n : nat) (send_ns : Z -> Z) (cfg : NetworkConfig) :
    outcome (list (Z * Z) * NetworkStats) :=
  let st := send_all n send_ns cfg in
  let schedule := sort_by_time (ns_schedule st) in
  let t := ns_stats st in
  displacement ← measure_displacement schedule;
  Ret (schedule, mkNetworkStats (sent t) (Z.of_nat (length schedule)) (lost_a t) (lost_b t) (lost_packets t)
    (wins_a t) (wins_b t) (duplicates_dropped t) displacement).

End Disturb.
