(* ===== verification/NetworkFacts.v ===== *)
(** * NetworkFacts: conservation and ordering in the simulated network *)

From Stdlib Require Import SpecFloat Sorting.Sorted.
From S2P Require Import Prelude Bytes Network.

(** ** The stable sort *)

Lemma insert_by_time_perm x l : insert_by_time x l ≡ₚ x :: l.
Proof.
  induction l as [|y l IH]; [done|]. cbn [insert_by_time]. case_match; [done|].
  rewrite IH. apply Permutation_swap.
Qed.

Lemma sort_by_time_perm l : sort_by_time l ≡ₚ l.
Proof. induction l as [|x l IH]; [done|]. cbn. by rewrite insert_by_time_perm, IH. Qed.

Lemma insert_by_time_sorted x l :
  Sorted (fun a b => fst a <= fst b) l -> Sorted (fun a b => fst a <= fst b) (insert_by_time x l).
Proof.
  induction 1 as [|y l Hl IH Hhd]; cbn [insert_by_time]; [by repeat constructor|].
  destruct (Z.leb_spec (fst x) (fst y)); [by repeat constructor|].
  constructor; [done|]. destruct l as [|z l]; cbn [insert_by_time].
  - constructor. lia.
  - destruct (Z.leb_spec (fst x) (fst z)); constructor; [lia|]. by apply HdRel_inv in Hhd.
Qed.

Lemma sort_by_time_sorted l : Sorted (fun a b => fst a <= fst b) (sort_by_time l).
Proof. induction l as [|x l IH]; [constructor|]. by apply insert_by_time_sorted. Qed.

(** ** The sending loop *)

Section Loop.
Context {R : Type} {RG : Rng R} {RL : RngLaws R}.
Context (cfg : NetworkConfig) (send_ns : Z -> Z).

(** The paths' delays, and send times that leave room for them. *)
Definition path_ok (p : PathConfig) : Prop := 0 <= base_delay_ns p /\ 0 <= jitter_ns p.
Definition cfg_ok : Prop := path_ok (path_a cfg) /\ forall p, path_b cfg = Some p -> path_ok p.
Definition fits (i : Z) : Prop :=
  0 <= send_ns i /\ forall p, p = path_a cfg \/ path_b cfg = Some p ->
    send_ns i + base_delay_ns p + jitter_ns p < 2 ^ 64.

(** A copy of packet [i] that took path [p] arrives within its delays. *)
Definition via (p : PathConfig) (i t : Z) : Prop :=
  send_ns i + base_delay_ns p <= t <= send_ns i + base_delay_ns p + jitter_ns p.

Lemma copy_arrival_via p i ls rng t ls' rng' :
  path_ok p -> fits i -> p = path_a cfg \/ path_b cfg = Some p ->
  copy_arrival p (send_ns i) ls rng = (Some t, ls', rng') -> via p i t.
Proof.
  intros [Hb Hj] [Hs Hf] Hp. unfold copy_arrival. destruct (next_lost ls rng) as [[[] l] r]; [done|].
  destruct (random_range r (jitter_ns p)) as [j r'] eqn:Hr.
  pose proof (random_range_bounds r (jitter_ns p) Hj) as Hjb. rewrite Hr in Hjb. cbn in Hjb.
  specialize (Hf p Hp). intros [= <- _ _]. unfold via. rewrite (u64_id (send_ns i + _)) by width.
  rewrite u64_id by width. lia.
Qed.

(** The schedule's packets so far, and the books. *)
Definition sched_ok (i : Z) (l : list (Z * Z)) : Prop :=
  NoDup (snd <$> l) /\
  Forall (fun x => 0 <= snd x < i /\
    (via (path_a cfg) (snd x) (fst x) \/ exists p, path_b cfg = Some p /\ via p (snd x) (fst x))) l.

Definition net_books (i : Z) (st : NetState (R := R)) : Prop :=
  let t := ns_stats st in
  let n := Z.of_nat (length (ns_schedule st)) in
  0 <= lost_a t <= i /\ 0 <= lost_b t <= i /\ 0 <= lost_packets t /\ 0 <= wins_a t /\ 0 <= wins_b t /\
  0 <= duplicates_dropped t <= i /\ n + lost_packets t = i /\ wins_a t + wins_b t = n /\
  match path_b cfg with
  | Some _ => lost_a t + lost_b t + n + duplicates_dropped t = 2 * i /\ is_Some (ns_loss_b st)
  | None => lost_a t = lost_packets t /\ lost_b t = 0 /\ wins_b t = 0 /\ duplicates_dropped t = 0
  end.

Lemma sched_ok_mono i j l : sched_ok i l -> i <= j -> sched_ok j l.
Proof.
  intros [Hn Hl] Hij. split; [done|]. eapply Forall_impl; [exact Hl|]. intros x [Hx Hv]. split; [lia|done].
Qed.

Lemma sched_ok_snoc i l t :
  0 <= i -> sched_ok i l ->
  via (path_a cfg) i t \/ (exists p, path_b cfg = Some p /\ via p i t) -> sched_ok (i + 1) (l ++ [(t, i)]).
Proof.
  intros Hi [Hn Hl] Hv. split.
  - rewrite fmap_app. apply NoDup_app. split; [done|]. split; [|by apply NoDup_singleton].
    intros x Hx. cbn. rewrite list_elem_of_singleton. intros ->.
    apply list_elem_of_fmap in Hx as (y & Hy & Hin). rewrite Forall_forall in Hl. specialize (Hl y Hin). lia.
  - apply Forall_app. split; [apply (sched_ok_mono i (i + 1) l); [by split|lia]|]. apply Forall_singleton. cbn [fst snd]. split; [lia|done].
Qed.

Lemma send_one_ok i st :
  cfg_ok -> fits i -> 0 <= i < 2 ^ 62 -> sched_ok i (ns_schedule st) -> net_books i st ->
  let st' := send_one cfg send_ns st i in
  sched_ok (i + 1) (ns_schedule st') /\ net_books (i + 1) st' /\ sent (ns_stats st') = sent (ns_stats st).
Proof.
  intros [Hpa Hpb] Hf Hi Hs Hb. unfold send_one.
  destruct (copy_arrival (path_a cfg) (send_ns i) (ns_loss_a st) (ns_rng st)) as [[a la] r1] eqn:Ha.
  assert (forall t, a = Some t -> via (path_a cfg) i t) as Hva.
  { intros t ->. by eapply copy_arrival_via in Ha; eauto. }
  destruct (path_b cfg) as [pb|] eqn:Hcfg.
  - assert (exists state, ns_loss_b st = Some state) as [state Hst].
    { unfold net_books in Hb. rewrite Hcfg in Hb. by destruct Hb as (_&_&_&_&_&_&_&_&_&?). }
    rewrite Hst. destruct (copy_arrival pb (send_ns i) state r1) as [[b lb] r2] eqn:Hcb.
    assert (forall t, b = Some t -> via pb i t) as Hvb.
    { intros t ->. eapply copy_arrival_via in Hcb; eauto. }
    unfold net_books in *. rewrite Hcfg in *. destruct Hb as (? & ? & ? & ? & ? & ? & ? & ? & ? & _).
    destruct a as [ta|], b as [tb|]; [destruct (Z.leb_spec ta tb)|..].
    all: cbn [ns_schedule ns_stats ns_loss_b tally lost_a lost_b lost_packets wins_a wins_b duplicates_dropped sent].
    all: rewrite !u64_id by width; rewrite ?length_app; cbn [length].
    all: split; [|split; [split_and!; try lia; by eexists|done]].
    all: try (apply sched_ok_snoc; [lia|done|]).
    + left. rewrite Z.min_l by lia. by apply Hva.
    + right. exists pb. split; [done|]. rewrite Z.min_r by lia. by apply Hvb.
    + left. by apply Hva.
    + right. exists pb. split; [done|]. by apply Hvb.
    + eapply sched_ok_mono; [done|lia].
  - unfold net_books in *. rewrite Hcfg in *. destruct Hb as (? & ? & ? & ? & ? & ? & ? & ? & ? & ? & ? & ?).
    destruct a as [ta|].
    all: cbn [ns_schedule ns_stats ns_loss_b tally lost_a lost_b lost_packets wins_a wins_b duplicates_dropped sent].
    all: rewrite !u64_id by width; rewrite ?length_app; cbn [length].
    all: split; [|split; [split_and!; lia|done]].
    + apply sched_ok_snoc; [lia|done|]. left. by apply Hva.
    + eapply sched_ok_mono; [done|lia].
Qed.

Lemma send_all_ok n :
  cfg_ok -> (forall i, 0 <= i < Z.of_nat n -> fits i) -> Z.of_nat n < 2 ^ 62 ->
  let st := send_all n send_ns cfg in
  sched_ok (Z.of_nat n) (ns_schedule st) /\ net_books (Z.of_nat n) st.
Proof.
  intros Hc Hf Hn. unfold send_all. set (st0 := mkNetState _ _ _ _ _).
  assert (forall m, (m <= n)%nat -> let st := fold_left (send_one cfg send_ns) (Z.of_nat <$> seq 0 m) st0 in
    sched_ok (Z.of_nat m) (ns_schedule st) /\ net_books (Z.of_nat m) st) as Hall; [|by apply Hall].
  induction m as [|m IH]; intros Hm.
  - unfold st0, net_books. cbn. split; [split; constructor|]. split_and!; try lia. by destruct (path_b cfg).
  - rewrite seq_S, fmap_app, fold_left_app. cbn [fmap list_fmap fold_left Nat.add].
    destruct (IH ltac:(lia)) as [Hs Hb].
    replace (Z.of_nat (S m)) with (Z.of_nat m + 1) by lia.
    destruct (send_one_ok (Z.of_nat m) _ Hc ltac:(apply Hf; lia) ltac:(lia) Hs Hb) as (? & ? & _). done.
Qed.

Lemma send_all_sent n : sent (ns_stats (send_all n send_ns cfg)) = Z.of_nat n.
Proof.
  unfold send_all. set (st0 := mkNetState _ _ _ _ _). change (Z.of_nat n) with (sent (ns_stats st0)).
  clearbody st0. generalize (Z.of_nat <$> seq 0 n) as l. intros l. revert st0.
  induction l as [|i l IH]; intros st0; [done|]. cbn [fold_left]. rewrite IH.
  unfold send_one. by repeat case_match; simplify_eq.
Qed.

End Loop.

(** ** The network's guarantees *)

Section Claims.
Context {R : Type} {RG : Rng R} {RL : RngLaws R}.

Lemma disturb_inv n send cfg sched t :
  disturb n send cfg = Ret (sched, t) ->
  let st := send_all n send cfg in
  sched = sort_by_time (ns_schedule st) /\ measure_displacement sched = Ret (displacement t) /\
  sent t = sent (ns_stats st) /\ net_delivered t = Z.of_nat (length sched) /\
  lost_a t = lost_a (ns_stats st) /\ lost_b t = lost_b (ns_stats st) /\
  lost_packets t = lost_packets (ns_stats st) /\ wins_a t = wins_a (ns_stats st) /\
  wins_b t = wins_b (ns_stats st) /\ duplicates_dropped t = duplicates_dropped (ns_stats st).
Proof. intros H. apply bind_Ret in H as (d & Hd & [= <- <-]). cbn. split_and!; done. Qed.

(** The simulated network conserves packets: every packet sent is delivered
    once or counted lost, every delivery is one path's win, and with two
    paths the copies split into lost, delivered and discarded duplicates. *)
Lemma network_conserves n send cfg sched t :
  cfg_ok cfg -> (forall i, 0 <= i < Z.of_nat n -> fits cfg send i) -> Z.of_nat n < 2 ^ 62 ->
  disturb n send cfg = Ret (sched, t) ->
  sent t = Z.of_nat n /\ net_delivered t = Z.of_nat (length sched) /\
  net_delivered t + lost_packets t = sent t /\ wins_a t + wins_b t = net_delivered t /\
  match path_b cfg with
  | Some _ => lost_a t + lost_b t + net_delivered t + duplicates_dropped t = 2 * sent t
  | None => lost_a t = lost_packets t /\ lost_b t = 0 /\ wins_b t = 0 /\ duplicates_dropped t = 0
  end.
Proof.
  intros Hc Hf Hn H.
  destruct (disturb_inv _ _ _ _ _ H) as (-> & _ & -> & -> & -> & -> & -> & -> & -> & ->).
  rewrite send_all_sent, (Permutation_length (sort_by_time_perm _)).
  destruct (send_all_ok cfg send n Hc Hf Hn) as [_ Hb]. unfold net_books in Hb.
  destruct Hb as (_ & _ & _ & _ & _ & _ & Hlost & Hwins & Hb).
  split; [done|]. split; [done|]. split; [lia|]. split; [lia|]. destruct (path_b cfg); [lia|done].
Qed.

(** The schedule the simulated network returns is sorted by arrival time,
    holds no packet twice, and each arrival lies within its path's base
    delay and jitter after the send time. *)
Lemma network_schedule n send cfg sched t :
  cfg_ok cfg -> (forall i, 0 <= i < Z.of_nat n -> fits cfg send i) -> Z.of_nat n < 2 ^ 62 ->
  disturb n send cfg = Ret (sched, t) ->
  Sorted (fun a b => fst a <= fst b) sched /\ NoDup (snd <$> sched) /\
  forall at_ i, (at_, i) ∈ sched ->
    0 <= i < Z.of_nat n /\
    (via send (path_a cfg) i at_ \/ exists p, path_b cfg = Some p /\ via send p i at_).
Proof.
  intros Hc Hf Hn H. destruct (disturb_inv _ _ _ _ _ H) as (-> & _).
  destruct (send_all_ok cfg send n Hc Hf Hn) as [[Hnd Hall] _].
  split; [apply sort_by_time_sorted|]. split.
  - by rewrite sort_by_time_perm.
  - intros at_ i Hi. rewrite sort_by_time_perm in Hi. rewrite Forall_forall in Hall.
    by apply (Hall (at_, i)) in Hi.
Qed.

End Claims.

(** ** What the displacement statistics say about the arrival order *)

(** Every index at most [l] behind the highest one before it, and skipping at
    most [g] packets. *)
Fixpoint displaced_within (l g : Z) (max_seen : option Z) (idxs : list Z) : Prop :=
  match idxs with
  | [] => True
  | i :: idxs =>
      match max_seen with
      | None => i <= g /\ displaced_within l g (Some i) idxs
      | Some m => m - i <= l /\ i - m - 1 <= g /\ displaced_within l g (Some (Z.max m i)) idxs
      end
  end.

Lemma insert_z_perm x l : insert_z x l ≡ₚ x :: l.
Proof.
  induction l as [|y l IH]; [done|]. cbn [insert_z]. case_match; [done|]. rewrite IH. apply Permutation_swap.
Qed.

Lemma sort_z_perm l : sort_z l ≡ₚ l.
Proof. induction l as [|x l IH]; [done|]. cbn. by rewrite insert_z_perm, IH. Qed.

Lemma insert_z_sorted x l : StronglySorted Z.le l -> StronglySorted Z.le (insert_z x l).
Proof.
  induction 1 as [|y l Hl IH Hhd]; cbn [insert_z]; [repeat constructor|].
  destruct (Z.leb_spec x y).
  - constructor; [by constructor|]. constructor; [lia|].
    eapply Forall_impl; [exact Hhd|]. intros z Hz. lia.
  - constructor; [done|]. rewrite insert_z_perm. constructor; [lia|done].
Qed.

Lemma sort_z_sorted l : StronglySorted Z.le (sort_z l).
Proof. induction l as [|x l IH]; [constructor|]. by apply insert_z_sorted. Qed.

Lemma sorted_last_max l m : StronglySorted Z.le l -> last l = Some m -> Forall (fun x => x <= m) l.
Proof.
  induction 1 as [|y l Hl IH Hhd]; [done|]. destruct l as [|z l].
  - intros [= <-]. repeat constructor. lia.
  - intros Hm. specialize (IH Hm). constructor; [|done].
    apply Forall_inv in Hhd as Hyz. apply Forall_inv in IH as Hzm. cbn in Hyz. lia.
Qed.

(** One step of the walk in closed form. *)
Lemma walk_step_spec w i :
  0 <= i ->
  w_max_seen (walk_step w i) = Some (match w_max_seen w with Some m => Z.max m i | None => i end) /\
  w_lateness (walk_step w i) =
    w_lateness w ++ [match w_max_seen w with Some m => Z.max 0 (m - i) | None => 0 end] /\
  w_max_gap w <= w_max_gap (walk_step w i) /\
  (0 <= w_max_gap w ->
   match w_max_seen w with Some m => i - m - 1 | None => i end <= w_max_gap (walk_step w i)).
Proof.
  intros Hi. unfold walk_step. destruct (w_max_seen w) as [m|].
  - destruct (Z.ltb_spec i m), (Z.ltb_spec m i); try lia; try (destruct (Z.ltb_spec 0 (i - m - 1)));
      cbn [w_max_seen w_lateness w_max_gap Z.ltb Z.compare]; (split_and!; [f_equal; lia|do 2 f_equal; lia|lia|lia]).
  - destruct (Z.ltb_spec 0 i); cbn [w_max_seen w_lateness w_max_gap]; (split_and!; [done|done|lia|lia]).
Qed.

Lemma walk_fold_grows idxs w :
  Forall (fun i => 0 <= i) idxs ->
  let w' := fold_left walk_step idxs w in
  w_max_gap w <= w_max_gap w' /\ exists l, w_lateness w' = w_lateness w ++ l.
Proof.
  intros Hpos. revert w; induction idxs as [|i idxs IH]; intros w;
    [cbn; split; [lia|exists []; by rewrite app_nil_r]|]. cbn [fold_left].
  apply Forall_cons in Hpos as [Hi Hpos]. destruct (IH Hpos (walk_step w i)) as (Hg & l & Hl). cbn zeta in *.
  destruct (walk_step_spec w i Hi) as (_ & Hlat & Hgap & _).
  split; [lia|]. rewrite Hl, Hlat, <- app_assoc. by eexists.
Qed.

Lemma walk_within l g idxs w :
  Forall (fun i => 0 <= i) idxs -> 0 <= w_max_gap w ->
  let w' := fold_left walk_step idxs w in
  Forall (fun d => d <= l) (w_lateness w') -> w_max_gap w' <= g ->
  displaced_within l g (w_max_seen w) idxs.
Proof.
  intros Hpos. revert w. induction idxs as [|i idxs IH]; intros w Hw0 w' Hl Hg; [done|].
  apply Forall_cons in Hpos as [Hi Hpos].
  destruct (walk_step_spec w i Hi) as (Hseen & Hlat & Hgap & Hskip). specialize (Hskip Hw0).
  specialize (IH Hpos (walk_step w i) ltac:(lia) Hl Hg). rewrite Hseen in IH.
  destruct (walk_fold_grows idxs (walk_step w i) Hpos) as (Hgrow & rest & Hrest).
  change (fold_left walk_step idxs (walk_step w i)) with w' in *.
  rewrite Hrest, Hlat in Hl. apply Forall_app in Hl as [[_ Hd%Forall_inv]%Forall_app _].
  cbn [displaced_within]. destruct (w_max_seen w) as [m|]; (split_and!; [lia..|done]).
Qed.

Lemma walk_as_fold sched : walk sched = fold_left walk_step (snd <$> sched) (mkWalk [] None 0 0).
Proof.
  unfold walk. generalize (mkWalk [] None 0 0) as w. induction sched as [|x sched IH]; intros w; [done|].
  cbn. apply IH.
Qed.

(** The reported statistics bound every packet's displacement. *)
Lemma measure_displacement_bounds sched d :
  Forall (fun i => 0 <= i) (snd <$> sched) -> measure_displacement sched = Ret d ->
  displaced_within (max_lateness d) (max_gap d) None (snd <$> sched).
Proof.
  intros Hpos H. unfold measure_displacement in H. rewrite walk_as_fold in H.
  set (w := fold_left walk_step (snd <$> sched) (mkWalk [] None 0 0)) in *.
  case_bool_decide as Hemp.
  - destruct sched as [|x sched]; [done|]. exfalso. rewrite fmap_cons in Hpos.
    apply Forall_cons in Hpos as [Hx Hpos].
    destruct (walk_fold_grows (snd <$> sched) (walk_step (mkWalk [] None 0 0) (snd x)) Hpos) as (_ & l & Hl).
    destruct (walk_step_spec (mkWalk [] None 0 0) (snd x) Hx) as (_ & Hlat & _).
    change w with (fold_left walk_step (snd <$> sched) (walk_step (mkWalk [] None 0 0) (snd x))) in Hemp.
    rewrite Hl, Hlat in Hemp. done.
  - apply bind_Ret in H as (mx & Hmx%expect_Ret & H). do 3 (apply bind_Ret in H as (? & _ & H)).
    injection H as <-. cbn [max_lateness max_gap].
    pose proof (sorted_last_max _ _ (sort_z_sorted (w_lateness w)) Hmx) as Hmax.
    rewrite sort_z_perm in Hmax.
    by apply (walk_within mx (w_max_gap w) (snd <$> sched) (mkWalk [] None 0 0)).
Qed.
