(* ===== verification/Simulation.v ===== *)
(** * Simulation: sender, network and receiver together

    The simulated stream through the simulated network into the receiver.
    The displacement the network reports is enough to size the receiver: a
    window above the largest lateness and a cap above the largest gap decrypt
    every delivered packet, at every granularity. *)

From Stdlib Require Import SpecFloat.
From S2P Require Import Prelude Bytes Crypto Rtp IndexRecovery Ratchet Rdbx Session Generation Granularity Receiver ReceiverSpec ReceiverProps EndToEnd StreamModel Network NetworkFacts.

(** ** Generations move no faster than packets *)

Lemma sim_generation_step granularity m i j :
  model_ok m -> granularity_ok granularity -> (i <= j)%nat ->
  0 <= sim_generation granularity m i /\
  sim_generation granularity m i <= sim_generation granularity m j /\
  sim_generation granularity m j - sim_generation granularity m i <= Z.of_nat j - Z.of_nat i /\
  sim_generation granularity m i <= Z.of_nat i.
Proof.
  intros (_ & Hp & _) Hok Hij.
  assert (forall k, 0 < k ->
    0 <= Z.of_nat i / k /\ Z.of_nat i / k <= Z.of_nat j / k /\
    Z.of_nat j / k - Z.of_nat i / k <= Z.of_nat j - Z.of_nat i /\ Z.of_nat i / k <= Z.of_nat i) as Hdiv.
  { intros k Hk. split; [apply Z.div_pos; lia|]. split; [apply Z.div_le_mono; lia|].
    split; [nia|]. apply Z.div_le_upper_bound; nia. }
  destruct granularity as [| | |n]; cbn [sim_generation]; [lia|apply Hdiv; lia|lia|by apply Hdiv].
Qed.

(** ** From displacement to deliverability *)

(** The replay window after packets up to [m], none of [l] among them. *)
Definition replay_at (m : option nat) (rs : Replay.t) (l : list nat) : Prop :=
  Replay.top rs = match m with Some m => Z.of_nat m | None => 0 end /\
  forall i, i ∈ l -> Z.of_nat i ∉ Replay.seen rs.

Lemma replay_at_step mx rs i l :
  replay_at mx rs (i :: l) -> i ∉ l ->
  replay_at (Some (match mx with Some m => Nat.max m i | None => i end)) (Replay.add rs (Z.of_nat i)) l.
Proof.
  intros [Htop Hseen] Hil. split; [cbn; rewrite Htop; destruct mx; lia|].
  intros j Hj. cbn. rewrite elem_of_union, elem_of_singleton.
  intros [Hji|Hin]; [|by apply (Hseen j); [right|]]. apply Nat2Z.inj in Hji as ->. done.
Qed.

Lemma replay_at_check mx rs i l :
  replay_at mx rs (i :: l) -> Replay.top rs - Z.of_nat i < Replay.window rs ->
  Replay.check rs (Z.of_nat i) = None.
Proof.
  intros [_ Hseen] Hw. unfold Replay.check. case_match; [done|].
  destruct (Z.leb_spec (Z.of_nat i) (Replay.top rs - Replay.window rs)); [lia|].
  rewrite bool_decide_eq_false_2; [done|]. apply Hseen. left.
Qed.

(** The generation of the highest packet so far, [-1] before the first. *)
Definition frontier_of (granularity : Granularity) (m : StreamModel) (mx : option nat) : Z :=
  match mx with Some mx => sim_generation granularity m mx | None => -1 end.

(** A packet displaced by at most [late] and [gap] falls inside the window. *)
Lemma frontier_step granularity m mx i late gap k cap :
  model_ok m -> granularity_ok granularity ->
  match mx with
  | Some mx => Z.of_nat mx - Z.of_nat i <= late /\ Z.of_nat i - Z.of_nat mx - 1 <= gap
  | None => Z.of_nat i <= gap
  end ->
  0 <= late < k -> 0 <= gap < cap ->
  let f := frontier_of granularity m mx in
  let g := sim_generation granularity m i in
  f - k < g <= f + cap /\
  Z.max f g = frontier_of granularity m (Some (match mx with Some m => Nat.max m i | None => i end)).
Proof.
  intros Hm Hok Hd Hk Hcap f g. unfold f, g, frontier_of. destruct mx as [mx|].
  - destruct (Nat.le_ge_cases mx i) as [Hle|Hge].
    + rewrite Nat.max_r by done. destruct (sim_generation_step granularity m mx i Hm Hok Hle). lia.
    + rewrite Nat.max_l by done. destruct (sim_generation_step granularity m i mx Hm Hok Hge). lia.
  - destruct (sim_generation_step granularity m i i Hm Hok ltac:(lia)) as (Hg0 & _ & _ & Hgi). lia.
Qed.

Lemma displaced_deliverable granularity m n k cap rs mx l late gap :
  model_ok m -> granularity_ok granularity -> within_clock granularity m n ->
  Forall (fun i => (i < n)%nat) l -> NoDup l ->
  displaced_within late gap (Z.of_nat <$> mx) (Z.of_nat <$> l) ->
  0 <= late < Z.of_nat k -> 0 <= gap < cap -> late < Replay.window rs -> late < 32768 -> gap + 1 < 32768 ->
  replay_at mx rs l ->
  deliverable granularity (stream_tss m n) 0 k cap rs (frontier_of granularity m mx) l = true.
Proof.
  intros Hm Hok Hw. revert rs mx. induction l as [|i l IH];
    intros rs mx Hn Hnd Hd Hlate Hgap Hwin Hl15 Hg15 Hrs; [done|].
  apply Forall_cons in Hn as [Hi Hn]. apply NoDup_cons in Hnd as [Hil Hnd].
  rewrite fmap_cons in Hd. cbn [displaced_within deliverable] in *. rewrite Z.add_0_l.
  rewrite gen_of_stream by done.
  assert (length (stream_tss m n) = n) as Hlen by (unfold stream_tss; by rewrite length_fmap, length_seq).
  set (mx' := match mx with Some m => Nat.max m i | None => i end).
  assert (match mx with
    | Some mx => Z.of_nat mx - Z.of_nat i <= late /\ Z.of_nat i - Z.of_nat mx - 1 <= gap
    | None => Z.of_nat i <= gap end /\
    displaced_within late gap (Z.of_nat <$> Some mx') (Z.of_nat <$> l)) as [Hstep Hd'].
  { unfold mx'. destruct mx as [mx|]; cbn in Hd |- *; rewrite ?Nat2Z.inj_max; [by destruct_and!|done]. }
  destruct (frontier_step granularity m mx i late gap (Z.of_nat k) cap Hm Hok Hstep Hlate Hgap) as [Hfg ->]. fold mx'.
  rewrite (IH (Replay.add rs (Z.of_nat i)) (Some mx') Hn Hnd Hd') by (done || by apply replay_at_step).
  pose proof (proj1 Hrs) as Htop.
  rewrite !andb_true_r, !andb_true_iff, !bool_decide_eq_true, Z.ltb_lt, Z.leb_le, Hlen.
  split_and!; try done; try lia.
  - eapply replay_at_check; [done|]. destruct mx; lia.
  - unfold near. rewrite Htop. apply orb_true_iff. left. apply Z.ltb_lt. destruct mx; lia.
Qed.

(** ** Sender, network, receiver *)

(** The arrival order of a schedule, as packet numbers. *)
Definition arrival_order (sched : list (Z * Z)) : list nat := (fun x => Z.to_nat (snd x)) <$> sched.

Section Main.
Context {CR : Crypto} {CL : CryptoLaws} {R : Type} {RG : Rng R} {RL : RngLaws R}.

Lemma arrival_order_ok n send cfg sched t :
  cfg_ok cfg -> (forall i, 0 <= i < Z.of_nat n -> fits cfg send i) -> Z.of_nat n < 2 ^ 47 ->
  disturb n send cfg = Ret (sched, t) ->
  Forall (fun i => (i < n)%nat) (arrival_order sched) /\ NoDup (arrival_order sched) /\
  displaced_within (max_lateness (displacement t)) (max_gap (displacement t)) None
    (Z.of_nat <$> arrival_order sched) /\
  (length (arrival_order sched) <= n)%nat.
Proof.
  intros Hc Hf Hn H. destruct (disturb_inv _ _ _ _ _ H) as (-> & Hmd & _).
  destruct (send_all_ok cfg send n Hc Hf ltac:(lia)) as [[Hnd Hall] Hb].
  set (l := ns_schedule _) in *. rewrite <- sort_by_time_perm in Hnd, Hall.
  assert (Z.of_nat <$> arrival_order (sort_by_time l) = snd <$> sort_by_time l) as Heq.
  { unfold arrival_order. rewrite <- list_fmap_compose. apply list_fmap_ext. intros j x Hx.
    eapply Forall_lookup_1 in Hall as [Hr _]; [|done]. unfold compose. lia. }
  assert (Forall (fun i => (i < n)%nat) (arrival_order (sort_by_time l))) as Hlt.
  { unfold arrival_order. apply Forall_fmap. eapply Forall_impl; [exact Hall|]. intros x [Hx _]. unfold compose. lia. }
  split; [done|]. split; [|split].
  - apply (NoDup_fmap_1 Z.of_nat). by rewrite Heq.
  - rewrite Heq. apply measure_displacement_bounds; [|done].
    apply Forall_fmap. eapply Forall_impl; [exact Hall|]. intros x [Hx _]. unfold compose. lia.
  - unfold arrival_order. rewrite length_fmap, (Permutation_length (sort_by_time_perm l)).
    unfold net_books in Hb. fold l in Hb. lia.
Qed.

(** C10: The displacement the simulated network measures sizes the receiver:
    with a window above the largest lateness and a seek cap above the
    largest gap, the receiver decrypts every packet of the simulated stream
    the network delivered, in arrival order, under the right generation. *)
Theorem sized_receiver_decrypts_all granularity m n seed cfg sched t k cap window :
  model_ok m -> granularity_ok granularity -> (1 <= n)%nat -> Z.of_nat n < 2 ^ 47 ->
  within_clock granularity m n -> length seed = CHAIN_SECRET_LEN ->
  cfg_ok cfg -> (forall i, 0 <= i < Z.of_nat n -> fits cfg (send_ns m) i) ->
  disturb n (send_ns m) cfg = Ret (sched, t) ->
  0 <= max_lateness (displacement t) -> 0 <= max_gap (displacement t) ->
  max_lateness (displacement t) < Z.of_nat k -> max_gap (displacement t) < cap ->
  64 <= window < 0x8000 -> max_lateness (displacement t) < window -> max_gap (displacement t) + 1 < 32768 ->
  exists (tx0 : SimulatedSender Session) ws tx rx0 rx,
    SimulatedSender_new m granularity (ratchet_at seed 0) = Ret tx0 /\
    produce n tx0 = Ret (zip (Z.of_nat <$> seq 0 n) ws, tx) /\
    ReceiverKeyManager_new (for_granularity granularity START_TS FRAME_PERIOD 0) (sm_ssrc m)
      (ratchet_at seed 0) k cap window = Ret rx0 /\
    recv_all rx0 (delivery ws (arrival_order sched)) =
      Ret ((fun i => (Ok (sim_generation granularity m i), packet_bytes m (Z.of_nat i))) <$>
             arrival_order sched, rx).
Proof.
  intros Hm Hok Hn1 Hn Hw Hs Hc Hf Hnet Hl0 Hg0 Hk Hcap Hwin Hlw Hg15.
  destruct (arrival_order_ok _ _ _ _ _ Hc Hf Hn Hnet) as (Hlt & Hnd & Hd & Hlen).
  assert (0 < Replay.window (replay_init window) /\ window <= Replay.window (replay_init window)) as [_ Hbw].
  { unfold replay_init. destruct (Z.eqb_spec window 0); [lia|]. cbn. unfold bitvector_length. lia. }
  assert (deliverable granularity (stream_tss m n) 0 k cap (replay_init window) (-1) (arrival_order sched) = true) as Hdel.
  { change (-1) with (frontier_of granularity m None).
    eapply displaced_deliverable with (mx := None); try done; try lia. }
  assert (length (stream_bufs m n) = n) as Hbl by (unfold stream_bufs; by rewrite length_fmap, length_seq).
  destruct (new_keyed granularity (sm_ssrc m) seed Hs) as (crypto0 & Htx & _).
  destruct (sender_wires granularity (sm_ssrc m) seed 0 crypto0 (stream_bufs m n) (stream_tss m n))
    as (crypto & Hrun & _);
    [exact Hs|exact Hok|lia|exact Htx|by apply stream_timestamps|intros; by eapply stream_genuine|lia|].
  set (scheme := for_granularity granularity START_TS FRAME_PERIOD 0).
  destruct (new_returns scheme (sm_ssrc m) seed k cap window ltac:(lia) ltac:(lia)) as (rx0 & Hrx).
  destruct (new_inv scheme (sm_ssrc m) seed k cap window rx0 Hs ltac:(lia) ltac:(lia) Hrx) as (Hinv & Hcfg & _ & Hfr & _).
  assert (scheme_ok scheme) as Hsch by (destruct granularity; cbn in *; (done || lia)).
  pose proof (new_linked granularity _ _ _ _ _ _ _ ltac:(right; exact Hwin) Hrx) as Hlink.
  destruct (recv_wires granularity START_TS FRAME_PERIOD 0 seed (sm_ssrc m) (stream_tss m n) (stream_bufs m n)
    k cap (arrival_order sched) 0 (replay_init window) rx0) as (rx & Hrecv); try done; try lia.
  { by apply stream_clocked. }
  { by apply stream_timestamps. }
  { intros i buf. by apply stream_genuine. }
  { unfold rx_top. by rewrite Hfr. }
  set (ws := wires granularity seed 0 (stream_tss m n) (stream_bufs m n)) in *.
  exists (mkSimulatedSender m crypto0 0), ws. do 2 eexists. exists rx.
  split; [unfold SimulatedSender_new; by rewrite Htx|].
  split; [by apply (produce_spec n 0 (mkSimulatedSender m crypto0 0)); try done; cbn; lia|].
  split; [exact Hrx|]. rewrite Hrecv. f_equal. f_equal. clear -Hlt Hm Hok Hw.
  induction Hlt as [|i l Hi _ IH]; [done|]. rewrite fmap_cons, <- IH. unfold delivered.
  cbn [omap list_omap]. assert (stream_bufs m n !! i = Some (packet_bytes m (Z.of_nat i))) as -> by (by apply lookup_stream).
  cbn [fmap option_fmap option_map]. by rewrite gen_of_stream.
Qed.

End Main.

(** ** A concrete run *)

Import Toy.

(** A linear congruential generator as the source of randomness. *)
#[local] Instance lcg : Rng Z := {|
  seed_from_u64 s := s;
  random_f64 r := (f64_mul (f64_of_Z (r mod 1024)) (S754_finite false 4503599627370496 (-62)), u32 (1664525 * r + 1013904223));
  random_range r hi := (Z.max 0 (r / 65536 mod (hi + 1)), u32 (1664525 * r + 1013904223))
|}.

#[local] Instance lcg_laws : RngLaws Z.
Proof. split. intros r hi Hhi. cbn [random_range lcg fst]. pose proof (Z.mod_pos_bound (r / 65536) (hi + 1)). lia. Qed.

Module SimExample.

(** Jitter beyond the packet spacing on path A, a slower path B; one copy in
    four is lost on A. *)
Definition cfg : NetworkConfig :=
  mkNetworkConfig (mkPathConfig 1000 20000 (Independent (S754_finite false 4503599627370496 (-54))))
    (Some (mkPathConfig 4000 9000 (GilbertElliott f64_0_50 f64_0_50))) 12345.

Definition video : StreamModel :=
  match StreamModel_new 1424 7 with Ret m => m | Panic => mkStreamModel 0 0 0 end.

Definition run : list (Z * Z) * NetworkStats :=
  match disturb 12 (send_ns video) cfg with
  | Ret x => x
  | Panic => ([], mkNetworkStats 0 0 0 0 0 0 0 0 DisplacementStats_default)
  end.

Definition sched : list (Z * Z) := run.1.
Definition stats : NetworkStats := run.2.

Lemma run_ok : disturb 12 (send_ns video) cfg = Ret (sched, stats).
Proof. vm_compute. reflexivity. Qed.

Lemma cfg_fits : cfg_ok cfg /\ forall i, 0 <= i < Z.of_nat 12 -> fits cfg (send_ns video) i.
Proof.
  split.
  - split; [split; cbn; lia|]. intros p [= <-]. split; cbn; lia.
  - intros i Hi.
    assert (0 <= send_ns video i < 1000000) as Hs.
    { assert (i ∈ Z.of_nat <$> seq 0 12) as Hin.
      { apply list_elem_of_fmap. exists (Z.to_nat i). split; [lia|]. apply elem_of_seq. lia. }
      assert (forallb (fun i => (0 <=? send_ns video i) && (send_ns video i <? 1000000)) (Z.of_nat <$> seq 0 12) = true) as H
        by (vm_compute; reflexivity).
      rewrite List.forallb_forall in H. specialize (H i (proj1 (list_elem_of_In _ _) Hin)). lia. }
    split; [lia|]. intros p [->|[= <-]]; cbn [path_a path_b cfg base_delay_ns jitter_ns]; lia.
Qed.

Lemma video_ok : model_ok video.
Proof. apply (StreamModel_new_ok 1424 7 video); [lia|width|vm_compute; reflexivity]. Qed.

End SimExample.

Lemma network_conserves_witness :
  let t := SimExample.stats in
  sent t = 12 /\ net_delivered t = Z.of_nat (length SimExample.sched) /\
  net_delivered t + lost_packets t = sent t /\ wins_a t + wins_b t = net_delivered t /\
  lost_a t + lost_b t + net_delivered t + duplicates_dropped t = 2 * sent t.
Proof.
  apply (network_conserves 12 (send_ns SimExample.video) SimExample.cfg SimExample.sched SimExample.stats);
    [exact (proj1 SimExample.cfg_fits)|exact (proj2 SimExample.cfg_fits)|reflexivity|exact SimExample.run_ok].
Defined.

Lemma network_schedule_witness :
  Sorted.Sorted (fun a b => fst a <= fst b) SimExample.sched /\ NoDup (snd <$> SimExample.sched) /\
  forall at_ i, (at_, i) ∈ SimExample.sched ->
    0 <= i < Z.of_nat 12 /\
    (via (send_ns SimExample.video) (path_a SimExample.cfg) i at_ \/
     exists p, path_b SimExample.cfg = Some p /\ via (send_ns SimExample.video) p i at_).
Proof.
  apply (network_schedule 12 (send_ns SimExample.video) SimExample.cfg SimExample.sched SimExample.stats);
    [exact (proj1 SimExample.cfg_fits)|exact (proj2 SimExample.cfg_fits)|reflexivity|exact SimExample.run_ok].
Defined.

Lemma sized_receiver_decrypts_all_witness :
  exists (tx0 : SimulatedSender Session) ws tx rx0 rx,
    SimulatedSender_new SimExample.video Packet (ratchet_at (replicate 32 1) 0) = Ret tx0 /\
    produce 12 tx0 = Ret (zip (Z.of_nat <$> seq 0 12) ws, tx) /\
    ReceiverKeyManager_new (for_granularity Packet START_TS FRAME_PERIOD 0) (sm_ssrc SimExample.video)
      (ratchet_at (replicate 32 1) 0) 12 12 64 = Ret rx0 /\
    recv_all rx0 (delivery ws (arrival_order SimExample.sched)) =
      Ret ((fun i => (Ok (sim_generation Packet SimExample.video i), packet_bytes SimExample.video (Z.of_nat i))) <$>
             arrival_order SimExample.sched, rx).
Proof.
  apply (sized_receiver_decrypts_all Packet SimExample.video 12 (replicate 32 1) SimExample.cfg
    SimExample.sched SimExample.stats 12 12 64);
    [exact SimExample.video_ok|exact I|lia|cbn; lia|exact I|reflexivity|exact (proj1 SimExample.cfg_fits)
    |exact (proj2 SimExample.cfg_fits)|exact SimExample.run_ok|..].
  all: vm_compute; try split; congruence.
Defined.
