(* ===== verification/Utf8.v ===== *)
(** * Utf8: decoding identities

    [String::from_utf8_lossy] of Rust's standard library, which the client
    applies to every identity it reads from the delivery service and from the
    group tree (src/demo/safecast-client/src/main.rs).  A string is its UTF-8
    bytes.  Each maximal prefix of a character that does not continue is
    replaced by one U+FFFD; decoding resumes at the byte that broke it. *)

From S2P Require Import Prelude Bytes.

(** U+FFFD. *)
Definition REPLACEMENT : bytes := [0xEF; 0xBF; 0xBD].

Definition in_range (lo hi b : Z) : bool := (lo <=? b) && (b <=? hi).

(** A continuation byte. *)
Definition cont (b : Z) : bool := in_range 0x80 0xBF b.

(** What a first byte announces: how many bytes follow, and the range of the
    second one. *)
Inductive Lead :=
| One
| Two
| Three (lo hi : Z)
| Four (lo hi : Z)
| Bad.

Definition lead (b : Z) : Lead :=
  if b <? 0x80 then One
  else if in_range 0xC2 0xDF b then Two
  else if b =? 0xE0 then Three 0xA0 0xBF
  else if in_range 0xE1 0xEC b then Three 0x80 0xBF
  else if b =? 0xED then Three 0x80 0x9F
  else if in_range 0xEE 0xEF b then Three 0x80 0xBF
  else if b =? 0xF0 then Four 0x90 0xBF
  else if in_range 0xF1 0xF3 b then Four 0x80 0xBF
  else if b =? 0xF4 then Four 0x80 0x8F
  else Bad.

Fixpoint from_utf8_lossy (s : bytes) : bytes :=
  match s with
  | [] => []
  | a :: s =>
      match lead a with
      | One => a :: from_utf8_lossy s
      | Bad => REPLACEMENT ++ from_utf8_lossy s
      | Two =>
          match s with
          | b :: t => if cont b then a :: b :: from_utf8_lossy t else REPLACEMENT ++ from_utf8_lossy s
          | [] => REPLACEMENT
          end
      | Three lo hi =>
          match s with
          | b :: t =>
              if in_range lo hi b then
                match t with
                | c :: u => if cont c then a :: b :: c :: from_utf8_lossy u else REPLACEMENT ++ from_utf8_lossy t
                | [] => REPLACEMENT
                end
              else REPLACEMENT ++ from_utf8_lossy s
          | [] => REPLACEMENT
          end
      | Four lo hi =>
          match s with
          | b :: t =>
              if in_range lo hi b then
                match t with
                | c :: u =>
                    if cont c then
                      match u with
                      | d :: v =>
                          if cont d then a :: b :: c :: d :: from_utf8_lossy v
                          else REPLACEMENT ++ from_utf8_lossy u
                      | [] => REPLACEMENT
                      end
                    else REPLACEMENT ++ from_utf8_lossy t
                | [] => REPLACEMENT
                end
              else REPLACEMENT ++ from_utf8_lossy s
          | [] => REPLACEMENT
          end
      end
  end.

(** ** Well-formed strings *)

(** A well-formed string is a sequence of characters. *)
Inductive utf8_char : bytes -> Prop :=
| char1 a : lead a = One -> utf8_char [a]
| char2 a b : lead a = Two -> cont b = true -> utf8_char [a; b]
| char3 a b c lo hi : lead a = Three lo hi -> in_range lo hi b = true -> cont c = true -> utf8_char [a; b; c]
| char4 a b c d lo hi :
    lead a = Four lo hi -> in_range lo hi b = true -> cont c = true -> cont d = true -> utf8_char [a; b; c; d].

Inductive utf8 : bytes -> Prop :=
| utf8_nil : utf8 []
| utf8_app x s : utf8_char x -> utf8 s -> utf8 (x ++ s).

#[export] Hint Constructors utf8_char utf8 : rust.

Lemma utf8_cons1 a s : lead a = One -> utf8 s -> utf8 (a :: s).
Proof. intros Ha Hs. apply (utf8_app [a]); eauto with rust. Qed.

Lemma replacement_char : utf8_char REPLACEMENT.
Proof. by apply (char3 _ _ _ 0x80 0xBF). Qed.

#[local] Hint Resolve replacement_char : rust.

(** The shape of the decoder: it writes one character, its own input or the
    replacement, and goes on with a shorter rest. *)
Lemma lossy_cons a s :
  exists x y rest, a :: s = y ++ rest /\ y <> [] /\ utf8_char x /\ (x = y \/ x = REPLACEMENT) /\
    from_utf8_lossy (a :: s) = x ++ from_utf8_lossy rest.
Proof.
  assert (forall y rest, a :: s = y ++ rest -> y <> [] ->
    from_utf8_lossy (a :: s) = REPLACEMENT ++ from_utf8_lossy rest ->
    exists x y rest, a :: s = y ++ rest /\ y <> [] /\ utf8_char x /\ (x = y \/ x = REPLACEMENT) /\
      from_utf8_lossy (a :: s) = x ++ from_utf8_lossy rest) as Hbad.
  { intros y rest Hy Hn Heq. exists REPLACEMENT, y, rest. split_and!; auto with rust. }
  assert (forall y rest, a :: s = y ++ rest -> utf8_char y ->
    from_utf8_lossy (a :: s) = y ++ from_utf8_lossy rest ->
    exists x y rest, a :: s = y ++ rest /\ y <> [] /\ utf8_char x /\ (x = y \/ x = REPLACEMENT) /\
      from_utf8_lossy (a :: s) = x ++ from_utf8_lossy rest) as Hgood.
  { intros y rest Hy Hc Heq. exists y, y, rest. split_and!; auto. by destruct Hc. }
  destruct (lead a) as [| |lo hi|lo hi|] eqn:Ha.
  - apply (Hgood [a] s); [done|by constructor|]. cbn. by rewrite Ha.
  - destruct s as [|b t]; [apply (Hbad [a] []); [done..|]; cbn; by rewrite Ha|].
    destruct (cont b) eqn:Hb; [apply (Hgood [a; b] t)|apply (Hbad [a] (b :: t))];
      try done; [by constructor|cbn; by rewrite Ha, Hb..].
  - destruct s as [|b t]; [apply (Hbad [a] []); [done..|]; cbn; by rewrite Ha|].
    destruct (in_range lo hi b) eqn:Hb; [|apply (Hbad [a] (b :: t)); [done..|]; cbn; by rewrite Ha, Hb].
    destruct t as [|c u]; [apply (Hbad [a; b] []); [done..|]; cbn; by rewrite Ha, Hb|].
    destruct (cont c) eqn:Hc; [apply (Hgood [a; b; c] u)|apply (Hbad [a; b] (c :: u))];
      try done; [by eapply char3|cbn; by rewrite Ha, Hb, Hc..].
  - destruct s as [|b t]; [apply (Hbad [a] []); [done..|]; cbn; by rewrite Ha|].
    destruct (in_range lo hi b) eqn:Hb; [|apply (Hbad [a] (b :: t)); [done..|]; cbn; by rewrite Ha, Hb].
    destruct t as [|c u]; [apply (Hbad [a; b] []); [done..|]; cbn; by rewrite Ha, Hb|].
    destruct (cont c) eqn:Hc; [|apply (Hbad [a; b] (c :: u)); [done..|]; cbn; by rewrite Ha, Hb, Hc].
    destruct u as [|d v]; [apply (Hbad [a; b; c] []); [done..|]; cbn; by rewrite Ha, Hb, Hc|].
    destruct (cont d) eqn:Hd; [apply (Hgood [a; b; c; d] v)|apply (Hbad [a; b; c] (d :: v))];
      try done; [by eapply char4|cbn; by rewrite Ha, Hb, Hc, Hd..].
  - apply (Hbad [a] s); [done..|]. cbn. by rewrite Ha.
Qed.

Lemma lossy_utf8 s : utf8 (from_utf8_lossy s).
Proof.
  induction s as [s IH] using (induction_ltof1 _ (@length Z)). unfold ltof in IH.
  destruct s as [|a s]; [constructor|].
  destruct (lossy_cons a s) as (x & y & rest & Hy & Hn & Hx & _ & ->). constructor; [done|].
  apply IH. rewrite Hy, length_app. destruct y; [done|cbn; lia].
Qed.

Lemma lossy_char x s : utf8_char x -> from_utf8_lossy (x ++ s) = x ++ from_utf8_lossy s.
Proof.
  intros []; cbn [app from_utf8_lossy];
    repeat match goal with H : _ = _ |- _ => rewrite H; clear H end; reflexivity.
Qed.

(** Decoding changes nothing of a well-formed string. *)
Lemma lossy_id s : utf8 s -> from_utf8_lossy s = s.
Proof. induction 1 as [|x s Hx Hs IH]; [done|]. by rewrite lossy_char, IH. Qed.

Lemma lossy_id_iff s : from_utf8_lossy s = s <-> utf8 s.
Proof. split; [intros <-; apply lossy_utf8|apply lossy_id]. Qed.

Lemma ascii_utf8 s : Forall (fun b => 0 <= b < 128) s -> utf8 s.
Proof.
  induction 1 as [|b s Hb Hs IH]; [constructor|]. apply utf8_cons1; [|done].
  unfold lead. by destruct (Z.ltb_spec b 128); [|lia].
Qed.

(** "é", a lone continuation byte, a cut three-byte character, "z". *)
Example lossy_example :
  from_utf8_lossy [0xC3; 0xA9; 0x80; 0xE2; 0x82; 0x7A] = [0xC3; 0xA9] ++ REPLACEMENT ++ REPLACEMENT ++ [0x7A].
Proof. reflexivity. Qed.
