(* ===== verification/AuthService.v ===== *)
(** * AuthService: the authentication service (src/demo/auth-service/src/main.rs)

    A credential registry behind two HTTP handlers, [register] and [lookup].
    The registry is a [HashMap] inside a [Mutex]; each handler takes the lock
    first and holds it until it returns, so concurrent requests are a
    sequence.  A handler that panics while it holds the lock poisons it, and
    [lock().unwrap()] panics from then on.  Strings are their UTF-8 bytes. *)

From Stdlib Require Import String.
From S2P Require Import Prelude Bytes.

(** ** Data *)

(** [Mutex<HashMap<String, String>>]: the map, and whether the lock is
    poisoned. *)
Record AsData := mkAsData {
  credentials : gmap bytes bytes;
  poisoned : bool
}.

Definition AsData_default : AsData := mkAsData ∅ false.

Record RegisterRequest := mkRegisterRequest {
  rr_identity : bytes;
  rr_public_key : bytes
}.

Record LookupResponse := mkLookupResponse {
  lr_identity : bytes;
  lr_public_key : bytes
}.

Inductive HttpResponse :=
| HttpOk
| HttpOkJson (r : LookupResponse)
| HttpConflict (body : string)
| HttpNotFound (body : string).

#[export] Instance LookupResponse_eq_dec : EqDecision LookupResponse.
Proof. solve_decision. Defined.
#[export] Instance HttpResponse_eq_dec : EqDecision HttpResponse.
Proof. solve_decision. Defined.

(** ** String slices *)

(** [str::is_char_boundary]: the ends, and every byte that does not continue
    a character. *)
Definition is_char_boundary (s : bytes) (i : nat) : bool :=
  bool_decide (i = 0%nat) || bool_decide (i = length s) ||
  match s !! i with Some b => negb (Z.land b 0xC0 =? 0x80) | None => false end.

(** [&s[..i]]. *)
Definition str_prefix (s : bytes) (i : nat) : outcome bytes :=
  if is_char_boundary s i then Ret (take i s) else Panic.

(** ** Handlers *)

(** A handler's answer, [Panic] if it panicked, and the state it leaves. *)
Definition register (data : AsData) (body : RegisterRequest) : outcome HttpResponse * AsData :=
  if poisoned data then (Panic, data)
  else
    let creds := credentials data in
    match creds !! rr_identity body with
    | Some _ => (Ret (HttpConflict "identity already registered"), data)
    | None =>
        (* the key prefix of the log line, formatted with the lock held *)
        match str_prefix (rr_public_key body) (Nat.min 16 (length (rr_public_key body))) with
        | Panic => (Panic, mkAsData creds true)
        | Ret _ => (Ret HttpOk, mkAsData (<[rr_identity body := rr_public_key body]> creds) false)
        end
    end.

Definition lookup_identity (data : AsData) (identity : bytes) : outcome HttpResponse * AsData :=
  if poisoned data then (Panic, data)
  else
    match credentials data !! identity with
    | Some public_key => (Ret (HttpOkJson (mkLookupResponse identity public_key)), data)
    | None => (Ret (HttpNotFound "identity not found"), data)
    end.

(** The routes of [main]. *)
Inductive Request :=
| PostRegister (body : RegisterRequest)
| GetLookup (identity : bytes).

Definition route (data : AsData) (req : Request) : outcome HttpResponse * AsData :=
  match req with
  | PostRegister body => register data body
  | GetLookup identity => lookup_identity data identity
  end.

(** The service on a sequence of requests. *)
Fixpoint serve (data : AsData) (reqs : list Request) : list (outcome HttpResponse) * AsData :=
  match reqs with
  | [] => ([], data)
  | req :: reqs =>
      let '(r, data) := route data req in
      let '(rs, data) := serve data reqs in
      (r :: rs, data)
  end.

(** ** What the registry promises *)

(** The specification: the key of the first request that registered [id]. *)
Fixpoint first_key (id : bytes) (reqs : list Request) : option bytes :=
  match reqs with
  | [] => None
  | PostRegister body :: reqs =>
      if bool_decide (rr_identity body = id) then Some (rr_public_key body) else first_key id reqs
  | GetLookup _ :: reqs => first_key id reqs
  end.

(** A request whose key can be logged: base64 text always can. *)
Definition loggable (req : Request) : Prop :=
  match req with
  | PostRegister body =>
      is_char_boundary (rr_public_key body) (Nat.min 16 (length (rr_public_key body))) = true
  | GetLookup _ => True
  end.

Definition ascii_bytes (s : bytes) : Prop := Forall (fun b => 0 <= b < 128) s.

Lemma ascii_boundary s i : ascii_bytes s -> (i <= length s)%nat -> is_char_boundary s i = true.
Proof.
  intros Hs Hi. unfold is_char_boundary. rewrite !orb_true_iff.
  destruct (decide (i = length s)) as [->|Hne].
  { left. right. by apply bool_decide_eq_true_2. }
  right. destruct (lookup_lt_is_Some_2 s i ltac:(lia)) as [b Hb]. rewrite Hb.
  pose proof (Forall_lookup_1 _ _ _ _ Hs Hb) as Hr. cbn beta in Hr.
  rewrite negb_true_iff, Z.eqb_neq. intros Heq.
  assert (Z.testbit (Z.land b 0xC0) 7 = true) as Ht by (rewrite Heq; reflexivity).
  rewrite Z.land_spec in Ht. apply andb_true_iff in Ht as [Ht _].
  rewrite (Z.bits_above_log2 b 7) in Ht; [done|lia|].
  destruct (decide (b = 0)) as [->|]; [reflexivity|]. apply Z.log2_lt_pow2; lia.
Qed.

Lemma ascii_loggable id k :
  ascii_bytes k -> loggable (PostRegister (mkRegisterRequest id k)).
Proof. intros Hk. apply ascii_boundary; [done|apply Nat.le_min_r]. Qed.

Lemma serve_app data l l' :
  serve data (l ++ l') =
    let '(rs, data) := serve data l in
    let '(rs', data) := serve data l' in (rs ++ rs', data).
Proof.
  revert data. induction l as [|req l IH]; intros data; cbn.
  - by destruct (serve data l').
  - destruct (route data req) as [r d]. rewrite IH. destruct (serve d l) as [rs d2].
    by destruct (serve d2 l').
Qed.

Lemma poisoned_forever data l :
  poisoned data = true -> serve data l = (replicate (length l) Panic, data).
Proof.
  intros Hp. induction l as [|req l IH]; cbn; [done|].
  assert (route data req = (Panic, data)) as ->.
  { unfold route, register, lookup_identity. rewrite Hp. by destruct req. }
  by rewrite IH.
Qed.

(** The registry after [l]: poisoned, or the first keys of [l] next to what
    was there before. *)
Lemma serve_registry data l rs data' :
  serve data l = (rs, data') -> Forall loggable l -> poisoned data = false ->
  poisoned data' = false /\
  (forall id, credentials data' !! id =
     match credentials data !! id with Some k => Some k | None => first_key id l end) /\
  Forall (fun r => r <> Panic) rs.
Proof.
  revert data rs data'. induction l as [|req l IH]; intros data rs data' Hrun Hl Hp.
  { cbn in Hrun. injection Hrun as <- <-. repeat split; [done| |done]. intros id. by destruct (_ !! id). }
  cbn in Hrun. apply Forall_cons in Hl as [Hreq Hl].
  destruct (route data req) as [r d] eqn:Hr. destruct (serve d l) as [rs' d'] eqn:Hs.
  injection Hrun as <- <-.
  assert (poisoned d = false /\ r <> Panic /\
    forall id, credentials d !! id =
      match credentials data !! id with Some k => Some k | None => first_key id [req] end) as (Hpd & Hrp & Hd).
  { unfold route, register, lookup_identity, str_prefix in Hr. rewrite Hp in Hr.
    destruct req as [[i k]|i]; cbn in Hr, Hreq |- *.
    - destruct (credentials data !! i) as [k0|] eqn:Hi.
      + injection Hr as <- <-. repeat split; [done|done|]. intros id.
        destruct (credentials data !! id) eqn:Hid; [done|]. case_bool_decide; congruence.
      + rewrite Hreq in Hr. injection Hr as <- <-. repeat split; [done..|]. intros id. cbn.
        destruct (decide (i = id)) as [->|Hne].
        * rewrite lookup_insert_eq, Hi, bool_decide_eq_true_2 by done. done.
        * rewrite lookup_insert_ne, bool_decide_eq_false_2 by done. by destruct (_ !! id).
    - assert (d = data) as ->. { destruct (credentials data !! i); by injection Hr. }
      repeat split; [done| |].
      + destruct (credentials data !! i); injection Hr as <-; done.
      + intros id. by destruct (_ !! id). }
  destruct (IH d rs' d' Hs Hl Hpd) as (Hp' & Hc & Hrs).
  split; [done|]. split; [|by constructor]. intros id. rewrite Hc, Hd.
  destruct (credentials data !! id); [done|]. destruct req as [[i k]|i]; cbn; [|done].
  by case_bool_decide.
Qed.

(** After any sequence of requests with loggable keys, a lookup returns the
    key of the first registration of the identity (or not found), and a
    registration succeeds exactly if the identity is new. *)
Lemma first_registration_wins l req rs :
  Forall loggable l -> loggable req ->
  fst (serve AsData_default (l ++ [req])) = rs ->
  last rs = Some (match req with
    | GetLookup id => Ret (match first_key id l with
        | Some k => HttpOkJson (mkLookupResponse id k)
        | None => HttpNotFound "identity not found" end)
    | PostRegister body => Ret (match first_key (rr_identity body) l with
        | Some _ => HttpConflict "identity already registered"
        | None => HttpOk end)
    end).
Proof.
  intros Hl Hreq <-. rewrite serve_app.
  destruct (serve AsData_default l) as [rs data] eqn:Hs.
  destruct (serve_registry _ _ _ _ Hs Hl eq_refl) as (Hp & Hc & _). cbn in Hc.
  cbn. destruct (route data req) as [r d] eqn:Hr. cbn. rewrite last_snoc. f_equal.
  unfold route, register, lookup_identity, str_prefix in Hr. rewrite Hp in Hr.
  destruct req as [[i k]|i]; cbn in Hr, Hreq |- *; rewrite Hc, lookup_empty in Hr.
  - rewrite Hreq in Hr. by destruct (first_key i l); injection Hr as <- <-.
  - by destruct (first_key i l); injection Hr as <- <-.
Qed.

(** C34: One registration of a new identity whose key has a multi-byte character
    across byte 16 panics inside the handler with the lock held, after which
    every request to the service fails for good. *)
Theorem register_poisons_service data body l :
  poisoned data = false -> credentials data !! rr_identity body = None ->
  is_char_boundary (rr_public_key body) (Nat.min 16 (length (rr_public_key body))) = false ->
  fst (serve data (PostRegister body :: l)) = replicate (Datatypes.S (length l)) Panic.
Proof.
  intros Hp Hn Hb. cbn. unfold register, str_prefix. rewrite Hp, Hn, Hb.
  by rewrite poisoned_forever.
Qed.

(** ** Instances *)

Module AsExample.

Definition alice : bytes := [97; 58; 115].
Definition alice_key : bytes := replicate 44 65.
Definition mallory_key : bytes := replicate 44 66.
(** Fifteen letters, then a two-byte character: valid UTF-8, 17 bytes. *)
Definition odd_key : bytes := replicate 15 65 ++ [0xC3; 0xA9].

End AsExample.
Import AsExample.

Lemma first_registration_wins_witness :
  last (fst (serve AsData_default
    ([PostRegister (mkRegisterRequest alice alice_key); PostRegister (mkRegisterRequest alice mallory_key)]
     ++ [GetLookup alice]))) = Some (Ret (HttpOkJson (mkLookupResponse alice alice_key))).
Proof.
  apply (first_registration_wins
    [PostRegister (mkRegisterRequest alice alice_key); PostRegister (mkRegisterRequest alice mallory_key)]
    (GetLookup alice) _); [|exact I|reflexivity].
  repeat constructor; apply ascii_loggable; by apply Forall_replicate.
Defined.

Lemma register_poisons_service_witness :
  fst (serve AsData_default
    [PostRegister (mkRegisterRequest alice odd_key); GetLookup alice]) = [Panic; Panic].
Proof.
  apply (register_poisons_service AsData_default (mkRegisterRequest alice odd_key) [GetLookup alice]);
    reflexivity.
Defined.
