(* ===== verification/Identity.v ===== *)
(** * Identity: credential identities and the SSRC derived from them

    Models [ssrc_from_identity] and [parse_credential_identity]
    (src/src/keying/mls.rs) and the client's [Mode] and [generate_identity]
    (src/demo/safecast-client/src/main.rs).  [DefaultHasher] of Rust's
    standard library is SipHash with one compression and three finalization
    rounds and a zero key; hashing a [str] feeds its bytes and one byte 0xff. *)

From Stdlib Require Import String.
From stdpp Require Import pretty.
From S2P Require Import Prelude Bytes.

(** ** SipHash *)

Module Siphash.

Record t := mk { v0 : Z; v1 : Z; v2 : Z; v3 : Z }.

Definition rotl (x : Z) (n : Z) : Z := Z.lor (u64 (Z.shiftl x n)) (Z.shiftr x (64 - n)).

Definition round (s : t) : t :=
  let a := u64 (v0 s + v1 s) in
  let b := Z.lxor (rotl (v1 s) 13) a in
  let a := rotl a 32 in
  let c := u64 (v2 s + v3 s) in
  let d := Z.lxor (rotl (v3 s) 16) c in
  let a := u64 (a + d) in
  let d := Z.lxor (rotl d 21) a in
  let c := u64 (c + b) in
  let b := Z.lxor (rotl b 17) c in
  let c := rotl c 32 in
  mk a b c d.

Definition start (k0 k1 : Z) : t :=
  mk (Z.lxor k0 0x736f6d6570736575) (Z.lxor k1 0x646f72616e646f6d)
     (Z.lxor k0 0x6c7967656e657261) (Z.lxor k1 0x7465646279746573).

(** One 64-bit word. *)
Definition compress (c : nat) (s : t) (m : Z) : t :=
  let s := mk (v0 s) (v1 s) (v2 s) (Z.lxor (v3 s) m) in
  let s := Nat.iter c round s in
  mk (Z.lxor (v0 s) m) (v1 s) (v2 s) (v3 s).

(** The full words, then the tail with the length in its top byte. *)
Fixpoint absorb (fuel c : nat) (len : Z) (s : t) (data : bytes) : t :=
  match fuel with
  | O => s
  | S fuel =>
      if bool_decide (8 <= length data)%nat
      then absorb fuel c len (compress c s (from_le_bytes (take 8 data))) (drop 8 data)
      else compress c s (Z.lor (Z.shiftl (len mod 256) 56) (from_le_bytes data))
  end.

Definition finish (d : nat) (s : t) : Z :=
  let s := mk (v0 s) (v1 s) (Z.lxor (v2 s) 0xff) (v3 s) in
  let s := Nat.iter d round s in
  Z.lxor (Z.lxor (v0 s) (v1 s)) (Z.lxor (v2 s) (v3 s)).

Definition hash (c d : nat) (k0 k1 : Z) (data : bytes) : Z :=
  finish d (absorb (S (length data / 8)) c (Z.of_nat (length data)) (start k0 k1) data).

End Siphash.

(** The published test vector of SipHash-2-4: key 00 .. 0f, message 00 .. 0e. *)
Example siphash_2_4_vector :
  Siphash.hash 2 4 0x0706050403020100 0x0f0e0d0c0b0a0908 (Z.of_nat <$> seq 0 15) = 0xa129ca6149be45e5.
Proof. vm_compute. reflexivity. Qed.

(** [identity.hash(&mut DefaultHasher::new()); hasher.finish() as u32]. *)
Definition ssrc_from_identity (identity : bytes) : Z :=
  u32 (Siphash.hash 1 3 0 0 (identity ++ [0xff])).

Lemma ssrc_from_identity_range identity : in_u32 (ssrc_from_identity identity).
Proof. apply u32_range. Qed.

(** ** label:role *)

(** [str::rsplit_once(':')]: around the last colon. *)
Fixpoint rsplit_once (s : bytes) : option (bytes * bytes) :=
  match s with
  | [] => None
  | b :: s =>
      match rsplit_once s with
      | Some (l, r) => Some (b :: l, r)
      | None => if b =? 58 then Some ([], s) else None
      end
  end.

Definition parse_credential_identity (identity : bytes) : outcome (bytes * bytes) :=
  expect (rsplit_once identity).

Inductive Mode := Creator | Sender | Receiver.

Definition role_of (mode : Mode) : bytes :=
  match mode with
  | Creator => str_bytes "creator"
  | Sender => str_bytes "sender"
  | Receiver => str_bytes "receiver"
  end.

(** [format!("{role}-{pid}:{role}")], the process id, a [u32], in decimal. *)
Definition generate_identity (mode : Mode) (pid : Z) : bytes :=
  role_of mode ++ str_bytes "-" ++ str_bytes (pretty (Z.to_N (u32 pid))) ++ str_bytes ":" ++ role_of mode.

Lemma rsplit_once_last l r :
  Forall (fun b => b <> 58) r -> rsplit_once (l ++ 58 :: r) = Some (l, r).
Proof.
  intros Hr. induction l as [|b l IH]; cbn.
  - assert (rsplit_once r = None) as ->; [|done].
    induction Hr as [|b r Hb Hr IH]; cbn; [done|]. rewrite IH.
    by destruct (Z.eqb_spec b 58).
  - by rewrite IH.
Qed.

(** A parse joins back to the identity, and the role holds no colon. *)
Lemma rsplit_once_join s l r :
  rsplit_once s = Some (l, r) -> s = l ++ 58 :: r /\ Forall (fun b => b <> 58) r.
Proof.
  revert l. induction s as [|b s IH]; intros l; cbn; [done|].
  destruct (rsplit_once s) as [[l' r']|] eqn:Hs.
  - intros [= <- <-]. destruct (IH l' eq_refl) as [-> Hr]. done.
  - destruct (Z.eqb_spec b 58); [|done]. intros [= <- <-]. subst. split; [done|].
    clear IH. induction s as [|c s IH]; [constructor|]. cbn in Hs.
    destruct (rsplit_once s) as [[]|]; [done|]. destruct (Z.eqb_spec c 58); [done|]. constructor; auto.
Qed.

(** The client's own identities parse into a label and their role. *)
Lemma generated_identity_parses mode pid :
  exists label, parse_credential_identity (generate_identity mode pid) = Ret (label, role_of mode) /\
    generate_identity mode pid = label ++ 58 :: role_of mode.
Proof.
  exists (role_of mode ++ str_bytes "-" ++ str_bytes (pretty (Z.to_N (u32 pid)))).
  unfold parse_credential_identity, generate_identity. change (str_bytes ":") with [58].
  rewrite !(assoc_L (++)). rewrite <- (assoc_L (++) _ [58]). cbn [app].
  rewrite rsplit_once_last; [done|]. by destruct mode; repeat constructor.
Qed.

(** ** Path segments *)

(** The unreserved characters of RFC 3986 and the colon. *)
Definition segment_char (b : Z) : bool :=
  (97 <=? b) && (b <=? 122) || (65 <=? b) && (b <=? 90) || (48 <=? b) && (b <=? 57) ||
  (b =? 45) || (b =? 46) || (b =? 95) || (b =? 126) || (b =? 58).

(** A segment that stands for itself in a URL: no character that is escaped or
    delimits, not empty, not a dot segment, and of moderate length. *)
Definition path_safe (s : bytes) : Prop :=
  forallb segment_char s = true /\ s ≠ [] /\ s ≠ [46] /\ s ≠ [46; 46] /\ (length s <= 2000)%nat.

#[export] Instance path_safe_dec s : Decision (path_safe s).
Proof. unfold path_safe. apply _. Defined.

(** A decimal number: digits, and as many as it needs. *)
Lemma pretty_N_go_digits k : forall (x : N) s,
  (x < 10 ^ N.of_nat k)%N ->
  exists ds, str_bytes (pretty_N_go x s) = ds ++ str_bytes s /\ Forall (fun b => 48 <= b <= 57) ds /\ (length ds <= k)%nat.
Proof.
  induction k as [|k IH]; intros x s Hx.
  - change (10 ^ N.of_nat 0)%N with 1%N in Hx. assert (x = 0%N) as -> by lia. rewrite pretty_N_go_0. by exists [].
  - destruct (decide (0 < x)%N) as [Hpos|Hpos]; [|assert (x = 0%N) as -> by lia; rewrite pretty_N_go_0; exists []; split_and!; [done|done|cbn; lia]].
    rewrite pretty_N_go_step by done.
    destruct (IH (x `div` 10)%N (String (pretty_N_char (x `mod` 10)) s)) as (ds & -> & Hds & Hl).
    { apply N.Div0.div_lt_upper_bound. rewrite Nat2N.inj_succ, N.pow_succ_r' in Hx. exact Hx. }
    cbn [str_bytes]. eexists (ds ++ [_]). rewrite <- (assoc_L (++)). split; [reflexivity|]. split.
    + apply Forall_app. split; [done|]. constructor; [|constructor]. unfold pretty_N_char. repeat case_match; cbn; lia.
    + rewrite length_app. cbn. lia.
Qed.

Lemma pretty_N_digits (n : N) k :
  (n < 10 ^ N.of_nat (Datatypes.S k))%N ->
  Forall (fun b => 48 <= b <= 57) (str_bytes (pretty n)) /\ (length (str_bytes (pretty n)) <= Datatypes.S k)%nat.
Proof.
  intros Hn. unfold pretty, pretty_N. destruct (decide (n = 0%N)) as [|Hne].
  { cbn. split; [constructor; [lia|constructor]|lia]. }
  destruct (pretty_N_go_digits (Datatypes.S k) n "" Hn) as (ds & -> & Hds & Hl). cbn [str_bytes]. by rewrite app_nil_r.
Qed.

(** A generated identity stands for itself in a URL. *)
Lemma generate_identity_safe mode pid : path_safe (generate_identity mode pid).
Proof.
  assert (Z.to_N (u32 pid) < 10 ^ N.of_nat 10)%N as Hp by (pose proof (u32_range pid); change (10 ^ N.of_nat 10)%N with 10000000000%N; width).
  destruct (pretty_N_digits _ 9 Hp) as [Hd Hl]. unfold generate_identity.
  set (ds := str_bytes (pretty _)) in *. assert (forallb segment_char ds = true) as Hs.
  { apply List.forallb_forall. intros b Hb%list_elem_of_In. rewrite Forall_forall in Hd. specialize (Hd b Hb).
    unfold segment_char. rewrite !orb_true_iff, !andb_true_iff, !Z.leb_le. lia. }
  unfold path_safe. rewrite !forallb_app, Hs, !length_app.
  destruct mode; split_and!; try done; cbn [role_of str_bytes length app]; try lia.
Qed.

(** Generated identities are ASCII. *)
Lemma segment_char_ascii b : segment_char b = true -> 0 <= b < 128.
Proof. unfold segment_char. rewrite !orb_true_iff, !andb_true_iff, !Z.leb_le, !Z.eqb_eq. lia. Qed.

Lemma generate_identity_ascii mode pid : Forall (fun b => 0 <= b < 128) (generate_identity mode pid).
Proof.
  destruct (generate_identity_safe mode pid) as [Hs _]. rewrite List.forallb_forall in Hs.
  apply Forall_forall. intros b Hb%list_elem_of_In. by apply segment_char_ascii, Hs.
Qed.
