(* ===== verification/Client.v ===== *)
(** * Client: the demo client's media path (src/demo/safecast-client/src/main.rs)

    From a joined MLS group on: which members send ([main], step 4), the key
    export, [send_srtp] and [recv_srtp] over template sessions.  The socket
    is its sequence of events, the multicast group the list of datagrams
    handed to it; printing and pacing are left out. *)

From Stdlib Require Import String.
From stdpp Require Import pretty.
From S2P Require Import Prelude Bytes Crypto Rtp IndexRecovery Mls Rdbx Session Template Utf8 Identity.

(** ** Members *)

(** [group.members().map(...)]: each identity, decoded, with its role. *)
Fixpoint all_members (ids : list bytes) : outcome (list (bytes * bytes)) :=
  match ids with
  | [] => Ret []
  | raw :: ids =>
      let id := from_utf8_lossy raw in
      '(_, role) ← parse_credential_identity id;
      rest ← all_members ids;
      Ret ((id, role) :: rest)
  end.

Definition sender_identities (members : list (bytes * bytes)) : list bytes :=
  (filter (fun m => snd m = str_bytes "sender") members).*1.

(** What the receive socket reports: a datagram, an error, or the timeout. *)
Inductive SocketEvent :=
| Datagram (data : bytes)
| RecvError
| Elapsed.

Section Client.
Context {CR : Crypto}.

(** ** Sending *)

Definition demo_packet (label : bytes) (ssrc i : Z) : RtpPacket :=
  mkRtpPacket 111 (u16 i) (u32 (i * 960)) ssrc
    (str_bytes "Hello from " ++ label ++ str_bytes " - audio frame " ++ str_bytes (pretty (Z.to_N i))).

(** The loop [for i in 1..=num_packets], with [todo] packets left. *)
Fixpoint send_loop (todo : nat) (i : Z) (label : bytes) (ssrc : Z) (s : TSession) :
    outcome (list bytes * TSession) :=
  match todo with
  | O => Ret ([], s)
  | S todo =>
      let buf := to_bytes (demo_packet label ssrc i) in
      let '(r, buf, s) := t_protect s buf in
      _ ← expect_ok r;
      '(rest, s) ← send_loop todo (i + 1) label ssrc s;
      Ret (buf :: rest, s)
  end.

Definition send_srtp (label : bytes) (ssrc : Z) (key_material : bytes) (num_packets : Z) :
    outcome (list bytes) :=
  s ← create_sender_session key_material;
  '(out, _) ← send_loop (Z.to_nat num_packets) 1 label ssrc s;
  Ret out.

(** The sender branch of [main]. *)
Definition sender_main (group : MlsGroup) (identity : bytes) (packets : Z) : outcome (list bytes) :=
  '(label, _) ← parse_credential_identity identity;
  let my_ssrc := ssrc_from_identity identity in
  '(key_material, _, _) ← export_srtp_keys group my_ssrc;
  send_srtp label my_ssrc key_material packets.

(** ** Receiving *)

Definition datagram_ssrc (buf : bytes) : outcome Z :=
  b8 ← index buf 8; b9 ← index buf 9; b10 ← index buf 10; b11 ← index buf 11;
  Ret (from_be_bytes [b8; b9; b10; b11]).

Fixpoint recv_loop (events : list SocketEvent) (sessions : gmap Z TSession) (received expected : Z) :
    outcome (list RtpPacket * Z * gmap Z TSession) :=
  if received <? expected then
    match events with
    | Datagram data :: events =>
        (* the receive buffer holds 2048 bytes *)
        let pkt_buf := take 2048 data in
        if bool_decide (length pkt_buf < 12)%nat then recv_loop events sessions received expected
        else
          ssrc ← datagram_ssrc pkt_buf;
          match sessions !! ssrc with
          | None => recv_loop events sessions received expected
          | Some session =>
              let '(r, pkt_buf, session) := t_unprotect session pkt_buf in
              let sessions := <[ssrc := session]> sessions in
              match r with
              | Err e =>
                  if bool_decide (e = REPLAY_FAIL) then recv_loop events sessions received expected
                  else Panic
              | Ok _ =>
                  parsed ← from_bytes pkt_buf;
                  rtp ← expect parsed;
                  '(rest, total, sessions) ← recv_loop events sessions (u32 (received + 1)) expected;
                  Ret (rtp :: rest, total, sessions)
              end
          end
    | RecvError :: _ | Elapsed :: _ | [] => Ret ([], received, sessions)
    end
  else Ret ([], received, sessions).

Definition recv_srtp (sessions : gmap Z TSession) (expected : Z) (events : list SocketEvent) :
    outcome (list RtpPacket * Z * gmap Z TSession) :=
  recv_loop events sessions 0 expected.

(** One receiver session per sender, keyed by SSRC. *)
Fixpoint receiver_sessions (group : MlsGroup) (senders : list bytes) (sessions : gmap Z TSession) :
    outcome (gmap Z TSession) :=
  match senders with
  | [] => Ret sessions
  | id :: senders =>
      let ssrc := ssrc_from_identity id in
      '(key_material, _, _) ← export_srtp_keys group ssrc;
      _ ← parse_credential_identity id;
      session ← create_receiver_session key_material;
      receiver_sessions group senders (<[ssrc := session]> sessions)
  end.

(** The receiver branch of [main]. *)
Definition receiver_main (group : MlsGroup) (ids : list bytes) (packets : Z) (events : list SocketEvent) :
    outcome (list RtpPacket * Z * gmap Z TSession) :=
  members ← all_members ids;
  let senders := sender_identities members in
  sessions ← receiver_sessions group senders ∅;
  recv_srtp sessions (u32 (Z.of_nat (length senders) * packets)) events.

End Client.
