(* ===== verification/ClientFacts.v ===== *)
(** * ClientFacts: the demo's senders and receiver against each other

    All members of an epoch export the same secrets, so a receiver's sessions
    open what the senders of the group protect.  [demo_media]: whatever
    the network delivers of the senders' packets, in whatever interleaving
    and however often, as long as no packet is 128 or more behind its
    sender's newest, the receiver prints each packet once. *)

From stdpp Require Import pretty.
From S2P Require Import Prelude Bytes Crypto Rtp IndexRecovery Mls Rdbx Session Template Identity Client.

(** ** The wire *)

Section Wire.
Context {CR : Crypto}.

Definition key_material (group : MlsGroup) (id : bytes) : bytes :=
  match export_srtp_keys group (ssrc_from_identity id) with Ret (km, _, _) => km | Panic => [] end.

Definition label_of (id : bytes) : bytes :=
  match rsplit_once id with Some (label, _) => label | None => [] end.

Definition client_packet (id : bytes) (i : Z) : RtpPacket :=
  demo_packet (label_of id) (ssrc_from_identity id) i.

(** Packet [i] of the sender [id] as it travels. *)
Definition client_wire (group : MlsGroup) (id : bytes) (i : Z) : bytes :=
  sealed (key_material group id) i (to_bytes (client_packet id i)).

End Wire.

(** An identity whose first [n] packets fit the receive buffer. *)
Definition sendable (n : Z) (id : bytes) : Prop :=
  is_Some (rsplit_once id) /\ bytes_ok id /\
  forall i, 1 <= i <= n -> Z.of_nat (length (to_bytes (client_packet id i))) + 16 <= 2048.

(** ** Deliveries *)

(** An arrival: the sender, and the number of its packet. *)
Abbreviation arrival := (bytes * Z)%type.

(** The arrivals heard for the first time, [hist] being the earlier ones. *)
Fixpoint heard (hist l : list arrival) : list arrival :=
  match l with
  | [] => []
  | a :: l => (if bool_decide (a ∈ hist) then [] else [a]) ++ heard (a :: hist) l
  end.

(** Each arrival is a packet of some sender, at most 127 behind the newest
    of that sender heard so far. *)
Fixpoint timely (senders : list bytes) (n : Z) (hist l : list arrival) : bool :=
  match l with
  | [] => true
  | a :: l =>
      bool_decide (a.1 ∈ senders) && (1 <=? a.2) && (a.2 <=? n) &&
      forallb (fun b => negb (bool_decide (b.1 = a.1)) || (b.2 - 128 <? a.2)) hist &&
      timely senders n (a :: hist) l
  end.

#[local] Opaque ssrc_from_identity.

Section Facts.
Context {CR : Crypto} {CL : CryptoLaws}.

Lemma str_bytes_ok s : bytes_ok (str_bytes s).
Proof.
  induction s as [|a s IH]; cbn; constructor; [|done].
  pose proof (Ascii.N_ascii_bounded a). width.
Qed.

Lemma client_packet_ok n id i : sendable n id -> RtpPacket_ok (client_packet id i).
Proof.
  intros ([[l r] Hp] & Hok & _). destruct (rsplit_once_join _ _ _ Hp) as [-> _].
  apply Forall_app in Hok as [Hl _]. unfold RtpPacket_ok, client_packet, label_of, demo_packet. rewrite Hp.
  cbn [payload_type sequence_number timestamp ssrc payload].
  split_and!; [done|apply u16_range|apply u32_range|apply ssrc_from_identity_range|].
  repeat (apply Forall_app; split); try done; apply str_bytes_ok.
Qed.

Lemma client_first_range n id i :
  sendable n id -> 1 <= i <= n -> n < 65536 ->
  first_range_packet (ssrc_from_identity id) i (to_bytes (client_packet id i)).
Proof.
  intros Hs Hi Hn. destruct (to_bytes_header _ (client_packet_ok n id i Hs)) as (Hf & Hss & Hseq).
  destruct Hs as (_ & _ & Hlen). specialize (Hlen i Hi). unfold first_range_packet, c_int_max.
  split; [exact Hf|]. split; [exact Hss|]. split; [exact Hseq|]. lia.
Qed.

(** ** Senders *)

Lemma sender_loop group n id todo : forall i cnt rs s,
  sendable n id -> n < 65536 -> session_at (key_material group id) (ssrc_from_identity id) cnt rs s ->
  Z.of_nat cnt = i - 1 -> Replay.top (default replay0 rs) = i - 1 -> i + Z.of_nat todo = n + 1 ->
  exists s', send_loop todo i (label_of id) (ssrc_from_identity id) s =
    Ret ((fun j => client_wire group id (i + Z.of_nat j)) <$> seq 0 todo, s').
Proof.
  induction todo as [|todo IH]; intros i cnt rs s Hid Hn Hs Hcnt Htop Hi; [by exists s|].
  assert (Replay.check (default replay0 rs) i = None) as Hchk.
  { unfold Replay.check. destruct (Z.ltb_spec (Replay.top (default replay0 rs)) i); [done|lia]. }
  destruct (t_protect_genuine _ _ cnt s rs i _ Hs (client_first_range n id i Hid ltac:(lia) Hn))
    as (s1 & Hp & Hs1); [lia|lia|done|lia|].
  destruct (IH (i + 1) (S cnt) _ s1 Hid Hn Hs1) as (s' & Hrest); [lia|cbn; lia|lia|].
  exists s'. cbn [send_loop]. fold (client_packet id i). rewrite Hp. cbn [expect_ok mbind outcome_bind].
  rewrite Hrest. cbn [mbind outcome_bind seq fmap list_fmap]. rewrite Z.add_0_r.
  do 3 f_equal. rewrite <- fmap_S_seq, <- list_fmap_compose. apply list_fmap_ext. intros k j _.
  change (client_wire group id (i + 1 + Z.of_nat j) = client_wire group id (i + Z.of_nat (S j))).
  f_equal. lia.
Qed.

Lemma key_material_ok group id :
  group_active group = true -> length (exporter_secret group) = HASH_LEN ->
  exists k a, export_srtp_keys group (ssrc_from_identity id) = Ret (key_material group id, k, a) /\
    (SRTP_KEY_MATERIAL_LEN <= length (key_material group id))%nat.
Proof.
  intros Hact Hlen. destruct (export_srtp_keys_ok group (ssrc_from_identity id) Hact Hlen) as (k & a & Hk & Hkl & Hal).
  exists k, a. unfold key_material. rewrite Hk. split; [done|]. rewrite length_app, Hkl, Hal. done.
Qed.

Lemma sender_sends group n id :
  group_active group = true -> length (exporter_secret group) = HASH_LEN ->
  0 <= n < 65536 -> sendable n id ->
  sender_main group id n = Ret ((fun j => client_wire group id (1 + Z.of_nat j)) <$> seq 0 (Z.to_nat n)).
Proof.
  intros Hact Hlen Hn Hid. destruct (key_material_ok group id Hact Hlen) as (k & a & Hk & Hkm).
  destruct (create_sessions _ Hkm) as [Hc _].
  destruct (sender_loop group n id (Z.to_nat n) 1 0 None (fresh_template dir_srtp_sender (key_material group id))
    Hid) as (s' & Hloop); [lia|apply fresh_session_at|done|done|lia|].
  pose proof Hid as ([[l r] Hp] & _). unfold label_of in Hloop. rewrite Hp in Hloop.
  unfold sender_main, parse_credential_identity, send_srtp. rewrite Hp. cbn [expect mbind outcome_bind].
  rewrite Hk. cbn [mbind outcome_bind]. rewrite Hc. cbn [mbind outcome_bind]. by rewrite Hloop.
Qed.

(** ** The receiver's state against the history *)

(** The database [rs] of sender [id] holds exactly the packets heard. *)
Definition tracks (id : bytes) (hist : list arrival) (rs : option Replay.t) : Prop :=
  let r := default replay0 rs in
  (rs = None -> forall e, (id, e) ∉ hist) /\ Replay.window r = 128 /\
  (forall e, e ∈ Replay.seen r <-> (id, e) ∈ hist) /\
  (Replay.top r = 0 \/ (id, Replay.top r) ∈ hist) /\ Replay.ok r.

Lemma tracks_fresh id : tracks id [] None.
Proof.
  unfold tracks. cbn. split_and!; [set_solver|done|set_solver|by left|apply replay0_refines].
Qed.

Lemma tracks_other id hist rs id' i : id' <> id -> tracks id hist rs -> tracks id ((id', i) :: hist) rs.
Proof.
  intros Hne (Hn & Hw & Hseen & Htop & Hok). unfold tracks. split_and!; try done.
  - intros -> e [[= -> ->]|?]%elem_of_cons; [done|]. by eapply Hn.
  - intros e. rewrite Hseen, elem_of_cons. naive_solver.
  - rewrite elem_of_cons. naive_solver.
Qed.

Lemma tracks_again id hist rs i : (id, i) ∈ hist -> tracks id hist rs -> tracks id ((id, i) :: hist) rs.
Proof.
  intros Hin (Hn & Hw & Hseen & Htop & Hok). unfold tracks. split_and!; try done.
  - intros ->. by destruct (Hn eq_refl i).
  - intros e. rewrite Hseen, elem_of_cons. naive_solver.
  - rewrite elem_of_cons. naive_solver.
Qed.

Lemma tracks_add id hist rs i :
  tracks id hist rs -> tracks id ((id, i) :: hist) (Some (Replay.add (default replay0 rs) i)).
Proof.
  intros (Hn & Hw & Hseen & Htop & Hok). unfold tracks. cbn [default]. split_and!; [done|done|..].
  - intros e. cbn. rewrite elem_of_union, elem_of_singleton, Hseen, elem_of_cons. naive_solver.
  - cbn. rewrite elem_of_cons. destruct (Z.max_spec (Replay.top (default replay0 rs)) i) as [[_ ->]|[_ ->]];
      naive_solver.
  - by apply Replay.add_ok.
Qed.

(** With a timely arrival the check is membership in the history. *)
Lemma tracks_check id hist rs i :
  tracks id hist rs -> 1 <= i -> (forall j, (id, j) ∈ hist -> j - 128 < i) ->
  Replay.check (default replay0 rs) i = if bool_decide ((id, i) ∈ hist) then Some REPLAY_FAIL else None.
Proof.
  intros (Hn & Hw & Hseen & Htop & [_ Hle]) Hi Hnear. unfold Replay.check. rewrite Hw.
  destruct (Z.ltb_spec (Replay.top (default replay0 rs)) i).
  - rewrite bool_decide_eq_false_2; [done|]. intros Hin%Hseen%Hle. lia.
  - destruct (Z.leb_spec i (Replay.top (default replay0 rs) - 128)).
    + destruct Htop as [Ht|Ht]; [lia|]. apply Hnear in Ht. lia.
    + by rewrite (bool_decide_ext _ _ (Hseen i)); case_bool_decide.
Qed.

Lemma timely_cons senders n hist id i l :
  timely senders n hist ((id, i) :: l) = true ->
  id ∈ senders /\ 1 <= i <= n /\ (forall j, (id, j) ∈ hist -> j - 128 < i) /\
  timely senders n ((id, i) :: hist) l = true.
Proof.
  cbn. rewrite !andb_true_iff, !Z.leb_le, forallb_forall. intros ((((Hin & H1) & Hn) & Hall) & Hrest).
  apply bool_decide_eq_true in Hin. split_and!; try done. intros j Hj%list_elem_of_In%Hall. cbn in Hj.
  rewrite bool_decide_eq_true_2 in Hj by done. by apply Z.ltb_lt.
Qed.

(** One datagram through the session of its sender. *)
Lemma unprotect_arrival group n id i cnt rs s hist :
  sendable n id -> n < 65536 -> 1 <= i <= n -> Z.of_nat cnt < 2 ^ 47 ->
  session_at (key_material group id) (ssrc_from_identity id) cnt rs s -> tracks id hist rs ->
  (forall j, (id, j) ∈ hist -> j - 128 < i) -> (forall j, (id, j) ∈ hist -> 1 <= j <= n) ->
  if bool_decide ((id, i) ∈ hist)
  then t_unprotect s (client_wire group id i) = (Err REPLAY_FAIL, [], s)
  else exists s', t_unprotect s (client_wire group id i) = (Ok tt, to_bytes (client_packet id i), s') /\
    session_at (key_material group id) (ssrc_from_identity id) (S cnt) (Some (Replay.add (default replay0 rs) i)) s'.
Proof.
  intros Hid Hn Hi Hcnt Hs Ht Hnear Hrange. pose proof (client_first_range n id i Hid Hi Hn) as Hb.
  pose proof (tracks_check id hist rs i Ht ltac:(lia) Hnear) as Hchk.
  pose proof Ht as (Hnone & _ & _ & Htop & _). destruct rs as [rs|]; cbn [default Datatypes.id] in *.
  - assert (0 <= Replay.top rs < 65536 /\ Replay.top rs - 32768 <= i) as [H1 H2].
    { destruct Htop as [->|Htop]; [lia|]. pose proof (Hnear _ Htop). pose proof (Hrange _ Htop). lia. }
    pose proof (t_unprotect_known _ _ _ _ rs i _ Hs Hb Hcnt H1 H2) as Hstep.
    rewrite Hchk in Hstep. by case_bool_decide.
  - rewrite bool_decide_eq_false_2 by (by apply Hnone).
    by apply (t_unprotect_first _ _ cnt).
Qed.

Lemma datagram_ssrc_hdr buf : (12 <= length buf)%nat -> datagram_ssrc buf = Ret (hdr_ssrc buf).
Proof.
  intros Hl. do 12 (destruct buf as [|? buf]; [cbn in Hl; lia|]).
  unfold datagram_ssrc, hdr_ssrc, index. cbn. by rewrite take_0.
Qed.

(** The wire's header names its sender, and it fits the receive buffer. *)
Lemma client_wire_header group n id i :
  sendable n id -> n < 65536 -> 1 <= i <= n ->
  (12 <= length (client_wire group id i) <= 2048)%nat /\
  hdr_ssrc (client_wire group id i) = ssrc_from_identity id.
Proof.
  intros Hid Hn Hi. pose proof (client_first_range n id i Hid Hi Hn) as (Hf & Hss & _).
  destruct Hid as (_ & _ & Hlen). specialize (Hlen i Hi). unfold client_wire, sealed.
  pose proof (seal_packet_fields (template_keys (key_material group id)).1
    (template_keys (key_material group id)).2 i _ Hf) as (_ & _ & Hss' & _).
  rewrite length_seal_packet by apply Hf. rewrite Hss', Hss. destruct Hf as [Hf _].
  unfold octets_in_rtp_header, TAG_LEN in *. split; [lia|done].
Qed.

Section Receiver.
Context (group : MlsGroup) (n : Z) (senders : list bytes).
Hypothesis Hn : n < 65536.
Hypothesis Hsendable : Forall (sendable n) senders.
Hypothesis Hinj : forall id id', id ∈ senders -> id' ∈ senders ->
  ssrc_from_identity id = ssrc_from_identity id' -> id = id'.

Definition heard_inv (hist : list arrival) (sessions : gmap Z TSession) : Prop :=
  (forall id, id ∈ senders -> exists s cnt rs, sessions !! ssrc_from_identity id = Some s /\
    session_at (key_material group id) (ssrc_from_identity id) cnt rs s /\ tracks id hist rs /\
    (cnt <= length hist)%nat) /\
  (forall id j, (id, j) ∈ hist -> 1 <= j <= n).

(** The datagrams of a delivery. *)
Definition datagrams (l : list arrival) : list SocketEvent :=
  (fun a => Datagram (client_wire group a.1 a.2)) <$> l.

Lemma heard_inv_step hist sessions id i s cnt rs :
  heard_inv hist sessions -> id ∈ senders -> 1 <= i <= n ->
  session_at (key_material group id) (ssrc_from_identity id) cnt rs s -> (cnt <= S (length hist))%nat ->
  tracks id ((id, i) :: hist) rs ->
  heard_inv ((id, i) :: hist) (<[ssrc_from_identity id := s]> sessions).
Proof.
  intros [Hall Hrange] Hid Hi Hs Hcnt Ht. split.
  - intros id' Hid'. destruct (decide (id' = id)) as [->|Hne].
    + exists s, cnt, rs. by rewrite lookup_insert_eq.
    + destruct (Hall id' Hid') as (s' & cnt' & rs' & Hget & Hs' & Ht' & Hc'). exists s', cnt', rs'.
      rewrite lookup_insert_ne by (intros ?; by apply Hne, Hinj). split_and!; try done; [|cbn; lia].
      by apply tracks_other.
  - intros id' j [[= -> ->]|Hj]%elem_of_cons; [done|by eapply Hrange].
Qed.

Lemma recv_deliveries l : forall hist sessions received expected,
  heard_inv hist sessions -> timely senders n hist l = true ->
  0 <= received <= expected -> in_u32 expected -> Z.of_nat (length hist) + Z.of_nat (length l) < 2 ^ 47 ->
  exists sessions',
    recv_loop (datagrams l ++ [Elapsed]) sessions received expected =
      Ret ((fun a => client_packet a.1 a.2) <$> take (Z.to_nat (expected - received)) (heard hist l),
        Z.min expected (received + Z.of_nat (length (heard hist l))), sessions').
Proof.
  induction l as [|[id i] l IH]; intros hist sessions received expected Hinv Ht Hrec Hexp Hlen.
  { exists sessions. change (datagrams [] ++ [Elapsed]) with [Elapsed]. cbn [recv_loop heard length].
    rewrite take_nil. replace (Z.min expected (received + Z.of_nat 0)) with received by lia.
    by destruct (received <? expected). }
  apply timely_cons in Ht as (Hid & Hi & Hnear & Ht).
  change (datagrams ((id, i) :: l) ++ [Elapsed]) with
    (Datagram (client_wire group id i) :: (datagrams l ++ [Elapsed])).
  cbn [recv_loop]. destruct (Z.ltb_spec received expected) as [Hlt|Hge].
  2: { exists sessions. replace (Z.to_nat (expected - received)) with 0%nat by lia. rewrite take_0.
       cbn [fmap list_fmap]. do 3 f_equal. lia. }
  pose proof (proj1 (Forall_forall _ _) Hsendable id Hid) as Hsid.
  destruct (client_wire_header group n id i Hsid Hn Hi) as [[Hl1 Hl2] Hss].
  rewrite take_ge by done. rewrite bool_decide_eq_false_2 by lia.
  rewrite datagram_ssrc_hdr, Hss by done. cbn [mbind outcome_bind].
  destruct Hinv as [Hall Hrange]. destruct (Hall id Hid) as (s & cnt & rs & Hget & Hs & Htr & Hcnt). rewrite Hget.
  pose proof (unprotect_arrival group n id i cnt rs s hist Hsid Hn Hi ltac:(cbn in Hlen; lia) Hs Htr Hnear
    (fun j => Hrange id j)) as Hstep.
  cbn [heard]. destruct (bool_decide ((id, i) ∈ hist)) eqn:Hin.
  - apply bool_decide_eq_true in Hin. rewrite Hstep. rewrite (bool_decide_eq_true_2 (REPLAY_FAIL = _)) by done.
    destruct (IH ((id, i) :: hist) (<[ssrc_from_identity id:=s]> sessions) received expected) as (sessions' & Hrun);
      [|done|done|done|cbn in Hlen |- *; lia|by exists sessions'].
    eapply heard_inv_step; [done..|lia|by apply tracks_again].
  - destruct Hstep as (s' & -> & Hs').
    rewrite parse_serialized by (try done; by eapply client_packet_ok). cbn [mbind outcome_bind expect].
    rewrite u32_id by width.
    destruct (IH ((id, i) :: hist) (<[ssrc_from_identity id:=s']> sessions) (received + 1) expected)
      as (sessions' & Hrun); [|done|lia|done|cbn in Hlen |- *; lia|].
    { eapply heard_inv_step; [done..|lia|by apply tracks_add]. }
    exists sessions'. rewrite Hrun. cbn [mbind outcome_bind app].
    replace (Z.to_nat (expected - received)) with (S (Z.to_nat (expected - (received + 1)))) by lia.
    cbn [take fmap list_fmap length]. do 3 f_equal. lia.
Qed.

End Receiver.

(** The sessions [main] builds are the fresh ones. *)
Lemma receiver_sessions_ok group n senders all sessions hist :
  group_active group = true -> length (exporter_secret group) = HASH_LEN ->
  Forall (sendable n) senders ->
  (forall id, id ∈ all -> id ∈ senders \/
    sessions !! ssrc_from_identity id = Some (fresh_template dir_srtp_receiver (key_material group id))) ->
  (forall id id', id ∈ senders ++ all -> id' ∈ senders ++ all ->
    ssrc_from_identity id = ssrc_from_identity id' -> id = id') -> hist = [] ->
  exists sessions', receiver_sessions group senders sessions = Ret sessions' /\
    heard_inv group n all hist sessions'.
Proof.
  intros Hact Hlen Hs Hall Hinj ->. revert sessions Hall. induction senders as [|id senders IH]; intros sessions Hall.
  - exists sessions. split; [done|]. split; [|set_solver]. intros id Hid.
    destruct (Hall id Hid) as [?|Hget]; [set_solver|]. eexists _, 0%nat, None.
    split; [done|]. split; [apply fresh_session_at|]. split; [apply tracks_fresh|done].
  - apply Forall_cons in Hs as [Hid Hs]. cbn [receiver_sessions].
    destruct (key_material_ok group id Hact Hlen) as (k & a & -> & Hkm). cbn [mbind outcome_bind].
    unfold parse_credential_identity. destruct Hid as ([lr ->] & _). cbn [expect mbind outcome_bind].
    destruct (create_sessions _ Hkm) as [_ ->]. cbn [mbind outcome_bind].
    apply IH; [done|intros ? ? ? ?; apply Hinj; set_solver|]. intros id' Hid'.
    destruct (decide (id' = id)) as [->|Hne]; [right; apply lookup_insert_eq|].
    destruct (Hall id' Hid') as [[?|?]%elem_of_cons|Hget]; [done|by left|]. right.
    rewrite lookup_insert_ne; [done|]. intros ?. apply Hne, Hinj; [set_solver..|done].
Qed.

(** The media path end to end: in an active group, every sender's packets and
    the receiver's sessions are keyed alike, and whatever the network delivers
    of all senders' packets, interleaved, reordered and duplicated at will,
    as long as none is 128 or more behind its sender's newest, the receiver
    decrypts each packet once, in order of first arrival, skips the
    duplicates, and stops at the expected count. *)
Lemma demo_media group ids members n l :
  group_active group = true -> length (exporter_secret group) = HASH_LEN ->
  all_members ids = Ret members -> 0 <= n < 65536 ->
  let senders := sender_identities members in
  Forall (sendable n) senders ->
  NoDup (ssrc_from_identity <$> senders) ->
  timely senders n [] l = true -> Z.of_nat (length senders) * n < 2 ^ 32 -> Z.of_nat (length l) < 2 ^ 47 ->
  Forall (fun id => sender_main group id n =
    Ret ((fun j => client_wire group id (1 + Z.of_nat j)) <$> seq 0 (Z.to_nat n))) senders /\
  exists sessions,
    receiver_main group ids n (datagrams group l ++ [Elapsed]) =
      Ret ((fun a => client_packet a.1 a.2) <$> take (Z.to_nat (Z.of_nat (length senders) * n)) (heard [] l),
        Z.min (Z.of_nat (length senders) * n) (Z.of_nat (length (heard [] l))), sessions).
Proof.
  intros Hact Hlen Hmem Hn senders Hs Hnd Ht Hmax Hl. split.
  { eapply Forall_impl; [exact Hs|]. intros id Hid. by apply sender_sends. }
  assert (forall id id', id ∈ senders -> id' ∈ senders ->
    ssrc_from_identity id = ssrc_from_identity id' -> id = id') as Hinj.
  { intros id id' [i Hi]%list_elem_of_lookup [j Hj]%list_elem_of_lookup Heq.
    assert (i = j) as <-; [|congruence].
    apply (NoDup_lookup (ssrc_from_identity <$> senders) i j (ssrc_from_identity id) Hnd);
      rewrite list_lookup_fmap; [by rewrite Hi|rewrite Hj, Heq; done]. }
  destruct (receiver_sessions_ok group n senders senders ∅ []) as (sessions & Hrs & Hinv);
    [done|done|done|by left| |done|].
  { intros id id' Hid Hid'. apply Hinj; set_solver. }
  unfold receiver_main. rewrite Hmem. cbn [mbind outcome_bind]. fold senders. rewrite Hrs. cbn [mbind outcome_bind].
  destruct (recv_deliveries group n senders ltac:(lia) Hs Hinj l [] sessions 0
    (Z.of_nat (length senders) * n) Hinv Ht) as (sessions' & Hrun); [nia|unfold in_u32; nia|cbn; lia|].
  exists sessions'. unfold recv_srtp. rewrite u32_id by (unfold in_u32; nia). rewrite Hrun.
  by rewrite Z.sub_0_r, Z.add_0_l.
Qed.

(** A datagram shorter than header and tag never opens, whatever the key. *)
Lemma short_aead st delta est buf :
  fixed_header buf -> (length buf < 28)%nat ->
  exists e st', srtp_unprotect_aead st delta est buf = (Err e, st') /\ e <> REPLAY_FAIL.
Proof.
  intros Hf Hlen. destruct (fixed_header_parse buf Hf) as [_ He]. destruct Hf as [Hl _].
  unfold srtp_unprotect_aead. rewrite He. unfold octets_in_rtp_header, TAG_LEN in *.
  case_match; [|by eexists _, _].
  rewrite (proj2 (Z.ltb_lt (u32 (Z.of_nat (length buf) - Z.of_nat 12)) (Z.of_nat 16))) by width.
  by eexists _, _.
Qed.

(** A datagram too short to hold a tag and not yet seen, or one older than
    the replay window. *)
Definition unopenable (s : TSession) (buf : bytes) : Prop :=
  match stream_list_get (clones s) (hdr_ssrc buf) with
  | None => (length buf < 28)%nat
  | Some st =>
      match rdbx_check (st_rdbx st) (rdbx_estimate_index (st_rdbx st) (hdr_seq buf)).2 with
      | None => (length buf < 28)%nat
      | Some e => e = REPLAY_OLD
      end
  end.

(** C35: The demo receiver panics on a datagram shorter than header plus tag
    from a known SSRC (new to the replay window), and on any packet that is
    older than the replay window, so a late duplicate or anyone on the
    network can stop it. *)
Theorem demo_receiver_panics sessions received expected s buf events :
  received < expected -> fixed_header buf -> (length buf <= 2048)%nat ->
  sessions !! hdr_ssrc buf = Some s -> unopenable s buf ->
  recv_loop (Datagram buf :: events) sessions received expected = Panic.
Proof.
  intros Hrec Hf Hlen Hget Hcase. unfold unopenable in Hcase. pose proof (fixed_header_parse buf Hf) as [Hv _].
  assert (exists e out s', t_unprotect s buf = (Err e, out, s') /\ e <> REPLAY_FAIL) as (e & out & s' & Hu & Hne).
  { unfold t_unprotect, overwrite, t_srtp_unprotect, c_int_max. rewrite Hv.
    destruct (Z.ltb_spec 2147483647 (Z.of_nat (length buf))); [lia|].
    destruct (stream_list_get (clones s) (hdr_ssrc buf)) as [st|].
    - destruct (rdbx_estimate_index _ _) as [est delta]. cbn [snd] in Hcase.
      destruct (rdbx_check _ _) as [e|]; [subst; by eexists _, _, _|].
      destruct (short_aead (shared s st) delta est buf Hf Hcase) as (e & st' & -> & He). by eexists _, _, _.
    - destruct (short_aead (template s) (hdr_seq buf) (hdr_seq buf) buf Hf Hcase) as (e & st' & -> & He).
      by eexists _, _, _. }
  cbn [recv_loop]. rewrite (proj2 (Z.ltb_lt _ _) Hrec), take_ge by done.
  destruct Hf as [Hl _]. unfold octets_in_rtp_header in Hl. rewrite bool_decide_eq_false_2 by lia.
  rewrite datagram_ssrc_hdr by done. cbn [mbind outcome_bind]. rewrite Hget, Hu.
  by rewrite bool_decide_eq_false_2.
Qed.

End Facts.

(** ** Instances *)

Import Toy.

Module DemoExample.

Definition alice : bytes := generate_identity Sender 48231.
Definition bob : bytes := generate_identity Sender 7.
Definition deliveries : list (bytes * Z) :=
  [(bob, 2); (alice, 1); (bob, 1); (alice, 1); (alice, 3); (bob, 2); (alice, 2)].

Lemma alice_bob_sendable : Forall (sendable 3) [alice; bob].
Proof.
  repeat (apply Forall_cons; split); try apply Forall_nil_2; unfold sendable.
  all: split; [vm_compute; eauto|]; split; [repeat constructor; done|].
  all: intros i Hi; assert (i = 1 \/ i = 2 \/ i = 3) as [->|[->| ->]] by lia; apply Z.leb_le; vm_compute; reflexivity.
Qed.

End DemoExample.
Import DemoExample.

Lemma demo_receiver_panics_witness :
  recv_srtp {[ 7 := fresh_template dir_srtp_receiver (replicate 28 1) ]} 3
    [Datagram [0x80; 111; 0; 1; 0; 0; 0; 0; 0; 0; 0; 7]] = Panic.
Proof.
  apply (demo_receiver_panics {[ 7 := fresh_template dir_srtp_receiver (replicate 28 1) ]} 0 3
    (fresh_template dir_srtp_receiver (replicate 28 1)) [0x80; 111; 0; 1; 0; 0; 0; 0; 0; 0; 0; 7] []).
  - lia.
  - split; [apply Nat.leb_le; reflexivity|reflexivity].
  - apply Nat.leb_le. reflexivity.
  - reflexivity.
  - apply Nat.ltb_lt. reflexivity.
Defined.
