(* ===== verification/Credentials.v ===== *)
(** * Credentials: the client's use of the authentication service

    Models [DsClient::register_with_as] and [DsClient::lookup_as]
    (src/demo/safecast-client/src/ds_client.rs) and [verify_group_members]
    (src/demo/safecast-client/src/main.rs) against the service of
    AuthService.v.  The HTTP library and the JSON codec carry a request to
    the handler and its answer back; a handler that panics answers nothing.
    Base64 is a package outside the repository: the class [Base64], with the
    contract the client relies on.  So are URL parsing and routing: the client
    writes an identity into a URL as it is, and the class [UrlPath] says which
    parameter reaches the handler. *)

From Stdlib Require Import String.
From S2P Require Import Prelude Bytes Utf8 AuthService Identity.

Class Base64 := {
  b64_encode : bytes -> bytes;
  b64_decode : bytes -> option bytes
}.

Class Base64Laws `{Base64} := {
  b64_decode_encode x : bytes_ok x -> b64_decode (b64_encode x) = Some x;
  b64_ascii x : bytes_ok x -> ascii_bytes (b64_encode x)
}.

(** The error strings of the client, by the place that builds them. *)
Inductive AsError := RequestFailed | HttpStatus | ParseFailed | Base64Failed.

(** [format!("{}/lookup/{}", as_url, identity)] through the HTTP client's URL
    parser, the server's router and its percent-decoding: the path parameter
    the handler [lookup] gets, or the client's error when the URL is refused
    or matches no route. *)
Class UrlPath := { path_param : bytes -> result bytes AsError }.

(** RFC 3986: a segment of unreserved characters and colons is itself, and a
    question mark ends the path.  RFC 9112 asks for request lines of 8000
    bytes. *)
Class UrlPathLaws `{UrlPath} := {
  path_param_safe s : path_safe s -> path_param s = Ok s;
  path_param_query s q : path_safe s -> (length q <= 2000)%nat -> path_param (s ++ 63 :: q) = Ok s
}.

(** A member of the group tree: its credential's identity and its key. *)
Record Member := mkMember {
  mem_identity : bytes;
  signature_key : bytes
}.

(** The member's identity as the client reads it. *)
Definition decoded (m : Member) : bytes := from_utf8_lossy (mem_identity m).

Section Client.
Context {B64 : Base64} {UP : UrlPath}.

Definition register_with_as (data : AsData) (identity public_key : bytes) : result unit AsError * AsData :=
  let '(r, data) := route data (PostRegister (mkRegisterRequest identity (b64_encode public_key))) in
  match r with
  | Panic => (Err RequestFailed, data)
  | Ret HttpOk | Ret (HttpOkJson _) => (Ok tt, data)
  | Ret (HttpConflict _) | Ret (HttpNotFound _) => (Err HttpStatus, data)
  end.

Definition lookup_as (data : AsData) (identity : bytes) : result bytes AsError * AsData :=
  match path_param identity with
  | Err e => (Err e, data)
  | Ok name =>
      let '(r, data) := route data (GetLookup name) in
      match r with
      | Panic => (Err RequestFailed, data)
      | Ret (HttpConflict _) | Ret (HttpNotFound _) => (Err HttpStatus, data)
      | Ret HttpOk => (Err ParseFailed, data)
      | Ret (HttpOkJson body) =>
          match b64_decode (lr_public_key body) with
          | Some key => (Ok key, data)
          | None => (Err Base64Failed, data)
          end
      end
  end.

(** The loop over [group.members()]. *)
Fixpoint verify_group_members (data : AsData) (members : list Member) (my_identity : bytes) :
    outcome unit :=
  match members with
  | [] => Ret tt
  | m :: members =>
      let identity := from_utf8_lossy (mem_identity m) in
      if bool_decide (identity = my_identity) then verify_group_members data members my_identity
      else
        _ ← parse_credential_identity identity;
        let '(r, data) := lookup_as data identity in
        pk_from_as ← expect_ok r;
        _ ← assert (bool_decide (pk_from_as = signature_key m));
        verify_group_members data members my_identity
  end.

(** Clients registering one after the other: who asks, and with which key. *)
Fixpoint register_all (data : AsData) (l : list (bytes * bytes)) : list (result unit AsError) * AsData :=
  match l with
  | [] => ([], data)
  | (identity, public_key) :: l =>
      let '(r, data) := register_with_as data identity public_key in
      let '(rs, data) := register_all data l in
      (r :: rs, data)
  end.

(** ** What verification establishes *)

(** The key of the first client that asked to register [id]. *)
Fixpoint first_registered (id : bytes) (l : list (bytes * bytes)) : option bytes :=
  match l with
  | [] => None
  | (id', key) :: l => if bool_decide (id' = id) then Some key else first_registered id l
  end.

Context {LAWS : Base64Laws}.

Definition requests (l : list (bytes * bytes)) : list Request :=
  (fun x => PostRegister (mkRegisterRequest x.1 (b64_encode x.2))) <$> l.

Lemma register_all_serve data l :
  (register_all data l).2 = (serve data (requests l)).2.
Proof.
  revert data. induction l as [|[id key] l IH]; intros data; [done|].
  cbn [register_all requests fmap list_fmap serve fst snd]. unfold register_with_as.
  destruct (route data _) as [r d]. specialize (IH d). unfold requests in IH.
  destruct (serve d _) as [rs d'] eqn:Hs. cbn [snd] in IH.
  destruct r as [[]|]; destruct (register_all d l) as [rs' d'']; cbn in *; done.
Qed.

Lemma requests_loggable l : Forall (fun x => bytes_ok x.2) l -> Forall loggable (requests l).
Proof.
  intros Hl. apply Forall_fmap. eapply Forall_impl; [exact Hl|].
  intros [id key] Hk. by apply ascii_loggable, b64_ascii.
Qed.

Lemma first_registered_ok id l key :
  Forall (fun x => bytes_ok x.2) l -> first_registered id l = Some key -> bytes_ok key.
Proof.
  induction 1 as [|[id' k] l Hk Hl IH]; cbn; [done|]. case_bool_decide; [by intros [= <-]|done].
Qed.

Lemma first_key_requests id l : first_key id (requests l) = b64_encode <$> first_registered id l.
Proof. induction l as [|[id' key] l IH]; cbn; [done|]. by case_bool_decide. Qed.

(** A lookup returns the first key registered under the name the URL
    denotes. *)
Lemma lookup_registered l rs data id :
  register_all AsData_default l = (rs, data) -> Forall (fun x => bytes_ok x.2) l ->
  lookup_as data id =
    (match path_param id with
     | Err e => Err e
     | Ok name => match first_registered name l with Some key => Ok key | None => Err HttpStatus end
     end, data).
Proof.
  intros Hrun Hl. pose proof (register_all_serve AsData_default l) as Heq. rewrite Hrun in Heq. cbn [snd] in Heq.
  destruct (serve AsData_default (requests l)) as [rs' d] eqn:Hs. cbn [snd] in Heq. subst d.
  destruct (serve_registry _ _ _ _ Hs (requests_loggable l Hl) eq_refl) as (Hp & Hc & _).
  unfold lookup_as. destruct (path_param id) as [name|e]; [|done].
  unfold route, lookup_identity. rewrite Hp, Hc. cbn [credentials AsData_default].
  rewrite lookup_empty, first_key_requests. destruct (first_registered name l) as [key|] eqn:Hf; cbn; [|done].
  by rewrite b64_decode_encode by (by eapply first_registered_ok).
Qed.

(** The member carries the client's own identity, or the key first registered
    under the name its identity denotes in the URL. *)
Definition first_key_matches (l : list (bytes * bytes)) (me : bytes) (m : Member) : Prop :=
  decoded m = me \/
  exists name, path_param (decoded m) = Ok name /\ first_registered name l = Some (signature_key m).

Lemma verification_iff_named l rs data members me :
  register_all AsData_default l = (rs, data) -> Forall (fun x => bytes_ok x.2) l ->
  Forall (fun m => is_Some (rsplit_once (decoded m))) members ->
  verify_group_members data members me = Ret tt <-> Forall (first_key_matches l me) members.
Proof.
  intros Hrun Hl Hparse. induction members as [|m members IH]; [done|].
  apply Forall_cons in Hparse as [[lr Hm] Hparse]. specialize (IH Hparse).
  rewrite Forall_cons, <- IH. cbn [verify_group_members]. unfold first_key_matches, decoded in *. cbn zeta.
  case_bool_decide as Hme; [naive_solver|].
  unfold parse_credential_identity. rewrite Hm. cbn [expect mbind outcome_bind].
  rewrite (lookup_registered l rs data _ Hrun Hl).
  destruct (path_param _) as [name|e]; cbn [expect_ok mbind outcome_bind]; [|naive_solver].
  destruct (first_registered name l) as [key|] eqn:Hk; cbn [expect_ok mbind outcome_bind]; [|naive_solver].
  unfold assert. case_bool_decide; cbn [mbind outcome_bind]; naive_solver.
Qed.

Context {UPL : UrlPathLaws}.

Lemma first_key_matches_safe l me m :
  path_safe (decoded m) ->
  first_key_matches l me m <-> decoded m = me \/ first_registered (decoded m) l = Some (signature_key m).
Proof. intros Hs. unfold first_key_matches. rewrite path_param_safe by done. naive_solver. Qed.

(** C15: verify_group_members, on members whose identities hold a colon, passes
    exactly when every other member's signature key is the key registered
    first under the name the member's identity denotes in the lookup URL;
    for identities of unreserved URL characters and colons, which the
    client's own are, that is the identity itself, so a later registration
    under the same identity can neither replace a key nor get accepted. *)
Theorem verification_iff_first_registered l rs data members me :
  register_all AsData_default l = (rs, data) -> Forall (fun x => bytes_ok x.2) l ->
  Forall (fun m => is_Some (rsplit_once (decoded m))) members ->
  (verify_group_members data members me = Ret tt <-> Forall (first_key_matches l me) members) /\
  (Forall (fun m => path_safe (decoded m)) members ->
   verify_group_members data members me = Ret tt <->
   Forall (fun m => decoded m = me \/ first_registered (decoded m) l = Some (signature_key m)) members).
Proof.
  intros Hrun Hl Hparse. rewrite (verification_iff_named l rs) by done. split; [done|]. intros Hs.
  rewrite !Forall_forall in *. split; intros H m Hm; [rewrite <- first_key_matches_safe|rewrite first_key_matches_safe]; auto.
Qed.

(** C16: lookup_as writes the identity into the URL unescaped: a client that
    registered a key under any ordinary name passes verify_group_members
    under an identity that continues this name with a question mark, further
    text and a role of its choice, whether or not anybody registered that
    identity; so a registered receiver passes as a sender. *)
Theorem query_identity_unregistered l rs data me m name q label role :
  register_all AsData_default l = (rs, data) -> Forall (fun x => bytes_ok x.2) l ->
  first_registered name l = Some (signature_key m) -> path_safe name ->
  decoded m = name ++ 63 :: q ++ 58 :: role -> Forall (fun b => b ≠ 58) role -> (length q + length role < 2000)%nat ->
  label = name ++ 63 :: q ->
  parse_credential_identity (decoded m) = Ret (label, role) /\ verify_group_members data [m] me = Ret tt.
Proof.
  intros Hrun Hl Hfirst Hs Hd Hr Hq ->.
  assert (rsplit_once (decoded m) = Some (name ++ 63 :: q, role)) as Hsplit.
  { rewrite Hd. rewrite <- (rsplit_once_last (name ++ 63 :: q) role Hr). f_equal. by rewrite <- (assoc_L (++)). }
  split; [unfold parse_credential_identity; by rewrite Hsplit|].
  apply (verification_iff_named l rs data [m] me Hrun Hl); [by apply Forall_singleton; rewrite Hsplit|].
  apply Forall_singleton. right. exists name. split; [|done]. rewrite Hd. apply path_param_query; [done|].
  rewrite length_app. cbn. lia.
Qed.

End Client.

(** ** Instances *)

(** Sixteen letters for the sixteen half-bytes: an encoding with the
    contract. *)
Module HexBase.

Fixpoint enc (x : bytes) : bytes :=
  match x with
  | [] => []
  | b :: x => (65 + b / 16) :: (65 + b mod 16) :: enc x
  end.

Fixpoint dec (x : bytes) : option bytes :=
  match x with
  | [] => Some []
  | a :: y =>
      match y with
      | [] => None
      | b :: x => cons (16 * (a - 65) + (b - 65)) <$> dec x
      end
  end.

#[export] Instance ops : Base64 := {| b64_encode := enc; b64_decode := dec |}.

#[export] Instance laws : Base64Laws.
Proof.
  split; induction 1 as [|b x Hb Hx IH].
  - done.
  - cbn in IH |- *. rewrite IH. cbn. do 2 f_equal. lia.
  - constructor.
  - constructor; [width|]. constructor; [width|done].
Qed.

(** The text before the first question mark, when it stands for itself. *)
Fixpoint before_query (s : bytes) : bytes :=
  match s with
  | [] => []
  | b :: s => if b =? 63 then [] else b :: before_query s
  end.

#[export] Instance url : UrlPath := {|
  path_param s := if bool_decide (path_safe (before_query s)) then Ok (before_query s) else Err HttpStatus
|}.

Lemma before_query_safe s q : forallb segment_char s = true -> before_query (s ++ 63 :: q) = s /\ before_query s = s.
Proof.
  induction s as [|b s IH]; [done|]. cbn [forallb before_query app]. intros [Hb Hs]%andb_true_iff.
  destruct (Z.eqb_spec b 63) as [->|]; [done|]. destruct (IH Hs) as [-> ->]. done.
Qed.

#[export] Instance url_laws : UrlPathLaws.
Proof.
  split; intros; cbn [path_param url].
  - destruct (before_query_safe s [] (proj1 H)) as [_ ->]. by rewrite bool_decide_eq_true_2.
  - destruct (before_query_safe s q (proj1 H)) as [-> _]. by rewrite bool_decide_eq_true_2.
Qed.

Definition alice : bytes := generate_identity Sender 48231.
Definition bob : bytes := generate_identity Receiver 7.
Definition key_a : bytes := [1; 2; 3].
Definition key_b : bytes := [200; 100].

End HexBase.
Import HexBase.

Lemma verification_iff_first_registered_witness :
  let l := [(alice, key_a); (bob, key_b); (alice, key_b)] in
  verify_group_members (register_all AsData_default l).2 [mkMember alice key_a; mkMember bob key_b] bob = Ret tt /\
  verify_group_members (register_all AsData_default l).2 [mkMember alice key_b; mkMember bob key_b] bob <> Ret tt.
Proof.
  intros l.
  assert (Forall (fun x => bytes_ok x.2) l) as Hl by (repeat constructor; done).
  assert (register_all AsData_default l = ((register_all AsData_default l).1, (register_all AsData_default l).2))
    as Hrun by apply surjective_pairing.
  assert (forall k, Forall (fun m => is_Some (rsplit_once (decoded m))) [mkMember alice k; mkMember bob key_b])
    as Hp by (intros k; repeat constructor; vm_compute; eauto).
  assert (forall k, Forall (fun m => path_safe (decoded m)) [mkMember alice k; mkMember bob key_b])
    as Hs by (intros k; repeat constructor; try (vm_compute; congruence); apply Nat.leb_le; vm_compute; reflexivity).
  split.
  - apply (verification_iff_first_registered l _ _ _ bob Hrun Hl (Hp key_a)); [apply Hs|].
    constructor; [right; vm_compute; reflexivity|]. constructor; [left; reflexivity|constructor].
  - destruct (verification_iff_first_registered l _ _ _ bob Hrun Hl (Hp key_b)) as [_ Hiff].
    rewrite (Hiff (Hs key_b)).
    intros [[Heq|Heq] _]%Forall_cons; vm_compute in Heq; discriminate.
Defined.

(** Bob registered as a receiver; under [receiver-7:receiver?x:sender] his key
    passes as a sender's. *)
Lemma query_identity_unregistered_witness :
  let l := [(alice, key_a); (bob, key_b)] in
  let m := mkMember (bob ++ str_bytes "?x:sender") key_b in
  first_registered (decoded m) l = None /\
  parse_credential_identity (decoded m) = Ret (bob ++ str_bytes "?x", role_of Sender) /\
  verify_group_members (register_all AsData_default l).2 [m] alice = Ret tt.
Proof.
  intros l m. split; [vm_compute; reflexivity|].
  apply (query_identity_unregistered l (register_all AsData_default l).1 _ alice m bob (str_bytes "x") _ (role_of Sender)).
  - apply surjective_pairing.
  - repeat constructor; done.
  - vm_compute. reflexivity.
  - apply generate_identity_safe.
  - vm_compute. reflexivity.
  - repeat constructor; done.
  - cbn. lia.
  - reflexivity.
Defined.
