(* ===== verification/DeliveryService.v ===== *)
(** * DeliveryService: the OpenMLS delivery service the demo runs

    Models the handlers of src/third_party/openmls/delivery-service/ds/src/main.rs
    over the client records of delivery-service/ds-lib/src/lib.rs: key
    packages are published and consumed, a Welcome is queued for the clients
    whose reserved key packages it names, group messages are queued for
    their recipients, and each client fetches and empties its own queues.

    Key packages and MLS messages are OpenMLS values; [DsTypes] is what the
    service reads of them.  Requests arrive parsed, a body that does not
    parse being [None]; a body whose transfer fails is answered (206) before
    any state is read and is not a request here.  [iter] is the order in which a [HashMap] is
    iterated, any permutation of its entries.  A handler that panics while
    it holds a lock poisons it; [unwrap_data!] turns a poisoned lock into an
    internal server error. *)

From S2P Require Import Prelude Bytes.

(** What the service reads of OpenMLS values. *)
Class DsTypes (KP Msg : Type) := {
  (** The identity of the credential in a key package's leaf. *)
  kp_identity : KP -> bytes;
  kp_serialize : KP -> option bytes;
  (** [tls_serialize] of a client's key packages and of the client list. *)
  serialize_key_packages : list (bytes * KP) -> option bytes;
  serialize_ids : list bytes -> option bytes;
  (** [into_welcome]: the key package hashes of the joiners. *)
  welcome_secrets : Msg -> option (list bytes);
  (** [ProtocolMessage::try_from]: is it a handshake message, its group and
      its epoch. *)
  protocol_message : Msg -> option (bool * bytes * Z);
  (** [TlsSliceU16::tls_serialize_detached]. *)
  serialize_messages : list Msg -> option bytes
}.

(** ** State *)

Record ClientInfo (KP Msg : Type) := mkClientInfo {
  ci_id : bytes;
  key_packages : list (bytes * KP);
  reserved_key_pkg_hash : gset bytes;
  msgs : list Msg;
  welcome_queue : list Msg;
  auth_token : bytes
}.
Arguments mkClientInfo {KP Msg}.
Arguments ci_id {KP Msg}.
Arguments key_packages {KP Msg}.
Arguments reserved_key_pkg_hash {KP Msg}.
Arguments msgs {KP Msg}.
Arguments welcome_queue {KP Msg}.
Arguments auth_token {KP Msg}.

Record DsData (KP Msg : Type) := mkDsData {
  clients : gmap bytes (ClientInfo KP Msg);
  groups : gmap bytes Z;
  clients_poisoned : bool;
  groups_poisoned : bool
}.
Arguments mkDsData {KP Msg}.
Arguments clients {KP Msg}.
Arguments groups {KP Msg}.
Arguments clients_poisoned {KP Msg}.
Arguments groups_poisoned {KP Msg}.

(** An answer: success with a body of type [A], or a status. *)
Inductive Response (A : Type) :=
| Success (body : A)
| BadRequest
| Conflict
| NoContent
| NotFound
| Unauthorized
| NetworkAuthenticationRequired
| InternalServerError.
Arguments Success {A}.
Arguments BadRequest {A}.
Arguments Conflict {A}.
Arguments NoContent {A}.
Arguments NotFound {A}.
Arguments Unauthorized {A}.
Arguments NetworkAuthenticationRequired {A}.
Arguments InternalServerError {A}.

Section Service.
Context {KP Msg : Type} {TY : DsTypes KP Msg}.
Abbreviation client := (ClientInfo KP Msg).
Abbreviation data_t := (DsData KP Msg).
Context (iter : gmap bytes client -> list (bytes * client)).

Definition DsData_default : data_t := mkDsData ∅ ∅ false false.

Definition with_clients (data : data_t) (m : gmap bytes client) : data_t :=
  mkDsData m (groups data) (clients_poisoned data) (groups_poisoned data).

(** ** Clients *)

(** [ClientInfo::new]: the identity of the first key package names the
    client; [token] is the random one. *)
Definition ClientInfo_new (kps : list (bytes * KP)) (token : bytes) : outcome client :=
  first ← index kps 0;
  Ret (mkClientInfo (kp_identity (snd first)) kps ∅ [] [] token).

(** [ClientInfo::consume_kp]: the last key package, keeping one. *)
Definition consume_kp (c : client) : option KP * client :=
  if bool_decide (length (key_packages c) <= 1)%nat then (None, c)
  else
    match last (key_packages c) with
    | Some (hash, kp) =>
        (Some kp, mkClientInfo (ci_id c) (take (length (key_packages c) - 1) (key_packages c))
           ({[hash]} ∪ reserved_key_pkg_hash c) (msgs c) (welcome_queue c) (auth_token c))
    | None => (None, c)
    end.

Definition push_welcome (c : client) (hash : bytes) (m : Msg) : client :=
  mkClientInfo (ci_id c) (key_packages c) (reserved_key_pkg_hash c ∖ {[hash]}) (msgs c)
    (welcome_queue c ++ [m]) (auth_token c).

Definition push_msg (c : client) (m : Msg) : client :=
  mkClientInfo (ci_id c) (key_packages c) (reserved_key_pkg_hash c) (msgs c ++ [m])
    (welcome_queue c) (auth_token c).

(** ** Handlers *)

Definition register_client (data : data_t) (req : option (list (bytes * KP))) (token : bytes) :
    outcome (Response bytes * data_t) :=
  match req with
  | None => Ret (BadRequest, data)
  | Some [] => Ret (BadRequest, data)
  | Some kps =>
      info ← ClientInfo_new kps token;
      if clients_poisoned data then Ret (InternalServerError, data)
      else
        match clients data !! ci_id info with
        | Some _ => Ret (Conflict, data)
        | None => Ret (Success (auth_token info), with_clients data (<[ci_id info := info]> (clients data)))
        end
  end.

Definition list_clients (data : data_t) : Response bytes :=
  if clients_poisoned data then InternalServerError
  else
    match serialize_ids ((fun x => ci_id (snd x)) <$> iter (clients data)) with
    | Some b => Success b
    | None => InternalServerError
    end.

Definition reset (data : data_t) (reset_key : option bool) : Response unit * data_t :=
  match reset_key with
  | Some false => (NetworkAuthenticationRequired, data)
  | _ =>
      if clients_poisoned data || groups_poisoned data then (InternalServerError, data)
      else (Success tt, mkDsData ∅ ∅ false false)
  end.

Definition get_key_packages (data : data_t) (id : option bytes) : Response bytes :=
  if clients_poisoned data then InternalServerError
  else
    match id with
    | None => BadRequest
    | Some id =>
        match clients data !! id with
        | None => NoContent
        | Some c =>
            match serialize_key_packages (key_packages c) with
            | Some b => Success b
            | None => InternalServerError
            end
        end
    end.

Definition publish_key_packages (data : data_t) (id : option bytes)
    (req : option (list (bytes * KP) * bytes)) : Response unit * data_t :=
  if clients_poisoned data then (InternalServerError, data)
  else
    match id with
    | None => (BadRequest, data)
    | Some id =>
        match clients data !! id with
        | None => (NotFound, data)
        | Some c =>
            match req with
            | None => (BadRequest, data)
            | Some (kps, token) =>
                if bool_decide (auth_token c ≠ token) then (Unauthorized, data)
                else
                  let c := mkClientInfo (ci_id c) (key_packages c ++ kps) (reserved_key_pkg_hash c)
                             (msgs c) (welcome_queue c) (auth_token c) in
                  (Success tt, with_clients data (<[id := c]> (clients data)))
            end
        end
    end.

Definition consume_key_package (data : data_t) (id : option bytes) : Response bytes * data_t :=
  if clients_poisoned data then (InternalServerError, data)
  else
    match id with
    | None => (BadRequest, data)
    | Some id =>
        match clients data !! id with
        | None => (NoContent, data)
        | Some c =>
            let '(kp, c) := consume_kp c in
            let data := with_clients data (<[id := c]> (clients data)) in
            match kp with
            | None => (NoContent, data)
            | Some kp =>
                match kp_serialize kp with
                | Some b => (Success b, data)
                | None => (InternalServerError, data)
                end
            end
        end
    end.

(** The inner loop of [send_welcome]: the first client that reserved the
    hash gives it up and gets the message. *)
Fixpoint take_reserved (hash : bytes) (m : Msg) (l : list (bytes * client)) (cs : gmap bytes client) :
    bool * gmap bytes client :=
  match l with
  | [] => (false, cs)
  | (name, c) :: l =>
      if bool_decide (hash ∈ reserved_key_pkg_hash c)
      then (true, <[name := push_welcome c hash m]> cs)
      else take_reserved hash m l cs
  end.

Fixpoint deliver_welcome (secrets : list bytes) (m : Msg) (delivered : Z) (cs : gmap bytes client) :
    Z * gmap bytes client :=
  match secrets with
  | [] => (delivered, cs)
  | hash :: secrets =>
      let '(hit, cs) := take_reserved hash m (iter cs) cs in
      deliver_welcome secrets m (if hit then delivered + 1 else delivered) cs
  end.

Definition send_welcome (data : data_t) (body : option Msg) : outcome (Response unit) * data_t :=
  match body with
  | None => (Ret InternalServerError, data)
  | Some m =>
      match welcome_secrets m with
      | None => (Panic, data)
      | Some secrets =>
          if clients_poisoned data then (Ret InternalServerError, data)
          else
            let '(delivered, cs) := deliver_welcome secrets m 0 (clients data) in
            (Ret (if 0 <? delivered then Success tt else NoContent), with_clients data cs)
      end
  end.

(** The loop over the recipients. *)
Fixpoint queue_message (m : Msg) (recipients : list bytes) (cs : gmap bytes client) :
    Response unit * gmap bytes client :=
  match recipients with
  | [] => (Success tt, cs)
  | r :: recipients =>
      match cs !! r with
      | None => (NotFound, cs)
      | Some c => queue_message m recipients (<[r := push_msg c m]> cs)
      end
  end.

Definition msg_send (data : data_t) (body : option (Msg * list bytes)) : outcome (Response unit) * data_t :=
  match body with
  | None => (Ret InternalServerError, data)
  | Some (m, recipients) =>
      if clients_poisoned data || groups_poisoned data then (Ret InternalServerError, data)
      else
        match protocol_message m with
        | None => (Panic, mkDsData (clients data) (groups data) true true)
        | Some (handshake, group_id, epoch) =>
            let stale :=
              handshake &&
              match groups data !! group_id with Some group_epoch => epoch <? group_epoch | None => false end in
            if stale then (Ret Conflict, data)
            else
              let gs := if handshake then <[group_id := epoch]> (groups data) else groups data in
              let '(r, cs) := queue_message m recipients (clients data) in
              (Ret r, mkDsData cs gs false false)
        end
  end.

Definition msg_recv (data : data_t) (id : option bytes) (req : option bytes) :
    Response bytes * data_t :=
  if clients_poisoned data then (InternalServerError, data)
  else
    match id with
    | None => (BadRequest, data)
    | Some id =>
        match clients data !! id with
        | None => (NotFound, data)
        | Some c =>
            match req with
            | None => (BadRequest, data)
            | Some token =>
                if bool_decide (token ≠ auth_token c) then (Unauthorized, data)
                else
                  let out := welcome_queue c ++ msgs c in
                  let c := mkClientInfo (ci_id c) (key_packages c) (reserved_key_pkg_hash c) [] []
                             (auth_token c) in
                  let data := with_clients data (<[id := c]> (clients data)) in
                  match serialize_messages out with
                  | Some b => (Success b, data)
                  | None => (InternalServerError, data)
                  end
            end
        end
    end.

(** ** The service as a machine *)

Inductive DsRequest :=
| ReqRegister (kps : option (list (bytes * KP))) (token : bytes)
| ReqReset (key : option bool)
| ReqPublish (id : option bytes) (req : option (list (bytes * KP) * bytes))
| ReqConsume (id : option bytes)
| ReqWelcome (body : option Msg)
| ReqSend (body : option (Msg * list bytes))
| ReqRecv (id : option bytes) (req : option bytes).

(** The state a request leaves; [register_client] panics on no request the
    parser lets through. *)
Definition ds_step (data : data_t) (r : DsRequest) : data_t :=
  match r with
  | ReqRegister kps token => match register_client data kps token with Ret (_, d) => d | Panic => data end
  | ReqReset key => (reset data key).2
  | ReqPublish id req => (publish_key_packages data id req).2
  | ReqConsume id => (consume_key_package data id).2
  | ReqWelcome body => (send_welcome data body).2
  | ReqSend body => (msg_send data body).2
  | ReqRecv id req => (msg_recv data id req).2
  end.

Definition ds_run (data : data_t) (l : list DsRequest) : data_t := fold_left ds_step l data.

End Service.
