(* ===== verification/DeliveryFacts.v ===== *)
(** * DeliveryFacts: what the delivery service guarantees

    A Welcome reaches every client it names and nobody else, whatever the
    iteration order of the service's map; queues lose nothing except to
    their owner; group epochs never go back; and the request that disables
    the service. *)

From S2P Require Import Prelude Bytes DeliveryService.

Section Facts.
Context {KP Msg : Type} {TY : DsTypes KP Msg}.
Abbreviation client := (ClientInfo KP Msg).
Abbreviation data_t := (DsData KP Msg).
Context (iter : gmap bytes client -> list (bytes * client)).
Hypothesis Hiter : forall m, iter m ≡ₚ map_to_list m.

(** ** Welcomes *)

(** What one secret does to a client that reserved it. *)
Definition hand_over (hash : bytes) (m : Msg) (c : client) : client :=
  if bool_decide (hash ∈ reserved_key_pkg_hash c) then push_welcome c hash m else c.

(** A hash is reserved by at most one client. *)
Definition owned_once (cs : gmap bytes client) (hash : bytes) : Prop :=
  forall id id' c c', cs !! id = Some c -> cs !! id' = Some c' ->
    hash ∈ reserved_key_pkg_hash c -> hash ∈ reserved_key_pkg_hash c' -> id = id'.

Lemma take_reserved_found (hash : bytes) (m : Msg) (l : list (bytes * client)) cs id c :
  (forall name c, (name, c) ∈ l -> cs !! name = Some c) -> owned_once cs hash ->
  (id, c) ∈ l -> hash ∈ reserved_key_pkg_hash c ->
  take_reserved hash m l cs = (true, <[id := push_welcome c hash m]> cs).
Proof.
  intros Hsub Honce Hin Hr. induction l as [|[name c'] l IH]; [by apply elem_of_nil in Hin|]. cbn.
  case_bool_decide as Hc'.
  - assert (name = id) as -> by (eapply (Honce _ _ c' c); [apply Hsub; set_solver..|done|done]).
    assert (cs !! id = Some c') as H1 by (apply Hsub; set_solver).
    assert (cs !! id = Some c) as H2 by (apply Hsub; done). by simplify_eq.
  - apply elem_of_cons in Hin as [[= <- <-]|Hin]; [done|]. apply IH; [|done].
    intros n' c2 H'. apply Hsub. by right.
Qed.

Lemma take_reserved_none (hash : bytes) (m : Msg) (l : list (bytes * client)) (cs : gmap bytes client) :
  (forall name (c : client), (name, c) ∈ l -> hash ∉ reserved_key_pkg_hash c) -> take_reserved hash m l cs = (false, cs).
Proof.
  induction l as [|[name c] l IH]; intros Hn; cbn; [done|].
  rewrite bool_decide_eq_false_2 by (apply (Hn name); set_solver). apply IH. set_solver.
Qed.

(** Whatever the iteration order, the owner of the hash gets the message. *)
Lemma take_reserved_spec (hash : bytes) (m : Msg) cs :
  owned_once cs hash ->
  (take_reserved hash m (iter cs) cs).2 = hand_over hash m <$> cs /\
  ((take_reserved hash m (iter cs) cs).1 = true <->
   exists id c, cs !! id = Some c /\ hash ∈ reserved_key_pkg_hash c).
Proof.
  intros Honce.
  assert (forall name c, (name, c) ∈ iter cs <-> cs !! name = Some c) as Hmem
    by (intros; by rewrite Hiter, elem_of_map_to_list).
  destruct (decide (Exists (fun x => hash ∈ reserved_key_pkg_hash x.2) (iter cs))) as [Hex|Hno].
  - apply Exists_exists in Hex as ([id c] & Hin & Hr). cbn in Hr.
    rewrite (take_reserved_found hash m (iter cs) cs id c); [|by intros ? ? ?%Hmem|done|done|done].
    cbn. split; [|split; [intros _; exists id, c; by rewrite <- Hmem|done]].
    apply Hmem in Hin. apply map_eq. intros i. rewrite lookup_fmap.
    destruct (decide (i = id)) as [->|Hne].
    + rewrite lookup_insert_eq, Hin. cbn. unfold hand_over. by rewrite bool_decide_eq_true_2.
    + rewrite lookup_insert_ne by done. destruct (cs !! i) as [c'|] eqn:Hi; cbn; [|done].
      unfold hand_over. case_bool_decide; [|done]. destruct Hne. by eapply Honce.
  - assert (forall name c, (name, c) ∈ iter cs -> hash ∉ reserved_key_pkg_hash c) as Hn.
    { intros name c Hin Hr. apply Hno, Exists_exists. by exists (name, c). }
    rewrite take_reserved_none by done. cbn. split.
    + apply map_eq. intros i. rewrite lookup_fmap. destruct (cs !! i) as [c|] eqn:Hi; cbn; [|done].
      unfold hand_over. rewrite bool_decide_eq_false_2; [done|]. by eapply Hn, Hmem.
    + split; [done|]. intros (id & c & Hc & Hr). exfalso. eapply Hn; [by apply Hmem|done].
Qed.

Lemma hand_over_reserved (hash : bytes) (m : Msg) c :
  reserved_key_pkg_hash (hand_over hash m c) = reserved_key_pkg_hash c ∖ {[hash]}.
Proof using Type. clear Hiter iter. unfold hand_over. case_bool_decide; cbn; [done|]. apply leibniz_equiv. set_solver. Qed.

Lemma owned_once_hand_over cs hash m h :
  owned_once cs h -> owned_once (hand_over hash m <$> cs) h.
Proof.
  intros Honce id id' c c'. rewrite !lookup_fmap_Some. intros (c0 & <- & H0) (c1 & <- & H1).
  rewrite !hand_over_reserved. intros Hi Hi'. eapply Honce; [done..|set_solver|set_solver].
Qed.

Lemma filter_reserved_ext (X Y : gset bytes) (hashes : list bytes) :
  (forall h, h ∈ hashes -> h ∈ X <-> h ∈ Y) ->
  filter (fun h => h ∈ X) hashes = filter (fun h => h ∈ Y) hashes.
Proof using Type. clear Hiter iter.
  induction hashes as [|h hashes IH]; intros HXY; [done|]. rewrite !filter_cons, IH by set_solver.
  assert (h ∈ X <-> h ∈ Y) by (apply HXY; set_solver).
  destruct (decide (h ∈ X)), (decide (h ∈ Y)); tauto.
Qed.

(** The whole Welcome, from one client's point of view. *)
Definition after_welcome (m : Msg) (hashes : list bytes) (c : client) : client :=
  fold_left (fun c h => hand_over h m c) hashes c.

Lemma after_welcome_spec m hashes c :
  NoDup hashes ->
  let c' := after_welcome m hashes c in
  welcome_queue c' = welcome_queue c ++
    replicate (length (filter (fun h => h ∈ reserved_key_pkg_hash c) hashes)) m /\
  reserved_key_pkg_hash c' = reserved_key_pkg_hash c ∖ list_to_set hashes /\
  msgs c' = msgs c /\ key_packages c' = key_packages c /\ auth_token c' = auth_token c.
Proof using Type. clear Hiter iter.
  intros Hnd. revert c. induction Hnd as [|h hashes Hh Hnd IH]; intros c; cbn zeta; unfold after_welcome; cbn [fold_left].
  { cbn. rewrite app_nil_r. split_and!; try done. apply leibniz_equiv. set_solver. }
  specialize (IH (hand_over h m c)). cbn zeta in IH. unfold after_welcome in IH.
  destruct IH as (Hw & Hr & Hm & Hk & Ha).
  assert (filter (fun h0 => h0 ∈ reserved_key_pkg_hash (hand_over h m c)) hashes =
    filter (fun h0 => h0 ∈ reserved_key_pkg_hash c) hashes) as Heq.
  { apply filter_reserved_ext. intros h0 Hin. rewrite hand_over_reserved.
    assert (h0 <> h) by (by intros ->). set_solver. }
  rewrite Hw, Hr, Hm, Hk, Ha, Heq, hand_over_reserved. rewrite filter_cons.
  unfold hand_over. split_and!; try (by case_bool_decide).
  - destruct (decide (h ∈ reserved_key_pkg_hash c)).
    + rewrite bool_decide_eq_true_2 by done. cbn. by rewrite <- (assoc_L (++)).
    + by rewrite bool_decide_eq_false_2.
  - apply leibniz_equiv. set_solver.
Qed.

Lemma deliver_welcome_spec m hashes : forall n cs,
  0 <= n -> Forall (owned_once cs) hashes ->
  exists k, deliver_welcome iter hashes m n cs = (k, after_welcome m hashes <$> cs) /\ n <= k /\
    (NoDup hashes -> n < k <-> exists h id c, h ∈ hashes /\ cs !! id = Some c /\ h ∈ reserved_key_pkg_hash c).
Proof.
  induction hashes as [|h hashes IH]; intros n cs Hn Hall; cbn.
  { exists n. split; [f_equal; by rewrite map_fmap_id|]. split; [done|].
    intros _. split; [lia|]. intros (h & _ & _ & Hh & _). by apply elem_of_nil in Hh. }
  apply Forall_cons in Hall as [Hone Hall].
  destruct (take_reserved_spec h m cs Hone) as [Hcs Hhit].
  destruct (take_reserved h m (iter cs) cs) as [hit cs1]. cbn [fst snd] in Hcs, Hhit. subst cs1.
  destruct (IH (if hit then n + 1 else n) (hand_over h m <$> cs)) as (k & Hrun & Hle & Hk);
    [destruct hit; lia|eapply Forall_impl; [exact Hall|intros; by apply owned_once_hand_over]|].
  exists k. rewrite Hrun. split; [f_equal; by rewrite <- map_fmap_compose|].
  split; [destruct hit; lia|]. intros [Hnin Hnd]%NoDup_cons. specialize (Hk Hnd). split.
  - intros Hlt. destruct hit.
    + destruct (proj1 Hhit eq_refl) as (id & c & Hc & Hr). exists h, id, c. set_solver.
    + apply Hk in Hlt as (h' & id & c & Hh' & Hc & Hr). apply lookup_fmap_Some in Hc as (c0 & <- & Hc).
      rewrite hand_over_reserved in Hr. exists h', id, c0. set_solver.
  - intros (h' & id & c & Hh' & Hc & Hr). destruct hit; [lia|]. apply Hk.
    apply elem_of_cons in Hh' as [->|Hh']; [by assert (false = true) by (apply Hhit; eauto)|].
    exists h', id, (hand_over h m c). split; [done|]. rewrite lookup_fmap, Hc. split; [done|].
    rewrite hand_over_reserved. assert (h' <> h) by (by intros ->). set_solver.
Qed.

(** C36: A Welcome is queued once per named key package for the client that
    reserved it and for nobody else, which gives the reservation up and
    keeps everything else, whatever the iteration order of the service's
    map; the answer is OK exactly when somebody got it. Each named hash must
    be reserved by one client only. *)
Theorem welcome_delivered data m hashes :
  clients_poisoned data = false -> welcome_secrets m = Some hashes -> NoDup hashes ->
  Forall (owned_once (clients data)) hashes ->
  exists r data', send_welcome iter data (Some m) = (Ret r, data') /\
    (r = Success tt <-> exists h id c, h ∈ hashes /\ clients data !! id = Some c /\ h ∈ reserved_key_pkg_hash c) /\
    forall id, clients data' !! id = after_welcome m hashes <$> clients data !! id /\
      forall c, clients data !! id = Some c ->
        let c' := after_welcome m hashes c in
        welcome_queue c' = welcome_queue c ++
          replicate (length (filter (fun h => h ∈ reserved_key_pkg_hash c) hashes)) m /\
        reserved_key_pkg_hash c' = reserved_key_pkg_hash c ∖ list_to_set hashes /\
        msgs c' = msgs c /\ key_packages c' = key_packages c /\ auth_token c' = auth_token c.
Proof.
  intros Hp Hs Hnd Hone. unfold send_welcome. rewrite Hs, Hp.
  destruct (deliver_welcome_spec m hashes 0 (clients data) ltac:(lia) Hone) as (k & -> & Hk & Hiff).
  eexists _, _. split; [reflexivity|]. split.
  - rewrite <- Hiff by done. destruct (Z.ltb_spec 0 k); split; try done; lia.
  - intros id. cbn [clients with_clients]. rewrite lookup_fmap. split; [done|]. intros c _.
    by apply after_welcome_spec.
Qed.

(** ** Group epochs *)

Definition epoch_le (gs gs' : gmap bytes Z) : Prop :=
  forall g e, gs !! g = Some e -> exists e', gs' !! g = Some e' /\ e <= e'.

#[local] Instance epoch_le_preorder : PreOrder epoch_le.
Proof.
  split; [intros gs g e He; eauto with lia|].
  intros a b c Hab Hbc g e (e1 & He1 & H1)%Hab. apply Hbc in He1 as (e2 & He2 & H2). eauto with lia.
Qed.

Definition is_reset (r : @DsRequest KP Msg) : bool := match r with ReqReset _ => true | _ => false end.

(** Only [msg_send] and [reset] touch the group map. *)
Lemma step_groups data r :
  is_reset r = false -> epoch_le (groups data) (groups (ds_step iter data r)).
Proof.
  intros Hr. assert (forall d : data_t, groups d = groups data -> epoch_le (groups data) (groups d)) as Hsame
    by (intros d ->; reflexivity).
  destruct r as [kps token|key|id req|id|body|body|id req]; cbn [ds_step]; try discriminate.
  - apply Hsame. unfold register_client, ClientInfo_new. destruct kps as [[|k kps]|]; cbn; try done.
    repeat case_match; by simplify_eq.
  - apply Hsame. unfold publish_key_packages. repeat case_match; done.
  - apply Hsame. unfold consume_key_package. repeat case_match; by simplify_eq.
  - apply Hsame. unfold send_welcome. repeat case_match; done.
  - unfold msg_send. destruct body as [[m recipients]|]; [|by apply Hsame].
    destruct (clients_poisoned data || groups_poisoned data); [by apply Hsame|].
    destruct (protocol_message m) as [[[handshake group_id] epoch]|]; [|by apply Hsame].
    destruct handshake; cbn [andb].
    2: { destruct (queue_message _ _ _) as [resp cs]. by apply Hsame. }
    destruct (groups data !! group_id) as [e0|] eqn:Hg.
    + destruct (Z.ltb_spec epoch e0); [by apply Hsame|]. destruct (queue_message _ _ _) as [resp cs]. cbn.
      intros g e He. destruct (decide (g = group_id)) as [->|Hne].
      * rewrite lookup_insert_eq. simplify_eq. eauto.
      * rewrite lookup_insert_ne by done. eauto with lia.
    + destruct (queue_message _ _ _) as [resp cs]. cbn. intros g e He.
      rewrite lookup_insert_ne by congruence. eauto with lia.
  - apply Hsame. unfold msg_recv. repeat case_match; done.
Qed.

Lemma run_groups data l :
  forallb (fun r => negb (is_reset r)) l = true -> epoch_le (groups data) (groups (ds_run iter data l)).
Proof.
  revert data. induction l as [|r l IH]; intros data; cbn; [reflexivity|].
  rewrite andb_true_iff, negb_true_iff. intros [Hr Hl]. etransitivity; [by apply step_groups|by apply IH].
Qed.

(** Once the delivery service has seen a handshake message of an epoch, it
    refuses handshake messages of earlier epochs of that group for good,
    whatever it handles in between short of a reset. *)
Lemma group_epochs_monotone data l m recipients group_id epoch e :
  forallb (fun r => negb (is_reset r)) l = true ->
  groups data !! group_id = Some e -> protocol_message m = Some (true, group_id, epoch) -> epoch < e ->
  let data' := ds_run iter data l in
  clients_poisoned data' = false -> groups_poisoned data' = false ->
  msg_send data' (Some (m, recipients)) = (Ret Conflict, data').
Proof.
  intros Hl Hg Hm He data' Hp Hq. destruct (run_groups data l Hl group_id e Hg) as (e' & He' & Hle).
  unfold msg_send. rewrite Hp, Hq, Hm. cbn [orb andb]. fold data' in He'. rewrite He'.
  by destruct (Z.ltb_spec epoch e'); [|lia].
Qed.

(** ** The request that disables the service *)

(** Every handler answers with an internal error once the locks are poisoned. *)
Lemma poisoned_step data r :
  clients_poisoned data = true -> ds_step iter data r = data.
Proof.
  intros Hp. destruct r as [kps token|key|id req|id|body|body|id req]; cbn [ds_step].
  - unfold register_client, ClientInfo_new. destruct kps as [[|k kps]|]; cbn; try done. by rewrite Hp.
  - unfold reset. rewrite Hp. by destruct key as [[]|].
  - unfold publish_key_packages. by rewrite Hp.
  - unfold consume_key_package. by rewrite Hp.
  - unfold send_welcome. rewrite Hp. destruct body as [m|]; [|done]. by destruct (welcome_secrets m).
  - unfold msg_send. rewrite Hp. by destruct body as [[]|].
  - unfold msg_recv. by rewrite Hp.
Qed.

(** Every well-formed request is answered with an internal error. *)
Definition out_of_service (data : data_t) : Prop :=
  (forall kp kps token, register_client data (Some (kp :: kps)) token = Ret (InternalServerError, data)) /\
  list_clients iter data = InternalServerError /\
  reset data (Some true) = (InternalServerError, data) /\
  (forall id, get_key_packages data id = InternalServerError) /\
  (forall id req, publish_key_packages data id req = (InternalServerError, data)) /\
  (forall id, consume_key_package data id = (InternalServerError, data)) /\
  (forall m hashes, welcome_secrets m = Some hashes ->
     send_welcome iter data (Some m) = (Ret InternalServerError, data)) /\
  (forall body, msg_send data body = (Ret InternalServerError, data)) /\
  (forall id req, msg_recv data id req = (InternalServerError, data)).

Lemma poisoned_out_of_service data : clients_poisoned data = true -> out_of_service data.
Proof.
  intros Hp. unfold out_of_service, register_client, list_clients, reset, get_key_packages,
    publish_key_packages, consume_key_package, send_welcome, msg_send, msg_recv. rewrite Hp.
  split_and!; try done; [by intros m hashes ->|by intros [[]|]].
Qed.

(** C37: One group message that is not a protocol message panics in msg_send
    with both locks held, after which the delivery service answers every
    well-formed request with an internal error for good. *)
Theorem non_protocol_message_disables data m recipients l :
  clients_poisoned data = false -> groups_poisoned data = false -> protocol_message m = None ->
  let data' := ds_run iter data (ReqSend (Some (m, recipients)) :: l) in
  out_of_service data' /\ clients data' = clients data.
Proof.
  intros Hp Hq Hm.
  assert (forall d, clients_poisoned d = true -> ds_run iter d l = d) as Hstay.
  { intros d Hd. induction l as [|r l' IH]; cbn; [done|]. by rewrite poisoned_step. }
  cbn zeta. unfold ds_run. cbn [fold_left ds_step]. unfold msg_send. rewrite Hp, Hq, Hm. cbn [orb snd].
  fold (ds_run iter (mkDsData (clients data) (groups data) true true) l). rewrite Hstay by done.
  split; [by apply poisoned_out_of_service|done].
Qed.

(** ** Mailboxes *)

(** A client's record may gain queued messages and keeps its token. *)
Definition grows (c c' : client) : Prop :=
  auth_token c' = auth_token c /\ welcome_queue c `prefix_of` welcome_queue c' /\ msgs c `prefix_of` msgs c'.

#[local] Instance grows_preorder : PreOrder grows.
Proof.
  split; [by intros c|]. intros a b c (Ha & Hw & Hm) (Ha' & Hw' & Hm').
  split_and!; [congruence|by etransitivity|by etransitivity].
Qed.

(** Every client of one map is in the other, possibly with more queued. *)
Definition map_grows (cs cs' : gmap bytes client) : Prop :=
  forall id c, cs !! id = Some c -> exists c', cs' !! id = Some c' /\ grows c c'.

#[local] Instance map_grows_preorder : PreOrder map_grows.
Proof.
  split; [intros cs id c Hc; by exists c|]. intros a b c Hab Hbc id x (y & Hy & Hxy)%Hab.
  apply Hbc in Hy as (z & Hz & Hyz). exists z. split; [done|by etransitivity].
Qed.

Lemma insert_grows cs id c c' : cs !! id = Some c -> grows c c' -> map_grows cs (<[id := c']> cs).
Proof.
  intros Hc Hg i x Hx. destruct (decide (i = id)) as [->|Hne].
  - rewrite lookup_insert_eq. simplify_eq. eauto.
  - rewrite lookup_insert_ne by done. by exists x.
Qed.

Lemma push_msg_grows (c : client) m : grows c (push_msg c m).
Proof. split_and!; [done|done|by exists [m]]. Qed.

Lemma push_welcome_grows (c : client) hash m : grows c (push_welcome c hash m).
Proof. split_and!; [done|by exists [m]|done]. Qed.

Lemma consume_kp_grows (c : client) : grows c (consume_kp c).2.
Proof. unfold consume_kp. repeat case_match; reflexivity || by split_and!. Qed.

Lemma queue_message_grows m recipients cs : map_grows cs (queue_message m recipients cs).2.
Proof.
  revert cs. induction recipients as [|r recipients IH]; intros cs; cbn; [reflexivity|].
  destruct (cs !! r) as [c|] eqn:Hr; [|reflexivity].
  etransitivity; [|apply IH]. eapply insert_grows; [done|apply push_msg_grows].
Qed.

Lemma take_reserved_grows (hash : bytes) (m : Msg) (l : list (bytes * client)) cs :
  (forall name c, (name, c) ∈ l -> cs !! name = Some c) -> map_grows cs (take_reserved hash m l cs).2.
Proof.
  induction l as [|[name c] l IH]; intros Hsub; cbn; [reflexivity|]. case_bool_decide.
  - eapply insert_grows; [apply Hsub; by left|apply push_welcome_grows].
  - apply IH. intros. apply Hsub. by right.
Qed.

Lemma deliver_welcome_grows m hashes n cs : map_grows cs (deliver_welcome iter hashes m n cs).2.
Proof.
  revert n cs. induction hashes as [|h hashes IH]; intros n cs; cbn; [reflexivity|].
  pose proof (take_reserved_grows h m (iter cs) cs) as Hg.
  destruct (take_reserved h m (iter cs) cs) as [hit cs1]. etransitivity; [apply Hg|apply IH].
  intros name c. by rewrite Hiter, elem_of_map_to_list.
Qed.

(** A request other than a reset and than the client's own fetch. *)
Definition leaves_mailbox (id token : bytes) (r : @DsRequest KP Msg) : Prop :=
  match r with
  | ReqReset _ => False
  | ReqRecv (Some i) (Some t) => i ≠ id \/ t ≠ token
  | _ => True
  end.

Lemma step_grows data r id c :
  clients data !! id = Some c -> leaves_mailbox id (auth_token c) r ->
  exists c', clients (ds_step iter data r) !! id = Some c' /\ grows c c'.
Proof.
  intros Hc Hl. assert (forall d : data_t, map_grows (clients data) (clients d) ->
    exists c', clients d !! id = Some c' /\ grows c c') as Hmap by (intros d Hd; by apply Hd).
  destruct r as [kps token|key|i req|i|body|body|i req]; cbn [ds_step] in Hl |- *; [| |apply Hmap..|].
  - unfold register_client, ClientInfo_new. destruct kps as [[|k kps]|]; cbn; [by exists c| |by exists c].
    destruct (clients_poisoned data); [by exists c|].
    destruct (clients data !! kp_identity k.2) as [c0|] eqn:H0; [by exists c|]; cbn.
    rewrite lookup_insert_ne by congruence. by exists c.
  - done.
  - unfold publish_key_packages. destruct (clients_poisoned data); [reflexivity|].
    destruct i as [i|]; [|reflexivity]. destruct (clients data !! i) as [ci|] eqn:Hi; [|reflexivity].
    destruct req as [[kps token]|]; [|reflexivity]. case_bool_decide; [reflexivity|].
    by eapply insert_grows.
  - unfold consume_key_package. destruct (clients_poisoned data); [reflexivity|].
    destruct i as [i|]; [|reflexivity]. destruct (clients data !! i) as [ci|] eqn:Hi; [|reflexivity].
    pose proof (consume_kp_grows ci) as Hg. destruct (consume_kp ci) as [kp ci'].
    assert (map_grows (clients data) (<[i := ci']> (clients data))) by (by eapply insert_grows).
    destruct kp as [kp|]; [|done]. by destruct (kp_serialize kp).
  - unfold send_welcome. destruct body as [m|]; [|reflexivity].
    destruct (welcome_secrets m) as [hashes|]; [|reflexivity]. destruct (clients_poisoned data); [reflexivity|].
    pose proof (deliver_welcome_grows m hashes 0 (clients data)).
    by destruct (deliver_welcome iter hashes m 0 (clients data)).
  - unfold msg_send. destruct body as [[m recipients]|]; [|reflexivity].
    destruct (clients_poisoned data || groups_poisoned data); [reflexivity|].
    destruct (protocol_message m) as [[[handshake group_id] epoch]|]; [|reflexivity]. cbn zeta.
    destruct (handshake && _); [reflexivity|]. pose proof (queue_message_grows m recipients (clients data)).
    by destruct (queue_message m recipients (clients data)).
  - unfold msg_recv. destruct (clients_poisoned data); [by exists c|]. destruct i as [i|]; [|by exists c].
    destruct (clients data !! i) as [ci|] eqn:Hi; [|by exists c]. destruct req as [t|]; [|by exists c].
    case_bool_decide as Ht; [by exists c|].
    assert (i ≠ id) by (intros ->; simplify_eq; destruct Hl as [Hl|Hl]; by apply Hl). exists c. split; [|reflexivity].
    destruct (serialize_messages _); cbn; by rewrite lookup_insert_ne.
Qed.

Lemma run_grows data l id c :
  clients data !! id = Some c -> Forall (leaves_mailbox id (auth_token c)) l ->
  exists c', clients (ds_run iter data l) !! id = Some c' /\ grows c c'.
Proof.
  revert data c. induction l as [|r l IH]; intros data c Hc Hl; cbn; [by exists c|].
  apply Forall_cons in Hl as [Hr Hl]. destruct (step_grows data r id c Hc Hr) as (c1 & Hc1 & Hg).
  destruct (IH (ds_step iter data r) c1 Hc1) as (c2 & Hc2 & Hg2); [by rewrite (proj1 Hg)|].
  exists c2. split; [done|by etransitivity].
Qed.

(** Whatever requests the delivery service handles, short of a reset, a
    client's queued welcomes and messages stay in order until a fetch with
    the client's own token, which answers with all of them and empties the
    queues. *)
Lemma queued_until_fetched data l id c :
  clients data !! id = Some c -> Forall (leaves_mailbox id (auth_token c)) l ->
  let data' := ds_run iter data l in
  clients_poisoned data' = false ->
  exists welcomes messages,
    welcome_queue c `prefix_of` welcomes /\ msgs c `prefix_of` messages /\
    (msg_recv data' (Some id) (Some (auth_token c))).1 =
      match serialize_messages (welcomes ++ messages) with Some b => Success b | None => InternalServerError end /\
    exists c', clients (msg_recv data' (Some id) (Some (auth_token c))).2 !! id = Some c' /\
      welcome_queue c' = [] /\ msgs c' = [].
Proof.
  intros Hc Hl data' Hp. destruct (run_grows data l id c Hc Hl) as (c' & Hc' & Ha & Hw & Hm).
  exists (welcome_queue c'), (msgs c'). split; [done|]. split; [done|]. fold data' in Hc'.
  unfold msg_recv. rewrite Hp, Hc', Ha, bool_decide_eq_false_2 by tauto. cbn zeta.
  destruct (serialize_messages _); (split; [done|]); cbn; rewrite lookup_insert_eq; eauto.
Qed.

End Facts.

(** ** A small instance *)

Module DsExample.

Inductive message :=
| WelcomeMsg (joiners : list bytes)
| ProtocolMsg (handshake : bool) (group_id : bytes) (epoch : Z).

(** Key packages are their owner's identity. *)
#[export] Instance types : DsTypes bytes message := {
  kp_identity kp := kp;
  kp_serialize kp := Some kp;
  serialize_key_packages kps := Some (concat kps.*2);
  serialize_ids ids := Some (concat ids);
  welcome_secrets m := match m with WelcomeMsg joiners => Some joiners | _ => None end;
  protocol_message m := match m with ProtocolMsg h g e => Some (h, g, e) | _ => None end;
  serialize_messages l := Some (replicate (length l) 0)
}.

Definition iter (m : gmap bytes (ClientInfo bytes message)) : list (bytes * ClientInfo bytes message) :=
  map_to_list m.

Definition alice : bytes := [1].
Definition bob : bytes := [2].
Definition carol : bytes := [3].
Definition bob_token : bytes := [42].

(** Bob and Carol register two key packages each, one of which is consumed. *)
Definition setup : list (@DsRequest bytes message) :=
  [ReqRegister (Some [([20], bob); ([21], bob)]) bob_token; ReqRegister (Some [([30], carol); ([31], carol)]) [43];
   ReqConsume (Some bob); ReqConsume (Some carol)].

Definition invited : DsData bytes message := ds_run iter DsData_default setup.

Definition welcome : message := WelcomeMsg [[21]; [31]].
Definition commit (epoch : Z) : message := ProtocolMsg true [9] epoch.

(** The Welcome and a first commit are queued. *)
Definition started : DsData bytes message :=
  ds_run iter invited [ReqWelcome (Some welcome); ReqSend (Some (commit 5, [bob; carol]))].

Definition bob_record (data : DsData bytes message) : ClientInfo bytes message :=
  default (mkClientInfo [] [] ∅ [] [] []) (clients data !! bob).

(** Bob has both in his queues. *)
Example bob_queues :
  welcome_queue (bob_record started) = [welcome] /\ msgs (bob_record started) = [commit 5].
Proof. vm_compute. done. Qed.

End DsExample.
Import DsExample.

Lemma invited_reserved id c :
  clients invited !! id = Some c ->
  (id = bob /\ reserved_key_pkg_hash c = {[ [21] ]}) \/ (id = carol /\ reserved_key_pkg_hash c = {[ [31] ]}).
Proof.
  replace (clients invited) with
    (<[bob := bob_record invited]> {[carol := default (bob_record invited) (clients invited !! carol)]} :
     gmap bytes (ClientInfo bytes message))
    by (vm_compute; reflexivity).
  intros [[<- <-]|[_ [<- <-]%lookup_singleton_Some]]%lookup_insert_Some; [left|right];
    (split; [reflexivity|vm_compute; reflexivity]).
Qed.

Lemma invited_owned_once hash : owned_once (clients invited) hash.
Proof.
  intros id id' c c' Hc Hc' Hh Hh'.
  destruct (invited_reserved id c Hc) as [[-> Hr]|[-> Hr]],
    (invited_reserved id' c' Hc') as [[-> Hr']|[-> Hr']]; try reflexivity; exfalso;
    rewrite Hr in Hh; rewrite Hr' in Hh'; apply elem_of_singleton in Hh, Hh'; congruence.
Qed.

Lemma welcome_delivered_witness :
  exists r data', send_welcome DsExample.iter invited (Some welcome) = (Ret r, data') /\
    (r = Success tt <-> exists h id c, h ∈ [[21]; [31]] /\ clients invited !! id = Some c /\
       h ∈ reserved_key_pkg_hash c).
Proof.
  destruct (welcome_delivered DsExample.iter (fun m => Permutation_refl _) invited welcome [[21]; [31]])
    as (r & data' & Hs & Hr & _).
  - vm_compute. reflexivity.
  - reflexivity.
  - apply (bool_decide_unpack _). vm_compute. exact I.
  - apply Forall_cons. split; [apply invited_owned_once|]. apply Forall_cons. split; [apply invited_owned_once|].
    apply Forall_nil. exact I.
  - exists r, data'. split; [exact Hs|exact Hr].
Defined.

Lemma group_epochs_monotone_witness :
  let data := ds_run DsExample.iter started [ReqSend (Some (commit 7, [bob])); ReqConsume (Some bob)] in
  msg_send data (Some (commit 4, [bob])) = (Ret Conflict, data).
Proof.
  apply (group_epochs_monotone DsExample.iter started
    [ReqSend (Some (commit 7, [bob])); ReqConsume (Some bob)] (commit 4) [bob] [9] 4 5);
    vm_compute; reflexivity.
Defined.

Lemma non_protocol_message_disables_witness :
  let data := ds_run DsExample.iter started
    [ReqSend (Some (welcome, [])); ReqRecv (Some bob) (Some bob_token); ReqReset (Some true)] in
  out_of_service DsExample.iter data /\ clients data = clients started.
Proof.
  apply (non_protocol_message_disables DsExample.iter started welcome []
    [ReqRecv (Some bob) (Some bob_token); ReqReset (Some true)]); vm_compute; reflexivity.
Defined.

Lemma queued_until_fetched_witness :
  exists welcomes messages, [welcome] `prefix_of` welcomes /\ [commit 5] `prefix_of` messages /\
    (msg_recv (ds_run DsExample.iter started
       [ReqSend (Some (commit 6, [carol; bob])); ReqRecv (Some bob) (Some [0])]) (Some bob) (Some bob_token)).1 =
    Success (replicate (length (welcomes ++ messages)) 0).
Proof.
  destruct (queued_until_fetched DsExample.iter (fun m => Permutation_refl _) started
    [ReqSend (Some (commit 6, [carol; bob])); ReqRecv (Some bob) (Some [0])] bob (bob_record started))
    as (welcomes & messages & Hw & Hm & Hr & _).
  - vm_compute. reflexivity.
  - apply Forall_cons. split; [exact I|]. apply Forall_cons. split; [right; vm_compute; discriminate|].
    apply Forall_nil. exact I.
  - vm_compute. reflexivity.
  - exists welcomes, messages. split; [exact Hw|]. split; [exact Hm|]. exact Hr.
Defined.
