(* ===== verification/MlsGroups.v ===== *)
(** * MlsGroups: members, groups and rekeying

    Models [MlsMember], [create_rekey_commit] and [process_commit] of
    src/src/keying/mls.rs over the group state machine of the vendored
    OpenMLS ([MlsGroupState], [is_operational], [add_members], [self_update],
    [merge_pending_commit], [merge_staged_commit], [process_message],
    [keys_for_welcome]).  What OpenMLS computes below that state machine, the
    ratchet tree, the key schedule, message protection and key generation,
    is the class [MlsLib]; [MlsLaws] is what RFC 9420 promises of it.  An
    [EpochState] is what all members of an epoch share (the public group and
    the epoch secrets), an [OwnState] what one member keeps to itself.
    Random bytes are arguments.  Key stores are in memory and do not fail. *)

From S2P Require Import Prelude Bytes Crypto Mls Credentials DeliveryService.

(** ** The library below the group state machine *)

Record StagedCommit (E O : Type) := mkStagedCommit {
  staged_epoch : E;
  staged_own : O;
  self_removed : bool
}.
Arguments mkStagedCommit {E O}.
Arguments staged_epoch {E O}.
Arguments staged_own {E O}.
Arguments self_removed {E O}.

(** What [process_message] finds in a message. *)
Inductive ProcessedMessageContent (E O : Type) :=
| StagedCommitMessage (staged : StagedCommit E O)
| OtherContent.
Arguments StagedCommitMessage {E O}.
Arguments OtherContent {E O}.

(** A created commit: the message, the Welcome for the added members, and the
    state it leads to. *)
Record CommitResult (E O Msg : Type) := mkCommitResult {
  commit_msg : Msg;
  commit_welcome : option Msg;
  commit_staged : StagedCommit E O
}.
Arguments mkCommitResult {E O Msg}.
Arguments commit_msg {E O Msg}.
Arguments commit_welcome {E O Msg}.
Arguments commit_staged {E O Msg}.

Class MlsLib := {
  Signer : Type;
  KeyPackage : Type;
  (** A key package with its private keys. *)
  Bundle : Type;
  EpochState : Type;
  OwnState : Type;
  Msg : Type;
  keypair_new : bytes -> option Signer;
  to_public_vec : Signer -> bytes;
  build_bundle : bytes -> Signer -> Member -> option Bundle;
  key_package : Bundle -> KeyPackage;
  hash_ref : KeyPackage -> option bytes;
  (** [KeyPackageIn::validate]: signatures, version, distinct keys. *)
  validate : KeyPackage -> bool;
  (** The credential and signature key of the leaf. *)
  kp_member : KeyPackage -> Member;
  (** All public keys of a key package, and of an epoch's tree. *)
  kp_keys : KeyPackage -> list bytes;
  ep_keys : EpochState -> list bytes;
  new_epoch : bytes -> Signer -> Member -> option (EpochState * OwnState);
  ep_members : EpochState -> list Member;
  ep_number : EpochState -> Z;
  ep_group_id : EpochState -> bytes;
  ep_exporter_secret : EpochState -> bytes;
  build_commit : bytes -> Signer -> EpochState -> OwnState -> list KeyPackage ->
    option (CommitResult EpochState OwnState Msg);
  stage_message : EpochState -> OwnState -> Msg -> option (ProcessedMessageContent EpochState OwnState);
  (** Decrypting a Welcome with the keys of one key package. *)
  open_welcome : Bundle -> Msg -> option (EpochState * OwnState)
}.

(** The checks on added key packages: each valid, no public key twice and
    none already in the tree. *)
Definition addable `{MlsLib} (e : EpochState) (kps : list KeyPackage) : Prop :=
  Forall (fun kp => validate kp = true) kps /\ NoDup (ep_keys e ++ concat (kp_keys <$> kps)).

Class MlsLaws `{L : MlsLib} {TY : DsTypes KeyPackage Msg} := {
  (** [holds e o m]: [o] is the private state of member [m] in epoch [e]. *)
  holds : EpochState -> OwnState -> Member -> Prop;
  keypair_some coins : exists s, keypair_new coins = Some s /\ bytes_ok (to_public_vec s);
  bundle_some coins s m : signature_key m = to_public_vec s ->
    exists b h, build_bundle coins s m = Some b /\ hash_ref (key_package b) = Some h /\
      kp_member (key_package b) = m /\ validate (key_package b) = true;
  kp_identity_member kp : kp_identity kp = mem_identity (kp_member kp);
  new_epoch_some coins s m : signature_key m = to_public_vec s ->
    exists e o, new_epoch coins s m = Some (e, o) /\ ep_members e = [m] /\ holds e o m;
  secret_length e o m : holds e o m -> length (ep_exporter_secret e) = HASH_LEN;
  (** A member can commit, adding valid key packages or none. *)
  commit_some coins s e o m kps :
    holds e o m -> to_public_vec s = signature_key m -> kps = [] \/ addable e kps ->
    is_Some (build_commit coins s e o kps);
  (** The epoch a commit leads to. *)
  commit_epoch coins s e o m kps c : build_commit coins s e o kps = Some c -> holds e o m ->
    let e' := staged_epoch (commit_staged c) in
    self_removed (commit_staged c) = false /\ holds e' (staged_own (commit_staged c)) m /\
    ep_members e' ≡ₚ ep_members e ++ (kp_member <$> kps) /\
    ep_number e' = ep_number e + 1 /\ ep_group_id e' = ep_group_id e;
  (** The commit is a handshake message of its epoch, and every other member
      of the epoch reads from it the same next epoch. *)
  commit_protocol coins s e o kps c : build_commit coins s e o kps = Some c ->
    protocol_message (commit_msg c) = Some (true, ep_group_id e, ep_number e);
  commit_staged_by_others coins s e o m kps c o' m' :
    build_commit coins s e o kps = Some c -> holds e o m -> holds e o' m' ->
    signature_key m' <> signature_key m ->
    exists o'', stage_message e o' (commit_msg c) =
      Some (StagedCommitMessage (mkStagedCommit (staged_epoch (commit_staged c)) o'' false)) /\
      holds (staged_epoch (commit_staged c)) o'' m';
  (** The Welcome names the added key packages, and each of them opens it. *)
  commit_welcome_some coins s e o kps c :
    build_commit coins s e o kps = Some c -> kps <> [] ->
    exists w hs, commit_welcome c = Some w /\ welcome_secrets w = Some hs /\
      exists hs', mapM hash_ref kps = Some hs' /\ hs ≡ₚ hs';
  welcome_opens coins s e o m kps c w b :
    build_commit coins s e o kps = Some c -> holds e o m -> commit_welcome c = Some w ->
    key_package b ∈ kps ->
    exists o', open_welcome b w = Some (staged_epoch (commit_staged c), o') /\
      holds (staged_epoch (commit_staged c)) o' (kp_member (key_package b));
  (** A handshake message is accepted in its own epoch only. *)
  stage_current e o msg content g n :
    stage_message e o msg = Some content -> protocol_message msg = Some (true, g, n) -> n = ep_number e
}.

(** ** Groups *)

Section Groups.
Context {L : MlsLib} {TY : DsTypes KeyPackage Msg}.
Abbreviation staged_t := (StagedCommit EpochState OwnState).

Inductive MlsGroupState :=
| PendingCommit (staged : staged_t)
| Operational
| Inactive.

Record Group := mkGroup {
  group_state : MlsGroupState;
  epoch_state : EpochState;
  own_state : OwnState
}.

Inductive MlsError :=
| PendingCommitError
| UseAfterEvictionError
| EmptyInput
| LibraryFailure
| NoMatchingKeyPackage.

Definition is_operational (g : Group) : result unit MlsError :=
  match group_state g with
  | PendingCommit _ => Err PendingCommitError
  | Inactive => Err UseAfterEvictionError
  | Operational => Ok tt
  end.

Definition is_active (g : Group) : bool :=
  match group_state g with Inactive => false | _ => true end.

(** What the exporter of Mls.v reads. *)
Definition exporter_view (g : Group) : MlsGroup :=
  mkMlsGroup (is_active g) (ep_number (epoch_state g)) (ep_exporter_secret (epoch_state g)).

Definition members (g : Group) : list Member := ep_members (epoch_state g).

Definition group_new (coins : bytes) (signer : Signer) (credential_with_key : Member) : result Group MlsError :=
  match new_epoch coins signer credential_with_key with
  | Some (e, o) => Ok (mkGroup Operational e o)
  | None => Err LibraryFailure
  end.

(** The commit builder with [stage_commit]: the commit is pending until it is
    merged. *)
Definition commit_builder (coins : bytes) (signer : Signer) (g : Group) (adds : list KeyPackage) :
    result (Msg * option Msg * Group) MlsError :=
  match build_commit coins signer (epoch_state g) (own_state g) adds with
  | Some c => Ok (commit_msg c, commit_welcome c,
                  mkGroup (PendingCommit (commit_staged c)) (epoch_state g) (own_state g))
  | None => Err LibraryFailure
  end.

Definition add_members (coins : bytes) (signer : Signer) (g : Group) (kps : list KeyPackage) :
    result (Msg * Msg * Group) MlsError :=
  match is_operational g with
  | Err e => Err e
  | Ok _ =>
      if bool_decide (length kps = 0%nat) then Err EmptyInput
      else
        match commit_builder coins signer g kps with
        | Err e => Err e
        | Ok (commit, Some welcome, g) => Ok (commit, welcome, g)
        | Ok (_, None, _) => Err LibraryFailure
        end
  end.

Definition self_update (coins : bytes) (signer : Signer) (g : Group) : result (Msg * Group) MlsError :=
  match is_operational g with
  | Err e => Err e
  | Ok _ =>
      match commit_builder coins signer g [] with
      | Err e => Err e
      | Ok (commit, _, g) => Ok (commit, g)
      end
  end.

Definition merge_staged_commit (g : Group) (staged : staged_t) : Group :=
  let state := if self_removed staged then Inactive else group_state g in
  (* a pending commit is cleared *)
  let state := match state with PendingCommit _ => Operational | s => s end in
  mkGroup state (staged_epoch staged) (staged_own staged).

Definition merge_pending_commit (g : Group) : result Group MlsError :=
  match group_state g with
  | PendingCommit staged => Ok (merge_staged_commit (mkGroup Operational (epoch_state g) (own_state g)) staged)
  | Inactive => Err UseAfterEvictionError
  | Operational => Ok g
  end.

Definition process_message (g : Group) (msg : Msg) :
    result (ProcessedMessageContent EpochState OwnState) MlsError :=
  if is_active g then
    match stage_message (epoch_state g) (own_state g) msg with
    | Some content => Ok content
    | None => Err LibraryFailure
    end
  else Err UseAfterEvictionError.

(** ** Members *)

(** The key packages of the provider's storage, by hash. *)
Abbreviation storage_t := (gmap bytes Bundle).

Record MlsMember := mkMlsMember {
  provider : storage_t;
  signer : Signer;
  credential_with_key : Member
}.

Definition MlsMember_new (coins identity : bytes) : outcome MlsMember :=
  signer ← expect (keypair_new coins);
  Ret (mkMlsMember ∅ signer (mkMember identity (to_public_vec signer))).

(** The builder stores the bundle under its hash. *)
Definition generate_key_package (coins : bytes) (m : MlsMember) : outcome (Bundle * MlsMember) :=
  b ← expect (build_bundle coins (signer m) (credential_with_key m));
  h ← expect (hash_ref (key_package b));
  Ret (b, mkMlsMember (<[h := b]> (provider m)) (signer m) (credential_with_key m)).

(** The first joiner of the Welcome whose key package is stored here; the key
    package is used up. *)
Fixpoint keys_for_welcome (storage : storage_t) (secrets : list bytes) : option (Bundle * storage_t) :=
  match secrets with
  | [] => None
  | h :: secrets =>
      match storage !! h with
      | Some b => Some (b, delete h storage)
      | None => keys_for_welcome storage secrets
      end
  end.

(** [StagedWelcome::new_from_welcome] and [into_group]. *)
Definition join_from_welcome (m : MlsMember) (welcome : Msg) (secrets : list bytes) :
    result Group MlsError * MlsMember :=
  match keys_for_welcome (provider m) secrets with
  | None => (Err NoMatchingKeyPackage, m)
  | Some (b, storage) =>
      (match open_welcome b welcome with
       | Some (e, o) => Ok (mkGroup Operational e o)
       | None => Err LibraryFailure
       end,
       mkMlsMember storage (signer m) (credential_with_key m))
  end.

(** ** Rekeying *)

Definition create_rekey_commit (coins : bytes) (signer : Signer) (g : Group) : outcome (Msg * Group) :=
  '(commit, g) ← expect_ok (self_update coins signer g);
  g ← expect_ok (merge_pending_commit g);
  Ret (commit, g).

Definition process_commit (g : Group) (commit : Msg) : outcome Group :=
  _ ← expect (protocol_message commit);
  processed ← expect_ok (process_message g commit);
  match processed with
  | StagedCommitMessage staged => Ret (merge_staged_commit g staged)
  | OtherContent => Panic
  end.

(** Every member but the committer handles the commit. *)
Fixpoint process_all (groups : list Group) (commit : Msg) : outcome (list Group) :=
  match groups with
  | [] => Ret []
  | g :: groups =>
      g ← process_commit g commit;
      groups ← process_all groups commit;
      Ret (g :: groups)
  end.

(** A rekey by the member at position [i]; the commit reaches all others. *)
Definition rekey_round (groups : list (Signer * Group)) (i : nat) (coins : bytes) :
    outcome (list (Signer * Group)) :=
  '(s, g) ← expect (groups !! i);
  '(commit, g) ← create_rekey_commit coins s g;
  before ← process_all (take i groups).*2 commit;
  after ← process_all (drop (S i) groups).*2 commit;
  Ret (zip groups.*1 (before ++ g :: after)).

Fixpoint rekey_rounds (groups : list (Signer * Group)) (l : list (nat * bytes)) :
    outcome (list (Signer * Group)) :=
  match l with
  | [] => Ret groups
  | (i, coins) :: l => groups ← rekey_round groups i coins; rekey_rounds groups l
  end.

End Groups.
