(* ===== verification/MlsFacts.v ===== *)
(** * MlsFacts: rekeying keeps the members together

    A commit of any member moves every member that handles it to one new
    epoch, with the same secrets to export; a commit of another epoch stops
    the member that handles it.  [ToyMls] is an executable instance of the
    library interface. *)

From S2P Require Import Prelude Bytes Crypto Mls Credentials DeliveryService MlsGroups.

Section Facts.
Context {L : MlsLib} {TY : DsTypes KeyPackage Msg} {ML : MlsLaws}.

(** A member's group, ready, in epoch [e]. *)
Definition ready_in (e : EpochState) (x : Signer * Group) (m : Member) : Prop :=
  group_state x.2 = Operational /\ epoch_state x.2 = e /\ holds e (own_state x.2) m /\
  to_public_vec x.1 = signature_key m.

(** The groups of the members [ms], all in epoch [e]. *)
Definition in_epoch (e : EpochState) (groups : list (Signer * Group)) (ms : list Member) : Prop :=
  Forall2 (ready_in e) groups ms.

(** A rekey succeeds on an operational group and moves it on. *)
Lemma create_rekey_ok coins s g e m :
  ready_in e (s, g) m ->
  exists c, build_commit coins s e (own_state g) [] = Some c /\
    create_rekey_commit coins s g =
      Ret (commit_msg c, mkGroup Operational (staged_epoch (commit_staged c)) (staged_own (commit_staged c))) /\
    holds (staged_epoch (commit_staged c)) (staged_own (commit_staged c)) m /\
    ep_members (staged_epoch (commit_staged c)) ≡ₚ ep_members e /\
    ep_number (staged_epoch (commit_staged c)) = ep_number e + 1 /\
    ep_group_id (staged_epoch (commit_staged c)) = ep_group_id e.
Proof.
  intros (Hst & He & Hh & Hs). cbn [fst snd] in *.
  destruct (commit_some coins s e (own_state g) m [] Hh Hs (or_introl eq_refl)) as [c Hc].
  pose proof (commit_epoch _ _ _ _ _ _ _ Hc Hh) as (Hrm & Hh' & Hm & Hn & Hg). cbn zeta in *.
  exists c. split; [done|]. cbn [fmap list_fmap] in Hm. rewrite app_nil_r in Hm. split_and!; try done.
  unfold create_rekey_commit, self_update, is_operational, commit_builder. rewrite Hst, He, Hc.
  cbn. unfold merge_staged_commit. by rewrite Hrm.
Qed.

(** Another member of the epoch follows. *)
Lemma process_commit_ok coins s e o m c x m' :
  build_commit coins s e o [] = Some c -> holds e o m -> ready_in e x m' ->
  signature_key m' <> signature_key m ->
  exists g', process_commit x.2 (commit_msg c) = Ret g' /\
    ready_in (staged_epoch (commit_staged c)) (x.1, g') m'.
Proof.
  intros Hc Hh (Hst & He & Hh' & Hs) Hne.
  destruct (commit_staged_by_others _ _ _ _ _ _ _ _ _ Hc Hh Hh' Hne) as (o'' & Hstage & Hh'').
  exists (mkGroup Operational (staged_epoch (commit_staged c)) o''). split; [|by split_and!].
  unfold process_commit, process_message, is_active.
  rewrite (commit_protocol _ _ _ _ _ _ Hc), Hst, He, Hstage. cbn.
  unfold merge_staged_commit. cbn. by rewrite Hst.
Qed.

Lemma process_all_ok coins s e o m c groups ms :
  build_commit coins s e o [] = Some c -> holds e o m -> in_epoch e groups ms ->
  signature_key m ∉ (signature_key <$> ms) ->
  exists groups', process_all groups.*2 (commit_msg c) = Ret groups' /\ length groups' = length groups /\
    in_epoch (staged_epoch (commit_staged c)) (zip groups.*1 groups') ms.
Proof.
  intros Hc Hh Hin. induction Hin as [|x m' groups ms Hx Hin IH]; intros Hnot; cbn.
  { exists []. by split_and!; [..|constructor]. }
  apply not_elem_of_cons in Hnot as [Hne Hnot].
  destruct (process_commit_ok _ _ _ _ _ _ _ _ Hc Hh Hx (not_eq_sym Hne)) as (g' & -> & Hg').
  destruct (IH Hnot) as (groups' & -> & Hlen & Hin'). cbn. eexists. split; [done|]. cbn.
  split; [by rewrite Hlen|]. by constructor.
Qed.

Lemma zip_app_mid {A B} (l1 l2 : list A) (a : A) (k1 k2 : list B) b :
  length k1 = length l1 -> zip (l1 ++ a :: l2) (k1 ++ b :: k2) = zip l1 k1 ++ (a, b) :: zip l2 k2.
Proof. intros Hl. by rewrite zip_with_app by done. Qed.

(** One round. *)
Lemma rekey_round_ok e groups ms i coins :
  in_epoch e groups ms -> NoDup (signature_key <$> ms) -> (i < length groups)%nat ->
  exists e' groups', rekey_round groups i coins = Ret groups' /\ in_epoch e' groups' ms /\
    ep_members e' ≡ₚ ep_members e /\ ep_number e' = ep_number e + 1 /\ ep_group_id e' = ep_group_id e.
Proof.
  intros Hin Hnd Hi. destruct (lookup_lt_is_Some_2 _ _ Hi) as [[s g] Hg].
  rewrite <- (take_drop_middle groups i (s, g) Hg) in Hin.
  apply Forall2_app_inv_l in Hin as (ms1 & ms2 & H1 & Hmid & ->).
  apply Forall2_cons_inv_l in Hmid as (m & ms3 & Hm & H2 & ->).
  rewrite fmap_app in Hnd. cbn in Hnd. apply NoDup_app in Hnd as (_ & Hd1 & Hnd).
  apply NoDup_cons in Hnd as [Hd2 _].
  assert (signature_key m ∉ (signature_key <$> ms1)) as Hd1' by (intros Hx; eapply Hd1; [exact Hx|by left]).
  destruct (create_rekey_ok coins s g e m Hm) as (c & Hc & Hcr & Hh' & Hmem & Hn & Hgid).
  pose proof Hm as (_ & _ & Hh & Hs). cbn [fst snd] in *.
  destruct (process_all_ok _ _ _ _ _ _ _ _ Hc Hh H1 Hd1') as (b & Hb & Hbl & Hbin).
  destruct (process_all_ok _ _ _ _ _ _ _ _ Hc Hh H2 Hd2) as (a & Ha & Hal & Hain).
  exists (staged_epoch (commit_staged c)). eexists. unfold rekey_round. rewrite Hg. cbn [expect mbind outcome_bind].
  rewrite Hcr. cbn [mbind outcome_bind]. rewrite Hb. cbn [mbind outcome_bind]. rewrite Ha.
  cbn [mbind outcome_bind]. split; [reflexivity|]. split; [|done].
  rewrite <- (take_drop_middle groups i (s, g) Hg) at 1. rewrite fmap_app. cbn [fmap list_fmap fst].
  rewrite zip_app_mid by (by rewrite length_fmap).
  apply Forall2_app; [exact Hbin|]. constructor; [by split_and!|exact Hain].
Qed.

Lemma in_epoch_length e groups ms : in_epoch e groups ms -> length groups = length ms.
Proof. apply Forall2_length. Qed.

Lemma rekey_rounds_ok l : forall e groups ms,
  in_epoch e groups ms -> NoDup (signature_key <$> ms) ->
  Forall (fun x => x.1 < length groups)%nat l ->
  exists e' groups', rekey_rounds groups l = Ret groups' /\ in_epoch e' groups' ms /\
    ep_members e' ≡ₚ ep_members e /\ ep_number e' = ep_number e + Z.of_nat (length l) /\
    ep_group_id e' = ep_group_id e.
Proof.
  induction l as [|[i coins] l IH]; intros e groups ms Hin Hnd Hl.
  { exists e, groups. split_and!; [done..| |done]. cbn. lia. }
  apply Forall_cons in Hl as [Hi Hl].
  destruct (rekey_round_ok e groups ms i coins Hin Hnd Hi) as (e1 & groups1 & Hr & Hin1 & Hm1 & Hn1 & Hg1).
  destruct (IH e1 groups1 ms Hin1 Hnd) as (e2 & groups2 & Hr2 & Hin2 & Hm2 & Hn2 & Hg2).
  { by rewrite (in_epoch_length _ _ _ Hin1), <- (in_epoch_length _ _ _ Hin). }
  exists e2, groups2. cbn [rekey_rounds]. rewrite Hr. cbn [mbind outcome_bind]. split; [done|].
  split; [done|]. split; [by rewrite Hm2|]. split; [cbn [length]; lia|congruence].
Qed.

(** Members of an epoch export the same SRTP keys. *)
Lemma ready_export {CR : Crypto} {CL : CryptoLaws} e x m ssrc :
  ready_in e x m ->
  exporter_view x.2 = mkMlsGroup true (ep_number e) (ep_exporter_secret e) /\
  exists key salt, export_srtp_keys (exporter_view x.2) ssrc = Ret (key ++ salt, key, salt).
Proof.
  intros (Hst & He & Hh & _). unfold exporter_view, is_active. rewrite Hst, He. split; [done|].
  destruct (export_srtp_keys_ok (mkMlsGroup true (ep_number e) (ep_exporter_secret e)) ssrc) as (k & a & Hk & _);
    [done|by eapply secret_length|]. by exists k, a.
Qed.

(** What the laws of [MlsLib] give for whole sequences of rekeyings: after any
    [create_rekey_commit]s by members of an epoch, each processed by all
    others, every member is in the same new epoch and all export the same SRTP
    keys. *)
Lemma rekey_agreement {CR : Crypto} {CL : CryptoLaws} e groups ms l :
  in_epoch e groups ms -> NoDup (signature_key <$> ms) ->
  Forall (fun x => x.1 < length groups)%nat l ->
  exists e' groups', rekey_rounds groups l = Ret groups' /\ in_epoch e' groups' ms /\
    ep_members e' ≡ₚ ep_members e /\ ep_number e' = ep_number e + Z.of_nat (length l) /\
    forall x y ssrc, x ∈ groups' -> y ∈ groups' ->
      export_srtp_keys (exporter_view x.2) ssrc = export_srtp_keys (exporter_view y.2) ssrc /\
      export_srtp_keys (exporter_view x.2) ssrc <> Panic.
Proof.
  intros Hin Hnd Hl. destruct (rekey_rounds_ok l e groups ms Hin Hnd Hl) as (e' & groups' & Hr & Hin' & Hm & Hn & _).
  exists e', groups'. split_and!; try done. intros x y ssrc Hx Hy.
  assert (forall z, z ∈ groups' -> exists m, ready_in e' z m) as Hall.
  { intros z [j Hj]%list_elem_of_lookup. destruct (Forall2_lookup_l _ _ _ _ _ Hin' Hj) as (m & _ & Hz). eauto. }
  destruct (Hall x Hx) as [mx Hmx], (Hall y Hy) as [my Hmy].
  destruct (ready_export e' x mx ssrc Hmx) as (-> & k & a & Hk). destruct (ready_export e' y my ssrc Hmy) as (-> & _).
  by rewrite Hk.
Qed.

(** A commit of another epoch stops the member that handles it:
    [process_commit] expects every message to be of the current epoch. *)
Lemma stale_commit_panics coins s g commit g' x :
  create_rekey_commit coins s g = Ret (commit, g') ->
  ep_number (epoch_state x) <> ep_number (epoch_state g) ->
  process_commit x commit = Panic.
Proof.
  unfold create_rekey_commit, self_update. intros H Hne.
  destruct (is_operational g); [|done]. unfold commit_builder in H.
  destruct (build_commit coins s (epoch_state g) (own_state g) []) as [c|] eqn:Hc; [|done]. cbn in H.
  injection H as <- _. pose proof (commit_protocol _ _ _ _ _ _ Hc) as Hp.
  unfold process_commit, process_message. rewrite Hp. cbn [expect mbind outcome_bind].
  destruct (is_active x); [|done].
  destruct (stage_message (epoch_state x) (own_state x) (commit_msg c)) as [content|] eqn:Hs; [|done].
  by destruct (Hne (eq_sym (stage_current _ _ _ _ _ _ Hs Hp))).
Qed.

End Facts.
