(* ===== verification/DsClient.v ===== *)
(** * DsClient: the client's calls to the delivery service

    Models [DsClient] of src/demo/safecast-client/src/ds_client.rs against
    the handlers of DeliveryService.v (the calls to the authentication
    service are in Credentials.v).  The HTTP library carries a request to the
    handler and its answer back; a handler that panics answers nothing.  The
    TLS codec is a package outside the repository: the class [DsWire], whose
    law is that what was encoded decodes to itself.  Identities travel in the
    path as URL-safe base64.  An [AuthToken] is its encoding. *)

From S2P Require Import Prelude Bytes Credentials DeliveryService.

Class DsWire (KP Msg : Type) := {
  encode_register : list (bytes * KP) -> option bytes;
  decode_register : bytes -> option (list (bytes * KP));
  decode_key_package : bytes -> option KP;
  decode_ids : bytes -> option (list bytes);
  encode_message : Msg -> option bytes;
  decode_message : bytes -> option Msg;
  decode_messages : bytes -> option (list Msg)
}.

Class DsWireLaws {KP Msg : Type} {TY : DsTypes KP Msg} {W : DsWire KP Msg} := {
  decode_encode_register kps b : encode_register kps = Some b -> decode_register b = Some kps;
  decode_encode_key_package kp b : kp_serialize kp = Some b -> decode_key_package b = Some kp;
  decode_encode_ids ids b : serialize_ids ids = Some b -> b <> [] /\ decode_ids b = Some ids;
  decode_encode_message m b : encode_message m = Some b -> decode_message b = Some m;
  decode_encode_messages l b : serialize_messages l = Some b -> b <> [] /\ decode_messages b = Some l
}.

(** The error strings of the client, by the place that builds them. *)
Inductive DsError := DsSerializeFailed | DsRequestFailed | DsHttpStatus | DsParseFailed.

(** The fields that change; the base URLs name the two services. *)
Record DsClient := mkDsClient {
  dc_auth_token : option bytes;
  dc_client_id : option bytes
}.

Definition DsClient_new : DsClient := mkDsClient None None.

Section DsClient.
Context {KP Msg : Type} {TY : DsTypes KP Msg} {W : DsWire KP Msg}.
Context {URL : Base64}.
Abbreviation data_t := (DsData KP Msg).
Context (iter : gmap bytes (ClientInfo KP Msg) -> list (bytes * ClientInfo KP Msg)).

(** What the service decodes from the path segment the client encoded. *)
Definition path_id (identity : bytes) : option bytes := b64_decode (b64_encode identity).

Definition id_of (self : DsClient) : outcome bytes := expect (dc_client_id self).
Definition token_of (self : DsClient) : outcome bytes := expect (dc_auth_token self).

Definition register_with_ds (self : DsClient) (data : data_t) (identity : bytes)
    (key_packages : list (bytes * KP)) (token : bytes) : result unit DsError * DsClient * data_t :=
  match encode_register key_packages with
  | None => (Err DsSerializeFailed, self, data)
  | Some body =>
      match register_client data (decode_register body) token with
      | Panic => (Err DsRequestFailed, self, data)
      | Ret (Success auth_token, data) => (Ok tt, mkDsClient (Some auth_token) (Some identity), data)
      | Ret (NoContent, data) => (Err DsParseFailed, self, data)
      | Ret (_, data) => (Err DsHttpStatus, self, data)
      end
  end.

(** An empty body is an empty list. *)
Definition read_list {A} (decode : bytes -> option (list A)) (body : bytes) : result (list A) DsError :=
  if bool_decide (body = []) then Ok []
  else match decode body with Some l => Ok l | None => Err DsParseFailed end.

Definition client_list_clients (data : data_t) : result (list bytes) DsError :=
  match list_clients iter data with
  | Success body => read_list decode_ids body
  | NoContent => Ok []
  | _ => Err DsHttpStatus
  end.

Definition client_consume_key_package (data : data_t) (client_identity : bytes) :
    result (option bytes) DsError * data_t :=
  let '(r, data) := consume_key_package data (path_id client_identity) in
  (match r with
   | NoContent => Ok None
   | Success body => Ok (Some body)
   | _ => Err DsHttpStatus
   end, data).

(** Any 2xx status is a success, 204 included. *)
Definition client_send_welcome (data : data_t) (welcome_bytes : bytes) : result unit DsError * data_t :=
  let '(r, data) := send_welcome iter data (decode_message welcome_bytes) in
  (match r with
   | Panic => Err DsRequestFailed
   | Ret (Success _) | Ret NoContent => Ok tt
   | Ret _ => Err DsHttpStatus
   end, data).

Definition recv_messages (self : DsClient) (data : data_t) : outcome (result (list Msg) DsError * data_t) :=
  token ← token_of self;
  identity ← id_of self;
  let '(r, data) := msg_recv data (path_id identity) (Some token) in
  Ret (match r with
       | Success body => read_list decode_messages body
       | NoContent => Ok []
       | _ => Err DsHttpStatus
       end, data).

End DsClient.
