(* ===== verification/ToyMls.v ===== *)
(** * ToyMls: an executable instance of the library interfaces

    A transparent MLS library and codec that keep the laws of [MlsLaws] and
    [DsWireLaws], on which the setup of the demo can be run.  An epoch is its
    group id, number, members and secret; a Welcome and a commit carry the
    next epoch in the clear; an encoding is the number stdpp assigns to a
    countable value. *)

From stdpp Require Import countable.
From S2P Require Import Prelude Bytes Crypto Mls Credentials DeliveryService DsClient MlsGroups.

#[export] Instance Member_eq_dec : EqDecision Member.
Proof. solve_decision. Defined.
#[export] Instance Member_countable : Countable Member.
Proof.
  apply (inj_countable' (fun m => (mem_identity m, signature_key m)) (fun x => mkMember x.1 x.2)).
  by intros [].
Defined.

Module ToyMls.

Record kp := mk_kp { owner : Member; nonce : bytes }.
Record epoch := mk_epoch { gid : bytes; number : Z; mems : list Member; secret : bytes }.
Inductive message :=
| WelcomeFor (kps : list kp) (e : epoch)
| CommitTo (gid : bytes) (number : Z) (e : epoch)
| Application (data : bytes).

#[export] Instance kp_eq_dec : EqDecision kp.
Proof. solve_decision. Defined.
#[export] Instance kp_countable : Countable kp.
Proof. apply (inj_countable' (fun x => (owner x, nonce x)) (fun x => mk_kp x.1 x.2)). by intros []. Defined.
#[export] Instance epoch_eq_dec : EqDecision epoch.
Proof. solve_decision. Defined.
#[export] Instance epoch_countable : Countable epoch.
Proof.
  apply (inj_countable' (fun x => (gid x, number x, mems x, secret x))
    (fun x => mk_epoch x.1.1.1 x.1.1.2 x.1.2 x.2)). by intros [].
Defined.
#[export] Instance message_eq_dec : EqDecision message.
Proof. solve_decision. Defined.
#[export] Instance message_countable : Countable message.
Proof.
  apply (inj_countable'
    (fun m => match m with
      | WelcomeFor kps e => inl (kps, e)
      | CommitTo g n e => inr (inl (g, n, e))
      | Application d => inr (inr d) end)
    (fun x => match x with
      | inl (kps, e) => WelcomeFor kps e
      | inr (inl (g, n, e)) => CommitTo g n e
      | inr (inr d) => Application d end)). by intros [].
Defined.

(** An encoding of any countable type. *)
Definition enc {A} `{Countable A} (x : A) : option bytes := Some [Z.pos (encode x)].
Definition dec {A} `{Countable A} (b : bytes) : option A :=
  match b with [Z.pos p] => decode p | _ => None end.

Lemma dec_enc {A} `{Countable A} (x : A) b : enc x = Some b -> b <> [] /\ dec b = Some x.
Proof. intros [= <-]. split; [done|]. apply decode_encode. Qed.

(** The hash of a key package tells its owner's key and its nonce. *)
Definition kp_hash (x : kp) : bytes := signature_key (owner x) ++ [256] ++ nonce x.

Definition next_epoch (coins : bytes) (e : epoch) (kps : list kp) : epoch :=
  mk_epoch (gid e) (number e + 1) (mems e ++ (owner <$> kps)) (Toy.stream 32 (Toy.mix (coins ++ secret e))).

#[export] Instance lib : MlsLib := {
  Signer := bytes;
  KeyPackage := kp;
  Bundle := kp;
  EpochState := epoch;
  OwnState := Member;
  Msg := message;
  keypair_new coins := Some (u8 <$> coins);
  to_public_vec s := s;
  build_bundle coins s m := Some (mk_kp m coins);
  key_package b := b;
  hash_ref x := Some (kp_hash x);
  validate x := true;
  kp_member x := owner x;
  kp_keys x := [signature_key (owner x); nonce x];
  ep_keys e := signature_key <$> mems e;
  new_epoch coins s m := Some (mk_epoch coins 0 [m] (Toy.stream 32 (Toy.mix coins)), m);
  ep_members e := mems e;
  ep_number e := number e;
  ep_group_id e := gid e;
  ep_exporter_secret e := secret e;
  build_commit coins s e o kps :=
    let e' := next_epoch coins e kps in
    Some (mkCommitResult (CommitTo (gid e) (number e) e')
      (match kps with [] => None | _ => Some (WelcomeFor kps e') end) (mkStagedCommit e' o false));
  stage_message e o msg :=
    match msg with
    | CommitTo g n e' =>
        if bool_decide (g = gid e /\ n = number e) then Some (StagedCommitMessage (mkStagedCommit e' o false)) else None
    | _ => None
    end;
  open_welcome b w :=
    match w with
    | WelcomeFor kps e => if bool_decide (b ∈ kps) then Some (e, owner b) else None
    | _ => None
    end
}.

#[export] Instance types : DsTypes KeyPackage Msg := {
  kp_identity x := mem_identity (owner x);
  kp_serialize x := enc (x : kp);
  serialize_key_packages kps := enc (kps : list (bytes * kp));
  serialize_ids ids := enc ids;
  welcome_secrets m := match m with WelcomeFor kps _ => Some (kp_hash <$> kps) | _ => None end;
  protocol_message m :=
    match m with
    | WelcomeFor _ _ => None
    | CommitTo g n _ => Some (true, g, n)
    | Application _ => Some (false, [], 0)
    end;
  serialize_messages l := enc (l : list message)
}.

#[export] Instance wire : DsWire KeyPackage Msg := {
  encode_register kps := enc (kps : list (bytes * kp));
  decode_register b := (dec b : option (list (bytes * kp)));
  decode_key_package b := (dec b : option kp);
  decode_ids b := dec b;
  encode_message m := enc (m : message);
  decode_message b := (dec b : option message);
  decode_messages b := (dec b : option (list message))
}.

#[export] Instance wire_laws : DsWireLaws.
Proof. split; intros; by eapply dec_enc. Qed.

#[export] Instance laws : MlsLaws.
Proof.
  refine {| holds (e : EpochState) (o : OwnState) m := o = m /\ length (secret e) = 32%nat |}.
  - intros coins. eexists. split; [reflexivity|]. apply Forall_fmap, Forall_true. intros x. apply u8_range.
  - intros coins s m _. by eexists _, _.
  - done.
  - intros coins s m _. eexists _, _. split_and!; try reflexivity.
  - by intros e o m [_ Hl].
  - intros. cbn. by eexists.
  - intros coins s e o m kps c [= <-] [-> _]. cbn. split_and!; try done.
  - by intros coins s e o kps c [= <-].
  - intros coins s e o m kps c o' m' [= <-] _ [-> _] _. eexists. cbn.
    rewrite bool_decide_eq_true_2 by done. split; [done|]. split; [done|]. done.
  - intros coins s e o kps c [= <-] Hne. cbn. exists (WelcomeFor kps (next_epoch coins e kps)).
    eexists. split; [by destruct kps|]. split; [done|]. exists (kp_hash <$> kps). split; [|done].
    clear Hne. induction kps as [|x kps IH]; [done|]. cbn in IH |- *. by rewrite IH.
  - intros coins s e o m kps c w b [= <-] _ Hw Hb. cbn in Hw. destruct kps; [done|]. injection Hw as <-. eexists. cbn.
    rewrite bool_decide_eq_true_2 by done. split; [done|]. split; [done|]. done.
  - intros e o [|g' n' e'|] content g n Hs Hp; try done. cbn in Hs, Hp. injection Hp as -> ->.
    by case_bool_decide as Hb; [destruct Hb|].
Defined.

End ToyMls.
