(* ===== verification/GroupSetup.v ===== *)
(** * GroupSetup: from start to a verified MLS group

    Models the setup half of the demo client
    (src/demo/safecast-client/src/main.rs): registration with both services,
    [create_group], [join_group] and the verification of the members, for
    any number of clients that run concurrently against one authentication
    service and one delivery service.  A client is a state machine whose
    steps are its HTTP calls, with the local computation up to the next one;
    the services handle one request at a time, so an execution is a sequence
    of steps of any clients in any order ([sys_run] over a schedule).  A poll
    that finds nothing leaves the client where it is; sleeping is not
    modelled.  A panic ends the client ([Crashed]). *)

From S2P Require Import Prelude Bytes Utf8 Crypto Mls AuthService Identity Credentials DeliveryService DsClient MlsGroups.

(** The command line, without the URLs. *)
Record Cli := mkCli {
  mode : Mode;
  senders : Z;
  receivers : Z;
  packets : Z
}.

(** The random bytes a client draws, and the token the service draws for it. *)
Record Coins := mkCoins {
  coins_signer : bytes;
  coins_kp1 : bytes;
  coins_kp2 : bytes;
  coins_group : bytes;
  coins_commit : bytes;
  coins_token : bytes
}.

Record Config := mkConfig {
  cli : Cli;
  pid : Z;
  coins : Coins
}.

Definition identity (c : Config) : bytes := generate_identity (mode (cli c)) (pid c).

Definition is_creator (c : Config) : bool := match mode (cli c) with Creator => true | _ => false end.

(** [cli.senders + cli.receivers], 32-bit. *)
Definition expected_peers (c : Config) : Z := u32 (senders (cli c) + receivers (cli c)).

Section Setup.
Context {L : MlsLib} {TY : DsTypes KeyPackage Msg} {W : DsWire KeyPackage Msg}.
(** The encodings of path segments and of keys. *)
Context (URL : Base64) {B64 : Base64} {UP : UrlPath}.
Context (iter : gmap bytes (ClientInfo KeyPackage Msg) -> list (bytes * ClientInfo KeyPackage Msg)).

(** ** One client *)

(** Where a client is: before its registrations; the creator listing the
    clients, fetching the key package of the first peer left, or checking
    the one it got; a joiner polling for its Welcome; verifying the members
    left; done. *)
Inductive Phase :=
| Starting
| AsRegistered
| Discovering
| Fetching (peers : list bytes) (peer_kps : list KeyPackage)
| Checking (kp_bytes peer : bytes) (peers : list bytes) (peer_kps : list KeyPackage)
| Waiting
| Verifying (rest : list Member) (group : Group)
| Ready (group : Group)
| Crashed.

Record Proc := mkProc {
  cfg : Config;
  phase : Phase;
  ds_client : DsClient;
  member : MlsMember
}.

Definition set_phase (p : Proc) (ph : Phase) : Proc := mkProc (cfg p) ph (ds_client p) (member p).

(** The start of [main]: the identity parses, and the member is created. *)
Definition client_start (c : Config) : outcome Proc :=
  _ ← parse_credential_identity (identity c);
  m ← MlsMember_new (coins_signer (coins c)) (identity c);
  Ret (mkProc c Starting DsClient_new m).

Record World := mkWorld {
  as_data : AsData;
  ds_data : DsData KeyPackage Msg
}.

(** A step that panics leaves the client crashed. *)
Definition or_crash (p : Proc) (o : outcome Proc) : Proc :=
  match o with Ret p' => p' | Panic => set_phase p Crashed end.

Definition step_register_as (p : Proc) (w : World) : Proc * World :=
  let '(r, d) := register_with_as (as_data w) (identity (cfg p)) (to_public_vec (signer (member p))) in
  (or_crash p (_ ← expect_ok r; Ret (set_phase p AsRegistered)), mkWorld d (ds_data w)).

(** Two key packages with their hashes. *)
Definition make_key_packages (p : Proc) : outcome (list (bytes * KeyPackage) * MlsMember) :=
  '(kp1, m) ← generate_key_package (coins_kp1 (coins (cfg p))) (member p);
  '(kp2, m) ← generate_key_package (coins_kp2 (coins (cfg p))) m;
  h1 ← expect (hash_ref (key_package kp1));
  h2 ← expect (hash_ref (key_package kp2));
  Ret ([(h1, key_package kp1); (h2, key_package kp2)], m).

Definition step_register_ds (p : Proc) (w : World) : Proc * World :=
  match make_key_packages p with
  | Panic => (set_phase p Crashed, w)
  | Ret (kps, m) =>
      let '(r, self, d) :=
        register_with_ds (ds_client p) (ds_data w) (identity (cfg p)) kps (coins_token (coins (cfg p))) in
      (or_crash p (_ ← expect_ok r;
         Ret (mkProc (cfg p) (if is_creator (cfg p) then Discovering else Waiting) self m)),
       mkWorld (as_data w) d)
  end.

(** ** The creator *)

Definition step_discover (p : Proc) (w : World) : Proc * World :=
  (or_crash p
     (clients ← expect_ok (client_list_clients iter (ds_data w));
      let peers := filter (fun n => n <> identity (cfg p)) (from_utf8_lossy <$> clients) in
      if expected_peers (cfg p) <=? Z.of_nat (length peers)
      then Ret (set_phase p (Fetching peers [])) else Ret p),
   w).

Definition step_fetch (p : Proc) (w : World) (peer : bytes) (peers : list bytes) (kps : list KeyPackage) :
    Proc * World :=
  match parse_credential_identity peer with
  | Panic => (set_phase p Crashed, w)
  | Ret _ =>
      let '(r, d) := client_consume_key_package (URL := URL) (ds_data w) peer in
      (or_crash p
         (found ← expect_ok r;
          match found with
          | Some kp_bytes => Ret (set_phase p (Checking kp_bytes peer peers kps))
          | None => Ret p
          end),
       mkWorld (as_data w) d)
  end.

Definition step_check (p : Proc) (w : World) (kp_bytes peer : bytes) (peers : list bytes) (kps : list KeyPackage) :
    Proc * World :=
  match decode_key_package kp_bytes with
  | None => (set_phase p Crashed, w)
  | Some kp =>
      let '(r, d) := lookup_as (as_data w) peer in
      (or_crash p
         (pk_from_as ← expect_ok r;
          _ ← assert (validate kp);
          _ ← assert (bool_decide (pk_from_as = signature_key (kp_member kp)));
          Ret (set_phase p (Fetching peers (kps ++ [kp])))),
       mkWorld d (ds_data w))
  end.

(** Group creation, the commit that adds all peers, and its Welcome. *)
Definition make_group (p : Proc) (kps : list KeyPackage) : outcome (Group * bytes) :=
  let c := coins (cfg p) in
  group ← expect_ok (group_new (coins_group c) (signer (member p)) (credential_with_key (member p)));
  '(_, welcome, group) ← expect_ok (add_members (coins_commit c) (signer (member p)) group kps);
  group ← expect_ok (merge_pending_commit group);
  welcome_bytes ← expect (encode_message welcome);
  Ret (group, welcome_bytes).

Definition step_create (p : Proc) (w : World) (kps : list KeyPackage) : Proc * World :=
  match make_group p kps with
  | Panic => (set_phase p Crashed, w)
  | Ret (group, welcome_bytes) =>
      let '(r, d) := client_send_welcome iter (ds_data w) welcome_bytes in
      (or_crash p (_ ← expect_ok r; Ret (set_phase p (Verifying (members group) group))),
       mkWorld (as_data w) d)
  end.

(** ** A joiner *)

(** [msg.into_welcome()] of the first message that is one. *)
Fixpoint find_welcome (msgs : list Msg) : option (Msg * list bytes) :=
  match msgs with
  | [] => None
  | m :: msgs =>
      match welcome_secrets m with
      | Some secrets => Some (m, secrets)
      | None => find_welcome msgs
      end
  end.

Definition step_wait (p : Proc) (w : World) : Proc * World :=
  match recv_messages (URL := URL) (ds_client p) (ds_data w) with
  | Panic => (set_phase p Crashed, w)
  | Ret (r, d) =>
      (or_crash p
         (msgs ← expect_ok r;
          match find_welcome msgs with
          | None => Ret p
          | Some (welcome, secrets) =>
              let '(r, m) := join_from_welcome (member p) welcome secrets in
              group ← expect_ok r;
              Ret (mkProc (cfg p) (Verifying (members group) group) (ds_client p) m)
          end),
       mkWorld (as_data w) d)
  end.

(** ** All roles *)

(** One iteration of [verify_group_members]. *)
Definition step_verify (p : Proc) (w : World) (m : Member) (rest : list Member) (group : Group) : Proc * World :=
  (or_crash p
     (_ ← verify_group_members (as_data w) [m] (identity (cfg p));
      Ret (set_phase p (Verifying rest group))),
   w).

Definition client_step (p : Proc) (w : World) : Proc * World :=
  match phase p with
  | Starting => step_register_as p w
  | AsRegistered => step_register_ds p w
  | Discovering => step_discover p w
  | Fetching (peer :: peers) kps => step_fetch p w peer peers kps
  | Fetching [] kps => step_create p w kps
  | Checking kp_bytes peer peers kps => step_check p w kp_bytes peer peers kps
  | Waiting => step_wait p w
  | Verifying (m :: rest) group => step_verify p w m rest group
  | Verifying [] group => (set_phase p (Ready group), w)
  | Ready _ | Crashed => (p, w)
  end.

(** ** All clients *)

Record Sys := mkSys {
  procs : gmap bytes Proc;
  world : World
}.

Definition sys_step (s : Sys) (id : bytes) : Sys :=
  match procs s !! id with
  | None => s
  | Some p => let '(p, w) := client_step p (world s) in mkSys (<[id := p]> (procs s)) w
  end.

Definition sys_run (s : Sys) (schedule : list bytes) : Sys := fold_left sys_step schedule s.

Definition services : World := mkWorld AsData_default DsData_default.

(** The configured clients, just started, against fresh services. *)
Definition started_procs (cfgs : gmap bytes Config) : gmap bytes Proc :=
  omap (fun c => match client_start c with Ret p => Some p | Panic => None end) cfgs.

Definition sys_start (cfgs : gmap bytes Config) : Sys := mkSys (started_procs cfgs) services.

End Setup.
