(* ===== verification/SetupCalls.v ===== *)
(** * SetupCalls: the calls of a client, on services that are in order

    What each call of the setup returns and leaves when the services are not
    poisoned and hold what an honest client put there.  The invariant of
    SetupInv.v is kept by these lemmas. *)

From S2P Require Import Prelude Bytes Utf8 Crypto Mls AuthService Identity Credentials DeliveryService DeliveryFacts DsClient MlsGroups GroupSetup.

(** ** The authentication service *)

Section As.
Context {B64 : Base64} {B64L : Base64Laws} {UP : UrlPath} {UPL : UrlPathLaws}.

Lemma register_with_as_new d id pk :
  poisoned d = false -> credentials d !! id = None -> bytes_ok pk ->
  register_with_as d id pk = (Ok tt, mkAsData (<[id := b64_encode pk]> (credentials d)) false).
Proof.
  intros Hp Hn Hpk. unfold register_with_as, route, register, str_prefix. rewrite Hp. cbn [rr_identity rr_public_key].
  rewrite Hn. rewrite ascii_boundary; [done|by apply b64_ascii|apply Nat.le_min_r].
Qed.

Lemma lookup_as_known d id pk :
  path_safe id -> poisoned d = false -> credentials d !! id = Some (b64_encode pk) -> bytes_ok pk ->
  lookup_as d id = (Ok pk, d).
Proof.
  intros Hid Hp Hk Hpk. unfold lookup_as. rewrite path_param_safe by done. unfold route, lookup_identity. rewrite Hp, Hk. cbn [lr_public_key].
  by rewrite b64_decode_encode.
Qed.

(** One member whose key is the registered one, or the client itself. *)
Lemma verify_one d m me :
  poisoned d = false -> is_Some (rsplit_once (decoded m)) -> path_safe (decoded m) ->
  decoded m = me \/ (credentials d !! decoded m = Some (b64_encode (signature_key m)) /\ bytes_ok (signature_key m)) ->
  verify_group_members d [m] me = Ret tt.
Proof.
  intros Hp [lr Hr] Hsafe Hcase. cbn [verify_group_members]. fold (decoded m). case_bool_decide as Hme; [done|].
  destruct Hcase as [?|[Hc Hok]]; [done|]. unfold parse_credential_identity. rewrite Hr.
  cbn [expect mbind outcome_bind]. rewrite (lookup_as_known d _ _ Hsafe Hp Hc Hok).
  cbn [expect_ok mbind outcome_bind]. by rewrite bool_decide_eq_true_2.
Qed.

End As.

(** ** The delivery service *)

Section Ds.
Context {KP Msg : Type} {TY : DsTypes KP Msg} {W : DsWire KP Msg} {WL : DsWireLaws}.
Context {URL : Base64} {URLL : Base64Laws}.
Abbreviation client := (ClientInfo KP Msg).
Abbreviation data_t := (DsData KP Msg).
Context (iter : gmap bytes client -> list (bytes * client)).
Hypothesis Hiter : forall m, iter m ≡ₚ map_to_list m.

Lemma path_id_ok id : bytes_ok id -> path_id id = Some id.
Proof. intros. by apply b64_decode_encode. Qed.

Lemma register_with_ds_new self (d : data_t) id kps token :
  clients_poisoned d = false -> is_Some (encode_register kps) ->
  match kps with (_, kp) :: _ => kp_identity kp = id | [] => False end -> clients d !! id = None ->
  register_with_ds self d id kps token =
    (Ok tt, mkDsClient (Some token) (Some id),
     with_clients d (<[id := mkClientInfo id kps ∅ [] [] token]> (clients d))).
Proof.
  intros Hp [b Hb] Hid Hn. unfold register_with_ds. rewrite Hb, (decode_encode_register _ _ Hb).
  destruct kps as [|[h kp] kps]; [done|]. subst id. unfold register_client, ClientInfo_new, index.
  cbn [lookup list_lookup nth_error mbind outcome_bind snd ci_id auth_token expect]. rewrite Hp, Hn. done.
Qed.

(** The listed identities are those of the records, in some order. *)
Lemma list_clients_perm (d : data_t) ids :
  clients_poisoned d = false -> (forall id c, clients d !! id = Some c -> ci_id c = id) ->
  NoDup ids -> (forall id, id ∈ ids <-> is_Some (clients d !! id)) ->
  (forall l, l ≡ₚ ids -> is_Some (serialize_ids l)) ->
  exists l, client_list_clients iter d = Ok l /\ l ≡ₚ ids.
Proof.
  intros Hp Hid Hnd Hdom Hser.
  assert ((fun x => ci_id x.2) <$> iter (clients d) ≡ₚ ids) as Hperm.
  { rewrite Hiter. assert ((fun x => ci_id x.2) <$> map_to_list (clients d) = (map_to_list (clients d)).*1) as ->.
    { apply list_fmap_ext. intros i [id c] Hx%list_elem_of_lookup_2. apply elem_of_map_to_list in Hx. by apply Hid. }
    apply NoDup_Permutation; [apply NoDup_fst_map_to_list|done|]. intros id. rewrite Hdom, list_elem_of_fmap. split.
    - intros ([id' c] & -> & Hx). apply elem_of_map_to_list in Hx. by eexists.
    - intros [c Hc]. exists (id, c). by rewrite elem_of_map_to_list. }
  destruct (Hser _ Hperm) as [b Hb]. destruct (decode_encode_ids _ _ Hb) as [Hne Hdec].
  exists ((fun x => ci_id x.2) <$> iter (clients d)). split; [|done].
  unfold client_list_clients, list_clients. rewrite Hp, Hb. unfold read_list.
  by rewrite bool_decide_eq_false_2, Hdec.
Qed.

(** The second key package is handed out and reserved. *)
Lemma consume_second (d : data_t) id c k1 h2 kp2 :
  clients_poisoned d = false -> bytes_ok id -> clients d !! id = Some c -> key_packages c = [k1; (h2, kp2)] ->
  is_Some (kp_serialize kp2) ->
  exists b, decode_key_package b = Some kp2 /\
    client_consume_key_package d id = (Ok (Some b), with_clients d (<[id :=
      mkClientInfo (ci_id c) [k1] ({[h2]} ∪ reserved_key_pkg_hash c) (msgs c) (welcome_queue c) (auth_token c)]>
      (clients d))).
Proof.
  intros Hp Hok Hc Hk [b Hb]. exists b. split; [by apply decode_encode_key_package|].
  unfold client_consume_key_package, consume_key_package. rewrite Hp, path_id_ok, Hc by done.
  unfold consume_kp. rewrite Hk, bool_decide_eq_false_2 by (cbn; lia). cbn. by rewrite Hb.
Qed.

(** With one key package left the service keeps it. *)
Lemma consume_last (d : data_t) id c :
  clients_poisoned d = false -> bytes_ok id -> clients d !! id = Some c -> (length (key_packages c) <= 1)%nat ->
  client_consume_key_package d id = (Ok None, d).
Proof.
  intros Hp Hok Hc Hk. unfold client_consume_key_package, consume_key_package. rewrite Hp, path_id_ok, Hc by done.
  unfold consume_kp. rewrite bool_decide_eq_true_2 by done. rewrite insert_id by done. by destruct d.
Qed.

(** A fetch with the right token. *)
Lemma recv_queue (d : data_t) id c l :
  clients_poisoned d = false -> bytes_ok id -> clients d !! id = Some c ->
  welcome_queue c ++ msgs c = l -> is_Some (serialize_messages l) ->
  recv_messages (mkDsClient (Some (auth_token c)) (Some id)) d = Ret (Ok l, with_clients d (<[id :=
    mkClientInfo (ci_id c) (key_packages c) (reserved_key_pkg_hash c) [] [] (auth_token c)]> (clients d))).
Proof.
  intros Hp Hok Hc <- [b Hb]. unfold recv_messages, token_of, id_of, msg_recv. cbn [dc_auth_token dc_client_id expect
    mbind outcome_bind]. rewrite Hp, path_id_ok, Hc by done. rewrite bool_decide_eq_false_2 by tauto. cbn zeta.
  destruct (decode_encode_messages _ _ Hb) as [Hne Hdec]. rewrite Hb. unfold read_list.
  by rewrite bool_decide_eq_false_2, Hdec.
Qed.

(** Sending a Welcome whose joiners' hashes are all reserved, each once. *)
Lemma client_send_welcome_ok (d : data_t) m b hashes :
  clients_poisoned d = false -> encode_message m = Some b -> welcome_secrets m = Some hashes ->
  Forall (owned_once (clients d)) hashes ->
  client_send_welcome iter d b = (Ok tt, with_clients d (after_welcome m hashes <$> clients d)).
Proof.
  intros Hp Hb Hs Hone. unfold client_send_welcome, send_welcome.
  rewrite (decode_encode_message _ _ Hb), Hs, Hp.
  destruct (deliver_welcome_spec iter Hiter m hashes 0 (clients d) ltac:(lia) Hone) as (k & -> & _ & _).
  by destruct (0 <? k).
Qed.

End Ds.

(** What a Welcome does to one client's record. *)
Lemma after_welcome_eq {KP Msg} (m : Msg) hashes (c : ClientInfo KP Msg) :
  NoDup hashes -> after_welcome m hashes c =
    mkClientInfo (ci_id c) (key_packages c) (reserved_key_pkg_hash c ∖ list_to_set hashes) (msgs c)
      (welcome_queue c ++ replicate (length (filter (fun h => h ∈ reserved_key_pkg_hash c) hashes)) m) (auth_token c).
Proof.
  intros Hnd. destruct (after_welcome_spec m hashes c Hnd) as (Hw & Hr & Hm & Hk & Ha).
  assert (ci_id (after_welcome m hashes c) = ci_id c) as Hid.
  { clear. unfold after_welcome. revert c. induction hashes as [|h hashes IH]; intros c; cbn; [done|].
    rewrite IH. unfold hand_over. by case_bool_decide. }
  destruct (after_welcome m hashes c). cbn in *. congruence.
Qed.
