(* ===== verification/SetupInv.v ===== *)
(** * SetupInv: the invariant of the group setup

    One creator that expects all other clients, any number of senders and
    receivers, all running concurrently: what the services hold is a function
    of where the clients are, whatever the interleaving so far. *)

From S2P Require Import Prelude Bytes Utf8 Crypto Mls AuthService Identity Credentials DeliveryService DeliveryFacts DsClient MlsGroups MlsFacts GroupSetup SetupCalls.

Section Inv.
Context {L : MlsLib} {TY : DsTypes KeyPackage Msg} {W : DsWire KeyPackage Msg} {B64 : Base64}.

(** ** What a client's coins determine *)

Record ClientKeys := mkClientKeys {
  k_signer : Signer;
  k_b1 : Bundle;
  k_b2 : Bundle;
  k_h1 : bytes;
  k_h2 : bytes
}.

Definition keys_of (c : Config) : option ClientKeys :=
  s ← keypair_new (coins_signer (coins c));
  let m := mkMember (identity c) (to_public_vec s) in
  b1 ← build_bundle (coins_kp1 (coins c)) s m;
  b2 ← build_bundle (coins_kp2 (coins c)) s m;
  h1 ← hash_ref (key_package b1);
  h2 ← hash_ref (key_package b2);
  Some (mkClientKeys s b1 b2 h1 h2).

Context (cfgs : gmap bytes Config) (cr : bytes) (K : bytes -> ClientKeys).

Definition ids : list bytes := elements (dom cfgs : gset bytes).
Definition peers : list bytes := filter (fun id => id <> cr) ids.

Lemma elem_of_ids id : id ∈ ids <-> is_Some (cfgs !! id).
Proof. unfold ids. by rewrite elem_of_elements, elem_of_dom. Qed.

Lemma elem_of_peers id : id ∈ peers <-> id <> cr /\ is_Some (cfgs !! id).
Proof. unfold peers. by rewrite list_elem_of_filter, elem_of_ids. Qed.

Lemma ids_NoDup : NoDup ids.
Proof. apply NoDup_elements. Qed.

Lemma peers_NoDup : NoDup peers.
Proof. apply NoDup_filter, ids_NoDup. Qed.

Definition pk (id : bytes) : bytes := to_public_vec (k_signer (K id)).
(** The member a client is in the group. *)
Definition me (id : bytes) : Member := mkMember id (pk id).
Definition kp1 (id : bytes) : KeyPackage := key_package (k_b1 (K id)).
Definition kp2 (id : bytes) : KeyPackage := key_package (k_b2 (K id)).
Definition h1 (id : bytes) : bytes := k_h1 (K id).
Definition h2 (id : bytes) : bytes := k_h2 (K id).

(** A setup that can succeed: one creator, which expects exactly the other
    clients; fresh keys, so that no hash and no public key repeats; and
    values within the limits of the encodings. *)
Record valid_setup : Prop := {
  vs_identity id c : cfgs !! id = Some c -> identity c = id;
  vs_keys id c : cfgs !! id = Some c -> keys_of c = Some (K id);
  vs_creator : exists c, cfgs !! cr = Some c /\ is_creator c = true /\
    expected_peers c = Z.of_nat (length peers);
  vs_joiners id c : cfgs !! id = Some c -> id <> cr -> is_creator c = false;
  vs_peers : peers <> [];
  vs_hashes : NoDup ((h1 <$> ids) ++ (h2 <$> ids));
  vs_fresh c e o : cfgs !! cr = Some c -> new_epoch (coins_group (coins c)) (k_signer (K cr)) (me cr) = Some (e, o) ->
    NoDup (ep_keys e ++ concat ((fun id => kp_keys (kp2 id)) <$> peers));
  vs_encode id : id ∈ ids -> is_Some (encode_register [(h1 id, kp1 id); (h2 id, kp2 id)]) /\
    is_Some (kp_serialize (kp2 id));
  vs_list l : NoDup l -> l ⊆ ids -> is_Some (serialize_ids l);
  vs_empty : is_Some (serialize_messages []);
  vs_welcome l c s e o r w : l ≡ₚ peers -> build_commit c s e o (kp2 <$> l) = Some r -> commit_welcome r = Some w ->
    is_Some (encode_message w) /\ is_Some (serialize_messages [w])
}.

(** ** The services as a function of the clients *)

Definition cphase (s : Sys) : Phase := match procs s !! cr with Some p => phase p | None => Crashed end.

(** Has the creator sent the Welcome; has it taken this client's key package;
    has it found all clients. *)
Definition welcomed (ph : Phase) : bool := match ph with Verifying _ _ | Ready _ => true | _ => false end.
Definition fetched (ph : Phase) (id : bytes) : bool :=
  match ph with
  | Fetching todo _ | Checking _ _ todo _ => bool_decide (id ∉ todo)
  | Verifying _ _ | Ready _ => true
  | _ => false
  end.
Definition discovered (ph : Phase) : bool :=
  match ph with Fetching _ _ | Checking _ _ _ _ | Verifying _ _ | Ready _ => true | _ => false end.
Definition ds_known (ph : Phase) : bool := match ph with Starting | AsRegistered => false | _ => true end.

Definition as_entry (id : bytes) (p : Proc) : option bytes :=
  match phase p with Starting => None | _ => Some (b64_encode (pk id)) end.

(** The record of a client, given how far the creator is. *)
Definition ds_record (w : Msg) (cph : Phase) (id : bytes) (ph : Phase) (token : bytes) : ClientInfo KeyPackage Msg :=
  let taken := bool_decide (id <> cr) && fetched cph id in
  mkClientInfo id (if taken then [(h1 id, kp1 id)] else [(h1 id, kp1 id); (h2 id, kp2 id)])
    (if taken && negb (welcomed cph) then {[h2 id]} else ∅) []
    (if taken && welcomed cph && match ph with Waiting => true | _ => false end then [w] else []) token.

Definition ds_entry (w : Msg) (cph : Phase) (id : bytes) (p : Proc) : option (ClientInfo KeyPackage Msg) :=
  if ds_known (phase p) then Some (ds_record w cph id (phase p) (coins_token (coins (cfg p)))) else None.

(** ** A client's own state *)

Definition static_ok (id : bytes) (p : Proc) : Prop :=
  cfgs !! id = Some (cfg p) /\ signer (member p) = k_signer (K id) /\ credential_with_key (member p) = me id.

Definition registered (id : bytes) (p : Proc) : Prop :=
  ds_client p = mkDsClient (Some (coins_token (coins (cfg p)))) (Some id) /\
  provider (member p) !! h2 id = Some (k_b2 (K id)) /\
  forall h b, provider (member p) !! h = Some b -> h = h1 id \/ h = h2 id.

Section Laws.
Context {ML : MlsLaws}.

Definition in_group (e : EpochState) (id : bytes) (g : Group) : Prop := ready_in e (k_signer (K id), g) (me id).

Definition phase_ok (e : EpochState) (done : bool) (id : bytes) (p : Proc) : Prop :=
  match phase p with
  | Starting | AsRegistered => ds_client p = DsClient_new /\ provider (member p) = ∅
  | Discovering => id = cr /\ registered id p
  | Fetching todo kps => id = cr /\ exists got, got ++ todo ≡ₚ peers /\ kps = kp2 <$> got
  | Checking b peer todo kps =>
      id = cr /\ decode_key_package b = Some (kp2 peer) /\
      exists got, got ++ peer :: todo ≡ₚ peers /\ kps = kp2 <$> got
  | Waiting => id <> cr /\ registered id p
  | Verifying rest g => done = true /\ in_group e id g /\ rest ⊆ members g
  | Ready g => done = true /\ in_group e id g
  | Crashed => False
  end.

(** What the creator made: the epoch of all clients, and a Welcome that every
    peer can open. *)
Definition made (w : Msg) (e : EpochState) : Prop :=
  ep_members e ≡ₚ me <$> (cr :: peers) /\ is_Some (serialize_messages [w]) /\
  exists hs, welcome_secrets w = Some hs /\ hs ≡ₚ h2 <$> peers /\
    forall id, id ∈ peers -> exists o, open_welcome (k_b2 (K id)) w = Some (e, o) /\ holds e o (me id).

Record inv (w : Msg) (e : EpochState) (s : Sys) : Prop := {
  inv_dom id : is_Some (procs s !! id) <-> is_Some (cfgs !! id);
  inv_proc id p : procs s !! id = Some p -> static_ok id p /\ phase_ok e (welcomed (cphase s)) id p;
  inv_as_ok : poisoned (as_data (world s)) = false;
  inv_as id : credentials (as_data (world s)) !! id = procs s !! id ≫= as_entry id;
  inv_ds_ok : clients_poisoned (ds_data (world s)) = false;
  inv_ds id : clients (ds_data (world s)) !! id = procs s !! id ≫= ds_entry w (cphase s) id;
  inv_known : discovered (cphase s) = true -> forall id p, procs s !! id = Some p -> ds_known (phase p) = true;
  inv_made : welcomed (cphase s) = true -> made w e
}.

End Laws.
End Inv.
