(* ===== verification/SetupSteps.v ===== *)
(** * SetupSteps: every step keeps the invariant

    One lemma per phase: what the step does, that the invariant of SetupInv.v
    holds after it, and that it leaves the whole system unchanged or takes
    the client closer to its end. *)

From S2P Require Import Prelude Bytes Utf8 Crypto Mls AuthService Identity Credentials DeliveryService DeliveryFacts DsClient MlsGroups MlsFacts GroupSetup SetupCalls SetupInv.

Section Steps.
Context {L : MlsLib} {TY : DsTypes KeyPackage Msg} {W : DsWire KeyPackage Msg}.
Context {ML : MlsLaws} {WL : DsWireLaws}.
Context (URL : Base64) {URLL : @Base64Laws URL} {B64 : Base64} {B64L : @Base64Laws B64} {UP : UrlPath} {UPL : UrlPathLaws}.
Context (iter : gmap bytes (ClientInfo KeyPackage Msg) -> list (bytes * ClientInfo KeyPackage Msg)).
Hypothesis Hiter : forall m, iter m ≡ₚ map_to_list m.
Context (cfgs : gmap bytes Config) (cr : bytes) (K : bytes -> ClientKeys).
Hypothesis HV : valid_setup cfgs cr K.

Abbreviation ids := (ids cfgs).
Abbreviation peers := (peers cfgs cr).
Abbreviation pk := (pk K).
Abbreviation me := (me K).
Abbreviation kp1 := (kp1 K).
Abbreviation kp2 := (kp2 K).
Abbreviation h1 := (h1 K).
Abbreviation h2 := (h2 K).
Abbreviation inv := (inv cfgs cr K).
Abbreviation cphase := (cphase cr).
Abbreviation ds_entry := (ds_entry cr K).
Abbreviation ds_record := (ds_record cr K).
Abbreviation phase_ok := (phase_ok cfgs cr K).
Abbreviation step := (sys_step URL iter).

(** ** Identities and keys *)

Lemma creator_config : exists c, cfgs !! cr = Some c /\ is_creator c = true /\
  expected_peers c = Z.of_nat (length peers).
Proof. apply HV. Qed.

Lemma ids_perm : ids ≡ₚ cr :: peers.
Proof.
  apply NoDup_Permutation; [apply ids_NoDup| |].
  - constructor; [|apply peers_NoDup]. rewrite elem_of_peers. tauto.
  - intros id. rewrite elem_of_cons, elem_of_peers, elem_of_ids.
    destruct creator_config as (c & Hc & _). destruct (decide (id = cr)) as [->|]; naive_solver.
Qed.

(** Identities are ASCII text with a role. *)
Lemma identity_ok id : is_Some (cfgs !! id) ->
  bytes_ok id /\ from_utf8_lossy id = id /\ is_Some (rsplit_once id) /\ path_safe id.
Proof.
  intros [c Hc]. pose proof (vs_identity _ _ _ HV _ _ Hc) as <-. unfold identity.
  pose proof (generate_identity_ascii (mode (cli c)) (pid c)) as Ha. split_and!.
  - eapply Forall_impl; [exact Ha|]. cbn. intros x Hx. width.
  - by apply lossy_id, ascii_utf8.
  - destruct (generated_identity_parses (mode (cli c)) (pid c)) as (l & Hp & _).
    unfold parse_credential_identity in Hp. apply expect_Ret in Hp. by rewrite Hp.
  - apply generate_identity_safe.
Qed.

Lemma keys_ok id c : cfgs !! id = Some c ->
  keypair_new (coins_signer (coins c)) = Some (k_signer (K id)) /\ bytes_ok (pk id) /\
  build_bundle (coins_kp1 (coins c)) (k_signer (K id)) (me id) = Some (k_b1 (K id)) /\
  build_bundle (coins_kp2 (coins c)) (k_signer (K id)) (me id) = Some (k_b2 (K id)) /\
  hash_ref (kp1 id) = Some (h1 id) /\ hash_ref (kp2 id) = Some (h2 id).
Proof.
  intros Hc. pose proof (vs_keys _ _ _ HV _ _ Hc) as Hk. unfold keys_of in Hk.
  rewrite (vs_identity _ _ _ HV _ _ Hc) in Hk.
  destruct (keypair_some (coins_signer (coins c))) as (s & Hs & Hok). rewrite Hs in Hk. cbn in Hk.
  destruct (build_bundle (coins_kp1 (coins c)) s _) as [b1|] eqn:Hb1; [|done]. cbn in Hk.
  destruct (build_bundle (coins_kp2 (coins c)) s _) as [b2|] eqn:Hb2; [|done]. cbn in Hk.
  destruct (hash_ref (key_package b1)) as [x1|] eqn:Hh1; [|done]. cbn in Hk.
  destruct (hash_ref (key_package b2)) as [x2|] eqn:Hh2; [|done]. cbn in Hk.
  apply (inj Some) in Hk. unfold SetupInv.me, SetupInv.pk, SetupInv.kp1, SetupInv.kp2, SetupInv.h1, SetupInv.h2.
  rewrite <- Hk. cbn. by split_and!.
Qed.

(** The key packages carry their owner's credential and are valid. *)
Lemma bundles_ok id c : cfgs !! id = Some c ->
  kp_member (kp1 id) = me id /\ kp_member (kp2 id) = me id /\ validate (kp2 id) = true /\ kp_identity (kp1 id) = id.
Proof.
  intros Hc. destruct (keys_ok id c Hc) as (_ & _ & Hb1 & Hb2 & _).
  destruct (bundle_some (coins_kp1 (coins c)) (k_signer (K id)) (me id)) as (b & h & Hb & _ & Hm & _); [done|].
  destruct (bundle_some (coins_kp2 (coins c)) (k_signer (K id)) (me id)) as (b' & h' & Hb' & _ & Hm' & Hv'); [done|].
  rewrite Hb1 in Hb. rewrite Hb2 in Hb'. simplify_eq.
  rewrite kp_identity_member. unfold SetupInv.kp1, SetupInv.kp2. by rewrite Hm.
Qed.

Lemma hashes_distinct id id' :
  id ∈ ids -> id' ∈ ids -> h1 id <> h2 id' /\ (h2 id = h2 id' -> id = id').
Proof.
  intros Hid Hid'. pose proof (vs_hashes _ _ _ HV) as Hnd. apply NoDup_app in Hnd as (_ & Hd & Hn2). split.
  - intros Heq. apply (Hd (h1 id)); [by apply list_elem_of_fmap_2|]. rewrite Heq. by apply list_elem_of_fmap_2.
  - intros Heq. apply list_elem_of_lookup in Hid as [i Hi], Hid' as [j Hj].
    assert (i = j) as ->; [|congruence]. eapply NoDup_lookup; [exact Hn2|..]; rewrite list_lookup_fmap.
    + by rewrite Hi.
    + rewrite Hj. cbn. by rewrite Heq.
Qed.

(** ** Keeping the invariant *)

Lemma phase_ok_mono e d id p : phase_ok e false id p -> phase_ok e d id p.
Proof. unfold SetupInv.phase_ok. destruct (phase p); naive_solver. Qed.

Lemma cphase_insert s id p wd :
  cphase (mkSys (<[id := p]> (procs s)) wd) = if decide (id = cr) then phase p else cphase s.
Proof.
  unfold SetupInv.cphase. cbn. destruct (decide (id = cr)) as [->|Hne].
  - by rewrite lookup_insert_eq.
  - by rewrite lookup_insert_ne.
Qed.

(** Client [id] moves to [p']. *)
Lemma inv_update w e s id p p' wd :
  inv w e s -> procs s !! id = Some p -> static_ok cfgs K id p' ->
  let s' := mkSys (<[id := p']> (procs s)) wd in
  phase_ok e (welcomed (cphase s')) id p' ->
  (welcomed (cphase s) = true -> welcomed (cphase s') = true) ->
  poisoned (as_data wd) = false ->
  (forall i, credentials (as_data wd) !! i =
     if decide (i = id) then as_entry K id p' else credentials (as_data (world s)) !! i) ->
  clients_poisoned (ds_data wd) = false ->
  (forall i, clients (ds_data wd) !! i = procs s' !! i ≫= ds_entry w (cphase s') i) ->
  (discovered (cphase s') = true -> forall i q, procs s' !! i = Some q -> ds_known (phase q) = true) ->
  (welcomed (cphase s') = true -> made cfgs cr K w e) ->
  inv w e s'.
Proof.
  intros Hinv Hp Hst s' Hph Hmono Has Hcred Hds Hcl Hkn Hmade.
  assert (forall i q, procs s' !! i = Some q -> i = id /\ q = p' \/ i <> id /\ procs s !! i = Some q) as Hcase.
  { intros i q. cbn. rewrite lookup_insert_Some. naive_solver. }
  split; try done.
  - intros i. cbn. rewrite <- (inv_dom _ _ _ _ _ _ Hinv i). destruct (decide (i = id)) as [->|Hne].
    + rewrite lookup_insert_eq, Hp. split; intros; eauto.
    + by rewrite lookup_insert_ne.
  - intros i q [[-> ->]|[Hne Hq]]%Hcase; [done|]. destruct (inv_proc _ _ _ _ _ _ Hinv i q Hq) as [Hsq Hpq].
    split; [done|]. destruct (welcomed (cphase s)) eqn:Hw; [by rewrite Hmono|by apply phase_ok_mono].
  - intros i. rewrite Hcred. cbn. destruct (decide (i = id)) as [->|Hne].
    + by rewrite lookup_insert_eq.
    + rewrite lookup_insert_ne by done. apply (inv_as _ _ _ _ _ _ Hinv).
Qed.

(** The same for a client other than the creator; the delivery service
    changes at most its record. *)
Lemma inv_update_peer w e s id p p' wd :
  inv w e s -> procs s !! id = Some p -> id <> cr -> static_ok cfgs K id p' ->
  phase_ok e (welcomed (cphase s)) id p' ->
  poisoned (as_data wd) = false ->
  (forall i, credentials (as_data wd) !! i =
     if decide (i = id) then as_entry K id p' else credentials (as_data (world s)) !! i) ->
  clients_poisoned (ds_data wd) = false ->
  (forall i, clients (ds_data wd) !! i =
     if decide (i = id) then ds_entry w (cphase s) id p' else clients (ds_data (world s)) !! i) ->
  (ds_known (phase p) = true -> ds_known (phase p') = true) ->
  inv w e (mkSys (<[id := p']> (procs s)) wd).
Proof.
  intros Hinv Hp Hne Hst Hph Has Hcred Hds Hcl Hkn.
  pose proof (cphase_insert s id p' wd) as Hc. rewrite decide_False in Hc by done.
  eapply inv_update; try done; rewrite ?Hc; try done.
  - intros i. rewrite Hcl. cbn. destruct (decide (i = id)) as [->|Hi].
    + by rewrite lookup_insert_eq.
    + rewrite lookup_insert_ne by done. apply (inv_ds _ _ _ _ _ _ Hinv).
  - intros Hd i q. cbn. rewrite lookup_insert_Some. intros [[<- <-]|[_ Hq]].
    + apply Hkn. by apply (inv_known _ _ _ _ _ _ Hinv Hd id).
    + by apply (inv_known _ _ _ _ _ _ Hinv Hd i).
  - apply (inv_made _ _ _ _ _ _ Hinv).
Qed.

(** The creator moves without touching the delivery service's records. *)
Lemma inv_update_creator w e s p p' wd :
  inv w e s -> procs s !! cr = Some p -> static_ok cfgs K cr p' ->
  phase_ok e (welcomed (phase p')) cr p' ->
  welcomed (phase p) = false -> welcomed (phase p') = false ->
  poisoned (as_data wd) = false ->
  (forall i, credentials (as_data wd) !! i =
     if decide (i = cr) then as_entry K cr p' else credentials (as_data (world s)) !! i) ->
  clients_poisoned (ds_data wd) = false ->
  (forall i, clients (ds_data wd) !! i =
     if decide (i = cr) then ds_entry w (phase p') cr p' else clients (ds_data (world s)) !! i) ->
  (forall i, i ∈ peers -> fetched (phase p') i = fetched (phase p) i) ->
  (discovered (phase p') = true ->
     ds_known (phase p') = true /\ forall i q, procs s !! i = Some q -> i <> cr -> ds_known (phase q) = true) ->
  inv w e (mkSys (<[cr := p']> (procs s)) wd).
Proof.
  intros Hinv Hp Hst Hph Hw Hw' Has Hcred Hds Hcl Hf Hkn.
  pose proof (cphase_insert s cr p' wd) as Hc. rewrite decide_True in Hc by done.
  assert (cphase s = phase p) as Hcs by (unfold SetupInv.cphase; by rewrite Hp).
  eapply inv_update; try done; rewrite ?Hc, ?Hcs; try done; [congruence| | |congruence].
  - intros i. rewrite Hcl. cbn. destruct (decide (i = cr)) as [->|Hi]; [by rewrite lookup_insert_eq|].
    rewrite lookup_insert_ne by done. rewrite (inv_ds _ _ _ _ _ _ Hinv), Hcs.
    destruct (procs s !! i) as [q|] eqn:Hq; [|done]. cbn.
    assert (i ∈ peers) as Hip. { apply elem_of_peers. split; [done|]. apply (inv_dom _ _ _ _ _ _ Hinv). eauto. }
    unfold SetupInv.ds_entry, SetupInv.ds_record. by rewrite (Hf i Hip), Hw, Hw'.
  - intros Hd i q. cbn. rewrite lookup_insert_Some. intros [[<- <-]|[Hi Hq]]; [by apply Hkn|].
    by eapply Hkn.
Qed.

(** ** Progress *)

(** How far a client is from being ready. *)
Definition rank (ph : Phase) : nat :=
  let n := length ids in
  match ph with
  | Ready _ | Crashed => 0
  | Verifying rest _ => 1 + length rest
  | Waiting => n + 2
  | Fetching todo _ => n + 2 + 2 * length todo
  | Checking _ _ todo _ => n + 3 + 2 * length todo
  | Discovering => n + 3 + 2 * length peers
  | AsRegistered => n + 4 + 2 * length peers
  | Starting => n + 5 + 2 * length peers
  end%nat.

(** A step of [id] that takes it closer to the end. *)
Definition advances (s : Sys) (id : bytes) (p : Proc) : Prop :=
  exists w' e' p', inv w' e' (step s id) /\ procs (step s id) = <[id := p']> (procs s) /\
    (rank (phase p') < rank (phase p))%nat.

Lemma step_eq s id p p' wd :
  procs s !! id = Some p -> client_step URL iter p (world s) = (p', wd) ->
  step s id = mkSys (<[id := p']> (procs s)) wd.
Proof. intros Hp Hs. unfold sys_step. by rewrite Hp, Hs. Qed.

Lemma step_same s id p :
  procs s !! id = Some p -> client_step URL iter p (world s) = (p, world s) -> step s id = s.
Proof. intros Hp Hs. rewrite (step_eq s id p p _ Hp Hs), insert_id by done. by destruct s. Qed.

Lemma advances_intro w e s id p p' wd :
  procs s !! id = Some p -> client_step URL iter p (world s) = (p', wd) ->
  inv w e (mkSys (<[id := p']> (procs s)) wd) -> (rank (phase p') < rank (phase p))%nat -> advances s id p.
Proof. intros Hp Hs Hinv Hr. exists w, e, p'. rewrite (step_eq s id p p' wd Hp Hs). done. Qed.

Lemma inv_config w e s id p : inv w e s -> procs s !! id = Some p ->
  static_ok cfgs K id p /\ phase_ok e (welcomed (cphase s)) id p /\ cfgs !! id = Some (cfg p) /\
  identity (cfg p) = id.
Proof.
  intros Hinv Hp. destruct (inv_proc _ _ _ _ _ _ Hinv id p Hp) as [Hst Hph]. pose proof Hst as (Hc & _).
  split_and!; try done. by apply (vs_identity _ _ _ HV).
Qed.

Lemma cphase_eq s p : procs s !! cr = Some p -> cphase s = phase p.
Proof. unfold SetupInv.cphase. by intros ->. Qed.

(** The creator does not have to be told apart while it is not yet looking
    for peers. *)
Lemma inv_update_early w e s id p p' wd :
  inv w e s -> procs s !! id = Some p -> static_ok cfgs K id p' ->
  phase_ok e (welcomed (cphase s)) id p' -> (id = cr -> phase_ok e false cr p') ->
  discovered (phase p) = false -> discovered (phase p') = false ->
  poisoned (as_data wd) = false ->
  (forall i, credentials (as_data wd) !! i =
     if decide (i = id) then as_entry K id p' else credentials (as_data (world s)) !! i) ->
  clients_poisoned (ds_data wd) = false ->
  (forall i, clients (ds_data wd) !! i =
     if decide (i = id) then ds_entry w (cphase s) id p' else clients (ds_data (world s)) !! i) ->
  (ds_known (phase p) = true -> ds_known (phase p') = true) ->
  inv w e (mkSys (<[id := p']> (procs s)) wd).
Proof.
  intros Hinv Hp Hst Hph Hcr Hd Hd' Has Hcred Hds Hcl Hkn. destruct (decide (id = cr)) as [->|Hne].
  - pose proof (cphase_eq s p Hp) as Hcs.
    assert (welcomed (phase p) = false) as Hw by (by destruct (phase p)).
    assert (welcomed (phase p') = false) as Hw' by (by destruct (phase p')).
    eapply inv_update_creator; try done.
    + by rewrite Hw'; apply Hcr.
    + intros i. rewrite Hcl. destruct (decide (i = cr)) as [->|]; [|done]. rewrite Hcs.
      unfold SetupInv.ds_entry, SetupInv.ds_record. by rewrite bool_decide_eq_false_2 by tauto.
    + intros i _. by destruct (phase p), (phase p').
    + intros Hx. congruence.
  - by eapply inv_update_peer.
Qed.

Lemma step_starting w e s id p :
  inv w e s -> procs s !! id = Some p -> phase p = Starting -> advances s id p.
Proof.
  intros Hinv Hp Hph. destruct (inv_config _ _ _ _ _ Hinv Hp) as ((Hc & Hs & Hm) & Hok & _ & Hid).
  destruct (keys_ok id _ Hc) as (_ & Hpk & _).
  assert (credentials (as_data (world s)) !! id = None) as Hnone.
  { rewrite (inv_as _ _ _ _ _ _ Hinv), Hp. cbn. unfold as_entry. by rewrite Hph. }
  eapply (advances_intro w e s id p (set_phase p AsRegistered)); [done| | |cbn; rewrite Hph; cbn; lia].
  - unfold client_step, step_register_as. rewrite Hph, Hid, Hs.
    rewrite register_with_as_new; [reflexivity|apply Hinv|done|done].
  - unfold SetupInv.phase_ok in Hok. rewrite Hph in Hok.
    eapply inv_update_early; try done; cbn; rewrite ?Hph; try done.
    + intros i. destruct (decide (i = id)) as [->|Hne]; [by rewrite lookup_insert_eq|by rewrite lookup_insert_ne].
    + apply Hinv.
    + intros i. destruct (decide (i = id)) as [->|]; [|done]. rewrite (inv_ds _ _ _ _ _ _ Hinv), Hp. cbn.
      unfold SetupInv.ds_entry. by rewrite Hph.
Qed.

Lemma make_key_packages_ok id p :
  static_ok cfgs K id p -> provider (member p) = ∅ ->
  make_key_packages p = Ret ([(h1 id, kp1 id); (h2 id, kp2 id)],
    mkMlsMember (<[h2 id := k_b2 (K id)]> (<[h1 id := k_b1 (K id)]> ∅)) (k_signer (K id)) (me id)).
Proof.
  intros (Hc & Hs & Hm) Hpr. destruct (keys_ok id _ Hc) as (_ & _ & Hb1 & Hb2 & Hh1 & Hh2).
  unfold SetupInv.kp1, SetupInv.kp2 in *. unfold make_key_packages, generate_key_package.
  rewrite Hs, Hm, Hpr, Hb1. cbn [expect mbind outcome_bind]. rewrite Hh1. cbn [expect mbind outcome_bind].
  cbn [signer credential_with_key provider]. rewrite Hb2. cbn [expect mbind outcome_bind].
  rewrite Hh2. cbn [expect mbind outcome_bind signer credential_with_key provider]. rewrite Hh1.
  cbn [expect mbind outcome_bind]. rewrite Hh2. reflexivity.
Qed.

Lemma registered_intro id c ph :
  registered K id (mkProc c ph (mkDsClient (Some (coins_token (coins c))) (Some id))
    (mkMlsMember (<[h2 id := k_b2 (K id)]> (<[h1 id := k_b1 (K id)]> ∅)) (k_signer (K id)) (me id))).
Proof.
  split; [done|]. cbn. split; [by rewrite lookup_insert_eq|]. intros h b.
  rewrite !lookup_insert_Some. naive_solver.
Qed.

Lemma step_as_registered w e s id p :
  inv w e s -> procs s !! id = Some p -> phase p = AsRegistered -> advances s id p.
Proof.
  intros Hinv Hp Hph. destruct (inv_config _ _ _ _ _ Hinv Hp) as (Hst & Hok & Hc & Hid).
  unfold SetupInv.phase_ok in Hok. rewrite Hph in Hok. destruct Hok as [Hds Hpr].
  assert (clients (ds_data (world s)) !! id = None) as Hnone.
  { rewrite (inv_ds _ _ _ _ _ _ Hinv), Hp. cbn. unfold SetupInv.ds_entry. by rewrite Hph. }
  destruct (vs_encode _ _ _ HV id) as [Henc _]; [apply elem_of_ids; eauto|].
  destruct (bundles_ok id _ Hc) as (_ & _ & _ & Hki).
  set (ph' := if is_creator (cfg p) then Discovering else Waiting).
  assert (welcomed (cphase s) = false) as Hw.
  { destruct (welcomed (cphase s)) eqn:Hw; [|done].
    assert (discovered (cphase s) = true) as Hd by (by destruct (cphase s)).
    pose proof (inv_known _ _ _ _ _ _ Hinv Hd id p Hp) as Hx. by rewrite Hph in Hx. }
  eapply (advances_intro w e s id p); [done| | |].
  - unfold client_step, step_register_ds. rewrite Hph, (make_key_packages_ok id p Hst Hpr), Hid.
    rewrite register_with_ds_new by (done || apply Hinv). cbn [or_crash expect_ok mbind outcome_bind]. reflexivity.
  - assert (phase_ok e false id (mkProc (cfg p) ph' (mkDsClient (Some (coins_token (coins (cfg p)))) (Some id))
      (mkMlsMember (<[h2 id := k_b2 (K id)]> (<[h1 id := k_b1 (K id)]> ∅)) (k_signer (K id)) (me id)))) as Hok'.
    { unfold SetupInv.phase_ok, ph'. cbn. destruct creator_config as (c & Hcr & Hcr' & _).
      destruct (is_creator (cfg p)) eqn:Hic; (split; [|apply registered_intro]).
      - destruct (decide (id = cr)); [done|]. by rewrite (vs_joiners _ _ _ HV id _ Hc) in Hic.
      - intros ->. rewrite Hc in Hcr. simplify_eq; congruence. }
    eapply inv_update_early; try done; cbn; rewrite ?Hph; try done.
    + by rewrite Hw.
    + by intros <-.
    + by destruct (is_creator (cfg p)).
    + apply Hinv.
    + intros i. destruct (decide (i = id)) as [->|]; [|done]. rewrite (inv_as _ _ _ _ _ _ Hinv), Hp. cbn.
      unfold as_entry. rewrite Hph. cbn. by destruct (is_creator (cfg p)).
    + apply Hinv.
    + intros i. destruct (decide (i = id)) as [->|Hne]; [|by rewrite lookup_insert_ne].
      rewrite lookup_insert_eq. unfold SetupInv.ds_entry, SetupInv.ds_record. cbn [phase cfg].
      assert (fetched (cphase s) id = false) as ->.
      { destruct (discovered (cphase s)) eqn:Hd; [|by destruct (cphase s)].
        pose proof (inv_known _ _ _ _ _ _ Hinv Hd id p Hp) as Hx. by rewrite Hph in Hx. }
      rewrite andb_false_r. cbn. by destruct (is_creator (cfg p)).
  - cbn. rewrite Hph. pose proof (elem_of_ids cfgs id). cbn. destruct (is_creator (cfg p)); cbn; lia.
Qed.

End Steps.
