(* ===== verification/SetupCreator.v ===== *)
(** * SetupCreator: the creator's steps

    Discovering the peers, fetching and checking their key packages, and the
    creation of the group with its Welcome, on the invariant of SetupInv.v. *)

From S2P Require Import Prelude Bytes Utf8 Crypto Mls AuthService Identity Credentials DeliveryService DeliveryFacts DsClient MlsGroups MlsFacts GroupSetup SetupCalls SetupInv SetupSteps.

Section CreatorSteps.
Context {L : MlsLib} {TY : DsTypes KeyPackage Msg} {W : DsWire KeyPackage Msg}.
Context {ML : MlsLaws} {WL : DsWireLaws}.
Context (URL : Base64) {URLL : @Base64Laws URL} {B64 : Base64} {B64L : @Base64Laws B64} {UP : UrlPath} {UPL : UrlPathLaws}.
Context (iter : gmap bytes (ClientInfo KeyPackage Msg) -> list (bytes * ClientInfo KeyPackage Msg)).
Hypothesis Hiter : forall m, iter m ≡ₚ map_to_list m.
Context (cfgs : gmap bytes Config) (cr : bytes) (K : bytes -> ClientKeys).
Hypothesis HV : valid_setup cfgs cr K.

Abbreviation ids := (ids cfgs).
Abbreviation peers := (peers cfgs cr).
Abbreviation pk := (pk K).
Abbreviation me := (me K).
Abbreviation kp1 := (kp1 K).
Abbreviation kp2 := (kp2 K).
Abbreviation h1 := (h1 K).
Abbreviation h2 := (h2 K).
Abbreviation inv := (inv cfgs cr K).
Abbreviation cphase := (cphase cr).
Abbreviation ds_entry := (ds_entry cr K).
Abbreviation ds_record := (ds_record cr K).
Abbreviation phase_ok := (phase_ok cfgs cr K).
Abbreviation step := (sys_step URL iter).

Abbreviation rank := (rank cfgs cr).
Abbreviation advances := (advances URL iter cfgs cr K).

(** ** The creator's own entries *)

Lemma as_entry_same w e s id p ph :
  inv w e s -> procs s !! id = Some p -> phase p <> Starting -> ph <> Starting ->
  forall i, credentials (as_data (world s)) !! i =
    if decide (i = id) then as_entry K id (set_phase p ph) else credentials (as_data (world s)) !! i.
Proof.
  intros Hinv Hp Hph Hph' i. destruct (decide (i = id)) as [->|]; [|done].
  rewrite (inv_as _ _ _ _ _ _ Hinv), Hp. cbn. unfold as_entry. cbn. by destruct (phase p), ph.
Qed.

Lemma creator_record w cph cph' ph ph' token : ds_record w cph cr ph token = ds_record w cph' cr ph' token.
Proof. unfold SetupInv.ds_record. by rewrite bool_decide_eq_false_2 by tauto. Qed.

Lemma creator_entry_same w e s p ph :
  inv w e s -> procs s !! cr = Some p -> ds_known (phase p) = true -> ds_known ph = true ->
  forall i, clients (ds_data (world s)) !! i =
    if decide (i = cr) then ds_entry w ph cr (set_phase p ph) else clients (ds_data (world s)) !! i.
Proof.
  intros Hinv Hp Hk Hk' i. destruct (decide (i = cr)) as [->|]; [|done].
  rewrite (inv_ds _ _ _ _ _ _ Hinv), Hp. cbn. unfold SetupInv.ds_entry. cbn. rewrite Hk, Hk'.
  f_equal. apply creator_record.
Qed.

(** ** Discovery *)

(** The clients the delivery service knows. *)
Definition known_ids (s : Sys) : list bytes := filter (fun i => is_Some (clients (ds_data (world s)) !! i)) ids.

Lemma known_ids_spec w e s id : inv w e s ->
  (id ∈ known_ids s <-> is_Some (clients (ds_data (world s)) !! id)) /\
  (is_Some (clients (ds_data (world s)) !! id) <-> exists p, procs s !! id = Some p /\ ds_known (phase p) = true).
Proof.
  intros Hinv. pose proof (inv_ds _ _ _ _ _ _ Hinv id) as Hds.
  assert (is_Some (clients (ds_data (world s)) !! id) <-> exists p, procs s !! id = Some p /\ ds_known (phase p) = true)
    as Hiff.
  { rewrite Hds. destruct (procs s !! id) as [p|]; cbn.
    - unfold SetupInv.ds_entry. destruct (ds_known (phase p)) eqn:Hk; [naive_solver|].
      split; [by intros []|]. intros (q & [= <-] & Hq). congruence.
    - split; [by intros []|naive_solver]. }
  split; [|done]. unfold known_ids. rewrite list_elem_of_filter, elem_of_ids. split; [tauto|]. intros Hx.
  split; [done|]. apply Hiff in Hx as (p & Hp & _). apply (inv_dom _ _ _ _ _ _ Hinv). eauto.
Qed.

Lemma list_clients_inv w e s : inv w e s ->
  exists l, client_list_clients iter (ds_data (world s)) = Ok l /\ l ≡ₚ known_ids s /\ from_utf8_lossy <$> l = l.
Proof.
  intros Hinv.
  destruct (list_clients_perm iter Hiter (ds_data (world s)) (known_ids s)) as (l & Hl & Hperm).
  - apply Hinv.
  - intros id c Hc. rewrite (inv_ds _ _ _ _ _ _ Hinv) in Hc. destruct (procs s !! id) as [p|]; [|done]. cbn in Hc.
    unfold SetupInv.ds_entry in Hc. destruct (ds_known (phase p)); [|done]. by simplify_eq.
  - apply NoDup_filter, ids_NoDup.
  - intros id. apply (known_ids_spec w e s id Hinv).
  - intros l Hl. apply (vs_list _ _ _ HV).
    + rewrite Hl. apply NoDup_filter, ids_NoDup.
    + intros x Hx. rewrite Hl in Hx. unfold known_ids in Hx. by apply list_elem_of_filter in Hx as [_ Hx].
  - exists l. split_and!; [done|done|]. rewrite <- (list_fmap_id l) at 2. apply list_fmap_ext.
    intros i x Hx%list_elem_of_lookup_2. rewrite Hperm in Hx. unfold known_ids in Hx.
    apply list_elem_of_filter in Hx as [_ Hx%elem_of_ids]. by apply (identity_ok cfgs cr K HV).
Qed.

(** A list of known peers that is too short misses one. *)
Lemma missing_client w e s found :
  inv w e s -> (forall i, i ∈ found <-> i <> cr /\ i ∈ known_ids s) -> (length found < length peers)%nat ->
  exists i q, procs s !! i = Some q /\ ds_known (phase q) = false.
Proof.
  intros Hinv Hmem Hlt. destruct (decide (Forall (fun i => i ∈ found) peers)) as [Hall|Hnot].
  - exfalso. assert (length peers <= length found)%nat; [|lia].
    apply submseteq_length, NoDup_submseteq; [apply peers_NoDup|]. by apply Forall_forall.
  - apply not_Forall_Exists in Hnot; [|intros i; apply _]. apply Exists_exists in Hnot as (i & Hi & Hout).
    apply elem_of_peers in Hi as [Hne Hci]. apply (inv_dom _ _ _ _ _ _ Hinv) in Hci as [q Hq].
    exists i, q. split; [done|]. destruct (ds_known (phase q)) eqn:Hk; [|done]. destruct Hout. apply Hmem.
    split; [done|]. destruct (known_ids_spec w e s i Hinv) as [H1 H2]. apply H1, H2. eauto.
Qed.

Lemma step_discovering w e s id p :
  inv w e s -> procs s !! id = Some p -> phase p = Discovering ->
  (step s id = s /\ exists i q, procs s !! i = Some q /\ ds_known (phase q) = false) \/ advances s id p.
Proof.
  intros Hinv Hp Hph. destruct (inv_config cfgs cr K HV _ _ _ _ _ Hinv Hp) as (Hst & Hok & Hc & Hid).
  unfold SetupInv.phase_ok in Hok. rewrite Hph in Hok. destruct Hok as [-> Hreg].
  destruct (creator_config cfgs cr K HV) as (c & Hcc & _ & Hexp). rewrite Hc in Hcc. apply (inj Some) in Hcc as <-.
  destruct (list_clients_inv w e s Hinv) as (l & Hl & Hperm & Hloss).
  set (found := filter (fun n => n <> cr) l).
  assert (found ⊆+ peers) as Hsub.
  { unfold found, SetupInv.peers. rewrite Hperm. unfold known_ids.
    rewrite list_filter_filter. apply sublist_submseteq.
    rewrite (list_filter_iff _ (fun x => is_Some (clients (ds_data (world s)) !! x) /\ x <> cr)) by tauto.
    rewrite <- list_filter_filter. apply sublist_filter. }
  destruct (expected_peers (cfg p) <=? Z.of_nat (length found)) eqn:Hle.
  2: { left. split.
       - eapply step_same; [done|]. unfold client_step, step_discover. rewrite Hph, Hl, Hid.
         cbn [expect_ok mbind outcome_bind]. rewrite Hloss. fold found. by rewrite Hle.
       - apply (missing_client w e s found Hinv); [|apply Z.leb_gt in Hle; lia]. intros i.
         unfold found. rewrite list_elem_of_filter, Hperm. tauto. }
  right. apply Z.leb_le in Hle.
  assert (found ≡ₚ peers) as Hfp by (apply submseteq_length_Permutation; [done|lia]).
  assert (forall i, i <> cr -> is_Some (cfgs !! i) -> exists q, procs s !! i = Some q /\ ds_known (phase q) = true)
    as Hall.
  { intros i Hi Hci. assert (i ∈ found) as Hin by (rewrite Hfp; by apply elem_of_peers).
    apply list_elem_of_filter in Hin as [_ Hin]. rewrite Hperm in Hin.
    destruct (known_ids_spec w e s i Hinv) as [H1 H2]. by apply H2, H1. }
  eapply (advances_intro _ _ _ _ _ w e s cr p (set_phase p (Fetching found [])) (world s)); [done| | |].
  - unfold client_step, step_discover. rewrite Hph, Hl, Hid. cbn [expect_ok mbind outcome_bind]. rewrite Hloss.
    fold found. by rewrite (proj2 (Z.leb_le _ _) Hle).
  - pose proof (cphase_eq cr s p Hp) as Hcs. eapply inv_update_creator; try done; cbn; rewrite ?Hph; try done.
    + split; [done|]. by exists [].
    + apply Hinv.
    + exact (as_entry_same w e s cr p (Fetching found []) Hinv Hp ltac:(by rewrite Hph) ltac:(done)).
    + apply Hinv.
    + exact (creator_entry_same w e s p (Fetching found []) Hinv Hp ltac:(by rewrite Hph) ltac:(done)).
    + intros i Hi. rewrite <- Hfp in Hi. by rewrite bool_decide_eq_false_2 by tauto.
    + intros _. split; [done|]. intros i q Hq Hi.
      destruct (Hall i Hi) as (q' & Hq' & Hk); [apply (inv_dom _ _ _ _ _ _ Hinv); eauto|]. by simplify_eq.
  - cbn. rewrite Hph. cbn. rewrite (Permutation_length Hfp). lia.
Qed.

(** ** Key packages *)

(** While the creator fetches, every other client waits. *)
Lemma others_wait w e s id p q :
  inv w e s -> procs s !! cr = Some p -> discovered (phase p) = true -> welcomed (phase p) = false ->
  procs s !! id = Some q -> id <> cr -> phase q = Waiting.
Proof.
  intros Hinv Hp Hd Hw Hq Hne. pose proof (cphase_eq cr s p Hp) as Hcs.
  pose proof (inv_known _ _ _ _ _ _ Hinv ltac:(by rewrite Hcs) id q Hq) as Hk.
  destruct (inv_proc _ _ _ _ _ _ Hinv id q Hq) as [_ Hok]. unfold SetupInv.phase_ok in Hok. rewrite Hcs, Hw in Hok.
  destruct (phase q); try done; naive_solver.
Qed.

Lemma peer_proc w e s id : inv w e s -> id ∈ peers -> exists q, procs s !! id = Some q.
Proof. intros Hinv [_ Hc]%elem_of_peers. by apply (inv_dom _ _ _ _ _ _ Hinv) in Hc. Qed.

(** The service hands out the second key package of the next peer. *)
Lemma fetch_call w e s p peer todo kps :
  inv w e s -> procs s !! cr = Some p -> phase p = Fetching (peer :: todo) kps -> peer ∈ peers -> peer ∉ todo ->
  exists b token, decode_key_package b = Some (kp2 peer) /\
    procs s !! peer ≫= ds_entry w (Checking b peer todo kps) peer =
      Some (ds_record w (Checking b peer todo kps) peer Waiting token) /\
    client_consume_key_package (URL := URL) (ds_data (world s)) peer =
      (Ok (Some b), with_clients (ds_data (world s))
         (<[peer := ds_record w (Checking b peer todo kps) peer Waiting token]> (clients (ds_data (world s))))).
Proof.
  intros Hinv Hp Hph Hpeer Hnot. destruct (peer_proc w e s peer Hinv Hpeer) as [q Hq].
  apply elem_of_peers in Hpeer as [Hne Hcp]. destruct (identity_ok cfgs cr K HV peer Hcp) as (Hbok & _).
  pose proof (others_wait w e s peer p q Hinv Hp ltac:(by rewrite Hph) ltac:(by rewrite Hph) Hq Hne) as Hqw.
  assert (clients (ds_data (world s)) !! peer = Some (ds_record w (phase p) peer Waiting (coins_token (coins (cfg q)))))
    as Hrec.
  { rewrite (inv_ds _ _ _ _ _ _ Hinv), Hq, (cphase_eq cr s p Hp). cbn. unfold SetupInv.ds_entry. by rewrite Hqw. }
  assert (bool_decide (peer <> cr) && fetched (phase p) peer = false) as Htk.
  { rewrite Hph. cbn. rewrite (bool_decide_eq_false_2 (peer ∉ _)) by set_solver. apply andb_false_r. }
  destruct (vs_encode _ _ _ HV peer) as [_ Hser]; [by apply elem_of_ids|].
  destruct (consume_second (URL := URL) (ds_data (world s)) peer _ (h1 peer, kp1 peer) (h2 peer) (kp2 peer)
    (inv_ds_ok _ _ _ _ _ _ Hinv) Hbok Hrec) as (b & Hdec & Hcon); [cbn; by rewrite Htk|done|].
  exists b, (coins_token (coins (cfg q))). split; [done|]. rewrite Hq. cbn [mbind option_bind].
  split; [unfold SetupInv.ds_entry; by rewrite Hqw|]. rewrite Hcon. unfold SetupInv.ds_record. rewrite Htk. cbn.
  rewrite (bool_decide_eq_true_2 (peer <> cr)), (bool_decide_eq_true_2 (peer ∉ todo)) by done. cbn.
  by rewrite union_empty_r_L.
Qed.

Lemma step_fetching w e s id p peer todo kps :
  inv w e s -> procs s !! id = Some p -> phase p = Fetching (peer :: todo) kps -> advances s id p.
Proof.
  intros Hinv Hp Hph. destruct (inv_config cfgs cr K HV _ _ _ _ _ Hinv Hp) as (Hst & Hok & Hc & Hid).
  unfold SetupInv.phase_ok in Hok. rewrite Hph in Hok. destruct Hok as (-> & got & Hperm & Hkps).
  pose proof (cphase_eq cr s p Hp) as Hcs.
  assert (peer ∈ peers) as Hpeer by (rewrite <- Hperm; set_solver).
  pose proof (peers_NoDup cfgs cr) as Hnd. rewrite <- Hperm in Hnd.
  apply NoDup_app in Hnd as (_ & _ & [Hnot _]%NoDup_cons).
  destruct (fetch_call w e s p peer todo kps Hinv Hp Hph Hpeer Hnot) as (b & token & Hdec & Hent & Hcon).
  apply elem_of_peers in Hpeer as [Hne Hcp]. destruct (identity_ok cfgs cr K HV peer Hcp) as (_ & _ & [lr Hlr] & _).
  eapply (advances_intro _ _ _ _ _ w e s cr p (set_phase p (Checking b peer todo kps))); [done| | |].
  - unfold client_step, step_fetch. rewrite Hph. unfold parse_credential_identity. rewrite Hlr. cbn [expect].
    rewrite Hcon. reflexivity.
  - eapply inv_update; try done; rewrite ?cphase_insert, ?decide_True by done; cbn; try done; try apply Hinv.
    + split; [done|]. split; [done|]. eauto.
    + rewrite Hcs. by rewrite Hph.
    + exact (as_entry_same w e s cr p (Checking b peer todo kps) Hinv Hp ltac:(by rewrite Hph) ltac:(done)).
    + intros i. destruct (decide (i = peer)) as [->|Hip].
      { by rewrite lookup_insert_eq, lookup_insert_ne, Hent by done. }
      rewrite lookup_insert_ne by done. rewrite (inv_ds _ _ _ _ _ _ Hinv), Hcs, Hph.
      destruct (decide (i = cr)) as [->|Hi].
      * rewrite lookup_insert_eq, Hp. cbn. unfold SetupInv.ds_entry. rewrite Hph. cbn. f_equal. apply creator_record.
      * rewrite lookup_insert_ne by done. destruct (procs s !! i) as [qi|]; [|done]. cbn [mbind option_bind].
        unfold SetupInv.ds_entry, SetupInv.ds_record. cbn [fetched welcomed].
        by rewrite (bool_decide_ext (i ∉ peer :: todo) (i ∉ todo)) by set_solver.
    + intros _ i q'. rewrite lookup_insert_Some. intros [[<- <-]|[_ Hq']]; [done|].
      eapply (inv_known _ _ _ _ _ _ Hinv); [|done]. by rewrite Hcs, Hph.
  - cbn. rewrite Hph. cbn. lia.
Qed.

Lemma step_checking w e s id p b peer todo kps :
  inv w e s -> procs s !! id = Some p -> phase p = Checking b peer todo kps -> advances s id p.
Proof.
  intros Hinv Hp Hph. destruct (inv_config cfgs cr K HV _ _ _ _ _ Hinv Hp) as (Hst & Hok & Hc & Hid).
  unfold SetupInv.phase_ok in Hok. rewrite Hph in Hok. destruct Hok as (-> & Hdec & got & Hperm & ->).
  pose proof (cphase_eq cr s p Hp) as Hcs.
  assert (peer ∈ peers) as Hpeer by (rewrite <- Hperm; set_solver).
  destruct (peer_proc w e s peer Hinv Hpeer) as [q Hq]. apply elem_of_peers in Hpeer as [Hne [c Hcp]].
  pose proof (others_wait w e s peer p q Hinv Hp ltac:(by rewrite Hph) ltac:(by rewrite Hph) Hq Hne) as Hqw.
  destruct (keys_ok cfgs cr K HV peer c Hcp) as (_ & Hpk & _).
  destruct (bundles_ok cfgs cr K HV peer c Hcp) as (_ & Hmem & Hval & _).
  destruct (identity_ok cfgs cr K HV peer (mk_is_Some _ _ Hcp)) as (_ & _ & _ & Hsafe).
  assert (credentials (as_data (world s)) !! peer = Some (b64_encode (pk peer))) as Hcred.
  { rewrite (inv_as _ _ _ _ _ _ Hinv), Hq. cbn. unfold as_entry. by rewrite Hqw. }
  eapply (advances_intro _ _ _ _ _ w e s cr p (set_phase p (Fetching todo ((kp2 <$> got) ++ [kp2 peer])))); [done| | |].
  - unfold client_step, step_check. rewrite Hph, Hdec. rewrite (lookup_as_known _ _ _ Hsafe (inv_as_ok _ _ _ _ _ _ Hinv) Hcred Hpk).
    cbn [expect_ok mbind outcome_bind]. rewrite Hval, Hmem. cbn [assert mbind outcome_bind].
    rewrite bool_decide_eq_true_2 by done. reflexivity.
  - eapply inv_update_creator; try done; cbn; rewrite ?Hph; try done; try apply Hinv.
    + split; [done|]. exists (got ++ [peer]). rewrite <- (assoc_L (++)). split; [done|]. by rewrite fmap_app.
    + exact (as_entry_same w e s cr p (Fetching todo ((kp2 <$> got) ++ [kp2 peer])) Hinv Hp ltac:(by rewrite Hph) ltac:(done)).
    + exact (creator_entry_same w e s p (Fetching todo ((kp2 <$> got) ++ [kp2 peer])) Hinv Hp ltac:(by rewrite Hph) ltac:(done)).
    + intros _. split; [done|]. intros i q' Hq' _. eapply (inv_known _ _ _ _ _ _ Hinv); [|done]. by rewrite Hcs, Hph.
  - cbn. rewrite Hph. cbn. lia.
Qed.

End CreatorSteps.
