(* ===== verification/SetupCreate.v ===== *)
(** * SetupCreate: the creation of the group

    The commit that adds all peers, the Welcome it yields, and the delivery
    of that Welcome to every peer, on the invariant of SetupInv.v. *)

From S2P Require Import Prelude Bytes Utf8 Crypto Mls AuthService Identity Credentials DeliveryService DeliveryFacts DsClient MlsGroups MlsFacts GroupSetup SetupCalls SetupInv SetupSteps SetupCreator.

Section CreateStep.
Context {L : MlsLib} {TY : DsTypes KeyPackage Msg} {W : DsWire KeyPackage Msg}.
Context {ML : MlsLaws} {WL : DsWireLaws}.
Context (URL : Base64) {URLL : @Base64Laws URL} {B64 : Base64} {B64L : @Base64Laws B64} {UP : UrlPath} {UPL : UrlPathLaws}.
Context (iter : gmap bytes (ClientInfo KeyPackage Msg) -> list (bytes * ClientInfo KeyPackage Msg)).
Hypothesis Hiter : forall m, iter m ≡ₚ map_to_list m.
Context (cfgs : gmap bytes Config) (cr : bytes) (K : bytes -> ClientKeys).
Hypothesis HV : valid_setup cfgs cr K.

Abbreviation ids := (ids cfgs).
Abbreviation peers := (peers cfgs cr).
Abbreviation pk := (pk K).
Abbreviation me := (me K).
Abbreviation kp1 := (kp1 K).
Abbreviation kp2 := (kp2 K).
Abbreviation h1 := (h1 K).
Abbreviation h2 := (h2 K).
Abbreviation inv := (inv cfgs cr K).
Abbreviation cphase := (cphase cr).
Abbreviation ds_entry := (ds_entry cr K).
Abbreviation ds_record := (ds_record cr K).
Abbreviation phase_ok := (phase_ok cfgs cr K).
Abbreviation step := (sys_step URL iter).

Abbreviation rank := (rank cfgs cr).
Abbreviation advances := (advances URL iter cfgs cr K).

(** Before the Welcome, nothing depends on it. *)
Lemma inv_irrel w e w' e' s : welcomed (cphase s) = false -> inv w e s -> inv w' e' s.
Proof.
  intros Hw Hinv. split; try apply Hinv.
  - intros id p Hp. destruct (inv_proc _ _ _ _ _ _ Hinv id p Hp) as [Hst Hok]. split; [done|].
    rewrite Hw in *. unfold SetupInv.phase_ok in *. destruct (phase p); naive_solver.
  - intros id. rewrite (inv_ds _ _ _ _ _ _ Hinv). destruct (procs s !! id) as [p|]; [|done]. cbn.
    unfold SetupInv.ds_entry, SetupInv.ds_record. by rewrite Hw, !andb_false_r.
  - congruence.
Qed.

(** ** The commit *)

Lemma mapM_hashes l : (forall id, id ∈ l -> is_Some (cfgs !! id)) -> mapM hash_ref (kp2 <$> l) = Some (h2 <$> l).
Proof.
  induction l as [|id l IH]; intros Hl; [done|]. cbn [fmap list_fmap mapM].
  destruct (Hl id) as [c Hc]; [by left|].
  destruct (keys_ok cfgs cr K HV id c Hc) as (_ & _ & _ & _ & _ & Hh). rewrite Hh. cbn [mbind option_bind].
  rewrite IH by (intros; apply Hl; by right). done.
Qed.

Lemma peers_addable e o c got :
  cfgs !! cr = Some c -> new_epoch (coins_group (coins c)) (k_signer (K cr)) (me cr) = Some (e, o) ->
  got ≡ₚ peers -> addable e (kp2 <$> got).
Proof.
  intros Hc He Hgot. split.
  - apply Forall_fmap, Forall_forall. intros id Hid. cbn.
    assert (id ∈ peers) as [_ [ci Hci]]%elem_of_peers by (by rewrite <- Hgot).
    by apply (bundles_ok cfgs cr K HV id ci Hci).
  - pose proof (vs_fresh _ _ _ HV c e o Hc He) as Hnd. rewrite <- list_fmap_compose. unfold compose.
    by rewrite (Permutation_map (fun id => kp_keys (kp2 id)) Hgot).
Qed.

Lemma make_group_ok p got :
  static_ok cfgs K cr p -> got ≡ₚ peers ->
  exists g wb w e, make_group p (kp2 <$> got) = Ret (g, wb) /\ encode_message w = Some wb /\
    in_group K e cr g /\ made cfgs cr K w e.
Proof.
  intros (Hc & Hs & Hm) Hgot. unfold make_group. rewrite Hs, Hm.
  destruct (new_epoch_some (coins_group (coins (cfg p))) (k_signer (K cr)) (me cr)) as (e0 & o0 & Hne & Hmem0 & Hh0);
    [done|].
  pose proof (peers_addable e0 o0 (cfg p) got Hc Hne Hgot) as Hadd.
  destruct (commit_some (coins_commit (coins (cfg p))) (k_signer (K cr)) e0 o0 (me cr) (kp2 <$> got) Hh0 eq_refl
    (or_intror Hadd)) as [r Hr].
  destruct (commit_epoch _ _ _ _ _ _ _ Hr Hh0) as (Hrm & Hh & Hmem & _). cbn zeta in *.
  assert (got <> []) as Hgne. { intros ->. apply Permutation_nil_l in Hgot. by apply (vs_peers _ _ _ HV). }
  assert (kp2 <$> got <> []) as Hkne by (by destruct got).
  destruct (commit_welcome_some _ _ _ _ _ _ Hr Hkne) as (w & hs & Hw & Hsec & hs' & Hhs' & Hperm).
  destruct (vs_welcome _ _ _ HV got _ _ _ _ r w Hgot Hr Hw) as [[wb Hwb] Hser].
  exists (mkGroup Operational (staged_epoch (commit_staged r)) (staged_own (commit_staged r))), wb, w,
    (staged_epoch (commit_staged r)). split; [|split; [done|]; split; [by split_and!|]].
  - unfold group_new. rewrite Hne. cbn [expect_ok mbind outcome_bind]. unfold add_members, commit_builder.
    cbn [is_operational group_state epoch_state own_state].
    rewrite bool_decide_eq_false_2 by (by destruct got). rewrite Hr, Hw.
    cbn [expect_ok mbind outcome_bind merge_pending_commit group_state]. unfold merge_staged_commit. rewrite Hrm.
    rewrite Hwb. done.
  - rewrite mapM_hashes in Hhs' by (intros id Hid; rewrite Hgot in Hid; by apply elem_of_peers in Hid as [_ Hid]).
    apply (inj Some) in Hhs' as <-. split; [|split; [done|]].
    + rewrite Hmem, Hmem0. cbn. constructor. rewrite <- Hgot, <- list_fmap_compose. apply reflexive_eq.
      apply list_fmap_ext. intros i id Hi%list_elem_of_lookup_2. cbn.
      assert (id ∈ peers) as [_ [ci Hci]]%elem_of_peers by (by rewrite <- Hgot).
      by apply (bundles_ok cfgs cr K HV id ci Hci).
    + exists hs. split; [done|]. split; [by rewrite Hperm, Hgot|]. intros id Hid.
      pose proof Hid as [_ [ci Hci]]%elem_of_peers.
      destruct (welcome_opens _ _ _ _ _ _ _ w (k_b2 (K id)) Hr Hh0 Hw) as (o & Ho & Hho).
      { apply list_elem_of_fmap. exists id. by rewrite Hgot. }
      exists o. split; [done|]. pose proof (bundles_ok cfgs cr K HV id ci Hci) as (_ & Hb & _).
      by rewrite <- Hb.
Qed.

(** ** The Welcome *)

(** The records before it: one key package left, one hash reserved. *)
Lemma before_welcome w e s p kps i c :
  inv w e s -> procs s !! cr = Some p -> phase p = Fetching [] kps -> clients (ds_data (world s)) !! i = Some c ->
  is_Some (cfgs !! i) /\
  exists q, procs s !! i = Some q /\ c = ds_record w (Fetching [] kps) i (phase q) (coins_token (coins (cfg q))) /\
    (i <> cr -> phase q = Waiting).
Proof.
  intros Hinv Hp Hph Hc. rewrite (inv_ds _ _ _ _ _ _ Hinv), (cphase_eq cr s p Hp), Hph in Hc.
  destruct (procs s !! i) as [q|] eqn:Hq; [|done]. cbn in Hc. unfold SetupInv.ds_entry in Hc.
  destruct (ds_known (phase q)); [|done]. apply (inj Some) in Hc as <-.
  split; [apply (inv_dom _ _ _ _ _ _ Hinv); eauto|]. exists q. split_and!; [done|done|].
  apply (others_wait cfgs cr K w e s i p q Hinv Hp); [by rewrite Hph|by rewrite Hph|done].
Qed.

Lemma reserved_before w kps i ph token h :
  h ∈ reserved_key_pkg_hash (ds_record w (Fetching [] kps) i ph token) <-> i <> cr /\ h = h2 i.
Proof.
  unfold SetupInv.ds_record. cbn. rewrite (bool_decide_eq_true_2 (i ∉ [])) by set_solver.
  destruct (bool_decide (i <> cr)) eqn:Hi; cbn.
  - apply bool_decide_eq_true in Hi. rewrite elem_of_singleton. tauto.
  - apply bool_decide_eq_false in Hi. set_solver.
Qed.

Lemma owned_before w e s p kps h :
  inv w e s -> procs s !! cr = Some p -> phase p = Fetching [] kps -> owned_once (clients (ds_data (world s))) h.
Proof.
  intros Hinv Hp Hph i i' c c' Hc Hc' Hh Hh'.
  destruct (before_welcome w e s p kps i c Hinv Hp Hph Hc) as (Hi & q & _ & -> & _).
  destruct (before_welcome w e s p kps i' c' Hinv Hp Hph Hc') as (Hi' & q' & _ & -> & _).
  apply reserved_before in Hh as [_ ->]. apply reserved_before in Hh' as [_ Hh'].
  by apply (hashes_distinct cfgs cr K HV i i'); [apply elem_of_ids..|].
Qed.

(** A peer's hash is among the joiners' exactly once, the creator's own never. *)
Lemma count_own hs i :
  hs ≡ₚ h2 <$> peers -> i ∈ peers -> length (filter (fun h => h ∈ ({[h2 i]} : gset bytes)) hs) = 1%nat.
Proof.
  intros Hhs Hi. rewrite (filter_Permutation _ _ _ Hhs). apply elem_of_Permutation in Hi as [rest Hrest].
  pose proof (peers_NoDup cfgs cr) as Hnd. rewrite Hrest in Hnd.
  apply NoDup_cons in Hnd as [Hnot _]. rewrite (filter_Permutation _ _ _ (Permutation_map h2 Hrest)). cbn.
  rewrite decide_True by set_solver. cbn. f_equal. apply length_zero_iff_nil, elem_of_nil_inv.
  intros h [Hh Hin]%list_elem_of_filter. apply elem_of_singleton in Hh as ->.
  apply list_elem_of_fmap in Hin as (j & Heq & Hj).
  assert (forall k, k ∈ i :: rest -> k ∈ ids) as Hids.
  { intros k Hk. rewrite <- Hrest in Hk. apply elem_of_peers in Hk as [_ Hk]. by apply elem_of_ids. }
  assert (i = j) as ->; [|done]. apply (hashes_distinct cfgs cr K HV i j); [apply Hids; by left|apply Hids; by right|done].
Qed.

Lemma hashes_NoDup hs : hs ≡ₚ h2 <$> peers -> NoDup hs.
Proof.
  intros ->. pose proof (vs_hashes _ _ _ HV) as Hnd. apply NoDup_app in Hnd as (_ & _ & Hnd).
  rewrite (Permutation_map h2 (ids_perm cfgs cr K HV)) in Hnd. by apply NoDup_cons in Hnd as [_ Hnd].
Qed.

(** The record after it. *)
Lemma record_after w w' hs kps i q rest g :
  hs ≡ₚ h2 <$> peers -> is_Some (cfgs !! i) -> (i <> cr -> phase q = Waiting) ->
  after_welcome w' hs (ds_record w (Fetching [] kps) i (phase q) (coins_token (coins (cfg q)))) =
  ds_record w' (Verifying rest g) i (phase q) (coins_token (coins (cfg q))).
Proof.
  intros Hhs Hi Hq. rewrite after_welcome_eq by (by apply hashes_NoDup). unfold SetupInv.ds_record.
  cbn [fetched welcomed]. rewrite (bool_decide_eq_true_2 (i ∉ [])) by set_solver.
  destruct (decide (i = cr)) as [->|Hne].
  - rewrite (bool_decide_eq_false_2 (cr <> cr)) by tauto.
    cbn [andb key_packages reserved_key_pkg_hash msgs welcome_queue auth_token ci_id].
    match goal with |- context [length ?f] => assert (f = []) as -> end.
    { apply elem_of_nil_inv. intros h [Hh _]%list_elem_of_filter. set_solver. }
    cbn. f_equal. apply leibniz_equiv. set_solver.
  - rewrite (bool_decide_eq_true_2 (i <> cr)), (Hq Hne) by done.
    assert (i ∈ peers) as Hp by (by apply elem_of_peers).
    cbn [andb negb key_packages reserved_key_pkg_hash msgs welcome_queue auth_token ci_id].
    match goal with |- context [length ?f] => assert (length f = 1%nat) as -> end.
    { erewrite list_filter_iff; [by apply count_own|done]. }
    cbn. f_equal.
    assert (h2 i ∈ hs) by (rewrite Hhs; by apply list_elem_of_fmap_2). apply leibniz_equiv. set_solver.
Qed.

Lemma step_creating w e s id p kps :
  inv w e s -> procs s !! id = Some p -> phase p = Fetching [] kps -> advances s id p.
Proof.
  intros Hinv Hp Hph. destruct (inv_config cfgs cr K HV _ _ _ _ _ Hinv Hp) as (Hst & Hok & Hc & Hid).
  unfold SetupInv.phase_ok in Hok. rewrite Hph in Hok. destruct Hok as (-> & got & Hgot & ->).
  rewrite app_nil_r in Hgot. pose proof (cphase_eq cr s p Hp) as Hcs.
  destruct (make_group_ok p got Hst Hgot) as (g & wb & w' & e' & Hmk & Hwb & Hg & Hmade).
  pose proof Hmade as (Hmem & _ & hs & Hsec & Hhs & _).
  assert (Forall (owned_once (clients (ds_data (world s)))) hs) as Hown.
  { apply Forall_forall. intros h _. by eapply owned_before. }
  eapply (advances_intro _ _ _ _ _ w' e' s cr p (set_phase p (Verifying (members g) g))); [done| | |].
  - unfold client_step, step_create. rewrite Hph, Hmk.
    rewrite (client_send_welcome_ok iter Hiter _ w' wb hs (inv_ds_ok _ _ _ _ _ _ Hinv) Hwb Hsec Hown). reflexivity.
  - assert (inv w' e' s) as Hinv' by (eapply inv_irrel; [|exact Hinv]; by rewrite Hcs, Hph).
    eapply inv_update; try done; rewrite ?cphase_insert, ?decide_True by done; cbn; try done; try apply Hinv.
    + exact (as_entry_same cfgs cr K w e s cr p (Verifying (members g) g) Hinv Hp ltac:(by rewrite Hph) ltac:(done)).
    + intros i. rewrite lookup_fmap. destruct (clients (ds_data (world s)) !! i) as [c|] eqn:Hci; cbn.
      * destruct (before_welcome w e s p _ i c Hinv Hp Hph Hci) as (Hi & q & Hq & -> & Hqw).
        rewrite (record_after w w' hs _ i q (members g) g Hhs Hi Hqw). destruct (decide (i = cr)) as [->|Hne].
        -- rewrite lookup_insert_eq. cbn. unfold SetupInv.ds_entry. cbn.
           assert (q = p) as -> by congruence. f_equal. apply creator_record.
        -- rewrite lookup_insert_ne, Hq by done. cbn. unfold SetupInv.ds_entry. by rewrite (Hqw Hne).
      * pose proof (inv_ds _ _ _ _ _ _ Hinv i) as Hn. rewrite Hci in Hn. destruct (decide (i = cr)) as [->|Hne].
        -- rewrite Hp in Hn. cbn in Hn. unfold SetupInv.ds_entry in Hn. by rewrite Hph in Hn.
        -- rewrite lookup_insert_ne by done. destruct (procs s !! i) as [q|]; [|done]. cbn in Hn |- *.
           unfold SetupInv.ds_entry in *. by destruct (ds_known (phase q)).
    + intros _ i q. rewrite lookup_insert_Some. intros [[<- <-]|[_ Hq]]; [done|].
      eapply (inv_known _ _ _ _ _ _ Hinv); [|done]. by rewrite Hcs, Hph.
  - cbn. rewrite Hph. cbn. destruct Hg as (_ & Hge & _). cbn in Hge. unfold members. rewrite Hge.
    rewrite (Permutation_length Hmem), (Permutation_length (ids_perm cfgs cr K HV)), length_fmap. cbn. lia.
Qed.

End CreateStep.
