(* ===== verification/SetupJoiner.v ===== *)
(** * SetupJoiner: waiting, joining and verifying

    The steps of a client that waits for its Welcome, and the verification
    of the members in every role, on the invariant of SetupInv.v. *)

From S2P Require Import Prelude Bytes Utf8 Crypto Mls AuthService Identity Credentials DeliveryService DeliveryFacts DsClient MlsGroups MlsFacts GroupSetup SetupCalls SetupInv SetupSteps SetupCreator.

Section JoinerSteps.
Context {L : MlsLib} {TY : DsTypes KeyPackage Msg} {W : DsWire KeyPackage Msg}.
Context {ML : MlsLaws} {WL : DsWireLaws}.
Context (URL : Base64) {URLL : @Base64Laws URL} {B64 : Base64} {B64L : @Base64Laws B64} {UP : UrlPath} {UPL : UrlPathLaws}.
Context (iter : gmap bytes (ClientInfo KeyPackage Msg) -> list (bytes * ClientInfo KeyPackage Msg)).
Hypothesis Hiter : forall m, iter m ≡ₚ map_to_list m.
Context (cfgs : gmap bytes Config) (cr : bytes) (K : bytes -> ClientKeys).
Hypothesis HV : valid_setup cfgs cr K.

Abbreviation ids := (ids cfgs).
Abbreviation peers := (peers cfgs cr).
Abbreviation pk := (pk K).
Abbreviation me := (me K).
Abbreviation kp1 := (kp1 K).
Abbreviation kp2 := (kp2 K).
Abbreviation h1 := (h1 K).
Abbreviation h2 := (h2 K).
Abbreviation inv := (inv cfgs cr K).
Abbreviation cphase := (cphase cr).
Abbreviation ds_entry := (ds_entry cr K).
Abbreviation ds_record := (ds_record cr K).
Abbreviation phase_ok := (phase_ok cfgs cr K).
Abbreviation step := (sys_step URL iter).

Abbreviation rank := (rank cfgs cr).
Abbreviation advances := (advances URL iter cfgs cr K).

(** ** Waiting *)

(** The client's own key package is the one found. *)
Lemma keys_for_welcome_ok (storage : gmap bytes Bundle) hs a h b :
  storage !! h = Some b -> h ∈ hs -> a ∉ hs -> (forall x y, storage !! x = Some y -> x = a \/ x = h) ->
  keys_for_welcome storage hs = Some (b, delete h storage).
Proof.
  intros Hb Hin Hnot Hall. induction hs as [|x hs IH]; [by apply elem_of_nil in Hin|]. cbn.
  apply not_elem_of_cons in Hnot as [Hne Hnot]. destruct (storage !! x) as [y|] eqn:Hx.
  - destruct (Hall x y Hx) as [->| ->]; [done|]. by simplify_eq.
  - apply IH; [|done]. apply elem_of_cons in Hin as [->|Hin]; [congruence|done].
Qed.

Lemma join_ok w e id p hs :
  static_ok cfgs K id p -> registered K id p -> id ∈ peers -> welcome_secrets w = Some hs -> hs ≡ₚ h2 <$> peers ->
  (exists o, open_welcome (k_b2 (K id)) w = Some (e, o) /\ holds e o (me id)) ->
  exists g m, join_from_welcome (member p) w hs = (Ok g, m) /\ in_group K e id g /\
    signer m = k_signer (K id) /\ credential_with_key m = me id.
Proof.
  intros (Hc & Hs & Hm) (_ & Hb & Hall) Hid Hsec Hhs (o & Ho & Hh).
  assert (id ∈ ids) as Hids by (apply elem_of_peers in Hid as [_ Hid]; by apply elem_of_ids).
  exists (mkGroup Operational e o). eexists. unfold join_from_welcome.
  rewrite (keys_for_welcome_ok _ hs (h1 id) (h2 id) (k_b2 (K id)) Hb); [rewrite Ho| | |exact Hall].
  - split; [reflexivity|]. by split_and!.
  - rewrite Hhs. by apply list_elem_of_fmap_2.
  - rewrite Hhs. intros (j & Heq & Hj)%list_elem_of_fmap.
    assert (j ∈ ids) as Hjs by (apply elem_of_peers in Hj as [_ Hj]; by apply elem_of_ids).
    by apply (hashes_distinct cfgs cr K HV id j).
Qed.

(** What the delivery service keeps for a waiting client. *)
Lemma waiting_record w e s id p :
  inv w e s -> procs s !! id = Some p -> phase p = Waiting ->
  clients (ds_data (world s)) !! id = Some (ds_record w (cphase s) id Waiting (coins_token (coins (cfg p)))).
Proof.
  intros Hinv Hp Hph. rewrite (inv_ds _ _ _ _ _ _ Hinv), Hp. cbn. unfold SetupInv.ds_entry. by rewrite Hph.
Qed.

(** A poll before the Welcome changes nothing. *)
Lemma step_waiting_early w e s id p :
  inv w e s -> procs s !! id = Some p -> phase p = Waiting -> welcomed (cphase s) = false -> step s id = s.
Proof.
  intros Hinv Hp Hph Hw. destruct (inv_config cfgs cr K HV _ _ _ _ _ Hinv Hp) as (_ & Hok & Hc & _).
  unfold SetupInv.phase_ok in Hok. rewrite Hph in Hok. destruct Hok as (_ & Hds & _).
  destruct (identity_ok cfgs cr K HV id) as (Hbok & _); [eauto|].
  pose proof (waiting_record w e s id p Hinv Hp Hph) as Hrec.
  pose proof (recv_queue (URL := URL) _ id _ [] (inv_ds_ok _ _ _ _ _ _ Hinv) Hbok Hrec) as Hrecv.
  unfold SetupInv.ds_record in Hrecv, Hrec. rewrite Hw, !andb_false_r in Hrecv, Hrec.
  cbn [auth_token welcome_queue msgs ci_id key_packages reserved_key_pkg_hash andb negb app] in Hrecv, Hrec.
  apply (step_same _ _ s id p Hp). unfold client_step, step_wait. rewrite Hph, Hds.
  rewrite Hrecv by (done || apply (vs_empty _ _ _ HV)). cbn. rewrite insert_id by exact Hrec.
  by destruct s as [ps [a [cs gs cp gp]]].
Qed.

Lemma welcomed_fetched ph id : welcomed ph = true -> fetched ph id = true.
Proof. by destruct ph. Qed.

Lemma step_waiting_join w e s id p :
  inv w e s -> procs s !! id = Some p -> phase p = Waiting -> welcomed (cphase s) = true -> advances s id p.
Proof.
  intros Hinv Hp Hph Hw. destruct (inv_config cfgs cr K HV _ _ _ _ _ Hinv Hp) as (Hst & Hok & Hc & _).
  unfold SetupInv.phase_ok in Hok. rewrite Hph in Hok. destruct Hok as (Hne & Hreg). pose proof Hreg as (Hds & _).
  destruct (identity_ok cfgs cr K HV id) as (Hbok & _); [eauto|].
  assert (id ∈ peers) as Hid by (apply elem_of_peers; eauto).
  destruct (inv_made _ _ _ _ _ _ Hinv Hw) as (Hmem & Hser & hs & Hsec & Hhs & Hopen).
  destruct (join_ok w e id p hs Hst Hreg Hid Hsec Hhs (Hopen id Hid)) as (g & m & Hjoin & Hg & Hms & Hmc).
  pose proof (waiting_record w e s id p Hinv Hp Hph) as Hrec.
  pose proof (recv_queue (URL := URL) _ id _ [w] (inv_ds_ok _ _ _ _ _ _ Hinv) Hbok Hrec) as Hrecv.
  unfold SetupInv.ds_record in Hrecv. rewrite Hw, (welcomed_fetched _ _ Hw), bool_decide_eq_true_2 in Hrecv by done.
  cbn [auth_token welcome_queue msgs ci_id key_packages reserved_key_pkg_hash andb negb app] in Hrecv.
  eapply (advances_intro _ _ _ _ _ w e s id p); [done| | |].
  - unfold client_step, step_wait. rewrite Hph, Hds, Hrecv by done. cbn. rewrite Hsec, Hjoin. reflexivity.
  - eapply inv_update_peer; try done; cbn; try apply Hinv.
    + intros i. destruct (decide (i = id)) as [->|]; [|done]. rewrite (inv_as _ _ _ _ _ _ Hinv), Hp. cbn.
      unfold as_entry. by rewrite Hph.
    + intros i. destruct (decide (i = id)) as [->|Hi]; [|by rewrite lookup_insert_ne].
      rewrite lookup_insert_eq. unfold SetupInv.ds_entry, SetupInv.ds_record. cbn.
      by rewrite Hw, (welcomed_fetched _ _ Hw), bool_decide_eq_true_2 by done.
  - cbn. rewrite Hph. destruct Hg as (_ & Hge & _). cbn in Hge |- *. unfold members. rewrite Hge.
    rewrite (Permutation_length Hmem), (Permutation_length (ids_perm cfgs cr K HV)), length_fmap. cbn. lia.
Qed.

(** ** Verifying *)

Lemma inv_update_verified w e s id p ph :
  inv w e s -> procs s !! id = Some p -> welcomed (phase p) = true -> welcomed ph = true ->
  phase_ok e true id (set_phase p ph) -> inv w e (mkSys (<[id := set_phase p ph]> (procs s)) (world s)).
Proof.
  intros Hinv Hp Hw Hw' Hok. destruct (inv_proc _ _ _ _ _ _ Hinv id p Hp) as [Hst Hokp].
  assert (welcomed (cphase s) = true) as Hcw.
  { unfold SetupInv.phase_ok in Hokp. destruct (phase p); try done; naive_solver. }
  assert (forall cph, welcomed cph = true -> forall i q, ds_entry w cph i q = ds_entry w (cphase s) i q) as Hent.
  { intros cph Hx i q. unfold SetupInv.ds_entry, SetupInv.ds_record.
    by rewrite Hx, Hcw, !welcomed_fetched. }
  assert (welcomed (cphase (mkSys (<[id := set_phase p ph]> (procs s)) (world s))) = true) as Hcw'.
  { rewrite cphase_insert. by destruct (decide (id = cr)). }
  eapply inv_update; try done; try apply Hinv; rewrite ?Hcw'; try done.
  - apply (as_entry_same cfgs cr K w e s id p ph Hinv Hp); [by intros Hx; rewrite Hx in Hw|by intros ->].
  - intros i. rewrite (inv_ds _ _ _ _ _ _ Hinv). cbn. destruct (decide (i = id)) as [->|Hne].
    + rewrite lookup_insert_eq, Hp. cbn. rewrite (Hent _ Hcw'). unfold SetupInv.ds_entry, SetupInv.ds_record. cbn.
      by destruct (phase p), ph.
    + rewrite lookup_insert_ne by done. destruct (procs s !! i) as [q|]; [|done]. cbn. by rewrite (Hent _ Hcw').
  - intros _ i q. cbn. rewrite lookup_insert_Some. intros [[<- <-]|[_ Hq]]; [by destruct ph|].
    eapply (inv_known _ _ _ _ _ _ Hinv); [|done]. by destruct (cphase s).
  - intros _. by apply (inv_made _ _ _ _ _ _ Hinv).
Qed.

Lemma verify_member w e s id m :
  inv w e s -> welcomed (cphase s) = true -> m ∈ ep_members e ->
  verify_group_members (as_data (world s)) [m] id = Ret tt.
Proof.
  intros Hinv Hw Hm. destruct (inv_made _ _ _ _ _ _ Hinv Hw) as (Hmem & _). rewrite Hmem in Hm.
  apply list_elem_of_fmap in Hm as (i & -> & Hi).
  assert (is_Some (cfgs !! i)) as Hci.
  { apply elem_of_cons in Hi as [->|Hi]; [|by apply elem_of_peers in Hi as [_ Hi]].
    destruct (creator_config cfgs cr K HV) as (c & Hc & _). eauto. }
  destruct (identity_ok cfgs cr K HV i Hci) as (_ & Hl & Hr & Hs).
  assert (decoded (me i) = i) as Hdec by exact Hl.
  apply verify_one; [apply Hinv|by rewrite Hdec|by rewrite Hdec|]. rewrite Hdec. right.
  destruct (proj2 (inv_dom _ _ _ _ _ _ Hinv i) Hci) as [q Hq].
  assert (ds_known (phase q) = true) as Hk. { eapply (inv_known _ _ _ _ _ _ Hinv); [by destruct (cphase s)|done]. }
  destruct Hci as [ci Hci]. split; [|by apply (keys_ok cfgs cr K HV i ci Hci)].
  rewrite (inv_as _ _ _ _ _ _ Hinv), Hq. cbn. unfold as_entry. by destruct (phase q).
Qed.

Lemma step_verifying w e s id p rest g :
  inv w e s -> procs s !! id = Some p -> phase p = Verifying rest g -> advances s id p.
Proof.
  intros Hinv Hp Hph. destruct (inv_config cfgs cr K HV _ _ _ _ _ Hinv Hp) as (_ & Hok & _ & Hid).
  unfold SetupInv.phase_ok in Hok. rewrite Hph in Hok. destruct Hok as (Hw & Hg & Hsub).
  destruct rest as [|m rest].
  - eapply (advances_intro _ _ _ _ _ w e s id p (set_phase p (Ready g))); [done| | |cbn; rewrite Hph; cbn; lia].
    + unfold client_step. by rewrite Hph.
    + eapply inv_update_verified; try done; by rewrite Hph.
  - eapply (advances_intro _ _ _ _ _ w e s id p (set_phase p (Verifying rest g)));
      [done| | |cbn; rewrite Hph; cbn; lia].
    + unfold client_step, step_verify. rewrite Hph. rewrite (verify_member w e s _ m Hinv Hw); [done|].
      destruct Hg as (_ & Hge & _). cbn in Hge. rewrite <- Hge. apply Hsub. by left.
    + eapply inv_update_verified; try done; [by rewrite Hph|]. split_and!; try done. set_solver.
Qed.

End JoinerSteps.
