(* ===== verification/SetupFacts.v ===== *)
(** * SetupFacts: the group setup agrees and ends

    Whatever the interleaving of the clients, nobody crashes and all groups
    are in one epoch with all clients as members; and every fair execution
    ends with all clients ready. *)

From S2P Require Import Prelude Bytes Utf8 Crypto Mls AuthService Identity Credentials DeliveryService DeliveryFacts DsClient MlsGroups MlsFacts GroupSetup SetupCalls SetupInv SetupSteps SetupCreator SetupCreate SetupJoiner.

(** A sum that decreases in one place. *)
Lemma sum_decrease {A} (f g : A -> nat) (l : list A) x :
  NoDup l -> x ∈ l -> (g x < f x)%nat -> (forall y, y <> x -> g y = f y) ->
  (sum_list (g <$> l) < sum_list (f <$> l))%nat.
Proof.
  intros Hnd Hx Hlt Heq. induction Hnd as [|y l Hy Hnd IH]; [by apply elem_of_nil in Hx|].
  apply elem_of_cons in Hx as [->|Hx].
  - assert (g <$> l = f <$> l) as Hl.
    { apply list_fmap_ext. intros i z Hz%list_elem_of_lookup_2. apply Heq. by intros ->. }
    cbn. rewrite Hl. lia.
  - specialize (IH Hx). cbn. rewrite Heq by (by intros ->). lia.
Qed.

Lemma sum_const {A} (f : A -> nat) (l : list A) n :
  (forall x, x ∈ l -> f x = n) -> sum_list (f <$> l) = (length l * n)%nat.
Proof.
  induction l as [|x l IH]; intros Hf; [done|]. cbn. rewrite Hf by (by left). rewrite IH; [done|].
  intros y Hy. apply Hf. by right.
Qed.

Section Facts.
Context {L : MlsLib} {TY : DsTypes KeyPackage Msg} {W : DsWire KeyPackage Msg}.
Context {ML : MlsLaws} {WL : DsWireLaws}.
Context (URL : Base64) {URLL : @Base64Laws URL} {B64 : Base64} {B64L : @Base64Laws B64} {UP : UrlPath} {UPL : UrlPathLaws}.
Context (iter : gmap bytes (ClientInfo KeyPackage Msg) -> list (bytes * ClientInfo KeyPackage Msg)).
Hypothesis Hiter : forall m, iter m ≡ₚ map_to_list m.
Context (cfgs : gmap bytes Config) (cr : bytes) (K : bytes -> ClientKeys).
Hypothesis HV : valid_setup cfgs cr K.

Abbreviation ids := (ids cfgs).
Abbreviation peers := (peers cfgs cr).
Abbreviation pk := (pk K).
Abbreviation me := (me K).
Abbreviation kp1 := (kp1 K).
Abbreviation kp2 := (kp2 K).
Abbreviation h1 := (h1 K).
Abbreviation h2 := (h2 K).
Abbreviation inv := (inv cfgs cr K).
Abbreviation cphase := (cphase cr).
Abbreviation ds_entry := (ds_entry cr K).
Abbreviation ds_record := (ds_record cr K).
Abbreviation phase_ok := (phase_ok cfgs cr K).
Abbreviation step := (sys_step URL iter).
Abbreviation run := (sys_run URL iter).

Abbreviation rank := (rank cfgs cr).
Abbreviation advances := (advances URL iter cfgs cr K).

(** ** The start *)

Lemma client_start_ok id c :
  cfgs !! id = Some c -> client_start c = Ret (mkProc c Starting DsClient_new (mkMlsMember ∅ (k_signer (K id)) (me id))).
Proof.
  intros Hc. destruct (keys_ok cfgs cr K HV id c Hc) as (Hs & _). pose proof (vs_identity _ _ _ HV id c Hc) as Hid.
  destruct (identity_ok cfgs cr K HV id) as (_ & _ & [lr Hr] & _); [eauto|].
  unfold client_start, parse_credential_identity, MlsMember_new. rewrite Hid, Hr, Hs. done.
Qed.

Lemma some_epoch : exists (w : Msg) (e : EpochState), True.
Proof.
  destruct (creator_config cfgs cr K HV) as (c & Hc & _).
  destruct (new_epoch_some (coins_group (coins c)) (k_signer (K cr)) (me cr) eq_refl) as (e & o & _ & _ & Hh).
  destruct (commit_some (coins_commit (coins c)) _ e o (me cr) [] Hh eq_refl (or_introl eq_refl)) as [r _].
  by exists (commit_msg r), e.
Qed.

Lemma start_lookup id : procs (sys_start cfgs) !! id =
  cfgs !! id ≫= fun c => Some (mkProc c Starting DsClient_new (mkMlsMember ∅ (k_signer (K id)) (me id))).
Proof.
  cbn. unfold started_procs. rewrite lookup_omap. destruct (cfgs !! id) as [c|] eqn:Hc; [|done]. cbn.
  by rewrite (client_start_ok id c Hc).
Qed.

Lemma start_inv w e : inv w e (sys_start cfgs).
Proof.
  assert (cphase (sys_start cfgs) = Starting) as Hcs.
  { unfold SetupInv.cphase. rewrite start_lookup. destruct (creator_config cfgs cr K HV) as (c & Hc & _).
    by rewrite Hc. }
  split; rewrite ?Hcs; try done.
  - intros id. rewrite start_lookup. destruct (cfgs !! id); cbn; split; intros []; by eauto.
  - intros id p. rewrite start_lookup. destruct (cfgs !! id) as [c|] eqn:Hc; [|done].
    intros Heq%(inj Some). subst p. done.
  - intros id. rewrite start_lookup. cbn. rewrite lookup_empty. by destruct (cfgs !! id).
  - intros id. rewrite start_lookup. cbn. rewrite lookup_empty. by destruct (cfgs !! id).
Qed.

(** ** Every step *)

Lemma step_cases w e s id p :
  inv w e s -> procs s !! id = Some p -> step s id = s \/ advances s id p.
Proof.
  intros Hinv Hp. destruct (phase p) as [| | |[|peer todo] kps|b peer todo kps| |rest g|g|] eqn:Hph.
  - right. by eapply step_starting.
  - right. by eapply step_as_registered.
  - destruct (step_discovering URL iter Hiter cfgs cr K HV w e s id p Hinv Hp Hph) as [[Hs _]|Ha]; auto.
  - right. by eapply step_creating.
  - right. by eapply step_fetching.
  - right. by eapply step_checking.
  - destruct (welcomed (cphase s)) eqn:Hw.
    + right. by eapply step_waiting_join.
    + left. by eapply step_waiting_early.
  - right. by eapply step_verifying.
  - left. apply (step_same _ _ s id p Hp). unfold client_step. by rewrite Hph.
  - destruct (inv_proc _ _ _ _ _ _ Hinv id p Hp) as [_ Hok]. unfold SetupInv.phase_ok in Hok. by rewrite Hph in Hok.
Qed.

(** The distance of the whole system from the end. *)
Definition measure (s : Sys) : nat :=
  sum_list ((fun id => match procs s !! id with Some p => rank (phase p) | None => 0%nat end) <$> ids).

Lemma advances_measure w e s id p :
  inv w e s -> procs s !! id = Some p -> advances s id p ->
  exists w' e', inv w' e' (step s id) /\ (measure (step s id) < measure s)%nat.
Proof.
  intros Hinv Hp (w' & e' & p' & Hinv' & Hprocs & Hlt). exists w', e'. split; [done|].
  apply (sum_decrease _ _ _ id); [apply ids_NoDup| | |].
  - apply elem_of_ids. apply (inv_dom _ _ _ _ _ _ Hinv). eauto.
  - by rewrite Hprocs, lookup_insert_eq, Hp.
  - intros i Hi. by rewrite Hprocs, lookup_insert_ne.
Qed.

Lemma step_inv w e s id :
  inv w e s -> exists w' e', inv w' e' (step s id) /\ (measure (step s id) <= measure s)%nat /\
    (step s id = s \/ (measure (step s id) < measure s)%nat).
Proof.
  intros Hinv. destruct (procs s !! id) as [p|] eqn:Hp.
  - destruct (step_cases w e s id p Hinv Hp) as [Hs|Ha].
    + rewrite Hs. exists w, e. auto.
    + destruct (advances_measure w e s id p Hinv Hp Ha) as (w' & e' & Hinv' & Hlt). exists w', e'.
      split_and!; [done|lia|auto].
  - assert (step s id = s) as Hs by (unfold sys_step; by rewrite Hp). rewrite Hs. exists w, e. auto.
Qed.

Lemma run_inv l : forall w e s, inv w e s ->
  exists w' e', inv w' e' (run s l) /\ (measure (run s l) <= measure s)%nat.
Proof.
  induction l as [|id l IH]; intros w e s Hinv; [by exists w, e|].
  destruct (step_inv w e s id Hinv) as (w1 & e1 & Hinv1 & Hle & _).
  destruct (IH w1 e1 _ Hinv1) as (w2 & e2 & Hinv2 & Hle2). exists w2, e2. split; [done|].
  change (measure (run (step s id) l) <= measure s)%nat. lia.
Qed.

(** ** Agreement *)

(** The group a client is in. *)
Definition group_of (ph : Phase) : option Group :=
  match ph with Verifying _ g | Ready g => Some g | _ => None end.

(** Nobody crashes, and all groups are in one epoch of all clients. *)
Lemma run_agreement schedule :
  let s := run (sys_start cfgs) schedule in
  (forall id p, procs s !! id = Some p -> phase p <> Crashed) /\
  exists e, forall id p g, procs s !! id = Some p -> group_of (phase p) = Some g ->
    in_group K e id g /\ members g ≡ₚ me <$> (cr :: peers).
Proof.
  intros s. destruct some_epoch as (w0 & e0 & _).
  destruct (run_inv schedule w0 e0 _ (start_inv w0 e0)) as (w & e & Hinv & _). fold s in Hinv. split.
  - intros id p Hp Hc. destruct (inv_proc _ _ _ _ _ _ Hinv id p Hp) as [_ Hok]. unfold SetupInv.phase_ok in Hok.
    by rewrite Hc in Hok.
  - exists e. intros id p g Hp Hg. destruct (inv_proc _ _ _ _ _ _ Hinv id p Hp) as [_ Hok].
    assert (welcomed (cphase s) = true /\ in_group K e id g) as [Hw Hin].
    { unfold SetupInv.phase_ok in Hok. destruct (phase p); try done; cbn in Hg; simplify_eq; naive_solver. }
    split; [done|]. destruct (inv_made _ _ _ _ _ _ Hinv Hw) as (Hmem & _). destruct Hin as (_ & He & _).
    cbn in He. unfold members. by rewrite He.
Qed.

(** ** Termination *)

Lemma creator_enabled w e s :
  inv w e s -> welcomed (cphase s) = false -> exists id p, procs s !! id = Some p /\ advances s id p.
Proof.
  intros Hinv Hw. destruct (creator_config cfgs cr K HV) as (c & Hc & _).
  destruct (proj2 (inv_dom _ _ _ _ _ _ Hinv cr) ltac:(eauto)) as [p Hp]. pose proof (cphase_eq cr s p Hp) as Hcs.
  destruct (inv_proc _ _ _ _ _ _ Hinv cr p Hp) as [_ Hok]. unfold SetupInv.phase_ok in Hok. rewrite Hcs in Hw.
  destruct (phase p) as [| | |[|peer todo] kps|b peer todo kps| |rest g|g|] eqn:Hph; try done.
  - exists cr, p. split; [done|]. by eapply step_starting.
  - exists cr, p. split; [done|]. by eapply step_as_registered.
  - destruct (step_discovering URL iter Hiter cfgs cr K HV w e s cr p Hinv Hp Hph) as [(_ & i & q & Hq & Hk)|Ha]; [|eauto].
    exists i, q. split; [done|].
    destruct (phase q) eqn:Hqh; try done; [by eapply step_starting|by eapply step_as_registered].
  - exists cr, p. split; [done|]. by eapply step_creating.
  - exists cr, p. split; [done|]. by eapply step_fetching.
  - exists cr, p. split; [done|]. by eapply step_checking.
  - by destruct Hok.
Qed.

Definition is_ready (ph : Phase) : Prop := exists g, ph = Ready g.

(** As long as somebody is not ready, somebody can move. *)
Lemma some_enabled w e s id p :
  inv w e s -> procs s !! id = Some p -> ~ is_ready (phase p) -> exists i q, procs s !! i = Some q /\ advances s i q.
Proof.
  intros Hinv Hp Hnr. destruct (welcomed (cphase s)) eqn:Hw; [|by eapply creator_enabled].
  assert (ds_known (phase p) = true) as Hk. { eapply (inv_known _ _ _ _ _ _ Hinv); [by destruct (cphase s)|done]. }
  destruct (inv_proc _ _ _ _ _ _ Hinv id p Hp) as [_ Hok]. unfold SetupInv.phase_ok in Hok. exists id, p.
  split; [done|]. destruct (phase p) as [| | |todo kps|b peer todo kps| |rest g|g|] eqn:Hph; try done.
  - destruct Hok as [-> _]. by rewrite (cphase_eq cr s p Hp), Hph in Hw.
  - destruct Hok as [-> _]. by rewrite (cphase_eq cr s p Hp), Hph in Hw.
  - destruct Hok as [-> _]. by rewrite (cphase_eq cr s p Hp), Hph in Hw.
  - by eapply step_waiting_join.
  - by eapply step_verifying.
  - destruct Hnr. by exists g.
Qed.

(** A round in which the enabled client gets its turn brings the end closer. *)
Lemma round_progress r : forall w e s id p,
  inv w e s -> procs s !! id = Some p -> advances s id p -> id ∈ r -> (measure (run s r) < measure s)%nat.
Proof.
  induction r as [|x r IH]; intros w e s id p Hinv Hp Ha Hin; [by apply elem_of_nil in Hin|]. cbn [sys_run fold_left].
  destruct (decide (x = id)) as [->|Hne].
  - destruct (advances_measure w e s id p Hinv Hp Ha) as (w1 & e1 & Hinv1 & Hlt).
    destruct (run_inv r w1 e1 _ Hinv1) as (_ & _ & _ & Hle). unfold sys_run in Hle. lia.
  - destruct (step_inv w e s x Hinv) as (w1 & e1 & Hinv1 & _ & [Hs|Hlt]).
    + rewrite Hs. apply elem_of_cons in Hin as [->|Hin]; [done|]. by eapply IH.
    + destruct (run_inv r w1 e1 _ Hinv1) as (_ & _ & _ & Hle). unfold sys_run in Hle. lia.
Qed.

Definition all_ready (s : Sys) : Prop := forall id p, procs s !! id = Some p -> is_ready (phase p).

#[local] Instance is_ready_dec ph : Decision (is_ready ph).
Proof. destruct ph; (by left; eexists) || (right; by intros [? ?]). Qed.

Lemma all_ready_dec w e s : inv w e s -> all_ready s \/ exists id p, procs s !! id = Some p /\ ~ is_ready (phase p).
Proof.
  intros _. destruct (decide (map_Forall (fun _ p => is_ready (phase p)) (procs s))) as [Hall|Hnot]; [by left|right].
  apply map_not_Forall in Hnot as (id & p & Hp & Hn); [|apply _]. eauto.
Qed.

Lemma rounds_ready rounds : forall w e s,
  inv w e s -> Forall (fun r => ids ⊆ r) rounds -> (measure s <= length rounds)%nat -> all_ready (run s (concat rounds)).
Proof.
  induction rounds as [|r rounds IH]; intros w e s Hinv Hfair Hm;
    destruct (all_ready_dec w e s Hinv) as [Hall|(id & p & Hp & Hn)].
  - done.
  - exfalso. destruct (some_enabled w e s id p Hinv Hp Hn) as (i & q & Hq & Ha).
    destruct (advances_measure w e s i q Hinv Hq Ha) as (_ & _ & _ & Hlt). cbn in Hm. lia.
  - intros id p Hp. cut (run s (concat (r :: rounds)) = s); [intros Heq; rewrite Heq in Hp; by eapply Hall|].
    clear -Hall. induction (concat (r :: rounds)) as [|x l IHl]; [done|]. cbn.
    assert (step s x = s) as ->; [|exact IHl]. destruct (procs s !! x) as [q|] eqn:Hq.
    + apply (step_same _ _ s x q Hq). destruct (Hall x q Hq) as [g Hg]. unfold client_step. by rewrite Hg.
    + unfold sys_step. by rewrite Hq.
  - apply Forall_cons in Hfair as [Hr Hfair]. destruct (some_enabled w e s id p Hinv Hp Hn) as (i & q & Hq & Ha).
    assert (i ∈ r) as Hir. { apply Hr, elem_of_ids. apply (inv_dom _ _ _ _ _ _ Hinv). eauto. }
    pose proof (round_progress r w e s i q Hinv Hq Ha Hir) as Hlt.
    destruct (run_inv r w e s Hinv) as (w1 & e1 & Hinv1 & _). cbn [concat]. unfold sys_run. rewrite fold_left_app.
    apply (IH w1 e1); [exact Hinv1|done|]. unfold sys_run in Hlt. cbn in Hm. lia.
Qed.

Lemma measure_start : measure (sys_start cfgs) = (length ids * (length ids + 5 + 2 * length peers))%nat.
Proof.
  unfold measure. apply sum_const. intros id [c Hc]%elem_of_ids. by rewrite start_lookup, Hc.
Qed.

(** Enough fair rounds make everybody ready. *)
Lemma run_ready rounds :
  Forall (fun r => ids ⊆ r) rounds ->
  (length ids * (length ids + 5 + 2 * length peers) <= length rounds)%nat ->
  let s := run (sys_start cfgs) (concat rounds) in
  forall id, is_Some (cfgs !! id) -> exists p g, procs s !! id = Some p /\ phase p = Ready g.
Proof.
  intros Hfair Hlen s id Hid. destruct some_epoch as (w0 & e0 & _).
  destruct (run_inv (concat rounds) w0 e0 _ (start_inv w0 e0)) as (w & e & Hinv & _). fold s in Hinv.
  destruct (proj2 (inv_dom _ _ _ _ _ _ Hinv id) Hid) as [p Hp].
  assert (all_ready s) as Hall by (eapply rounds_ready; [apply (start_inv w0 e0)|done|by rewrite measure_start]).
  destruct (Hall id p Hp) as [g Hg]. eauto.
Qed.

(** ** The promises *)

(** What the authentication service holds once there are groups. *)
Lemma run_registered schedule id p :
  let s := run (sys_start cfgs) schedule in
  procs s !! id = Some p -> is_Some (group_of (phase p)) ->
  forall i, is_Some (cfgs !! i) -> credentials (as_data (world s)) !! i = Some (b64_encode (pk i)).
Proof.
  intros s Hp [g Hg] i Hi. destruct some_epoch as (w0 & e0 & _).
  destruct (run_inv schedule w0 e0 _ (start_inv w0 e0)) as (w & e & Hinv & _). fold s in Hinv.
  destruct (inv_proc _ _ _ _ _ _ Hinv id p Hp) as [_ Hok].
  assert (welcomed (cphase s) = true) as Hw
    by (unfold SetupInv.phase_ok in Hok; destruct (phase p); try done; naive_solver).
  apply (inv_dom _ _ _ _ _ _ Hinv) in Hi as [q Hq].
  assert (ds_known (phase q) = true) as Hk by (eapply (inv_known _ _ _ _ _ _ Hinv); [by destruct (cphase s)|done]).
  rewrite (inv_as _ _ _ _ _ _ Hinv), Hq. cbn. unfold as_entry. by destruct (phase q).
Qed.

(** C12: However the steps of the creator, the senders and the receivers
    interleave, nobody panics, and at every moment all clients that have a
    group are in the same epoch with the same secrets, whose members are
    exactly the configured clients, each with the signature key it
    registered with the authentication service. *)
Theorem setup_agreement schedule :
  let s := run (sys_start cfgs) schedule in
  (forall id p, procs s !! id = Some p -> phase p <> Crashed) /\
  exists e, forall id p g, procs s !! id = Some p -> group_of (phase p) = Some g ->
    in_group K e id g /\ members g ≡ₚ me <$> (cr :: peers) /\
    Forall (fun m => credentials (as_data (world s)) !! mem_identity m = Some (b64_encode (signature_key m))) (members g).
Proof.
  intros s. destruct (run_agreement schedule) as (Hcrash & e & Hag). split; [exact Hcrash|]. exists e.
  intros id p g Hp Hg. destruct (Hag id p g Hp Hg) as [Hin Hmem]. split; [done|]. split; [done|].
  rewrite Hmem. apply Forall_fmap, Forall_forall. intros i Hi. cbn.
  apply (run_registered schedule id p Hp ltac:(by rewrite Hg)). rewrite <- (ids_perm cfgs cr K HV) in Hi.
  by apply elem_of_ids.
Qed.

(** C13: The setup ends: after n*(n+5+2p) rounds in which each of the n clients
    takes at least one step, in any order and with any repetitions, all
    clients are ready in one epoch, p being the number of clients besides
    the creator; every poll of the creator and of the joiners is answered. *)
Theorem setup_terminates rounds :
  Forall (fun r => ids ⊆ r) rounds ->
  (length ids * (length ids + 5 + 2 * length peers) <= length rounds)%nat ->
  let s := run (sys_start cfgs) (concat rounds) in
  exists e, forall id, is_Some (cfgs !! id) -> exists p g, procs s !! id = Some p /\ phase p = Ready g /\ in_group K e id g.
Proof.
  intros Hfair Hlen s. destruct (run_agreement (concat rounds)) as (_ & e & Hag). exists e. intros id Hid.
  destruct (run_ready rounds Hfair Hlen id Hid) as (p & g & Hp & Hg). exists p, g. split; [done|]. split; [done|].
  by apply (Hag id p g Hp); rewrite Hg.
Qed.

End Facts.
