(* ===== verification/DemoRun.v ===== *)
(** * DemoRun: the whole demo

    From the first registration to the last decrypted packet: after any fair
    setup, the senders' packets reach every receiver. *)

From Stdlib Require Import String.
From S2P Require Import Prelude Bytes Utf8 Crypto Mls AuthService Identity Client ClientFacts Credentials DeliveryService DsClient ToyMls MlsGroups MlsFacts GroupSetup SetupCalls SetupInv SetupSteps SetupFacts.

#[local] Opaque ssrc_from_identity.

Section Demo.
Context {L : MlsLib} {TY : DsTypes KeyPackage Msg} {W : DsWire KeyPackage Msg}.
Context {CR : Crypto} {CL : CryptoLaws}.
Context {ML : MlsLaws} {WL : DsWireLaws}.
Context (URL : Base64) {URLL : @Base64Laws URL} {B64 : Base64} {B64L : @Base64Laws B64} {UP : UrlPath} {UPL : UrlPathLaws}.
Context (iter : gmap bytes (ClientInfo KeyPackage Msg) -> list (bytes * ClientInfo KeyPackage Msg)).
Hypothesis Hiter : forall m, iter m ≡ₚ map_to_list m.
Context (cfgs : gmap bytes Config) (cr : bytes) (K : bytes -> ClientKeys).
Hypothesis HV : valid_setup cfgs cr K.

Abbreviation ids := (ids cfgs).
Abbreviation peers := (peers cfgs cr).
Abbreviation me := (me K).
Abbreviation run := (sys_run URL iter).


(** ** Who sends *)

Definition sends (id : bytes) : Prop :=
  match cfgs !! id with Some c => mode (cli c) = Sender | None => False end.

#[local] Instance sends_dec id : Decision (sends id).
Proof. unfold sends. destruct (cfgs !! id) as [c|]; [|right; tauto].
  destruct (mode (cli c)); (left; reflexivity) || (right; discriminate).
Defined.

Definition demo_senders : list bytes := filter sends ids.

(** The role in an identity is the client's mode. *)
Lemma role_sender id c : cfgs !! id = Some c ->
  exists label, rsplit_once id = Some (label, role_of (mode (cli c))) /\
    (role_of (mode (cli c)) = str_bytes "sender" <-> sends id).
Proof.
  intros Hc. pose proof (vs_identity _ _ _ HV id c Hc) as Hid. unfold sends. rewrite Hc.
  destruct (generated_identity_parses (mode (cli c)) (pid c)) as (label & Hp & _).
  unfold parse_credential_identity in Hp. apply expect_Ret in Hp. exists label. rewrite <- Hid. split; [exact Hp|].
  by destruct (mode (cli c)).
Qed.

Lemma all_members_spec l : (forall id, id ∈ l -> is_Some (cfgs !! id)) ->
  exists mem, all_members l = Ret mem /\ sender_identities mem = filter sends l.
Proof.
  induction l as [|id l IH]; intros Hl; [by exists []|]. destruct (Hl id) as [c Hc]; [by left|].
  destruct IH as (mem & Hm & Hf); [intros; apply Hl; by right|].
  destruct (role_sender id c Hc) as (label & Hr & Hiff).
  destruct (identity_ok cfgs cr K HV id) as (_ & Hloss & _); [eauto|].
  exists ((id, role_of (mode (cli c))) :: mem). split.
  - cbn [all_members]. rewrite Hloss. unfold parse_credential_identity. rewrite Hr. cbn [expect mbind outcome_bind].
    by rewrite Hm.
  - unfold sender_identities in *. rewrite !filter_cons. cbn [snd].
    destruct (decide (role_of (mode (cli c)) = str_bytes "sender")), (decide (sends id));
      [|tauto|tauto|exact Hf]. cbn [fmap list_fmap fst]. f_equal. exact Hf.
Qed.

(** Conditions over senders do not depend on their order. *)
Lemma timely_perm senders senders' n l : forall hist,
  senders ≡ₚ senders' -> timely senders n hist l = timely senders' n hist l.
Proof.
  induction l as [|a l IH]; intros hist Hp; cbn; [done|].
  rewrite (bool_decide_ext (a.1 ∈ senders) (a.1 ∈ senders')) by (by rewrite Hp). by rewrite (IH _ Hp).
Qed.

(** C11: The whole demo, from the first registration to the last decrypted
    packet, for one creator that expects all the others, fresh keys, senders
    with distinct SSRCs and the same packet count everywhere: after any fair
    interleaving of the clients' setup, all clients hold one active group,
    every sender sends its packets under the keys of that group, and
    whatever the network delivers of them, interleaved, reordered and
    duplicated at will as long as none is 128 or more behind its sender's
    newest, every receiver decrypts each packet once, in order of first
    arrival, skips the duplicates, and stops at the expected count. *)
Theorem demo_from_start rounds n l :
  Forall (fun r => ids ⊆ r) rounds ->
  (length ids * (length ids + 5 + 2 * length peers) <= length rounds)%nat ->
  (forall id c, cfgs !! id = Some c -> packets (cli c) = n) -> 0 <= n < 65536 ->
  Forall (sendable n) demo_senders -> NoDup (ssrc_from_identity <$> demo_senders) ->
  timely demo_senders n [] l = true -> Z.of_nat (length demo_senders) * n < 2 ^ 32 -> Z.of_nat (length l) < 2 ^ 47 ->
  let s := run (sys_start cfgs) (concat rounds) in
  exists group, forall id c, cfgs !! id = Some c ->
    exists p g, procs s !! id = Some p /\ phase p = Ready g /\ exporter_view g = group /\
    (mode (cli c) = Sender -> sender_main (exporter_view g) id (packets (cli c)) =
       Ret ((fun j => client_wire group id (1 + Z.of_nat j)) <$> seq 0 (Z.to_nat n))) /\
    (mode (cli c) = Receiver -> exists sessions,
       receiver_main (exporter_view g) (mem_identity <$> members g) (packets (cli c)) (datagrams group l ++ [Elapsed]) =
         Ret ((fun a => client_packet a.1 a.2) <$>
                take (Z.to_nat (Z.of_nat (length demo_senders) * n)) (heard [] l),
              Z.min (Z.of_nat (length demo_senders) * n) (Z.of_nat (length (heard [] l))), sessions)).
Proof.
  intros Hfair Hlen Hpk Hn Hsend Hnd Ht Hmax Hl s.
  destruct (run_agreement URL iter Hiter cfgs cr K HV (concat rounds)) as (_ & e & Hag). fold s in Hag.
  pose proof (run_ready URL iter Hiter cfgs cr K HV rounds Hfair Hlen) as Hready. fold s in Hready.
  exists (mkMlsGroup true (ep_number e) (ep_exporter_secret e)). intros id c Hc.
  destruct (Hready id) as (p & g & Hp & Hg); [eauto|]. exists p, g. split; [done|]. split; [done|].
  destruct (Hag id p g Hp ltac:(by rewrite Hg)) as [Hin Hmem]. pose proof Hin as (_ & _ & Hh & _).
  destruct (ready_export e (k_signer (K id), g) (me id) 0 Hin) as [Hview _]. cbn [snd] in Hview. rewrite Hview.
  split; [done|]. rewrite (Hpk id c Hc).
  assert (mem_identity <$> members g ≡ₚ ids) as Hids.
  { rewrite Hmem, (ids_perm cfgs cr K HV), <- list_fmap_compose. by rewrite list_fmap_id. }
  destruct (all_members_spec (mem_identity <$> members g)) as (mem & Hall & Hsid).
  { intros i Hi. rewrite Hids in Hi. by apply elem_of_ids. }
  assert (sender_identities mem ≡ₚ demo_senders) as Hperm.
  { rewrite Hsid. unfold demo_senders. by rewrite Hids. }
  destruct (demo_media (mkMlsGroup true (ep_number e) (ep_exporter_secret e)) (mem_identity <$> members g) mem n l)
    as [Hsm Hrm]; try done.
  - by eapply secret_length.
  - by rewrite Hperm.
  - by rewrite Hperm.
  - by rewrite (timely_perm _ _ n l [] Hperm).
  - by rewrite (Permutation_length Hperm).
  - rewrite (Permutation_length Hperm) in Hrm. split; [|by intros _].
    intros Hmode. rewrite Hperm in Hsm. eapply Forall_forall in Hsm; [exact Hsm|].
    apply list_elem_of_filter. split; [unfold sends; by rewrite Hc|]. apply elem_of_ids. eauto.
Qed.

End Demo.
