(* ===== verification/SetupStarve.v ===== *)
(** * SetupStarve: the creator that waits for ever

    The delivery service keeps the last key package of every client back, and
    a client uploads two: after one group has been set up, no creator can get
    a key package of its members again.  The creator polls for it without a
    limit. *)

From S2P Require Import Prelude Bytes Utf8 Crypto Mls AuthService Identity Credentials DeliveryService DeliveryFacts DsClient MlsGroups GroupSetup SetupCalls.

(** ** The delivery service *)

Section Service.
Context {KP Msg : Type} {TY : DsTypes KP Msg}.
Abbreviation client := (ClientInfo KP Msg).
Context (iter : gmap bytes client -> list (bytes * client)).
Hypothesis Hiter : forall m, iter m ≡ₚ map_to_list m.

(** The requests the client program makes. *)
Definition client_request (r : @DsRequest KP Msg) : Prop :=
  match r with ReqRegister _ _ | ReqConsume _ | ReqWelcome _ | ReqRecv _ _ => True | _ => False end.

(** No client gains key packages. *)
Definition no_more_keys (cs cs' : gmap bytes client) : Prop :=
  forall id c, cs !! id = Some c ->
    exists c', cs' !! id = Some c' /\ (length (key_packages c') <= length (key_packages c))%nat.

#[local] Instance no_more_keys_preorder : PreOrder no_more_keys.
Proof.
  split; [intros cs id c Hc; by exists c|]. intros a b c Hab Hbc id x (y & Hy & Hxy)%Hab.
  apply Hbc in Hy as (z & Hz & Hyz). exists z. split; [done|lia].
Qed.

Lemma insert_no_more cs id c c' :
  cs !! id = Some c -> (length (key_packages c') <= length (key_packages c))%nat ->
  no_more_keys cs (<[id := c']> cs).
Proof.
  intros Hc Hle i x Hx. destruct (decide (i = id)) as [->|Hne].
  - rewrite lookup_insert_eq. simplify_eq. eauto.
  - rewrite lookup_insert_ne by done. by exists x.
Qed.

Lemma deliver_no_more m hashes : forall n cs, no_more_keys cs (deliver_welcome iter hashes m n cs).2.
Proof.
  induction hashes as [|h hashes IH]; intros n cs; cbn; [reflexivity|].
  assert (forall l, (forall name c, (name, c) ∈ l -> cs !! name = Some c) ->
    no_more_keys cs (take_reserved h m l cs).2) as Htake.
  { induction l as [|[name c] l IHl]; intros Hsub; cbn; [reflexivity|]. case_bool_decide.
    - eapply insert_no_more; [apply Hsub; by left|done].
    - apply IHl. intros. apply Hsub. by right. }
  specialize (Htake (iter cs)). destruct (take_reserved h m (iter cs) cs) as [hit cs1].
  etransitivity; [apply Htake|apply IH]. intros name c. by rewrite Hiter, elem_of_map_to_list.
Qed.

(** What a request of the client leaves. *)
Lemma request_no_more d r :
  client_request r -> clients_poisoned d = false ->
  clients_poisoned (ds_step iter d r) = false /\ no_more_keys (clients d) (clients (ds_step iter d r)).
Proof.
  intros Hr Hp. destruct r as [kps token|key|i req|i|body|body|i req]; try done; cbn [ds_step].
  - unfold register_client, ClientInfo_new. destruct kps as [[|k kps]|]; cbn; [done| |done]. rewrite Hp.
    destruct (clients d !! kp_identity k.2) as [c0|] eqn:H0; cbn; [done|]. split; [done|]. intros id c Hc.
    exists c. by rewrite lookup_insert_ne by congruence.
  - unfold consume_key_package. rewrite Hp. destruct i as [i|]; [|done].
    destruct (clients d !! i) as [c|] eqn:Hc; [|done].
    assert (length (key_packages (consume_kp c).2) <= length (key_packages c))%nat as Hle.
    { unfold consume_kp. case_bool_decide; [done|]. destruct (last (key_packages c)) as [[h kp]|]; [|done]. cbn.
      rewrite length_take. lia. }
    pose proof (insert_no_more _ i c _ Hc Hle) as Hmore. destruct (consume_kp c) as [[kp|] c']; cbn in Hmore |- *.
    + by destruct (kp_serialize kp).
    + done.
  - unfold send_welcome. destruct body as [m|]; [|done]. destruct (welcome_secrets m) as [hs|]; [|done]. rewrite Hp.
    pose proof (deliver_no_more m hs 0 (clients d)). by destruct (deliver_welcome iter hs m 0 (clients d)).
  - unfold msg_recv. rewrite Hp. destruct i as [i|]; [|done]. destruct (clients d !! i) as [c|] eqn:Hc; [|done].
    destruct req as [t|]; [|done]. case_bool_decide; [done|]. cbn zeta.
    destruct (serialize_messages _); (split; [done|]); by eapply insert_no_more.
Qed.

(** The service has at most one key package of [peer] left. *)
Definition exhausted (d : DsData KP Msg) (peer : bytes) : Prop :=
  clients_poisoned d = false /\ exists c, clients d !! peer = Some c /\ (length (key_packages c) <= 1)%nat.

Lemma exhausted_step d r peer : client_request r -> exhausted d peer -> exhausted (ds_step iter d r) peer.
Proof.
  intros Hr (Hp & c & Hc & Hle). destruct (request_no_more d r Hr Hp) as [Hp' Hmore]. split; [done|].
  destruct (Hmore peer c Hc) as (c' & Hc' & Hle'). exists c'. split; [done|lia].
Qed.

End Service.

(** ** The clients *)

Section Starve.
Context {L : MlsLib} {TY : DsTypes KeyPackage Msg} {W : DsWire KeyPackage Msg}.
Context (URL : Base64) {URLL : @Base64Laws URL} {B64 : Base64} {UP : UrlPath}.
Context (iter : gmap bytes (ClientInfo KeyPackage Msg) -> list (bytes * ClientInfo KeyPackage Msg)).
Hypothesis Hiter : forall m, iter m ≡ₚ map_to_list m.

(** Whatever a client does, the delivery service sees nothing or one request
    of these. *)
Lemma client_step_request p w :
  ds_data (client_step URL iter p w).2 = ds_data w \/
  exists r, client_request r /\ ds_data (client_step URL iter p w).2 = ds_step iter (ds_data w) r.
Proof.
  unfold client_step. destruct (phase p) as [| | |[|peer todo] kps|b peer todo kps| |[|m rest] g|g|]; try by left.
  - left. unfold step_register_as. by destruct (register_with_as _ _ _).
  - unfold step_register_ds. destruct (make_key_packages p) as [[kps m]|]; [|by left]. unfold register_with_ds.
    destruct (encode_register kps) as [b|]; [|by left]. right.
    exists (ReqRegister (decode_register b) (coins_token (coins (cfg p)))). split; [done|]. cbn [ds_step].
    by destruct (register_client _ _ _) as [[[] d]|].
  - unfold step_create. destruct (make_group p kps) as [[g b]|]; [|by left]. right.
    exists (ReqWelcome (decode_message b)). split; [done|]. unfold client_send_welcome. cbn [ds_step].
    by destruct (send_welcome iter (ds_data w) (decode_message b)).
  - unfold step_fetch. destruct (parse_credential_identity peer); [|by left]. right.
    exists (ReqConsume (path_id (URL := URL) peer)). split; [done|]. unfold client_consume_key_package. cbn [ds_step].
    by destruct (consume_key_package (ds_data w) (path_id (URL := URL) peer)).
  - left. unfold step_check. destruct (decode_key_package b); [|done]. by destruct (lookup_as _ _).
  - unfold step_wait, recv_messages. destruct (token_of (ds_client p)) as [token|]; [|by left].
    cbn [mbind outcome_bind]. destruct (id_of (ds_client p)) as [id|]; [|by left]. cbn [mbind outcome_bind]. right.
    exists (ReqRecv (path_id (URL := URL) id) (Some token)). split; [done|]. cbn [ds_step].
    by destruct (msg_recv (ds_data w) (path_id (URL := URL) id) (Some token)).
Qed.

Lemma exhausted_client_step p w peer :
  exhausted (ds_data w) peer -> exhausted (ds_data (client_step URL iter p w).2) peer.
Proof.
  intros Hex. destruct (client_step_request p w) as [->|(r & Hr & ->)]; [done|]. by apply exhausted_step.
Qed.

(** The creator's poll. *)
Lemma fetch_exhausted p w peer todo kps :
  phase p = Fetching (peer :: todo) kps -> is_Some (rsplit_once peer) -> bytes_ok peer ->
  exhausted (ds_data w) peer -> client_step URL iter p w = (p, w).
Proof.
  intros Hph [lr Hr] Hok (Hp & c & Hc & Hle). unfold client_step, step_fetch. rewrite Hph.
  unfold parse_credential_identity. rewrite Hr. cbn [expect].
  rewrite (consume_last (URL := URL) (ds_data w) peer c Hp Hok Hc Hle). cbn. by destruct w.
Qed.

(** C39: A creator that polls for a key package of a peer whose packages at the
    delivery service are down to the one it keeps back never moves again,
    whatever the clients do: no client uploads further packages, so a second
    group cannot be set up among clients that have joined one. *)
Theorem exhausted_peer_starves_creator s id p peer todo kps schedule :
  procs s !! id = Some p -> phase p = Fetching (peer :: todo) kps ->
  is_Some (rsplit_once peer) -> bytes_ok peer -> exhausted (ds_data (world s)) peer ->
  procs (sys_run URL iter s schedule) !! id = Some p.
Proof.
  intros Hp Hph Hr Hok Hex. revert s Hp Hex. induction schedule as [|x l IH]; intros s Hp Hex; [done|]. cbn.
  unfold sys_run in IH. apply IH; unfold sys_step; (destruct (procs s !! x) as [q|] eqn:Hq; [|done]).
  - destruct (decide (x = id)) as [->|Hne].
    + assert (q = p) as -> by congruence.
      rewrite (fetch_exhausted p (world s) peer todo kps Hph Hr Hok Hex). cbn. by rewrite lookup_insert_eq.
    + destruct (client_step URL iter q (world s)). cbn. by rewrite lookup_insert_ne.
  - pose proof (exhausted_client_step q (world s) peer Hex).
    by destruct (client_step URL iter q (world s)).
Qed.

End Starve.
