(* ===== verification/SetupSecure.v ===== *)
(** * SetupSecure: joining a group in a hostile network

    One client against an adversary that answers for the delivery service at
    will and registers whatever it wants with the authentication service:
    what a client knows about its group when the setup is over, and what it
    does not check. *)

From stdpp Require Import relations.
From S2P Require Import Prelude Bytes Utf8 Crypto Mls AuthService Identity Credentials DeliveryService DsClient MlsGroups GroupSetup.

(** ** The registry only grows *)

Definition as_grows (d d' : AsData) : Prop :=
  forall id s, credentials d !! id = Some s -> credentials d' !! id = Some s.

#[export] Instance as_grows_preorder : PreOrder as_grows.
Proof. split; [by intros d id s|]. intros a b c Hab Hbc id s Hs. by apply Hbc, Hab. Qed.

Lemma route_grows d req : as_grows d (route d req).2.
Proof.
  destruct req as [body|id]; cbn [route].
  - unfold register. destruct (poisoned d); [reflexivity|].
    destruct (credentials d !! rr_identity body) eqn:Hid; [reflexivity|].
    destruct (str_prefix _ _); [|by intros id s]. intros id s Hs. cbn. by rewrite lookup_insert_ne by congruence.
  - unfold lookup_identity. destruct (poisoned d); [reflexivity|]. destruct (credentials d !! id); reflexivity.
Qed.

Section Secure.
Context {L : MlsLib} {TY : DsTypes KeyPackage Msg} {W : DsWire KeyPackage Msg}.
Context (URL : Base64) {B64 : Base64} {UP : UrlPath}.
Context (iter : gmap bytes (ClientInfo KeyPackage Msg) -> list (bytes * ClientInfo KeyPackage Msg)).
Abbreviation step := (client_step URL iter).

Lemma lookup_as_same d id : (lookup_as d id).2 = d.
Proof.
  unfold lookup_as. destruct (path_param id) as [name|]; [|done].
  cbn [route]. unfold lookup_identity. destruct (poisoned d); [done|].
  destruct (credentials d !! name) as [s|]; [|done]. cbn. by destruct (b64_decode s).
Qed.

Lemma register_with_as_grows d id pk : as_grows d (register_with_as d id pk).2.
Proof.
  unfold register_with_as. pose proof (route_grows d (PostRegister (mkRegisterRequest id (b64_encode pk)))) as Hg.
  destruct (route d _) as [[[]|] d']; exact Hg.
Qed.

(** What the client changes at the authentication service. *)
Lemma client_step_grows p w : as_grows (as_data w) (as_data (step p w).2).
Proof.
  unfold client_step. destruct (phase p) as [| | |[|peer todo] kps|b peer todo kps| |[|m rest] g|g|]; try reflexivity.
  - unfold step_register_as. pose proof (register_with_as_grows (as_data w) (identity (cfg p))
      (to_public_vec (signer (member p)))) as Hg. by destruct (register_with_as _ _ _).
  - unfold step_register_ds. destruct (make_key_packages p) as [[kps m]|]; [|reflexivity].
    destruct (register_with_ds _ _ _ _ _) as [[r self] d]; reflexivity.
  - unfold step_create. destruct (make_group p kps) as [[g b]|]; [|reflexivity]. destruct (client_send_welcome _ _ _); reflexivity.
  - unfold step_fetch. destruct (parse_credential_identity peer); [|reflexivity]. destruct (client_consume_key_package _ _); reflexivity.
  - unfold step_check. destruct (decode_key_package b); [|reflexivity].
    pose proof (lookup_as_same (as_data w) peer) as Hs. destruct (lookup_as _ _) as [r d]. cbn in *. subst d. reflexivity.
  - unfold step_wait. destruct (recv_messages _ _) as [[r d]|]; reflexivity.
Qed.

(** ** A client and the adversary *)

(** The client moves, somebody asks the authentication service for anything,
    or the delivery service becomes whatever the adversary wants. *)
Inductive hostile_step : Proc * World -> Proc * World -> Prop :=
| hostile_client p w : hostile_step (p, w) (step p w)
| hostile_as p w req : hostile_step (p, w) (p, mkWorld (route (as_data w) req).2 (ds_data w))
| hostile_ds p w d : hostile_step (p, w) (p, mkWorld (as_data w) d).

(** [key] is the one registered under [name]. *)
Definition registered (d : AsData) (name key : bytes) : Prop :=
  exists s, credentials d !! name = Some s /\ b64_decode s = Some key.

(** The member carries the client's own identity, or the key registered under
    the name its identity denotes in the URL of the lookup. *)
Definition verified (d : AsData) (my_identity : bytes) (m : Member) : Prop :=
  decoded m = my_identity \/
  exists name, path_param (decoded m) = Ok name /\ registered d name (signature_key m).

Lemma verified_mono d d' me m : as_grows d d' -> verified d me m -> verified d' me m.
Proof. intros Hg [Hm|(name & Hn & s & Hs & Hk)]; [by left|]. right. exists name. split; [done|]. exists s. auto. Qed.

Lemma verified_safe {UPL : UrlPathLaws} d me m :
  path_safe (decoded m) -> verified d me m -> decoded m = me \/ registered d (decoded m) (signature_key m).
Proof.
  intros Hs [Hm|(name & Hn & Hr)]; [by left|right]. rewrite path_param_safe in Hn by done. by apply (inj Ok) in Hn as ->.
Qed.

Lemma verify_one_verified d m me : verify_group_members d [m] me = Ret tt -> verified d me m.
Proof.
  cbn [verify_group_members]. fold (decoded m). cbn zeta. intros Hv. case_bool_decide as Hm; [by left|]. right.
  destruct (parse_credential_identity (decoded m)) as [lr|]; [|done]. cbn [mbind outcome_bind] in Hv.
  revert Hv. unfold lookup_as. destruct (path_param (decoded m)) as [name|] eqn:Hn; [|done].
  cbn [route]. unfold lookup_identity. destruct (poisoned d); [done|].
  destruct (credentials d !! name) as [s|] eqn:Hs; [|done]. cbn [lr_public_key].
  destruct (b64_decode s) as [key|] eqn:Hk; [|done]. cbn [expect_ok mbind outcome_bind]. unfold assert.
  case_bool_decide as Heq; [|done]. subst key. exists name. split; [done|]. by exists s.
Qed.

Definition hostile_inv (c : Config) (x : Proc * World) : Prop :=
  cfg x.1 = c /\
  match phase x.1 with
  | Verifying rest g =>
      exists seen, members g = seen ++ rest /\ Forall (verified (as_data x.2) (identity c)) seen
  | Ready g => Forall (verified (as_data x.2) (identity c)) (members g)
  | _ => True
  end.

Lemma hostile_inv_grows c p w w' :
  as_grows (as_data w) (as_data w') -> hostile_inv c (p, w) -> hostile_inv c (p, w').
Proof.
  intros Hg [Hc Hph]. split; [done|]. cbn [fst snd] in *. destruct (phase p); try done.
  - destruct Hph as (seen & Heq & Hall). exists seen. split; [done|].
    eapply Forall_impl; [exact Hall|]. intros m. by apply verified_mono.
  - eapply Forall_impl; [exact Hph|]. intros m. by apply verified_mono.
Qed.

(** Before the verification, a step ends in no group or in one of which
    everything is still to be verified. *)
Definition unverified (c : Config) (p : Proc) : Prop :=
  cfg p = c /\ match phase p with Verifying rest g => rest = members g | Ready _ => False | _ => True end.

Lemma unverified_crash c p o :
  cfg p = c -> (forall p', o = Ret p' -> unverified c p') -> unverified c (or_crash p o).
Proof. intros Hc Ho. destruct o as [p'|]; [by apply Ho|]. by split. Qed.

Lemma unverified_step p w :
  match phase p with Verifying _ _ | Ready _ => False | _ => True end -> unverified (cfg p) (step p w).1.
Proof.
  intros Hph. unfold client_step.
  destruct (phase p) as [| | |[|peer todo] kps|b peer todo kps| |rest g|g|] eqn:Hp; try done.
  - unfold step_register_as. destruct (register_with_as _ _ _) as [r d]. apply unverified_crash; [done|].
    intros p' (? & _ & Hr)%bind_Ret. by apply (inj Ret) in Hr as <-.
  - unfold step_register_ds. destruct (make_key_packages p) as [[kps m]|]; [|by split].
    destruct (register_with_ds _ _ _ _ _) as [[r self] d]. apply unverified_crash; [done|].
    intros p' (? & _ & Hr)%bind_Ret. apply (inj Ret) in Hr as <-. split; [done|]. cbn. by destruct (is_creator _).
  - unfold step_discover. apply unverified_crash; [done|]. intros p' (l & _ & Hr)%bind_Ret. cbn zeta in Hr.
    destruct (_ <=? _); apply (inj Ret) in Hr as <-; split; try done. by rewrite Hp.
  - unfold step_create. destruct (make_group p kps) as [[g b]|]; [|by split].
    destruct (client_send_welcome _ _ _) as [r d]. apply unverified_crash; [done|].
    intros p' (? & _ & Hr)%bind_Ret. by apply (inj Ret) in Hr as <-.
  - unfold step_fetch. destruct (parse_credential_identity peer); [|by split].
    destruct (client_consume_key_package _ _) as [r d]. apply unverified_crash; [done|].
    intros p' (o & _ & Hr)%bind_Ret. destruct o; apply (inj Ret) in Hr as <-; split; try done. by rewrite Hp.
  - unfold step_check. destruct (decode_key_package b) as [kp|]; [|by split].
    destruct (lookup_as _ _) as [r d]. apply unverified_crash; [done|].
    intros p' (? & _ & (? & _ & (? & _ & Hr)%bind_Ret)%bind_Ret)%bind_Ret. by apply (inj Ret) in Hr as <-.
  - unfold step_wait. destruct (recv_messages _ _) as [[r d]|]; [|by split]. apply unverified_crash; [done|].
    intros p' (msgs & _ & Hr)%bind_Ret. destruct (find_welcome msgs) as [[wm secrets]|].
    + destruct (join_from_welcome _ _ _) as [r' m]. apply bind_Ret in Hr as (g & _ & Hr).
      by apply (inj Ret) in Hr as <-.
    + apply (inj Ret) in Hr as <-. split; [done|]. by rewrite Hp.
  - split; [done|]. cbn [fst]. by rewrite Hp.
Qed.

Lemma hostile_inv_step c x y : hostile_step x y -> hostile_inv c x -> hostile_inv c y.
Proof.
  intros [p w|p w req|p w d] Hinv.
  - destruct Hinv as [Hc Hph]. cbn [fst snd] in *. pose proof (unverified_step p w) as Hun.
    destruct (phase p) as [| | |todo kps|b peer todo kps| |rest g|g|] eqn:Hp.
    1-6, 9: destruct (Hun I) as [Hcfg Hphase]; rewrite Hc in Hcfg; split; [done|];
      destruct (phase (step p w).1); try done; subst; by exists [].
    + unfold client_step. rewrite Hp. destruct Hph as (seen & Heq & Hall). destruct rest as [|m rest].
      * split; [done|]. cbn. by rewrite Heq, app_nil_r.
      * unfold step_verify. cbn [fst]. destruct (verify_group_members _ _ _) as [[]|] eqn:Hv; [|by split].
        split; [done|]. cbn. exists (seen ++ [m]). rewrite Hc in Hv. rewrite <- app_assoc. split; [done|].
        apply Forall_app. split; [done|]. apply Forall_singleton. by apply verify_one_verified.
    + unfold client_step. rewrite Hp. split; [done|]. cbn [fst snd]. by rewrite Hp.
  - eapply hostile_inv_grows; [|exact Hinv]. apply route_grows.
  - eapply hostile_inv_grows; [|exact Hinv]. reflexivity.
Qed.

(** C14: Joining in a hostile network: whatever the delivery service answers,
    whatever anybody registers with the authentication service and however
    these interleave with the client, a client that finishes the setup has a
    group in which every member that does not carry the client's own
    identity has the signature key registered under the name its identity
    denotes when it is written into the lookup URL; that name is the
    identity itself when it consists of unreserved URL characters and
    colons. *)
Theorem ready_members_verified {UPL : UrlPathLaws} c p0 w0 p w g :
  client_start c = Ret p0 -> rtc hostile_step (p0, w0) (p, w) -> phase p = Ready g ->
  Forall (verified (as_data w) (identity c)) (members g) /\
  Forall (fun m => path_safe (decoded m) -> decoded m = identity c \/ registered (as_data w) (decoded m) (signature_key m))
    (members g).
Proof.
  intros Hstart Hrun Hg. assert (hostile_inv c (p, w)) as [_ Hinv].
  { assert (hostile_inv c (p0, w0)) as H0.
    { unfold client_start in Hstart. apply bind_Ret in Hstart as (? & _ & (m & _ & Hr)%bind_Ret).
      by apply (inj Ret) in Hr as <-. }
    revert H0. clear Hstart Hg. induction Hrun as [x|x y z Hxy _ IH]; [done|]. intros Hx. by apply IH, (hostile_inv_step c x y). }
  cbn [fst snd] in Hinv. rewrite Hg in Hinv. split; [done|]. eapply Forall_impl; [exact Hinv|].
  intros m Hv Hs. by apply verified_safe.
Qed.

(** ** What is not checked *)

(** C38: verify_group_members skips members by identity, not by leaf: a client
    finishes the setup in any group whose members all carry its own
    identity, with whatever keys, so an adversary that invites it into a
    group under the client's own name is not noticed. *)
Theorem own_identity_unchecked p w rest g :
  phase p = Verifying rest g -> Forall (fun m => decoded m = identity (cfg p)) rest ->
  rtc hostile_step (p, w) (set_phase p (Ready g), w).
Proof.
  revert p. induction rest as [|m rest IH]; intros p Hp Hown.
  - apply rtc_once. assert (step p w = (set_phase p (Ready g), w)) as <-; [|constructor].
    unfold client_step. by rewrite Hp.
  - apply Forall_cons in Hown as [Hm Hown]. apply (rtc_l _ _ (set_phase p (Verifying rest g), w)).
    + assert (step p w = (set_phase p (Verifying rest g), w)) as <-; [|constructor].
      unfold client_step. rewrite Hp. unfold step_verify. cbn [verify_group_members]. fold (decoded m). cbn zeta.
      by rewrite bool_decide_eq_true_2.
    + by apply (IH (set_phase p (Verifying rest g))).
Qed.

(** Hostile runs, executed. *)
Inductive Action := Move | Ask (req : Request) | Replace (d : DsData KeyPackage Msg).

Definition act (x : Proc * World) (a : Action) : Proc * World :=
  match a with
  | Move => step x.1 x.2
  | Ask req => (x.1, mkWorld (route (as_data x.2) req).2 (ds_data x.2))
  | Replace d => (x.1, mkWorld (as_data x.2) d)
  end.

Lemma acts_hostile l : forall x, rtc hostile_step x (fold_left act l x).
Proof.
  induction l as [|a l IH]; intros [p w]; [apply rtc_refl|]. cbn [fold_left].
  apply (rtc_l _ _ (act (p, w) a)); [|apply IH]. destruct a; constructor.
Qed.

End Secure.
