(* ===== verification/SetupExample.v ===== *)
(** * SetupExample: a run of the whole demo

    A creator, two senders and a receiver on the instances of ToyMls.v: the
    hypotheses of the setup theorems hold for them, and the theorems apply. *)

From stdpp Require Import relations.
From S2P Require Import Prelude Bytes Utf8 Crypto Mls AuthService Identity Client ClientFacts Credentials DeliveryService DsClient MlsGroups MlsFacts ToyMls GroupSetup SetupInv SetupSteps SetupFacts DemoRun SetupStarve SetupSecure.

Import Toy ToyMls HexBase DemoExample.

(** ** The clients *)

Module SetupExample.

Definition client (m : Mode) (pid k : Z) : Config :=
  mkConfig (mkCli m 2 1 3) pid (mkCoins [k] [k; 1] [k; 2] [k; 3] [k; 4] [k; 5]).

Definition c0 : Config := client Creator 1 10.
Definition c1 : Config := client Sender 48231 20.
Definition c2 : Config := client Sender 7 30.
Definition c3 : Config := client Receiver 2 40.

Definition configs : list (bytes * Config) := (fun c => (identity c, c)) <$> [c0; c1; c2; c3].
Definition cfgs : gmap bytes Config := list_to_map configs.
Definition creator : bytes := identity c0.

Definition no_keys : ClientKeys :=
  mkClientKeys (L := ToyMls.lib) [] (mk_kp (mkMember [] []) []) (mk_kp (mkMember [] []) []) [] [].

Definition K (id : bytes) : ClientKeys := default no_keys (cfgs !! id ≫= keys_of).

Definition iter (m : gmap bytes (ClientInfo KeyPackage Msg)) : list (bytes * ClientInfo KeyPackage Msg) :=
  map_to_list m.

(** Everyone in turn. *)
Definition rounds (n : nat) : list (list bytes) := replicate n configs.*1.

Lemma lookup_cfgs id c : cfgs !! id = Some c -> identity c = id /\ c ∈ [c0; c1; c2; c3].
Proof.
  intros Hc. apply elem_of_list_to_map_2 in Hc. apply list_elem_of_fmap in Hc as (x & [= -> ->] & Hx). done.
Qed.

Lemma valid : valid_setup cfgs creator K.
Proof.
  split.
  - by intros id c [Hid _]%lookup_cfgs.
  - intros id c Hc. unfold K. rewrite Hc. reflexivity.
  - exists c0. split_and!; vm_compute; reflexivity.
  - intros id c [<- Hx]%lookup_cfgs Hne. apply list_elem_of_In in Hx.
    destruct Hx as [<-|[<-|[<-|[<-|[]]]]]; [by destruct Hne|reflexivity..].
  - vm_compute. discriminate.
  - apply (bool_decide_unpack _). vm_compute. exact I.
  - intros c e o Hc He. assert (c = c0) as -> by (vm_compute in Hc; apply (inj Some) in Hc; exact (eq_sym Hc)).
    injection He as <- <-. apply (bool_decide_unpack _). vm_compute. exact I.
  - intros id _. split; by eexists.
  - intros l _ _. by eexists.
  - by eexists.
  - intros. split; by eexists.
Qed.

(** A second creator, which arrives while the first works. *)
Definition late : Config := mkConfig (mkCli Creator 2 1 3) 99 (mkCoins [50] [50; 1] [50; 2] [50; 3] [50; 4] [50; 5]).

Definition crowded : Sys :=
  sys_run HexBase.ops iter (sys_start (<[identity late := late]> cfgs))
    (concat (rounds 16) ++ replicate 6 (identity late)).

End SetupExample.
Import SetupExample.

Abbreviation run_here := (sys_run HexBase.ops iter (sys_start cfgs)).

(** ** The theorems at this setup *)

Lemma in_rounds n : Forall (fun r => ids cfgs ⊆ r) (rounds n).
Proof.
  apply Forall_replicate. intros id Hid%elem_of_ids. destruct Hid as [c Hc].
  apply elem_of_list_to_map_2 in Hc. by apply (list_elem_of_fmap_2 fst) in Hc.
Qed.

Definition has_group (o : option Proc) : bool :=
  match o with Some p => match group_of (phase p) with Some _ => true | None => false end | None => false end.

Lemma has_group_spec o : has_group o = true -> exists p g, o = Some p /\ group_of (phase p) = Some g.
Proof. destruct o as [p|]; [|done]. cbn. destruct (group_of (phase p)) as [g|] eqn:Hg; [|done]. by exists p, g. Qed.

(** Two rounds, then the creator alone: it has its group, the others wait. *)
Lemma setup_agreement_witness :
  let s := run_here (concat (rounds 2) ++ replicate 12 creator) in
  exists e g, (procs s !! creator ≫= fun p => group_of (phase p)) = Some g /\ in_group K e creator g /\
    length (members g) = 4%nat.
Proof.
  intros s.
  destruct (setup_agreement HexBase.ops iter (fun m => Permutation_refl _) cfgs creator K valid
    (concat (rounds 2) ++ replicate 12 creator)) as (_ & e & Hag). fold s in Hag.
  assert (has_group (procs s !! creator) = true) as Hhas by (vm_compute; reflexivity).
  apply has_group_spec in Hhas as (p & g & Hp & Hg).
  destruct (Hag creator p g Hp Hg) as (Hin & Hm & _). exists e, g. rewrite Hp. split; [exact Hg|].
  split; [exact Hin|]. rewrite Hm. vm_compute. reflexivity.
Defined.

Lemma setup_terminates_witness :
  exists e, forall id, is_Some (cfgs !! id) ->
    exists p g, procs (run_here (concat (rounds 60))) !! id = Some p /\ phase p = Ready g /\ in_group K e id g.
Proof.
  apply (setup_terminates HexBase.ops iter (fun m => Permutation_refl _) cfgs creator K valid (rounds 60)).
  - apply in_rounds.
  - apply Nat.leb_le. vm_compute. reflexivity.
Defined.

Lemma demo_from_start_witness :
  exists group, forall id c, cfgs !! id = Some c ->
    exists p g, procs (run_here (concat (rounds 60))) !! id = Some p /\ phase p = Ready g /\
      exporter_view g = group /\
      (mode (cli c) = Sender -> sender_main (exporter_view g) id (packets (cli c)) =
         Ret ((fun j => client_wire group id (1 + Z.of_nat j)) <$> seq 0 3)) /\
      (mode (cli c) = Receiver -> exists sessions,
         receiver_main (exporter_view g) (mem_identity <$> members g) (packets (cli c))
           (datagrams group deliveries ++ [Elapsed]) =
         Ret ((fun a => client_packet a.1 a.2) <$> [(bob, 2); (alice, 1); (bob, 1); (alice, 3); (alice, 2)], 5, sessions)).
Proof.
  apply (demo_from_start HexBase.ops iter (fun m => Permutation_refl _) cfgs creator K valid (rounds 60) 3 deliveries).
  - apply in_rounds.
  - apply Nat.leb_le. vm_compute. reflexivity.
  - intros id c [_ Hx]%lookup_cfgs. apply list_elem_of_In in Hx.
    destruct Hx as [<-|[<-|[<-|[<-|[]]]]]; reflexivity.
  - lia.
  - assert (demo_senders cfgs = [bob; alice]) as -> by (vm_compute; reflexivity).
    pose proof alice_bob_sendable as Hs. apply Forall_cons in Hs as [Ha Hb].
    apply Forall_cons in Hb as [Hb _]. apply Forall_cons_2; [exact Hb|]. apply Forall_cons_2; [exact Ha|apply Forall_nil_2].
  - apply (bool_decide_unpack _). vm_compute. exact I.
  - vm_compute. reflexivity.
  - apply Z.ltb_lt. vm_compute. reflexivity.
  - apply Z.ltb_lt. vm_compute. reflexivity.
Defined.

(** The client [id] polls for a key package of an exhausted peer. *)
Definition stuck (s : Sys) (id : bytes) : bool :=
  match procs s !! id with
  | Some p =>
      match phase p with
      | Fetching (peer :: _) _ =>
          bool_decide (is_Some (rsplit_once peer)) && bool_decide (bytes_ok peer) &&
          negb (clients_poisoned (ds_data (world s))) &&
          match clients (ds_data (world s)) !! peer with
          | Some c => (length (key_packages c) <=? 1)%nat
          | None => false
          end
      | _ => false
      end
  | None => false
  end.

Lemma stuck_spec s id : stuck s id = true -> exists p peer todo kps,
  procs s !! id = Some p /\ phase p = Fetching (peer :: todo) kps /\ is_Some (rsplit_once peer) /\ bytes_ok peer /\
  exhausted (ds_data (world s)) peer.
Proof.
  unfold stuck. destruct (procs s !! id) as [p|]; [|done].
  destruct (phase p) as [| | |[|peer todo] kps| | | | |] eqn:Hph; try done.
  rewrite !andb_true_iff, !bool_decide_eq_true, negb_true_iff. intros [[[Hr Hok] Hp] Hc].
  destruct (clients (ds_data (world s)) !! peer) as [c|] eqn:Hl; [|done]. apply Nat.leb_le in Hc.
  exists p, peer, todo, kps. split_and!; try done. split; [done|]. by exists c.
Qed.

(** The second creator finds the other clients, all with one key package left. *)
Lemma exhausted_peer_starves_creator_witness :
  exists p peer todo kps, phase p = Fetching (peer :: todo) kps /\
    forall schedule, procs (sys_run HexBase.ops iter crowded schedule) !! identity late = Some p.
Proof.
  assert (stuck crowded (identity late) = true) as Hlate by (vm_compute; reflexivity).
  apply stuck_spec in Hlate as (p & peer & todo & kps & Hp & Hph & Hr & Hok & Hex).
  exists p, peer, todo, kps. split; [exact Hph|]. intros schedule.
  exact (exhausted_peer_starves_creator HexBase.ops iter (fun m => Permutation_refl _) crowded (identity late) p
    peer todo kps schedule Hp Hph Hr Hok Hex).
Defined.

(** ** Rekeying *)

Definition carol : Member := mkMember [99] [1].
Definition dave : Member := mkMember [100] [2].

Definition epoch0 : EpochState (MlsLib := ToyMls.lib) := mk_epoch [7] 1 [carol; dave] (stream 32 5).
Definition group_at (e : EpochState (MlsLib := ToyMls.lib)) (m : Member) : Group := mkGroup (L := ToyMls.lib) Operational e m.
Definition couple : list (Signer * Group) := [([1], group_at epoch0 carol); ([2], group_at epoch0 dave)].

Lemma rekey_agreement_witness :
  exists e' groups', rekey_rounds couple [(0%nat, [11]); (1%nat, [12]); (1%nat, [13])] = Ret groups' /\
    in_epoch e' groups' [carol; dave] /\ number (e' : epoch) = 4.
Proof.
  destruct (rekey_agreement epoch0 couple [carol; dave] [(0%nat, [11]); (1%nat, [12]); (1%nat, [13])])
    as (e' & groups' & Hr & Hin & _ & Hn & _).
  - repeat apply Forall2_cons_2; try apply Forall2_nil_2; repeat split.
  - apply (bool_decide_unpack _). vm_compute. exact I.
  - repeat (apply Forall_cons; split); try apply Forall_nil_2; apply Nat.ltb_lt; reflexivity.
  - exists e', groups'. split_and!; [exact Hr|exact Hin|exact Hn].
Defined.

(** A member that missed a commit cannot process the next one. *)
Lemma stale_commit_panics_witness :
  exists commit g', create_rekey_commit [12] [1] (group_at (next_epoch [11] epoch0 []) carol) = Ret (commit, g') /\
    process_commit (group_at epoch0 dave) commit = Panic.
Proof.
  eexists _, _. split; [reflexivity|].
  eapply (stale_commit_panics [12] ([1] : Signer (MlsLib := ToyMls.lib)) (group_at (next_epoch [11] epoch0 []) carol)); [reflexivity|].
  discriminate.
Defined.

(** ** A rogue group *)

(** The adversary takes the victim's key package from the delivery service
    and makes a group of the victim and a leaf of its own, to which it gives
    the victim's identity; the Welcome is all the victim finds. *)
Definition victim : Config := c1.
Definition rogue : Member := mkMember (identity victim) [66; 66].

(** A delivery service that has a Welcome for the victim to a group with [m]. *)
Definition welcome_with (m : Member) : message :=
  WelcomeFor [mk_kp (mkMember (identity victim) [20]) [20; 2]]
    (mk_epoch [13] 1 [m; mkMember (identity victim) [20]] (stream 32 9)).

Definition ds_with (m : Member) : DsData KeyPackage Msg :=
  mkDsData {[ identity victim := mkClientInfo (identity victim) [] ∅ [] [welcome_with m : Msg] [20; 5] ]} ∅ false false.

Definition attack : list (Action (L := ToyMls.lib)) := [Move; Move; Replace (ds_with rogue); Move].

Definition started (c : Config) : Proc :=
  match client_start c with Ret p => p | Panic => mkProc c Crashed DsClient_new (mkMlsMember ∅ [] rogue) end.

Definition joined : Proc * World := fold_left (act HexBase.ops iter) attack (started victim, services).

(** The victim has joined and verifies a list of members that all carry its
    identity, the rogue among them. *)
Definition deceived (x : Proc * World) : bool :=
  match phase x.1 with
  | Verifying rest g =>
      bool_decide (Forall (fun m => decoded m = identity (cfg x.1)) rest) && bool_decide (rogue ∈ members g) &&
      bool_decide (credentials (as_data x.2) !! identity victim = Some (b64_encode [20]))
  | _ => false
  end.

Lemma deceived_spec x : deceived x = true -> exists rest g, phase x.1 = Verifying rest g /\
  Forall (fun m => decoded m = identity (cfg x.1)) rest /\ rogue ∈ members g /\
  credentials (as_data x.2) !! identity victim = Some (b64_encode [20]).
Proof.
  unfold deceived. destruct (phase x.1) as [| | | | | |rest g| |]; try done.
  rewrite !andb_true_iff, !bool_decide_eq_true. intros [[H1 H2] H3]. by exists rest, g.
Qed.

(** It ends up ready, with a member whose key nobody registered. *)
Lemma own_identity_unchecked_witness :
  exists p w g, rtc (hostile_step HexBase.ops iter) (started victim, services) (p, w) /\ phase p = Ready g /\
    rogue ∈ members g /\ credentials (as_data w) !! identity victim = Some (b64_encode [20]).
Proof.
  assert (deceived joined = true) as Hd by (vm_compute; reflexivity).
  pose proof (acts_hostile HexBase.ops iter attack (started victim, services)) as Hrun. fold joined in Hrun.
  apply deceived_spec in Hd as (rest & g & Hp & Hown & Hrogue & Has). destruct joined as [p w]. cbn [fst snd] in *.
  exists (set_phase p (Ready g)), w, g. split_and!; [|reflexivity|exact Hrogue|exact Has].
  etransitivity; [exact Hrun|].
  exact (own_identity_unchecked HexBase.ops iter p w rest g Hp Hown).
Defined.

(** A member that has registered its key: the verification succeeds. *)
Definition honest : list (Action (L := ToyMls.lib)) :=
  [Move; Ask (PostRegister (mkRegisterRequest (identity c2) (b64_encode [30]))); Move;
   Replace (ds_with (mkMember (identity c2) [30])); Move; Move; Move; Move].

Lemma ready_members_verified_witness :
  exists p w g, rtc (hostile_step HexBase.ops iter) (started victim, services) (p, w) /\ phase p = Ready g /\
    Forall (verified (as_data w) (identity victim)) (members g).
Proof.
  set (x := fold_left (act HexBase.ops iter) honest (started victim, services)).
  assert (match phase x.1 with Ready _ => true | _ => false end = true) as Hx by (vm_compute; reflexivity).
  pose proof (acts_hostile HexBase.ops iter honest (started victim, services)) as Hrun. fold x in Hrun.
  destruct x as [p w]. cbn [fst snd] in *. destruct (phase p) as [| | | | | | |g|] eqn:Hp; try discriminate Hx.
  exists p, w, g. split; [exact Hrun|]. split; [exact Hp|].
  apply (ready_members_verified HexBase.ops iter victim (started victim) services p w g); [reflexivity|exact Hrun|exact Hp].
Defined.
